(* ===== verification/_CoqProject ===== *)
-Q . S2P
Prelude.v
PyStr.v
Validation.v
Transcript.v
Capabilities.v
Lexical.v
Pairs.v
Sentiment.v
Analyzer.v
Rounding.v
Roundoff.v
Numeric.v
Accuracy.v
Float64.v
Store.v
Handlers.v
Abstract.v
Progress.v
Interleave.v
Serializers.v
Routes.v
System.v
