(* ===== verification/Prelude.v ===== *)
(** * Verification of the conversation quality analyzer (kipps-analysis)

    The program is a Django application.  Its only component with logic is
    [src/conversations/analysis_logic.py]: ten heuristic scorers over the
    ordered messages of one conversation and [analyze_conversations], which
    calls each of them once and assembles the report.  The rest
    ([views.py], [tasks.py], [serializers.py], [models.py]) stores
    conversations and reports and decides when the analyzer runs.

    ** Files, in dependency order

    - [Prelude] (this file): what every component shares.  The Python
      exceptions the code can meet are values: [result A] is [exn + A], with
      stdpp's monad notation [x ← m; k].  [pydiv] is Python's [/] (it raises
      [ZeroDivisionError] on a zero divisor), [getitem] is [l[i]] (a
      negative index counts from the end, [IndexError] out of range),
      [py_range] is [range(n)] for an integer [n] that may be negative,
      [py_not] is [not l] on a list, [Qsum] is [sum(l)], [foldM] is a [for]
      loop whose body may raise and [for_return] a [for] loop whose body may
      [return].  [returns m P] says that [m] produces a value and that the
      value satisfies [P]: every statement about a scorer is of this total
      form, never "if it returns".  The file also holds the lemmas on
      counts, sums and fractions the scorers share, the tactics [case_bool]
      and [lraQ], and the hint database [py].
    - [PyStr]: the string methods the scorers call, on [string]:
      [lower] ([str.lower]), [split] ([str.split()] with no argument),
      [replace_char] ([str.replace] of one character), [contains] (the [in]
      operator on strings) and [any_in] ([any(w in s for w in phrases)]).
    - [Validation]: the field [title = CharField(required=False)] of
      [ConversationUploadSerializer]: [JsonValue] is what the body can
      hold under the key, [strip] is [str.strip()], and
      [CharField_run_validation] gives the validated title or no value
      when the field reports an error.
    - [Transcript]: the [Message] row of [models.py] as a record, the
      list comprehensions that select user and assistant texts
      ([user_msgs], [ai_msgs]), [order_by_timestamp] for
      [order_by('timestamp')] (a stable insertion sort) and [total_seconds].
    - [Capabilities]: the two libraries the analyzer calls but does not
      contain, each as a typeclass whose operation may raise: [WordNet]
      ([synsets], the lemma names of each sense of a word) and [TextBlob]
      ([polarity]).  [WordNetTotal] and [TextBlobLawful] state what the
      specification assumes of them (they return; a polarity lies in
      [-1, 1]).  [get_synonyms] and [are_semantically_same] are defined
      against the class.  [toy_wordnet] and [toy_textblob] are small lawful
      stand-ins, [missing_wordnet] and [missing_textblob] raise
      [LookupError] on every call; they instantiate the theorems.
    - [Lexical]: [clarity_score], [accuracy_score], [empathy_score],
      [fallback_count], [detect_resolution], with the five phrase lexicons
      as the code lists them.
    - [Pairs]: the scorers that walk adjacent messages by index:
      [completeness_score], [average_response_time], [relevance_score].
    - [Sentiment]: [sentiment_analysis].
    - [Analyzer]: [analyze_conversations], the [AnalysisReport] record (one
      field per key of the dictionary returned) and the two scenarios of the
      specification evaluated in full.
    - [Rounding]: the arithmetic of Python floats as a rounding of exact
      results.  [round64] rounds a rational to the nearest number with a
      significand of 53 bits, ties to even ([ilog2] finds the binade,
      [rne] rounds the scaled number to an integer).  The class
      [Rounding] is what the scorers are written against, with the
      instances [binary64] and [exact]; [RoundingLaws] and [Exactness]
      are the two interfaces the theorems on the scorers are proved
      against, and both instances discharge both.
    - [Roundoff]: the error [k] roundings add up to, [g k] =
      (1 + u)^k - 1 with [u] = 2^-53, and [err], the relation the bounds
      are carried with through sums, quotients and the loop
      [sum_rounded].
    - [Numeric]: the scorers and [analyze_conversations] once more, on
      Python numbers ([Num]: an [Int] or a [Float]) with the operations
      Python applies ([num_add], [num_truediv], [lit], [num_gt],
      [num_lt], [num_neg]) and the two algorithms of the built-in [sum]
      ([Summation]: [left_to_right] up to Python 3.11, [compensated]
      from 3.12 on).  [clarity_score_fl] and the like have the loops and
      guards of the exact scorers; [scored] says that a report holds the
      formulas of the scores with [rnd] where the code rounds.
    - [Accuracy]: the report in floats against the exact report;
      [within k a x] says that [a] is [x] up to [k] roundings.
    - [Float64]: the divisions of [clarity_score], [accuracy_score] and
      [empathy_score] and the mean and thresholds of [sentiment_analysis]
      in binary64, with the primitive floats of the kernel;
      [sum_naive] and [sum_neumaier] are [sum] on floats before and from
      Python 3.12, [F2Q] is the rational a float denotes.  The file
      compares the floats of the kernel with [round64] and with the
      scorers of [Numeric].
    - [Store]: the rows of [models.py] in three tables and the object
      manager ([Conversation_create], [Message_create],
      [ConversationAnalysis_create], [Conversation_get], [messages_all],
      [has_analysis]).  A computation on the store is a function from the
      store to a result and a store (the monad [M]): the code runs without
      a transaction, so what was written stays written when a later step
      raises.  [store_wf] is the invariant, [hoare] the triple it is proved
      with, [reports] the abstract view of the store as a finite map from
      conversation keys to reports.
    - [Handlers]: the code that writes the store:
      [ConversationUploadSerializer.create] ([upload_create]), the views
      [UploadConversationView_post], [AnalyseConversationView_post] and
      [ConversationAnalysisListView_get] of [views.py], and
      [daily_analyse] of [tasks.py].  [Call] lists the routes of
      [urls.py] and the task, [after] is the store after a call and
      [reachable] the stores the calls can produce.
    - [Abstract]: the specification of the service.  A state of [spec]
      is two finite maps over the keys of the conversations, the
      transcripts and the reports, and a clock; [spec.upload],
      [spec.analyse], [spec.list_reports] and [spec.daily] are the four
      calls on it.  [absr] reads a store as such a state, [answer] a
      response as what a client observes ([Answer]), [handle] is the
      handler of a call with its answer read that way, and [trace] the
      answers and last state of a sequence of calls.  The classes
      [Invariant] and [Implements] say what it is for a step function to
      keep a predicate and to implement another step function through an
      abstraction function; [handle] and, in [System], [react] are
      instances.
    - [Progress]: sequences of calls.  A schedule is a function from
      positions to calls, [state_at] the store after its first [n] calls,
      [pending] the conversations without a report, [works] the relation
      between a store and the different store a call other than an upload
      leaves, [fair] a schedule that starts the daily task again and again.
    - [Interleave]: the handlers when their statements alternate.  A
      [Thread] is a handler stopped between two database statements
      ([AnalysePoint], [UploadPoint], [DailyPoint] name the statement
      that comes next and carry the live local variables), [analyse_step],
      [upload_step] and [daily_step] execute one statement, a pool is a
      list of threads and [run] executes a schedule, the list of the
      positions that move.
    - [Serializers]: the three output serializers of [serializers.py] as
      functions from a row to a dictionary in field order ([Value] is what
      a dictionary holds), the bodies of the responses ([Response_data]),
      the [__str__] methods of [models.py], the dictionary
      [analyze_conversations] returns ([report_dict]) and the columns of
      [ConversationAnalysis] with their options
      ([ConversationAnalysis_fields]); [check_kwargs] is the call of
      [create] with keyword arguments: an unknown key is a [TypeError], a
      column without value and without default an [IntegrityError].
    - [Routes]: [urlpatterns] of [kipps_analysis/urls.py] and of
      [conversations/urls.py] as lists of routes, [match_route] and
      [resolve] for the resolution of a path (literal parts, the [int]
      converter, [include], patterns tried in order), [dispatch] for the
      choice of the handler by method, and [serve], a request from its
      path to its answer: 404 without a route, 405 without a handler, 500
      when the view raises.  [reverse] is [reverse(name)] for the names
      the tables give; [schema_view] holds the arguments of the
      documentation view.
    - [System]: the layers together.  An [Event] is a request that
      arrives or a run of the task the scheduler starts, [react] what the
      service does on it, [call_of] the call a request amounts to (none
      when it reaches no handler), and [session] the four requests of a
      client that uploads a conversation, has it analysed and reads the
      reports.

    ** How the model corresponds to the code

    - A Python [float] is read twice.  In [Lexical], [Pairs], [Sentiment]
      and [Analyzer] it is a rational ([Q], exact arithmetic), compared up
      to [Qeq]: a theorem about a score there is a statement about the
      exact value the code's formula denotes.  In [Numeric] it is a
      rational that a rounding has produced: every operation on floats
      is the exact operation followed by [rnd], an [Int] stays exact
      until it meets a float or a division, and with [rnd] = [round64]
      the definitions compute what Python computes.  The exponent of
      [round64] has no bounds: there is no overflow and no denormal
      number, which scores between 0 and 1 with denominators below 2^52
      and latencies in microseconds do not meet.  A polarity is the float
      the capability returns.  [Float64] evaluates the same divisions
      and sums in the primitive floats of the kernel and finds the same
      numbers.  [Proper] instances make the arithmetic rewritable under
      [Qeq].
    - A Python [int] is a [Z] (lengths, counters, loop bounds) so that
      [len(messages) - 1] is [-1] on an empty list, as in the code.
    - A [str] is a Rocq [string]; a character is a code point below 256.
      [lower] and the white space of [split] follow Python on that range
      (ASCII and Latin-1 letters, the white-space code points below 256).
    - A [datetime] is a [Z] of microseconds (the resolution of
      [datetime]); [(t2 - t1).total_seconds()] is the difference divided by
      [10^6].
    - Loops are folds with the loop variables as accumulator, in the order
      the code updates them; an early [return] inside a loop is the [Some]
      result of the body of [for_return].  Each index loop
      ([for i in range(len(messages) - 1)] with reads of [messages[i]] and
      [messages[i+1]]) is proved equal to a structural definition over the
      [adjacent] pairs of the list.
    - A table is the list of its rows in insertion order; the key of a new
      row is the number of rows plus one (no row is ever deleted).
      [auto_now_add] reads a clock, a capability as the lexicon is: [tick]
      gives the reading after the current one, [ClockStrict] says that
      time passes between two reads.  A JSON object is a finite map from
      keys to strings ([gmap]), so [msg.get(k)] is a lookup.
    - The framework is taken with its default settings (the settings
      module is not among the sources): no authentication, permission or
      throttle stands between a request and its handler, and [CharField]
      trims, refuses the blank string and has no length bound.
    - The specification ([Abstract]) forgets what no answer depends on:
      the titles, the keys of messages and reports, the order of the rows.
      The key of a new conversation is the number of transcripts plus one.
    - Every definition is structurally recursive or a fold over a finite
      list, so no fuel is needed and each one evaluates by [vm_compute].
      The one exception is [run_thread] of [Interleave], which takes the
      number of statements to execute: 4 are enough for the analysis
      view, 3 plus the number of messages for an upload, 1 for the
      listing, 2 plus three
      times the number of conversations for the task, and a handler that
      has ended ignores further steps ([statements] is that number,
      call by call).

    ** What the theorems show

    - Totality: with capabilities that return, no scorer and no call of
      [analyze_conversations] raises; each guard ([if not ai_messages],
      [if pairs], [if times], the [+ 1] of the divisor) is what prevents the
      exception.
    - Functional behaviour: each scorer equals its closed form (a fraction of
      a count, a mean of pair scores, the bucket of a mean polarity), on
      every branch, defaults included; [detect_resolution] is [True] exactly
      when one user message has a resolution phrase and no negative phrase.
    - Bounds: clarity and empathy lie in [0, 1], accuracy in [1/2, 1],
      completeness is 1/2 or 1, relevance is non-negative and is not
      bounded by 1; the overall score is at least 1/5 and an average
      response time is not negative.
    - The composite: [overall_score] is the mean of the five scores, the
      report does not depend on the order of the stored rows when the
      timestamps are distinct, and its average response time is never
      negative because the messages are ordered first.
    - Errors: a lookup or a polarity call that raises is not caught; the
      exception leaves [analyze_conversations].
    - Strings: [split] yields non-empty words without white space, is
      characterised by three equations and inverts the join with one
      space; [any_in] holds exactly when a phrase occurs as a substring;
      [strip s] is the one part of [s] with white space around it and
      none at its ends.
    - Refinement: the handlers implement the specification.  One call
      on a well-formed store commutes with [absr] ([step_refines]: the
      answer is the answer of [spec.step], exceptions included, and the
      store left reads as the state [spec.step] leaves); the square is
      the law of the interface [Implements], of which [trace_refines]
      makes the same statement for sequences of steps, and [System]
      proves the service on requests and runs of the task an instance
      ([react_implements], against [spec_react], the step of the
      specification on the call an event amounts to).  On the specification every report
      is the report of the transcript under its key ([spec.sound], kept by
      every call); through the refinement every stored report is the
      report of the messages its conversation has.
    - A session: the answers to an upload, its analysis, the listing and
      a second analysis are computed on the specification and hold of
      the requests, from the path of each to its status.
    - Validation: which uploads are refused with 400 (no messages, a
      title that is not text, is blank or holds NUL) and what title is
      kept otherwise.
    - Ordering: [order_by_timestamp] returns a sorted permutation and is
      the identity on sorted lists.
    - The store: every reachable store is well formed (consecutive keys,
      valid foreign keys, at most one report per conversation), also after
      a call that raises; the analysis view answers 404, 400 or 201 as the
      code's branches say and stores the report of the analyzer; the daily
      task gives every conversation a report and is idempotent; reports
      are written once (the map of reports only grows); an upload stores
      the messages in order with increasing timestamps.  Two failures are
      proved: an upload with a malformed message leaves a partial
      conversation behind, and one conversation whose analysis raises
      stops the daily task for all that follow.
    - Rounding: [round64] returns a number with a significand of 53
      bits, no such number is nearer, the relative error is at most
      2^-53, a tie goes to the even significand, and the rounding is
      monotone and idempotent.
    - Floats against exact arithmetic: with the rounding [exact] the
      aggregator on Python numbers returns the report of
      [analyze_conversations], with either algorithm of [sum].  With a
      lawful rounding, for [n] messages with [p] exchanges and [n + 7] at
      most 2^52: both aggregators return; the flags, the fallback count
      and completeness are the same; clarity, accuracy and empathy are
      the exact scores rounded once; relevance is within [p + 2]
      roundings and the overall score within [p + 7], a relative error
      of at most [2 (n + 7) u]; the scores stay in the ranges of the
      exact ones.  These hold for both algorithms of [sum].  With the
      sum from left to right the average response time is within [p + 2]
      roundings and the sentiment label is the exact one when the mean
      polarity is further than [(2 n + 3) u] from both thresholds; of
      the compensated sum it is proved that it is exact without
      rounding, and it is compared with the kernel on an example.
    - The kernel's floats: for up to 128 messages (the statements rest on
      tables of all quotients of that size, proved by evaluation, and
      the size keeps that evaluation short) clarity, accuracy and
      empathy computed in the primitive floats are [round64] of the
      exact scores, are the numbers the scorers of [Numeric] return, and
      stay in their ranges; at a threshold of the sentiment the label
      depends on the summation, as an example shows, on which the two
      sums of the kernel are the two sums of [Numeric].
    - Termination and liveness: a call other than an upload that changes
      the store shortens the list of conversations without a report, so
      [works] is well founded and a store without pending conversations
      is a fixed point of those calls; on a fair schedule, with
      capabilities that return, every conversation has its report from
      some position on and keeps it.
    - Interleaving: run alone, the statements of a handler are the
      handler of [Handlers] (with the number of statements that is
      enough), so the serial schedule of a pool leaves the store of its
      calls in sequence, which reads as the state of the specification;
      under every schedule the store stays well formed and no
      report is lost, and without an upload in progress every report is
      the report of its conversation.  Two failures are stated as
      theorems: of two simultaneous requests for one conversation the
      second can raise [IntegrityError] where it would be answered 400
      after the first; and an analysis during an upload stores the report
      of the messages that have arrived.
    - Types: the dictionary of the analyzer is a well-typed row: its keys
      are distinct columns of [ConversationAnalysis], each value is one
      the column stores, the columns left out are filled by the database,
      so [create] raises neither [TypeError] nor [IntegrityError]; a
      serialized report lists the columns of the model and reads back as
      the row.
    - Requests: the paths that reach the application are
      [/api/conversations/], [/api/reports/] and [/api/analyse/<digits>/];
      printing the path of a key and resolving it gives the key back, and
      so does the path of each name [reverse] knows;
      every request is answered and leaves a reachable store, and with
      capabilities that return the answer 500 is given only to a valid
      upload with a malformed message.

    ** Not modelled

    Infinities, NaN and denormal floats (the exponent of [round64] is
    not bounded); an error bound for the compensated sum of Python 3.12
    (the bounds on the response time and the stability of the sentiment
    label are for the sum from left to right); conversations of 2^52
    messages or more; lists of more than 128 messages in the comparison
    with the floats of the kernel; code points above 255; the contents
    of WordNet and
    TextBlob (an interface only); the tie-break of the database among equal
    timestamps (the model is stable); isolation levels of the database
    (each query and each insertion is one atomic step, which is what
    autocommit gives; the statements inside the analyzer are not split,
    it reads the messages once); a field of a message that is not a
    string and a title that is a number with a fraction (Python prints
    them, and the text is stored); [max_length] of the title and of the
    sender, which the serializer does not check and only some databases
    enforce; settings of the framework other than the defaults; what the
    admin site and the documentation views answer (the routes to them
    are modelled, their answers have no status in the model) and the
    body of the answer to OPTIONS; redirects that add a final slash, the
    parsing of the body of a request and the text form of a date in a
    response; the Celery schedule itself ([fair] is the assumption made
    of it).  Every line of the sources other than imports and comments
    has its definition. *)

From Stdlib Require Export ZArith QArith Lqa.
From stdpp Require Export base option list strings.

(** ** Exceptions as values *)

Inductive exn : Set :=
  | ZeroDivisionError
  | IndexError
  | LookupError
  | AttributeError
  | IntegrityError
  | TypeError.

Definition result (A : Type) : Type := sum exn A.

Definition ok {A : Type} (x : A) : result A := inr x.

Definition raise {A : Type} (e : exn) : result A := inl e.

#[export] Instance result_ret : MRet result := @ok.

#[export] Instance result_bind : MBind result :=
  fun A B k m => match m with inl e => inl e | inr x => k x end.

#[export] Instance exn_eq_dec : EqDecision exn.
Proof. solve_decision. Defined.

(** [returns m P]: the computation produces a value, and it satisfies [P]. *)
Definition returns {A : Type} (m : result A) (P : A → Prop) : Prop :=
  match m with inr x => P x | inl _ => False end.

(** A [for] loop whose body may raise: the accumulator is the loop state. *)
Fixpoint foldM {A St : Type} (f : St → A → result St) (l : list A) (s : St) : result St :=
  match l with
  | [] => ok s
  | x :: l' => s' ← f s x; foldM f l' s'
  end.

(** A [for] loop whose body may [return]: the value of the first iteration
    that returns, [None] when the loop runs to its end. *)
Fixpoint for_return {A R : Type} (body : A → result (option R)) (l : list A) :
    result (option R) :=
  match l with
  | [] => ok None
  | x :: l' =>
      r ← body x;
      match r with
      | Some v => ok (Some v)
      | None => for_return body l'
      end
  end.

(** ** Python built-ins *)

Definition len {A : Type} (l : list A) : Z := Z.of_nat (length l).

(** [range(n)]: empty when [n] is not positive. *)
Definition py_range (n : Z) : list Z := Z.of_nat <$> seq 0 (Z.to_nat n).

(** [l[i]]: a negative index counts from the end; out of range raises. *)
Definition getitem {A : Type} (l : list A) (i : Z) : result A :=
  let j := if (i <? 0)%Z then (i + len l)%Z else i in
  if (j <? 0)%Z then raise IndexError
  else match l !! Z.to_nat j with
       | Some x => ok x
       | None => raise IndexError
       end.

(** [not l] on a list *)
Definition py_not {A : Type} (l : list A) : bool :=
  match l with [] => true | _ => false end.

(** [x / y] *)
Definition pydiv (x y : Q) : result Q :=
  if Qeq_bool y 0 then raise ZeroDivisionError else ok (x / y)%Q.

(** [x > y] and [x < y] on floats *)
Definition Qgtb (x y : Q) : bool := negb (Qle_bool x y).

Definition Qltb (x y : Q) : bool := negb (Qle_bool y x).

(** [sum(l)]: left to right from 0 *)
Definition Qsum (l : list Q) : Q := fold_left Qplus l 0%Q.

(** The number of elements that satisfy [p], as a Python [int]. *)
Definition count {A : Type} (p : A → bool) (l : list A) : Z :=
  len (filter (λ x, p x = true) l).

(** The share of the elements of [l] that satisfy [p]. *)
Definition fraction {A : Type} (p : A → bool) (l : list A) : Q :=
  (inject_Z (count p l) / inject_Z (len l))%Q.

(** Consecutive elements [(l[i], l[i+1])], in order. *)
Fixpoint adjacent {A : Type} (l : list A) : list (A * A) :=
  match l with
  | x :: (y :: _) as l' => (x, y) :: adjacent l'
  | _ => []
  end.

(** Point-wise [Qeq] on lists of rationals. *)
Definition Qlist_eq : relation (list Q) := Forall2 Qeq.

(** ** Automation *)

Create HintDb py discriminated.
Create Rewrite HintDb py.

Ltac case_bool :=
  repeat match goal with
  | |- context [if ?b then _ else _] => destruct b eqn:?
  end.

(** [lra] does not see through a division by a numeral: [lraQ] turns the
    divisions by 2 and by 5 (the constants of the scorers) into products. *)
Ltac qdiv_const :=
  repeat match goal with
  | |- context [(?x / 2)%Q] => change (x / 2)%Q with (x * (1 # 2))%Q
  | |- context [(?x / 5)%Q] => change (x / 5)%Q with (x * (1 # 5))%Q
  | H : context [(?x / 2)%Q] |- _ => change (x / 2)%Q with (x * (1 # 2))%Q in H
  | H : context [(?x / 5)%Q] |- _ => change (x / 5)%Q with (x * (1 # 5))%Q in H
  end.

Ltac lraQ := qdiv_const; lra.

(** ** The result monad *)

Lemma bind_ok {A B : Type} (x : A) (k : A → result B) : (ok x ≫= k) = k x.
Proof. reflexivity. Qed.

Lemma bind_raise {A B : Type} (e : exn) (k : A → result B) :
  (raise e ≫= k) = raise e.
Proof. reflexivity. Qed.

Lemma bind_assoc {A B C : Type} (m : result A) (k : A → result B) (h : B → result C) :
  (m ≫= k) ≫= h = m ≫= (λ x, k x ≫= h).
Proof. by destruct m. Qed.

Lemma returns_ok {A : Type} (x : A) (P : A → Prop) : returns (ok x) P ↔ P x.
Proof. reflexivity. Qed.

Lemma returns_raise {A : Type} (e : exn) (P : A → Prop) : ¬ returns (raise e) P.
Proof. intros []. Qed.

Lemma returns_inv {A : Type} (m : result A) (P : A → Prop) :
  returns m P ↔ ∃ x, m = ok x ∧ P x.
Proof.
  destruct m as [e|x]; simpl; split; try done.
  - intros (x & [=] & _).
  - eauto.
  - by intros (y & [= ->] & ?).
Qed.

Lemma returns_weaken {A : Type} (m : result A) (P R : A → Prop) :
  (∀ x, P x → R x) → returns m P → returns m R.
Proof. destruct m; simpl; auto. Qed.

Lemma returns_bind {A B : Type} (m : result A) (k : A → result B)
    (P : A → Prop) (R : B → Prop) :
  returns m P → (∀ x, P x → returns (k x) R) → returns (m ≫= k) R.
Proof. destruct m; simpl; [done | auto]. Qed.

Lemma returns_eq {A : Type} (m : result A) (x : A) : returns m (eq x) ↔ m = ok x.
Proof.
  destruct m as [e|y]; simpl; split; try done.
  - by intros ->.
  - by intros [= ->].
Qed.

#[export] Hint Rewrite @bind_ok @bind_raise : py.
#[export] Hint Resolve returns_weaken : py.

(** ** Loops *)

Lemma foldM_app {A St : Type} (f : St → A → result St) (l1 l2 : list A) (s : St) :
  foldM f (l1 ++ l2) s = foldM f l1 s ≫= foldM f l2.
Proof.
  revert s. induction l1 as [|x l1 IH]; intros s; simpl; [done|].
  destruct (f s x) as [e|s']; simpl; [done | apply IH].
Qed.

Lemma foldM_ext_in {A St : Type} (f g : St → A → result St) (l : list A) (s : St) :
  (∀ s x, x ∈ l → f s x = g s x) → foldM f l s = foldM g l s.
Proof.
  revert s. induction l as [|x l IH]; intros s H; simpl; [done|].
  rewrite H by left. destruct (g s x); simpl; [done|].
  apply IH. intros; apply H. by right.
Qed.

(** A body that never raises makes the loop a [fold_left]. *)
Lemma foldM_pure {A St : Type} (g : St → A → St) (l : list A) (s : St) :
  foldM (λ s x, ok (g s x)) l s = ok (fold_left g l s).
Proof. revert s. induction l as [|x l IH]; intros s; simpl; [done | apply IH]. Qed.

Lemma foldM_fmap {A B St : Type} (h : A → B) (f : St → B → result St) (l : list A) (s : St) :
  foldM f (h <$> l) s = foldM (λ s x, f s (h x)) l s.
Proof.
  revert s. induction l as [|x l IH]; intros s; simpl; [done|].
  destruct (f s (h x)); simpl; [done | apply IH].
Qed.

(** A list comprehension whose element expression may raise ([mapM]). *)
Lemma mapM_ok {A B : Type} (f : A → result B) (g : A → B) (l : list A) :
  (∀ x, x ∈ l → f x = ok (g x)) → mapM f l = ok (g <$> l).
Proof.
  induction l as [|x l IH]; intros H; [done|]. cbn [mapM].
  rewrite (H x) by left. rewrite bind_ok, IH; [done|].
  intros y Hy. apply H. by right.
Qed.

Lemma mapM_raise {A B : Type} (f : A → result B) (l1 l2 : list A) (x : A) (e : exn) :
  (∀ y, y ∈ l1 → ∃ v, f y = ok v) → f x = raise e →
  mapM f (l1 ++ x :: l2) = raise e.
Proof.
  intros H E. induction l1 as [|y l1 IH]; cbn [mapM app].
  - by rewrite E.
  - destruct (H y) as [v ->]; [left|]. rewrite bind_ok, IH; [done|].
    intros z Hz. apply H. by right.
Qed.

(** ** Indexing *)

Lemma len_nonneg {A : Type} (l : list A) : (0 ≤ len l)%Z.
Proof. unfold len; lia. Qed.

Lemma len_cons {A : Type} (x : A) (l : list A) : len (x :: l) = (len l + 1)%Z.
Proof. unfold len; simpl; lia. Qed.

Lemma len_nil_iff {A : Type} (l : list A) : len l = 0%Z ↔ l = [].
Proof. unfold len. destruct l; simpl; split; (done || lia). Qed.

Lemma len_app {A : Type} (l k : list A) : len (l ++ k) = (len l + len k)%Z.
Proof. unfold len. rewrite length_app. lia. Qed.

Lemma len_fmap {A B : Type} (f : A → B) (l : list A) : len (f <$> l) = len l.
Proof. unfold len. by rewrite length_fmap. Qed.

Lemma py_not_true {A : Type} (l : list A) : py_not l = true ↔ l = [].
Proof. by destruct l. Qed.

Lemma py_not_false {A : Type} (l : list A) : l ≠ [] → py_not l = false.
Proof. by destruct l. Qed.

Lemma py_range_nonpos (n : Z) : (n ≤ 0)%Z → py_range n = [].
Proof. intros. unfold py_range. by replace (Z.to_nat n) with 0%nat by lia. Qed.

Lemma py_range_len_pred {A : Type} (l : list A) :
  py_range (len l - 1) = Z.of_nat <$> seq 0 (length l - 1).
Proof. unfold py_range, len. do 2 f_equal. lia. Qed.

Lemma getitem_nat {A : Type} (l : list A) (i : nat) :
  getitem l (Z.of_nat i) =
  match l !! i with Some x => ok x | None => raise IndexError end.
Proof.
  unfold getitem. cbv zeta.
  destruct (Z.ltb_spec (Z.of_nat i) 0) as [|_]; [lia|].
  destruct (Z.ltb_spec (Z.of_nat i) 0) as [|_]; [lia|].
  by rewrite Nat2Z.id.
Qed.

Lemma getitem_ok {A : Type} (l : list A) (i : nat) (x : A) :
  l !! i = Some x → getitem l (Z.of_nat i) = ok x.
Proof. rewrite getitem_nat. by intros ->. Qed.

Lemma getitem_succ_ok {A : Type} (l : list A) (i : nat) (x : A) :
  l !! S i = Some x → getitem l (Z.of_nat i + 1) = ok x.
Proof.
  intros. replace (Z.of_nat i + 1)%Z with (Z.of_nat (S i)) by lia.
  by apply getitem_ok.
Qed.

Lemma getitem_raise {A : Type} (l : list A) (i : Z) :
  (len l ≤ i)%Z → getitem l i = raise IndexError.
Proof.
  unfold getitem, len. intros. cbv zeta.
  destruct (Z.ltb_spec i 0) as [|_]; [lia|].
  destruct (Z.ltb_spec i 0) as [|_]; [lia|].
  rewrite lookup_ge_None_2 by lia. done.
Qed.

(** [l[-1]] is the last element, and raises on the empty list. *)
Lemma getitem_last {A : Type} (l : list A) :
  getitem l (-1) = match last l with Some x => ok x | None => raise IndexError end.
Proof.
  unfold getitem, len. cbv zeta. change (-1 <? 0)%Z with true. cbv iota.
  destruct l as [|a l _] using rev_ind; [done|].
  rewrite last_snoc, length_app. cbn [length].
  destruct (Z.ltb_spec (-1 + Z.of_nat (length l + 1)) 0) as [|_]; [lia|].
  replace (Z.to_nat (-1 + Z.of_nat (length l + 1))) with (length l) by lia.
  by rewrite list_lookup_middle.
Qed.

Lemma getitem_last_nil {A : Type} : getitem (@nil A) (-1) = raise IndexError.
Proof. reflexivity. Qed.

(** ** Adjacent pairs and index loops *)

Lemma adjacent_cons2 {A : Type} (x y : A) (l : list A) :
  adjacent (x :: y :: l) = (x, y) :: adjacent (y :: l).
Proof. reflexivity. Qed.

Lemma adjacent_length {A : Type} (l : list A) :
  length (adjacent l) = (length l - 1)%nat.
Proof.
  induction l as [|x [|y l] IH]; simpl in *; try done.
  rewrite IH. lia.
Qed.

Lemma adjacent_lookup {A : Type} (l : list A) (i : nat) (x y : A) :
  adjacent l !! i = Some (x, y) ↔ l !! i = Some x ∧ l !! S i = Some y.
Proof.
  revert i. induction l as [|a [|b l] IH]; intros i.
  - simpl. rewrite !lookup_nil. split; [done | by intros []].
  - simpl. rewrite lookup_nil. split; [done|]. destruct i; by intros [].
  - rewrite adjacent_cons2. destruct i as [|i].
    + simpl. split; [by intros [= -> ->] | by intros [[= ->] [= ->]]].
    + change ((a :: b :: l) !! S i) with ((b :: l) !! i).
      change ((a :: b :: l) !! S (S i)) with ((b :: l) !! S i).
      change (((a, b) :: adjacent (b :: l)) !! S i) with (adjacent (b :: l) !! i).
      apply IH.
Qed.

Lemma adjacent_elem_of {A : Type} (l : list A) (x y : A) :
  (x, y) ∈ adjacent l ↔ ∃ i, l !! i = Some x ∧ l !! S i = Some y.
Proof.
  rewrite list_elem_of_lookup. by setoid_rewrite adjacent_lookup.
Qed.

Lemma adjacent_app_inv {A : Type} (l : list A) (x y : A) :
  (x, y) ∈ adjacent l ↔ ∃ l1 l2, l = l1 ++ x :: y :: l2.
Proof.
  split.
  - induction l as [|a [|b l] IH]; simpl; [by intros ?%elem_of_nil..|].
    intros [[= -> ->]|H]%elem_of_cons.
    + by exists [], l.
    + destruct (IH H) as (l1 & l2 & E). exists (a :: l1), l2. by rewrite E.
  - intros (l1 & l2 & ->). induction l1 as [|a [|b l1] IH]; simpl.
    + left.
    + right. apply IH.
    + right. apply IH.
Qed.

(** The index loop [for i in range(len(l) - 1)] over [l[i]] and [l[i+1]] is
    a loop over the adjacent pairs, whenever the body agrees with a body on
    pairs at every index in range. *)
Lemma foldM_seq_adjacent {A St : Type} (body : St → Z → result St)
    (step : St → A * A → result St) (l : list A) (k : nat) (s : St) :
  (∀ s i x y, l !! i = Some x → l !! S i = Some y →
     body s (Z.of_nat (k + i)) = step s (x, y)) →
  foldM body (Z.of_nat <$> seq k (length l - 1)) s = foldM step (adjacent l) s.
Proof.
  revert k s. induction l as [|a [|b l] IH]; intros k s H; try done.
  rewrite adjacent_cons2.
  replace (length (a :: b :: l) - 1)%nat with (S (length (b :: l) - 1)) by (simpl; lia).
  cbn [seq fmap list_fmap foldM].
  pose proof (H s 0%nat a b eq_refl eq_refl) as H0.
  rewrite Nat.add_0_r in H0. rewrite H0.
  destruct (step s (a, b)) as [e|s']; [done|].
  cbn. apply IH. intros s0 i x y Hx Hy.
  replace (S k + i)%nat with (k + S i)%nat by lia. by apply H.
Qed.

Lemma foldM_range_adjacent {A St : Type} (body : St → Z → result St)
    (step : St → A * A → result St) (l : list A) (s : St) :
  (∀ s i x y, l !! i = Some x → l !! S i = Some y →
     body s (Z.of_nat i) = step s (x, y)) →
  foldM body (py_range (len l - 1)) s = foldM step (adjacent l) s.
Proof. intros. rewrite py_range_len_pred. by apply foldM_seq_adjacent. Qed.

Lemma for_return_seq_adjacent {A R : Type} (body : Z → result (option R))
    (step : A * A → result (option R)) (l : list A) (k : nat) :
  (∀ i x y, l !! i = Some x → l !! S i = Some y →
     body (Z.of_nat (k + i)) = step (x, y)) →
  for_return body (Z.of_nat <$> seq k (length l - 1)) = for_return step (adjacent l).
Proof.
  revert k. induction l as [|a [|b l] IH]; intros k H; try done.
  rewrite adjacent_cons2.
  replace (length (a :: b :: l) - 1)%nat with (S (length (b :: l) - 1)) by (simpl; lia).
  cbn [seq fmap list_fmap for_return].
  pose proof (H 0%nat a b eq_refl eq_refl) as H0.
  rewrite Nat.add_0_r in H0. rewrite H0.
  destruct (step (a, b)) as [e|[v|]]; [done..|].
  cbn. apply IH. intros i x y Hx Hy.
  replace (S k + i)%nat with (k + S i)%nat by lia. by apply H.
Qed.

Lemma for_return_range_adjacent {A R : Type} (body : Z → result (option R))
    (step : A * A → result (option R)) (l : list A) :
  (∀ i x y, l !! i = Some x → l !! S i = Some y →
     body (Z.of_nat i) = step (x, y)) →
  for_return body (py_range (len l - 1)) = for_return step (adjacent l).
Proof. intros. rewrite py_range_len_pred. by apply for_return_seq_adjacent. Qed.

(** A body that never raises: the loop returns at the first element on
    which the body returns. *)
Lemma for_return_pure {A R : Type} (f : A → option R) (l : list A) :
  for_return (λ x, ok (f x)) l = ok (head (omap f l)).
Proof.
  induction l as [|x l IH]; [done|]. cbn.
  destruct (f x); [done | apply IH].
Qed.

(** ** Counting loops *)

Lemma count_cons {A : Type} (p : A → bool) (x : A) (l : list A) :
  count p (x :: l) = ((if p x then 1 else 0) + count p l)%Z.
Proof.
  unfold count. rewrite filter_cons. destruct (p x) eqn:E.
  - rewrite decide_True by done. rewrite len_cons. lia.
  - rewrite decide_False by congruence. lia.
Qed.

Lemma count_app {A : Type} (p : A → bool) (l k : list A) :
  count p (l ++ k) = (count p l + count p k)%Z.
Proof. unfold count. by rewrite filter_app, len_app. Qed.

Lemma count_fmap {A B : Type} (f : A → B) (p : B → bool) (l : list A) :
  count p (f <$> l) = count (λ x, p (f x)) l.
Proof.
  induction l as [|x l IH]; [done|].
  by rewrite fmap_cons, !count_cons, IH.
Qed.

Lemma count_bounds {A : Type} (p : A → bool) (l : list A) :
  (0 ≤ count p l ≤ len l)%Z.
Proof.
  unfold count, len. pose proof (length_filter (λ x, p x = true) l). lia.
Qed.

(** [c = 0; for x in l: if p(x): c += 1] counts the elements that satisfy
    [p]. *)
Lemma count_loop {A : Type} (p : A → bool) (l : list A) (c : Z) :
  fold_left (λ c x, if p x then (c + 1)%Z else c) l c = (c + count p l)%Z.
Proof.
  revert c. induction l as [|x l IH]; intros c; simpl.
  - unfold count, len. simpl. lia.
  - rewrite IH, count_cons. destruct (p x); lia.
Qed.

Lemma len_filter_le {A : Type} (P : A → Prop) `{∀ x, Decision (P x)} (l : list A) :
  (len (filter P l) ≤ len l)%Z.
Proof. unfold len. pose proof (length_filter P l). lia. Qed.

Lemma len_filter_all {A : Type} (P : A → Prop) `{∀ x, Decision (P x)} (l : list A) :
  len (filter P l) = len l ↔ Forall P l.
Proof.
  unfold len. induction l as [|x l IH]; [by split|].
  rewrite filter_cons, Forall_cons. pose proof (length_filter P l).
  case_decide; cbn [length]; rewrite ?Nat2Z.inj_succ.
  - rewrite <- IH. split; [intros; split; [done | lia] | intros [? ?]; lia].
  - split; [lia | by intros [? ?]].
Qed.

Lemma len_filter_none {A : Type} (P : A → Prop) `{∀ x, Decision (P x)} (l : list A) :
  len (filter P l) = 0%Z ↔ Forall (λ x, ¬ P x) l.
Proof.
  rewrite len_nil_iff. induction l as [|x l IH]; [by split|].
  rewrite filter_cons, Forall_cons. case_decide.
  - split; [done | by intros []].
  - rewrite IH. by intuition.
Qed.

(** ** Rationals *)

Local Open Scope Q_scope.

Lemma pydiv_ok (x y : Q) : ¬ y == 0 → pydiv x y = ok (x / y).
Proof.
  intros H. unfold pydiv. destruct (Qeq_bool y 0) eqn:E; [|done].
  by apply Qeq_bool_eq in E.
Qed.

Lemma pydiv_zero (x y : Q) : y == 0 → pydiv x y = raise ZeroDivisionError.
Proof. intros H. unfold pydiv. by rewrite (Qeq_eq_bool _ _ H). Qed.

(** Dividing by a non-zero integer does not raise. *)
Lemma pydiv_Z_ok (x : Q) (z : Z) :
  z ≠ 0%Z → pydiv x (inject_Z z) = ok (x / inject_Z z).
Proof.
  intros Hz. apply pydiv_ok. change 0 with (inject_Z 0).
  by rewrite inject_Z_injective.
Qed.

Lemma inject_len_pos {A : Type} (l : list A) : l ≠ [] → 0 < inject_Z (len l).
Proof.
  intros H. change 0 with (inject_Z 0). rewrite <- Zlt_Qlt.
  destruct l as [|x l]; [done|]. rewrite len_cons. pose proof (len_nonneg l). lia.
Qed.

(** Dividing by the length of a non-empty list does not raise. *)
Lemma pydiv_len {A : Type} (x : Q) (l : list A) :
  l ≠ [] → pydiv x (inject_Z (len l)) = ok (x / inject_Z (len l)).
Proof. intros H. apply pydiv_ok. pose proof (inject_len_pos l H). lra. Qed.

Lemma Qdiv_bounds (a b n d : Q) :
  0 < d → a * d <= n <= b * d → a <= n / d <= b.
Proof.
  intros Hd [H1 H2]. split.
  - by apply Qle_shift_div_l.
  - by apply Qle_shift_div_r.
Qed.

Lemma Qgtb_spec (x y : Q) : Qgtb x y = true ↔ y < x.
Proof.
  unfold Qgtb. rewrite negb_true_iff, <- not_true_iff_false, Qle_bool_iff.
  split; [apply Qnot_le_lt | apply Qlt_not_le].
Qed.

Lemma Qltb_spec (x y : Q) : Qltb x y = true ↔ x < y.
Proof. apply Qgtb_spec. Qed.

Lemma fold_left_Qplus (l : list Q) (a : Q) : fold_left Qplus l a == a + Qsum l.
Proof.
  unfold Qsum. revert a. induction l as [|x l IH]; intros a; cbn [fold_left].
  - lra.
  - rewrite (IH (a + x)), (IH (0 + x)). lra.
Qed.

Lemma Qsum_cons (x : Q) (l : list Q) : Qsum (x :: l) == x + Qsum l.
Proof. unfold Qsum at 1. cbn [fold_left]. rewrite fold_left_Qplus. lra. Qed.

Lemma Qsum_app (l k : list Q) : Qsum (l ++ k) == Qsum l + Qsum k.
Proof.
  unfold Qsum at 1. rewrite fold_left_app, fold_left_Qplus.
  by fold (Qsum l).
Qed.

#[export] Instance Qsum_proper : Proper (Forall2 Qeq ==> Qeq) Qsum.
Proof.
  intros l k H. induction H as [|x y l k Hxy _ IH]; [done|].
  by rewrite !Qsum_cons, Hxy, IH.
Qed.

(** A sum lies between the bounds of its terms, times the number of terms. *)
Lemma Qsum_bounds (a b : Q) (l : list Q) :
  Forall (λ x, a <= x <= b) l →
  a * inject_Z (len l) <= Qsum l <= b * inject_Z (len l).
Proof.
  induction 1 as [|x l [Ha Hb] _ IH].
  - change (inject_Z (len [])) with 0. change (Qsum []) with 0. lra.
  - rewrite Qsum_cons, len_cons, inject_Z_plus. change (inject_Z 1) with 1. lra.
Qed.

Lemma Qsum_nonneg (l : list Q) : Forall (λ x, 0 <= x) l → 0 <= Qsum l.
Proof.
  induction 1 as [|x l Hx _ IH]; [done|]. rewrite Qsum_cons. lra.
Qed.

(** [s = s0; for x in l: s += w(x)] *)
Lemma sum_loop {A : Type} (w : A → Q) (l : list A) (s : Q) :
  fold_left (λ s x, s + w x) l s == s + Qsum (w <$> l).
Proof.
  revert s. induction l as [|x l IH]; intros s; cbn [fold_left fmap list_fmap].
  - change (Qsum []) with 0. lra.
  - rewrite IH, Qsum_cons. lra.
Qed.

(** [s = s0; for x in l: if p(x): s += a else: s += b] *)
Lemma weighted_loop {A : Type} (p : A → bool) (a b : Q) (l : list A) (s : Q) :
  fold_left (λ s x, if p x then s + a else s + b) l s ==
  s + a * inject_Z (count p l) + b * (inject_Z (len l) - inject_Z (count p l)).
Proof.
  revert s. induction l as [|x l IH]; intros s; cbn [fold_left].
  - change (inject_Z (count p [])) with 0. change (inject_Z (len [])) with 0. lra.
  - rewrite IH, count_cons, len_cons, !inject_Z_plus.
    destruct (p x); change (inject_Z 1) with 1; change (inject_Z 0) with 0; lra.
Qed.

Lemma fraction_bounds {A : Type} (p : A → bool) (l : list A) :
  l ≠ [] → 0 <= fraction p l <= 1.
Proof.
  intros H. apply Qdiv_bounds; [by apply inject_len_pos|].
  pose proof (count_bounds p l) as [H0 H1].
  rewrite Zle_Qle in H0, H1. change (inject_Z 0) with 0 in H0. lra.
Qed.

Lemma Qdiv_eq_1 (c n : Q) : 0 < n → c / n == 1 ↔ c == n.
Proof.
  intros Hn. split; intros E.
  - assert (c == c / n * n) as -> by (field; lra). rewrite E. lra.
  - rewrite E. field. lra.
Qed.

Lemma Qdiv_eq_0 (c n : Q) : 0 < n → c / n == 0 ↔ c == 0.
Proof.
  intros Hn. split; intros E.
  - assert (c == c / n * n) as -> by (field; lra). rewrite E. lra.
  - rewrite E. field. lra.
Qed.

Lemma fraction_one_iff {A : Type} (p : A → bool) (l : list A) :
  l ≠ [] → fraction p l == 1 ↔ Forall (λ x, p x = true) l.
Proof.
  intros H. unfold fraction. rewrite Qdiv_eq_1 by by apply inject_len_pos.
  rewrite inject_Z_injective. apply len_filter_all.
Qed.

Lemma fraction_zero_iff {A : Type} (p : A → bool) (l : list A) :
  l ≠ [] → fraction p l == 0 ↔ Forall (λ x, p x ≠ true) l.
Proof.
  intros H. unfold fraction. rewrite Qdiv_eq_0 by by apply inject_len_pos.
  change 0 with (inject_Z 0). rewrite inject_Z_injective. apply len_filter_none.
Qed.

#[export] Hint Resolve inject_len_pos Qsum_nonneg : py.
