(* ===== verification/PyStr.v ===== *)
(** * PyStr: the string methods the scorers call

    [lower] is [str.lower()], [split] is [str.split()] with no argument,
    [contains needle hay] is [needle in hay], [any_in phrases s] is
    [any(w in s for w in phrases)] as the scorers of
    [src/conversations/analysis_logic.py] write it, and [join] is
    [sep.join(words)] (used to state the round trip of [split]).
    Characters are code points below 256. *)

From Stdlib Require Import Ascii.
From S2P Require Import Prelude.

(** ** Characters *)

(** [c.isspace()] for a code point below 256: TAB..CR, FS..US and SPACE,
    NEL (133) and NBSP (160). *)
Definition isspace (c : ascii) : bool :=
  let n := N_of_ascii c in
  ((9 <=? n) && (n <=? 13) || (28 <=? n) && (n <=? 32) || (n =? 133) || (n =? 160))%N.

(** [c.lower()] for a code point below 256: A..Z and the Latin-1 capitals
    (192..222 without the multiplication sign 215) move up by 32. *)
Definition lower_char (c : ascii) : ascii :=
  let n := N_of_ascii c in
  if ((65 <=? n) && (n <=? 90) || (192 <=? n) && (n <=? 214) || (216 <=? n) && (n <=? 222))%N
  then ascii_of_N (n + 32)
  else c.

(** ** Strings *)

Fixpoint lower (s : string) : string :=
  match s with
  | EmptyString => EmptyString
  | String c s' => String (lower_char c) (lower s')
  end.

(** [s.replace(old, new)] for one-character [old] and [new] *)
Fixpoint replace_char (old new : ascii) (s : string) : string :=
  match s with
  | EmptyString => EmptyString
  | String c s' =>
      String (if Ascii.eqb c old then new else c) (replace_char old new s')
  end.

(** Every character of [s] satisfies [p]. *)
Fixpoint str_all (p : ascii → bool) (s : string) : bool :=
  match s with
  | EmptyString => true
  | String c s' => p c && str_all p s'
  end.

(** [s.startswith(p)] *)
Fixpoint startswith (p s : string) : bool :=
  match p, s with
  | EmptyString, _ => true
  | String a p', String b s' => if Ascii.eqb a b then startswith p' s' else false
  | String _ _, EmptyString => false
  end.

(** [needle in hay] *)
Fixpoint contains (needle hay : string) : bool :=
  startswith needle hay ||
  match hay with
  | EmptyString => false
  | String _ hay' => contains needle hay'
  end.

(** [any(w in s for w in phrases)] *)
Definition any_in (phrases : list string) (s : string) : bool :=
  existsb (λ w, contains w s) phrases.

#[global] Arguments any_in : simpl never.

(** The word being read, if any, is complete. *)
Definition flush (cur : string) : list string :=
  match cur with
  | EmptyString => []
  | _ => [cur]
  end.

(** [split_from cur s]: the words of [s], the first one continuing [cur]. *)
Fixpoint split_from (cur : string) (s : string) : list string :=
  match s with
  | EmptyString => flush cur
  | String c s' =>
      if isspace c then flush cur ++ split_from EmptyString s'
      else split_from (cur +:+ String c EmptyString) s'
  end.

(** [s.split()] *)
Definition split (s : string) : list string := split_from EmptyString s.

(** [sep.join(words)] *)
Fixpoint join (sep : string) (words : list string) : string :=
  match words with
  | [] => EmptyString
  | [w] => w
  | w :: ws => w +:+ sep +:+ join sep ws
  end.

(** A word: not empty, no white space. *)
Definition is_word (w : string) : Prop :=
  w ≠ EmptyString ∧ str_all (λ c, negb (isspace c)) w = true.

(** [n] occurs in [h]. *)
Definition occurs (n h : string) : Prop := ∃ a b, h = a +:+ n +:+ b.

(** ** Append *)

Lemma sapp_nil_l (s : string) : "" +:+ s = s.
Proof. reflexivity. Qed.

Lemma sapp_cons (c : ascii) (s t : string) : String c s +:+ t = String c (s +:+ t).
Proof. reflexivity. Qed.

Lemma sapp_nil_r (s : string) : s +:+ "" = s.
Proof. induction s as [|c s IH]; [done|]. by rewrite sapp_cons, IH. Qed.

Lemma sapp_assoc (s t u : string) : (s +:+ t) +:+ u = s +:+ t +:+ u.
Proof. induction s as [|c s IH]; [done|]. by rewrite !sapp_cons, IH. Qed.

Lemma sapp_eq_nil (s t : string) : s +:+ t = "" → s = "" ∧ t = "".
Proof. destruct s; [done | by rewrite sapp_cons]. Qed.

#[export] Hint Rewrite sapp_nil_l sapp_cons sapp_nil_r sapp_assoc : py.

(** ** Characters *)

Lemma lower_char_idemp (c : ascii) : lower_char (lower_char c) = lower_char c.
Proof. by destruct c as [[] [] [] [] [] [] [] []]. Qed.

Lemma isspace_lower_char (c : ascii) : isspace (lower_char c) = isspace c.
Proof. by destruct c as [[] [] [] [] [] [] [] []]. Qed.

(** ** [lower] *)

Lemma lower_app (s t : string) : lower (s +:+ t) = lower s +:+ lower t.
Proof. induction s as [|c s IH]; [done|]. rewrite sapp_cons. simpl. by rewrite IH. Qed.

Lemma lower_length (s : string) : String.length (lower s) = String.length s.
Proof. induction s as [|c s IH]; simpl; [done | by rewrite IH]. Qed.

Lemma lower_idemp (s : string) : lower (lower s) = lower s.
Proof. induction s as [|c s IH]; simpl; [done | by rewrite lower_char_idemp, IH]. Qed.

(** ** [startswith] and [contains] *)

Lemma startswith_spec (p s : string) : startswith p s = true ↔ ∃ t, s = p +:+ t.
Proof.
  revert s. induction p as [|a p IH]; intros s; simpl.
  - split; [by exists s | done].
  - destruct s as [|b s].
    + split; [done | by intros [t ?]].
    + destruct (Ascii.eqb_spec a b) as [->|Hne].
      * rewrite IH. split; intros [t E]; exists t.
        -- by rewrite sapp_cons, E.
        -- rewrite sapp_cons in E. by injection E.
      * split; [done|]. intros [t E]. rewrite sapp_cons in E. by injection E.
Qed.

Lemma startswith_refl (s : string) : startswith s s = true.
Proof. apply startswith_spec. exists "". by rewrite sapp_nil_r. Qed.

Lemma contains_spec (n h : string) : contains n h = true ↔ occurs n h.
Proof.
  unfold occurs. induction h as [|c h IH]; simpl.
  - rewrite orb_false_r, startswith_spec. split.
    + intros [t E]. by exists "", t.
    + intros (a & b & E). symmetry in E.
      apply sapp_eq_nil in E as [-> E]. exists b. by rewrite E.
  - rewrite orb_true_iff, startswith_spec, IH. split.
    + intros [[t E]|(a & b & E)].
      * by exists "", t.
      * exists (String c a), b. by rewrite sapp_cons, E.
    + intros ([|c' a] & b & E).
      * left. by exists b.
      * right. rewrite sapp_cons in E. injection E as -> E. by exists a, b.
Qed.

Lemma contains_nil (h : string) : contains "" h = true.
Proof. by destruct h. Qed.

Lemma contains_refl (s : string) : contains s s = true.
Proof. apply contains_spec. exists "", "". by rewrite sapp_nil_l, sapp_nil_r. Qed.

Lemma occurs_app (n a b : string) : occurs n (a +:+ n +:+ b).
Proof. by exists a, b. Qed.

Lemma occurs_trans (a b c : string) : occurs a b → occurs b c → occurs a c.
Proof.
  intros (x & y & ->) (u & v & ->). exists (u +:+ x), (y +:+ v).
  by rewrite !sapp_assoc.
Qed.

Lemma occurs_lower (n h : string) : occurs n h → occurs (lower n) (lower h).
Proof. intros (a & b & ->). exists (lower a), (lower b). by rewrite !lower_app. Qed.

Lemma any_in_spec (phrases : list string) (s : string) :
  any_in phrases s = true ↔ ∃ w, w ∈ phrases ∧ occurs w s.
Proof.
  unfold any_in. rewrite existsb_exists.
  by setoid_rewrite contains_spec; setoid_rewrite list_elem_of_In.
Qed.

Lemma any_in_false (phrases : list string) (s : string) :
  any_in phrases s = false ↔ ∀ w, w ∈ phrases → ¬ occurs w s.
Proof.
  rewrite <- not_true_iff_false, any_in_spec. split.
  - intros H w Hw Ho. apply H. eauto.
  - intros H (w & Hw & Ho). by apply (H w).
Qed.

Lemma any_in_app (ps qs : list string) (s : string) :
  any_in (ps ++ qs) s = any_in ps s || any_in qs s.
Proof. apply existsb_app. Qed.

(** ** [split] *)

Lemma str_all_app (p : ascii → bool) (s t : string) :
  str_all p (s +:+ t) = str_all p s && str_all p t.
Proof.
  induction s as [|c s IH]; [done|].
  rewrite sapp_cons. simpl. by rewrite IH, andb_assoc.
Qed.

Lemma flush_word (w : string) : w ≠ "" → flush w = [w].
Proof. by destruct w. Qed.

Lemma split_from_space (cur : string) (c : ascii) (s : string) :
  isspace c = true → split_from cur (String c s) = flush cur ++ split s.
Proof. intros H. simpl. by rewrite H. Qed.

Lemma split_from_char (cur : string) (c : ascii) (s : string) :
  isspace c = false →
  split_from cur (String c s) = split_from (cur +:+ String c "") s.
Proof. intros H. simpl. by rewrite H. Qed.

(** Reading a stretch without white space extends the current word. *)
Lemma split_from_word (cur w s : string) :
  str_all (λ c, negb (isspace c)) w = true →
  split_from cur (w +:+ s) = split_from (cur +:+ w) s.
Proof.
  revert cur. induction w as [|c w IH]; intros cur H.
  - by rewrite sapp_nil_l, sapp_nil_r.
  - simpl in H. apply andb_true_iff in H as [Hc Hw]. apply negb_true_iff in Hc.
    rewrite sapp_cons, split_from_char, IH by done.
    by rewrite sapp_assoc.
Qed.

(** White space ends the current word, whatever came before. *)
Lemma split_from_app_space (cur a : string) (c : ascii) (b : string) :
  isspace c = true →
  split_from cur (a +:+ String c b) = split_from cur a ++ split b.
Proof.
  intros Hc. revert cur. induction a as [|d a IH]; intros cur.
  - by rewrite sapp_nil_l, split_from_space.
  - rewrite sapp_cons. simpl. destruct (isspace d).
    + by rewrite IH, (assoc_L (++)).
    + apply IH.
Qed.

Lemma split_from_is_word (cur s : string) :
  str_all (λ c, negb (isspace c)) cur = true →
  Forall is_word (split_from cur s).
Proof.
  revert cur. induction s as [|c s IH]; intros cur Hcur; simpl.
  - destruct cur; constructor; [by split | constructor].
  - destruct (isspace c) eqn:Hc.
    + apply Forall_app. split; [|by apply IH].
      destruct cur; constructor; [by split | constructor].
    + apply IH. rewrite str_all_app, Hcur. simpl. by rewrite Hc.
Qed.

Lemma split_from_lower (cur s : string) :
  split_from (lower cur) (lower s) = lower <$> split_from cur s.
Proof.
  revert cur. induction s as [|c s IH]; intros cur; simpl.
  - by destruct cur.
  - rewrite isspace_lower_char. destruct (isspace c).
    + rewrite fmap_app. f_equal; [by destruct cur | apply (IH "")].
    + rewrite <- IH. by rewrite lower_app.
Qed.

Lemma join_cons2 (sep w w' : string) (ws : list string) :
  join sep (w :: w' :: ws) = w +:+ sep +:+ join sep (w' :: ws).
Proof. reflexivity. Qed.

Lemma split_nil : split "" = [].
Proof. reflexivity. Qed.

Lemma split_word (w : string) : is_word w → split w = [w].
Proof.
  intros [Hne Hw]. unfold split.
  rewrite <- (sapp_nil_r w) at 1. rewrite split_from_word by done.
  simpl. by apply flush_word.
Qed.

Lemma split_app_space (a : string) (c : ascii) (b : string) :
  isspace c = true → split (a +:+ String c b) = split a ++ split b.
Proof. apply split_from_app_space. Qed.

Lemma split_is_word (s : string) : Forall is_word (split s).
Proof. by apply split_from_is_word. Qed.

Lemma split_lower (s : string) : split (lower s) = lower <$> split s.
Proof. apply (split_from_lower ""). Qed.

Lemma split_join_words (ws : list string) :
  Forall is_word ws → split (join " " ws) = ws.
Proof.
  induction 1 as [|w ws Hw Hws IH]; [done|].
  destruct ws as [|w' ws]; [by apply split_word|].
  rewrite join_cons2. change (" " +:+ ?s) with (String " " s).
  rewrite split_app_space by done. by rewrite IH, split_word.
Qed.

(** ** Main results *)

(** [str.split()] is determined by three equations: the empty string
    has no words, a word splits into itself, and white space separates the
    words on its two sides; every word it returns is non-empty and free of
    white space; and it inverts [" ".join]: joining words (non-empty, free
    of white space) with one space and splitting the result gives the
    words back. *)
Theorem split_spec :
  split "" = [] ∧
  (∀ w, is_word w → split w = [w]) ∧
  (∀ a c b, isspace c = true → split (a +:+ String c b) = split a ++ split b) ∧
  (∀ s, Forall is_word (split s)) ∧
  (∀ ws, Forall is_word ws → split (join " " ws) = ws).
Proof.
  split_and!; [done | apply split_word | apply split_app_space | apply split_is_word
              | apply split_join_words].
Qed.

Lemma split_spec_witness :
  split (join " " ["thanks"; "that"; "fixed"; "it"]) = ["thanks"; "that"; "fixed"; "it"].
Proof.
  apply (proj2 (proj2 (proj2 (proj2 split_spec)))).
  repeat constructor; done.
Defined.

(** A phrase list matches a lower-cased message exactly when one of its
    phrases occurs in it as a substring, whatever the case of the message:
    upper- and lower-case spellings of a message match the same lists. *)
Lemma phrase_match_spec (phrases : list string) (msg : string) :
  (any_in phrases (lower msg) = true ↔
     ∃ w a b, w ∈ phrases ∧ lower msg = a +:+ w +:+ b) ∧
  any_in phrases (lower (lower msg)) = any_in phrases (lower msg) ∧
  (any_in [msg] msg = true ∧ any_in [] msg = false).
Proof.
  split_and!.
  - rewrite any_in_spec. unfold occurs. split.
    + intros (w & ? & a & b & ?). by exists w, a, b.
    + intros (w & a & b & ? & ?). exists w. eauto.
  - by rewrite lower_idemp.
  - unfold any_in. simpl. by rewrite contains_refl.
  - done.
Qed.
