(* ===== verification/Validation.v ===== *)
(** * Validation: the fields of the upload serializer

    [ConversationUploadSerializer] of [src/conversations/serializers.py]
    declares two fields, [title = CharField(required=False)] and
    [messages = ListField()].  This file holds what [is_valid()] does with
    the title: [CharField] with the defaults of [rest_framework]
    ([allow_null=False], [allow_blank=False], [trim_whitespace=True], no
    length bound) rejects [null], booleans, lists and objects, turns a
    number into its decimal text, trims a string with [str.strip()] and then
    rejects the blank string and a string that holds the NUL character.

    [strip_spec] characterises [strip]; [CharField_string] and
    [CharField_valid] say what the validated titles are.  Numbers are
    integers: the text of a float is not modelled. *)

From Stdlib Require Import Ascii.
From stdpp Require Import pretty.
From S2P Require Import Prelude PyStr.

(** ** Values of a field *)

(** What the body of a request can hold under a key, as far as [CharField]
    tells the values apart. *)
Inductive JsonValue : Type :=
  | JNull
  | JBool (b : bool)
  | JNumber (n : Z)
  | JString (s : string)
  | JContainer.

(** ** [str.strip()] *)

Fixpoint lstrip (s : string) : string :=
  match s with
  | EmptyString => EmptyString
  | String c s' => if isspace c then lstrip s' else s
  end.

Fixpoint rstrip (s : string) : string :=
  match s with
  | EmptyString => EmptyString
  | String c s' =>
      match rstrip s' with
      | EmptyString => if isspace c then EmptyString else String c EmptyString
      | r => String c r
      end
  end.

Definition strip (s : string) : string := rstrip (lstrip s).

(** ** [CharField(required=False)] *)

(** [ProhibitNullCharactersValidator]: NUL must not occur in the value. *)
Definition prohibit_null_characters (value : string) : bool :=
  negb (contains (String "000" EmptyString) value).

(** [CharField.run_validation(data)]: [None] when the field reports an
    error. *)
Definition CharField_run_validation (data : JsonValue) : option string :=
  match data with
  | JNull => None
  | JBool _ => None
  | JContainer => None
  | JNumber n => Some (pretty n)
  | JString s =>
      let value := strip s in
      if decide (value = "") then None
      else if prohibit_null_characters value then Some value
      else None
  end.

(** ** Reference definitions *)

(** A string that neither starts nor ends with white space. *)
Definition no_lead (t : string) : Prop :=
  match t with String c _ => isspace c = false | EmptyString => True end.

Definition no_trail (t : string) : Prop :=
  ∀ u c, t = u +:+ String c "" → isspace c = false.

Definition trimmed (t : string) : Prop := no_lead t ∧ no_trail t.

Definition blank (s : string) : Prop := str_all isspace s = true.

(** A character that is neither white space nor NUL. *)
Definition visible (c : ascii) : bool :=
  negb (isspace c) && negb (Ascii.eqb c "000").

(** ** [strip] *)

Lemma lstrip_no_lead (s : string) : no_lead (lstrip s).
Proof. induction s as [|c s IH]; [done|]. cbn. by destruct (isspace c) eqn:E. Qed.

Lemma lstrip_prefix (s : string) : ∃ a, blank a ∧ s = a +:+ lstrip s.
Proof.
  induction s as [|c s (a & Ha & IH)]; [by exists ""|]. cbn.
  destruct (isspace c) eqn:E; [|by exists ""].
  exists (String c a). split; [unfold blank; cbn; by rewrite E|].
  by rewrite sapp_cons, <- IH.
Qed.

Lemma lstrip_id (t : string) : no_lead t → lstrip t = t.
Proof. destruct t as [|c t]; [done|]. cbn. by intros ->. Qed.

Lemma lstrip_blank (a t : string) : blank a → lstrip (a +:+ t) = lstrip t.
Proof.
  unfold blank. induction a as [|c a IH]; [by rewrite sapp_nil_l|].
  cbn. intros [Hc Ha]%andb_prop. by rewrite sapp_cons; cbn; rewrite Hc, IH.
Qed.

Lemma rstrip_nil_iff (s : string) : rstrip s = "" ↔ blank s.
Proof.
  unfold blank. induction s as [|c s IH]; [done|]. cbn.
  destruct (rstrip s) eqn:E.
  - destruct (isspace c); [|by split]. by rewrite <- IH.
  - split; [done|]. intros [_ H]%andb_prop. by apply IH in H.
Qed.

Lemma rstrip_cons (c : ascii) (s : string) :
  ¬ blank s → rstrip (String c s) = String c (rstrip s).
Proof. rewrite <- rstrip_nil_iff. cbn. by destruct (rstrip s). Qed.

Lemma rstrip_blank (t b : string) : blank b → rstrip (t +:+ b) = rstrip t.
Proof.
  intros Hb. induction t as [|c t IH].
  - rewrite sapp_nil_l. by apply rstrip_nil_iff.
  - rewrite sapp_cons. cbn. by rewrite IH.
Qed.

Lemma rstrip_suffix (s : string) : ∃ b, blank b ∧ s = rstrip s +:+ b.
Proof.
  induction s as [|c s (b & Hb & IH)]; [by exists ""|]. cbn.
  destruct (rstrip s) as [|d r] eqn:E.
  - rewrite sapp_nil_l in IH. subst b. destruct (isspace c) eqn:Ec.
    + exists (String c s). split; [unfold blank; cbn; by rewrite Ec|done].
    + by exists s.
  - exists b. split; [done|]. by rewrite sapp_cons, <- IH.
Qed.

Lemma rstrip_no_trail (s : string) : no_trail (rstrip s).
Proof.
  induction s as [|c s IH]; intros u d E.
  - by destruct u.
  - cbn in E. destruct (rstrip s) as [|e r] eqn:Er.
    + destruct (isspace c) eqn:Ec; [by destruct u|].
      destruct u as [|c' u]; rewrite ?sapp_nil_l, ?sapp_cons in E; [by simplify_eq|].
      injection E as _ E. by destruct u.
    + destruct u as [|c' u]; rewrite ?sapp_nil_l, ?sapp_cons in E; [done|].
      injection E as <- E. by eapply IH.
Qed.

Lemma rstrip_id (t : string) : no_trail t → rstrip t = t.
Proof.
  induction t as [|c t IH]; [done|]. intros H. cbn. rewrite IH.
  - destruct t; [|done]. by rewrite (H "" c).
  - intros u d ->. apply (H (String c u) d). by rewrite sapp_cons.
Qed.

Lemma rstrip_no_lead (t : string) : no_lead t → no_lead (rstrip t).
Proof.
  destruct t as [|c t]; [done|]. cbn. intros H. destruct (rstrip t); [|done].
  by rewrite H.
Qed.

Lemma strip_trimmed (s : string) : trimmed (strip s).
Proof. split; [apply rstrip_no_lead, lstrip_no_lead | apply rstrip_no_trail]. Qed.

Lemma trimmed_nil_blank (m b : string) : no_lead m → blank (m +:+ b) → m = "".
Proof.
  destruct m as [|c m]; [done|]. unfold blank. rewrite sapp_cons. cbn.
  intros -> H. done.
Qed.

(** [strip s] is the one string in the middle of [s] that has white space
    around it and none at its ends. *)
Lemma strip_spec (s m : string) :
  strip s = m ↔ trimmed m ∧ ∃ a b, blank a ∧ blank b ∧ s = a +:+ m +:+ b.
Proof.
  split.
  - intros <-. split; [apply strip_trimmed|].
    destruct (lstrip_prefix s) as (a & Ha & Es).
    destruct (rstrip_suffix (lstrip s)) as (b & Hb & El).
    exists a, b. split_and!; [done..|]. unfold strip. by rewrite <- El.
  - intros [[Hl Ht] (a & b & Ha & Hb & ->)]. unfold strip.
    rewrite lstrip_blank by done. destruct (decide (blank (m +:+ b))) as [Hmb|Hmb].
    + rewrite (trimmed_nil_blank m b) in * by done. rewrite sapp_nil_l in *.
      by rewrite <- (sapp_nil_r b), lstrip_blank.
    + rewrite lstrip_id, rstrip_blank, rstrip_id; try done.
      destruct m; [by rewrite sapp_nil_l in Hmb|done].
Qed.

Lemma strip_idemp (s : string) : strip (strip s) = strip s.
Proof.
  apply strip_spec. split; [apply strip_trimmed|]. exists "", "".
  by rewrite sapp_nil_l, sapp_nil_r.
Qed.

Lemma strip_blank (s : string) : strip s = "" ↔ blank s.
Proof.
  rewrite strip_spec. split.
  - intros [_ (a & b & Ha & Hb & ->)]. unfold blank in *.
    by rewrite sapp_nil_l, str_all_app, Ha, Hb.
  - intros H. split; [split; [done|by intros [|] ?]|]. exists "", s.
    by rewrite !sapp_nil_l.
Qed.

(** ** The validated titles *)

(** A string title is valid when something is left after trimming and
    NUL does not occur in it; the validated title is the trimmed one. *)
Lemma CharField_string (s v : string) :
  CharField_run_validation (JString s) = Some v ↔
  v = strip s ∧ ¬ blank s ∧ ¬ occurs (String "000" "") (strip s).
Proof.
  cbn. rewrite <- strip_blank, <- contains_spec. unfold prohibit_null_characters.
  case_decide as E; [by split; [|intros (_ & ? & _)]|].
  destruct (contains _ (strip s)); cbn; [by split; [|intros (_ & _ & ?)]|].
  split; [by intros [= <-]|by intros (-> & _)].
Qed.

(** The decimal text of an integer has digits and a sign only. *)
Lemma pretty_N_go_visible (x : N) (s : string) :
  str_all visible s = true → s ≠ "" →
  str_all visible (pretty_N_go x s) = true ∧ pretty_N_go x s ≠ "".
Proof.
  revert s. induction (N.lt_wf_0 x) as [x _ IH]; intros s Hs Hn.
  destruct (decide (x = 0)%N) as [->|]; [done|].
  rewrite pretty_N_go_step by lia. apply IH; [apply N.div_lt; lia| |done].
  cbn. rewrite Hs, andb_true_r. unfold pretty_N_char. by repeat case_match.
Qed.

Lemma pretty_Z_visible (n : Z) : str_all visible (pretty n) = true ∧ pretty n ≠ "".
Proof.
  assert (∀ p, str_all visible (pretty (Npos p)) = true ∧ pretty (Npos p) ≠ "") as H.
  { intros p. unfold pretty, pretty_N. rewrite decide_False by done.
    rewrite pretty_N_go_step by lia. apply pretty_N_go_visible; [|done].
    cbn. rewrite andb_true_r. unfold pretty_N_char. by repeat case_match. }
  destruct n as [|p|p]; [by vm_compute|apply H|]. unfold pretty, pretty_Z.
  rewrite sapp_cons, sapp_nil_l. split; [|done]. cbn. apply H.
Qed.

Lemma visible_trimmed (v : string) :
  str_all visible v = true → trimmed v ∧ ¬ occurs (String "000" "") v.
Proof.
  intros H. split; [split|].
  - destruct v as [|c v]; [done|]. cbn in *. unfold visible in H.
    by destruct (isspace c).
  - intros u c ->. rewrite str_all_app in H. cbn in H. unfold visible in H.
    destruct (isspace c); [|done]. by rewrite !andb_false_r in H.
  - intros (a & b & ->). rewrite !str_all_app in H. cbn in H.
    by rewrite !andb_false_r in H.
Qed.

Lemma trimmed_strip (v : string) : trimmed v → strip v = v.
Proof.
  intros H. apply strip_spec. split; [done|]. exists "", "".
  by rewrite sapp_nil_l, sapp_nil_r.
Qed.

(** Whatever the value is, a validated title is not blank, has no white
    space at its ends and no NUL, and validates to itself. *)
Lemma CharField_valid (data : JsonValue) (v : string) :
  CharField_run_validation data = Some v →
  v ≠ "" ∧ trimmed v ∧ ¬ occurs (String "000" "") v ∧
  CharField_run_validation (JString v) = Some v.
Proof.
  assert (v ≠ "" → trimmed v → ¬ occurs (String "000" "") v →
    v ≠ "" ∧ trimmed v ∧ ¬ occurs (String "000" "") v ∧
    CharField_run_validation (JString v) = Some v) as Hv.
  { intros H0 Ht Hn. split_and!; [done..|]. apply CharField_string.
    rewrite trimmed_strip by done. split_and!; [done| |done].
    by rewrite <- strip_blank, trimmed_strip. }
  destruct data as [| |n|s|]; try done.
  - intros [= <-]. destruct (pretty_Z_visible n) as [H1 H2].
    destruct (visible_trimmed _ H1). by apply Hv.
  - intros (-> & Hb & Hn)%CharField_string.
    apply Hv; [by rewrite strip_blank | apply strip_trimmed | done].
Qed.
