(* ===== verification/Transcript.v ===== *)
(** * Transcript: the messages of one conversation

    [Message] is the row of [src/conversations/models.py] the analyzer
    reads: [sender], [text], [timestamp] (microseconds).  [user_msgs] and
    [ai_msgs] are the two list comprehensions at the head of
    [analyze_conversations]; [order_by_timestamp] is
    [order_by('timestamp')], modelled as a stable insertion sort (the
    database leaves the order of equal timestamps open; every theorem
    that needs the order uses only that the result is sorted and is a
    permutation). *)

From stdpp Require Import sorting.
From S2P Require Import Prelude.

Record Message : Type := {
  sender : string;
  text : string;
  timestamp : Z;
}.

#[export] Instance Message_eq_dec : EqDecision Message.
Proof. solve_decision. Defined.

(** [[m.text for m in messages if m.sender == 'user']] *)
Definition user_msgs (messages : list Message) : list string :=
  text <$> filter (λ m, sender m = "user") messages.

(** [[m.text for m in messages if m.sender == 'ai']] *)
Definition ai_msgs (messages : list Message) : list string :=
  text <$> filter (λ m, sender m = "ai") messages.

(** [delta.total_seconds()] for a difference of [delta] microseconds *)
Definition total_seconds (delta : Z) : Q := (inject_Z delta / inject_Z (10 ^ 6))%Q.

(** Ascending timestamps. *)
Definition ts_le (m1 m2 : Message) : Prop := (timestamp m1 ≤ timestamp m2)%Z.

#[export] Instance ts_le_dec : RelDecision ts_le.
Proof. intros m1 m2. unfold ts_le. apply _. Defined.

Fixpoint insert_by_timestamp (m : Message) (l : list Message) : list Message :=
  match l with
  | [] => [m]
  | x :: l' => if decide (ts_le m x) then m :: l else x :: insert_by_timestamp m l'
  end.

(** [messages.order_by('timestamp')] *)
Definition order_by_timestamp (messages : list Message) : list Message :=
  foldr insert_by_timestamp [] messages.

(** ** The comprehensions *)

Lemma user_msgs_cons (m : Message) (ms : list Message) :
  user_msgs (m :: ms) =
  if decide (sender m = "user") then text m :: user_msgs ms else user_msgs ms.
Proof. unfold user_msgs. rewrite filter_cons. by case_decide. Qed.

Lemma ai_msgs_cons (m : Message) (ms : list Message) :
  ai_msgs (m :: ms) =
  if decide (sender m = "ai") then text m :: ai_msgs ms else ai_msgs ms.
Proof. unfold ai_msgs. rewrite filter_cons. by case_decide. Qed.

Lemma elem_of_user_msgs (t : string) (ms : list Message) :
  t ∈ user_msgs ms ↔ ∃ m, m ∈ ms ∧ sender m = "user" ∧ text m = t.
Proof.
  unfold user_msgs. rewrite list_elem_of_fmap. setoid_rewrite list_elem_of_filter.
  split; intros (m & ?); exists m; intuition.
Qed.

Lemma elem_of_ai_msgs (t : string) (ms : list Message) :
  t ∈ ai_msgs ms ↔ ∃ m, m ∈ ms ∧ sender m = "ai" ∧ text m = t.
Proof.
  unfold ai_msgs. rewrite list_elem_of_fmap. setoid_rewrite list_elem_of_filter.
  split; intros (m & ?); exists m; intuition.
Qed.

Lemma user_msgs_app (l k : list Message) :
  user_msgs (l ++ k) = user_msgs l ++ user_msgs k.
Proof. unfold user_msgs. by rewrite filter_app, fmap_app. Qed.

Lemma ai_msgs_app (l k : list Message) :
  ai_msgs (l ++ k) = ai_msgs l ++ ai_msgs k.
Proof. unfold ai_msgs. by rewrite filter_app, fmap_app. Qed.

Lemma user_msgs_nil_iff (ms : list Message) :
  user_msgs ms = [] ↔ Forall (λ m, sender m ≠ "user") ms.
Proof.
  induction ms as [|m ms IH]; [done|].
  rewrite user_msgs_cons, Forall_cons. case_decide; [|by rewrite IH; intuition].
  split; [done | by intros []].
Qed.

Lemma ai_msgs_nil_iff (ms : list Message) :
  ai_msgs ms = [] ↔ Forall (λ m, sender m ≠ "ai") ms.
Proof.
  induction ms as [|m ms IH]; [done|].
  rewrite ai_msgs_cons, Forall_cons. case_decide; [|by rewrite IH; intuition].
  split; [done | by intros []].
Qed.

Lemma msgs_length (ms : list Message) :
  (length (user_msgs ms) + length (ai_msgs ms) ≤ length ms)%nat.
Proof.
  induction ms as [|m ms IH]; [done|].
  rewrite user_msgs_cons, ai_msgs_cons. repeat case_decide; simpl; try lia.
  congruence.
Qed.

(** ** Ordering *)

#[export] Instance ts_le_trans : Transitive ts_le.
Proof. unfold ts_le. intros ???; lia. Qed.

#[export] Instance ts_le_total : Total ts_le.
Proof. unfold ts_le. intros ??; lia. Qed.

#[export] Instance ts_le_refl : Reflexive ts_le.
Proof. unfold ts_le. intros ?; lia. Qed.

Lemma insert_by_timestamp_perm (m : Message) (l : list Message) :
  insert_by_timestamp m l ≡ₚ m :: l.
Proof.
  induction l as [|x l IH]; simpl; [done|].
  case_decide; [done|]. by rewrite IH, Permutation_swap.
Qed.

Lemma insert_by_timestamp_sorted (m : Message) (l : list Message) :
  StronglySorted ts_le l → StronglySorted ts_le (insert_by_timestamp m l).
Proof.
  induction 1 as [|x l Hl IH Hx]; simpl.
  - repeat constructor.
  - case_decide as Hm.
    + constructor; [by constructor|].
      constructor; [done|]. eapply Forall_impl; [exact Hx|].
      intros y ?. by etrans.
    + constructor; [done|]. rewrite insert_by_timestamp_perm.
      constructor; [|done]. by destruct (total ts_le m x).
Qed.

Lemma insert_by_timestamp_id (m : Message) (l : list Message) :
  Forall (ts_le m) l → insert_by_timestamp m l = m :: l.
Proof. intros H. destruct H; simpl; [done|]. by rewrite decide_True. Qed.

Lemma order_by_timestamp_perm (ms : list Message) : order_by_timestamp ms ≡ₚ ms.
Proof.
  induction ms as [|m ms IH]; simpl; [done|].
  by rewrite insert_by_timestamp_perm, IH.
Qed.

Lemma order_by_timestamp_sorted (ms : list Message) :
  StronglySorted ts_le (order_by_timestamp ms).
Proof.
  induction ms as [|m ms IH]; simpl; [constructor|].
  by apply insert_by_timestamp_sorted.
Qed.

(** A list that is already in order is returned as it is. *)
Lemma order_by_timestamp_id (ms : list Message) :
  StronglySorted ts_le ms → order_by_timestamp ms = ms.
Proof.
  induction 1 as [|m ms Hs IH Hm]; simpl; [done|].
  rewrite IH. by apply insert_by_timestamp_id.
Qed.

Lemma total_seconds_nonneg (delta : Z) : (0 ≤ delta)%Z → (0 <= total_seconds delta)%Q.
Proof.
  intros H. unfold total_seconds. apply Qle_shift_div_l; [done|].
  rewrite Qmult_0_l. change 0%Q with (inject_Z 0). by rewrite <- Zle_Qle.
Qed.

(** In a sorted list every adjacent pair is in order. *)
Lemma sorted_adjacent (ms : list Message) (m1 m2 : Message) :
  StronglySorted ts_le ms → (m1, m2) ∈ adjacent ms → ts_le m1 m2.
Proof.
  intros Hs (l1 & l2 & ->)%adjacent_app_inv.
  apply StronglySorted_app_1_r in Hs.
  apply StronglySorted_inv in Hs as [_ H]. by apply Forall_cons in H as [? _].
Qed.

(** ** Main results *)

(** [order_by('timestamp')] returns the same messages in ascending
    timestamp order, and leaves a list that is already in order as it
    is. *)
Theorem order_by_timestamp_spec (ms : list Message) :
  order_by_timestamp ms ≡ₚ ms ∧
  StronglySorted ts_le (order_by_timestamp ms) ∧
  order_by_timestamp (order_by_timestamp ms) = order_by_timestamp ms.
Proof.
  split_and!; [apply order_by_timestamp_perm | apply order_by_timestamp_sorted|].
  apply order_by_timestamp_id, order_by_timestamp_sorted.
Qed.

(** The two comprehensions select by the sender label: a text is a user
    text (an assistant text) exactly when it is the text of a message sent
    by ["user"] (by ["ai"]); messages with any other label are in neither
    list and do not change them. *)
Lemma sender_filters_spec (ms : list Message) :
  (∀ t, t ∈ user_msgs ms ↔ ∃ m, m ∈ ms ∧ sender m = "user" ∧ text m = t) ∧
  (∀ t, t ∈ ai_msgs ms ↔ ∃ m, m ∈ ms ∧ sender m = "ai" ∧ text m = t) ∧
  user_msgs (filter (λ m, sender m = "user" ∨ sender m = "ai") ms) = user_msgs ms ∧
  ai_msgs (filter (λ m, sender m = "user" ∨ sender m = "ai") ms) = ai_msgs ms.
Proof.
  split_and!; [intros; apply elem_of_user_msgs | intros; apply elem_of_ai_msgs |..].
  - unfold user_msgs. f_equal. rewrite list_filter_filter.
    apply list_filter_iff. tauto.
  - unfold ai_msgs. f_equal. rewrite list_filter_filter.
    apply list_filter_iff. tauto.
Qed.
