(* ===== verification/Capabilities.v ===== *)
(** * Capabilities: the libraries the analyzer calls

    [src/conversations/analysis_logic.py] imports WordNet (through nltk)
    and TextBlob and calls [wn.synsets(word)], [syn.lemmas()],
    [lemma.name()] and [TextBlob(msg).sentiment.polarity].  Their code is
    not part of the repository: each is a typeclass here, whose one
    operation may raise (the corpus may be missing, a lookup may fail).
    [WordNetTotal] and [TextBlobLawful] state what the specification
    assumes of them.  [get_synonyms] and [are_semantically_same] are the
    two functions of the source defined on top of WordNet. *)

From Stdlib Require Import Ascii.
From stdpp Require Import gmap.
From S2P Require Import Prelude PyStr.

Local Open Scope Q_scope.

(* stdpp's solvers clear hypotheses that are already gone *)
#[local] Set Warnings "-clear-no-such-hyp".

(** [synsets word] is [wn.synsets(word)], each synset given by the names of
    its lemmas ([[l.name() for l in syn.lemmas()]]). *)
Class WordNet : Type := {
  synsets : string → result (list (list string));
}.

(** [polarity msg] is [TextBlob(msg).sentiment.polarity]. *)
Class TextBlob : Type := {
  polarity : string → result Q;
}.

(** Every lookup returns. *)
Class WordNetTotal (W : WordNet) : Prop := {
  synsets_total : ∀ w, ∃ l, synsets w = ok l;
}.

(** Every call returns a polarity in [-1, 1]. *)
Class TextBlobLawful (T : TextBlob) : Prop := {
  polarity_range : ∀ s, returns (polarity s) (λ p, -1 <= p <= 1);
}.

(** [lemma.name().lower().replace("_", " ")] *)
Definition lemma_form (name : string) : string :=
  replace_char "_"%char " "%char (lower name).

Definition get_synonyms `{W : WordNet} (word : string) : result (gset string) :=
  syns ← synsets word;
  ok (fold_left (λ synonyms syn,
        fold_left (λ synonyms lemma, synonyms ∪ {[ lemma_form lemma ]})
          syn synonyms)
      syns ∅).

Definition are_semantically_same `{W : WordNet} (word1 word2 : string) : result bool :=
  syn1 ← get_synonyms word1;
  syn2 ← get_synonyms word2;
  ok (negb (bool_decide (syn1 ## syn2))).

(** The synonym forms of a word, as a set: all lemma forms of all senses. *)
Definition synonym_forms (syns : list (list string)) : gset string :=
  list_to_set (lemma_form <$> mjoin syns).

(** The synonym set of a word when the lookup returns, empty otherwise. *)
Definition syn_set `{W : WordNet} (word : string) : gset string :=
  match synsets word with
  | inr syns => synonym_forms syns
  | inl _ => ∅
  end.

(** The two words share a synonym form. *)
Definition sem_same `{W : WordNet} (word1 word2 : string) : bool :=
  negb (bool_decide (syn_set word1 ## syn_set word2)).

(** ** Stand-ins used by the witnesses *)

(** A three-word lexicon. *)
#[export] Instance toy_wordnet : WordNet := {|
  synsets w :=
    ok (if decide (w = "crashed") then [["crash"; "break_down"]; ["Crash"]]
        else if decide (w = "broke") then [["break"; "Break_Down"]]
        else if decide (w = "sorry") then [["sorry"; "regretful"]]
        else [])
|}.

(** A lexicon whose corpus is missing: every lookup raises. *)
Definition missing_wordnet : WordNet := {| synsets _ := raise LookupError |}.

(** A polarity oracle that knows three words. *)
#[export] Instance toy_textblob : TextBlob := {|
  polarity s :=
    ok (if contains "thanks" (lower s) then 1 # 2
        else if contains "broken" (lower s) then - (1 # 2)
        else 0)
|}.

(** A polarity oracle whose corpus is missing: every call raises. *)
Definition missing_textblob : TextBlob := {| polarity _ := raise LookupError |}.

(** ** Lemmas *)

#[export] Instance toy_wordnet_total : WordNetTotal toy_wordnet.
Proof. split. intros w. by eexists. Qed.

#[export] Instance toy_textblob_lawful : TextBlobLawful toy_textblob.
Proof.
  split. intros s. apply returns_ok.
  destruct (contains "thanks" (lower s)); [lra|].
  destruct (contains "broken" (lower s)); lra.
Qed.

Section wordnet.
Context `{W : WordNet}.

Lemma synonyms_inner (syn : list string) (acc : gset string) :
  fold_left (λ synonyms lemma, synonyms ∪ {[ lemma_form lemma ]}) syn acc
  = acc ∪ list_to_set (lemma_form <$> syn).
Proof.
  revert acc. induction syn as [|x syn IH]; intros acc; simpl.
  - set_solver.
  - rewrite IH. set_solver.
Qed.

Lemma synonyms_outer (syns : list (list string)) (acc : gset string) :
  fold_left (λ synonyms syn,
    fold_left (λ synonyms lemma, synonyms ∪ {[ lemma_form lemma ]}) syn synonyms)
    syns acc
  = acc ∪ synonym_forms syns.
Proof.
  unfold synonym_forms. revert acc.
  induction syns as [|syn syns IH]; intros acc; simpl.
  - set_solver.
  - rewrite IH, synonyms_inner, fmap_app, list_to_set_app_L. set_solver.
Qed.

Lemma get_synonyms_ok (w : string) (syns : list (list string)) :
  synsets w = ok syns → get_synonyms w = ok (synonym_forms syns).
Proof.
  intros E. unfold get_synonyms. rewrite E, bind_ok, synonyms_outer.
  f_equal. set_solver.
Qed.

Lemma get_synonyms_raise (w : string) (e : exn) :
  synsets w = raise e → get_synonyms w = raise e.
Proof. intros E. unfold get_synonyms. by rewrite E. Qed.

Lemma get_synonyms_syn_set (w : string) :
  (∃ l, synsets w = ok l) → get_synonyms w = ok (syn_set w).
Proof.
  intros [l E]. rewrite (get_synonyms_ok w l E). unfold syn_set.
  by rewrite E.
Qed.

Lemma elem_of_synonym_forms (x : string) (syns : list (list string)) :
  x ∈ synonym_forms syns ↔
  ∃ syn name, syn ∈ syns ∧ name ∈ syn ∧ x = lemma_form name.
Proof.
  unfold synonym_forms. rewrite elem_of_list_to_set, list_elem_of_fmap.
  setoid_rewrite list_elem_of_join. split.
  - intros (name & -> & syn & ? & ?). by exists syn, name.
  - intros (syn & name & ? & ? & ->). exists name. eauto.
Qed.

Lemma sem_same_true (w1 w2 : string) :
  sem_same w1 w2 = true ↔ ∃ x, x ∈ syn_set w1 ∧ x ∈ syn_set w2.
Proof.
  unfold sem_same. rewrite negb_true_iff, bool_decide_eq_false.
  rewrite elem_of_disjoint. split.
  - intros H. apply dec_stable. intros Hn. apply H. intros x H1 H2.
    apply Hn. eauto.
  - intros (x & H1 & H2) H. by apply (H x).
Qed.

Lemma sem_same_sym (w1 w2 : string) : sem_same w1 w2 = sem_same w2 w1.
Proof.
  unfold sem_same. f_equal. apply bool_decide_ext. split; by symmetry.
Qed.

Lemma are_semantically_same_ok (w1 w2 : string) :
  (∃ l, synsets w1 = ok l) → (∃ l, synsets w2 = ok l) →
  are_semantically_same w1 w2 = ok (sem_same w1 w2).
Proof.
  intros H1 H2. unfold are_semantically_same.
  by rewrite (get_synonyms_syn_set w1 H1), (get_synonyms_syn_set w2 H2).
Qed.

End wordnet.

(** ** Main results *)

(** When both lookups return, [are_semantically_same] returns, and
    returns [True] exactly when a lemma name of some sense of the first
    word and a lemma name of some sense of the second have the same form
    (lower-cased, underscores as spaces). *)
Theorem are_semantically_same_spec `{W : WordNet} (w1 w2 : string)
    (s1 s2 : list (list string)) :
  synsets w1 = ok s1 → synsets w2 = ok s2 →
  returns (are_semantically_same w1 w2) (λ b,
    b = true ↔
    ∃ syn1 n1 syn2 n2, syn1 ∈ s1 ∧ n1 ∈ syn1 ∧ syn2 ∈ s2 ∧ n2 ∈ syn2 ∧
      lemma_form n1 = lemma_form n2).
Proof.
  intros E1 E2. rewrite are_semantically_same_ok by eauto. apply returns_ok.
  rewrite sem_same_true. unfold syn_set. rewrite E1, E2.
  setoid_rewrite elem_of_synonym_forms. split.
  - intros (x & (syn1 & n1 & ? & ? & ->) & (syn2 & n2 & ? & ? & ?)).
    by exists syn1, n1, syn2, n2.
  - intros (syn1 & n1 & syn2 & n2 & ? & ? & ? & ? & E).
    exists (lemma_form n1). split; [by exists syn1, n1|].
    exists syn2, n2. by rewrite E.
Qed.

Lemma are_semantically_same_spec_witness :
  returns (are_semantically_same "crashed" "broke") (λ b,
    b = true ↔
    ∃ syn1 n1 syn2 n2,
      syn1 ∈ [["crash"; "break_down"]; ["Crash"]] ∧ n1 ∈ syn1 ∧
      syn2 ∈ [["break"; "Break_Down"]] ∧ n2 ∈ syn2 ∧
      lemma_form n1 = lemma_form n2).
Proof. by apply (are_semantically_same_spec (W := toy_wordnet)). Defined.

(** A word the lexicon does not know has no synonym form: it is not
    semantically the same as any word, itself included, so it can match
    only through the test for identical words. *)
Lemma are_semantically_same_unknown `{W : WordNet} (w1 w2 : string)
    (s2 : list (list string)) :
  synsets w1 = ok [] → synsets w2 = ok s2 →
  are_semantically_same w1 w2 = ok false ∧
  are_semantically_same w2 w1 = ok false ∧
  are_semantically_same w1 w1 = ok false.
Proof.
  intros E1 E2. rewrite !are_semantically_same_ok by eauto.
  assert (syn_set w1 = ∅) as E by (unfold syn_set; by rewrite E1).
  unfold sem_same. rewrite E.
  split_and!; f_equal; apply negb_false_iff, bool_decide_eq_true; set_solver.
Qed.

Lemma are_semantically_same_unknown_witness :
  are_semantically_same "app" "crashed" = ok false ∧
  are_semantically_same "crashed" "app" = ok false ∧
  are_semantically_same "app" "app" = ok false.
Proof.
  by apply (are_semantically_same_unknown (W := toy_wordnet) "app" "crashed"
    [["crash"; "break_down"]; ["Crash"]]).
Defined.
