(* ===== verification/Lexical.v ===== *)
(** * Lexical: the scorers that match words and phrases

    [clarity_score], [accuracy_score], [empathy_score], [fallback_count]
    and [detect_resolution] of [src/conversations/analysis_logic.py], with
    the five phrase lists as the code writes them.  The reference
    predicates ([clear], [uncertain], [empathetic], [fallback],
    [resolved]) name the test each loop body makes; the theorems state each
    scorer in terms of them. *)

From S2P Require Import Prelude PyStr.

Local Open Scope Q_scope.

(** ** The lexicons *)

Definition uncertain_phrases : list string :=
  [ "maybe"; "not sure"; "i think"; "possibly"; "perhaps";
    "i believe"; "i'm not sure"; "it might be"; "it could be";
    "probably"; "i'm guessing"; "unsure"; "unclear" ].

Definition empathy_phrases : list string :=
  [ "sorry"; "apologize"; "my apologies"; "regret";
    "understand"; "i see"; "i hear"; "that makes sense";
    "i can imagine"; "that sounds";
    "don't worry"; "no problem"; "it's okay"; "not to worry";
    "i'm here to help"; "let me help"; "how can i assist";
    "we'll figure this out"; "we can work on this";
    "frustrating"; "annoying"; "disappointing"; "challenging";
    "thank you for sharing"; "appreciate you telling me" ].

Definition fallback_phrases : list string :=
  [ "i don't know"; "i don't understand"; "not sure"; "unsure";
    "i cannot help"; "i can't help"; "unable to help"; "cannot assist";
    "let me transfer"; "let me connect you"; "contact a human";
    "speak to an agent"; "outside my knowledge"; "beyond my capabilities" ].

Definition resolution_phrases : list string :=
  [ "thanks"; "thank you"; "great"; "perfect"; "awesome";
    "got it"; "that works"; "problem solved"; "it works";
    "resolved"; "fixed"; "working now"; "all set"; "done";
    "that helped"; "you helped"; "appreciate it" ].

Definition negative_phrases : list string :=
  [ "thanks for nothing"; "still not"; "doesn't work";
    "no help"; "useless"; "waste of time"; "never mind" ].

(** ** The scorers *)

Definition clarity_score (ai_messages : list string) : result Q :=
  if py_not ai_messages then ok 0
  else
    let clear_resp :=
      fold_left (λ clear_resp msg,
        let words := split msg in
        if (len words <=? 25)%Z && (len words >=? 3)%Z
        then (clear_resp + 1)%Z else clear_resp)
      ai_messages 0%Z in
    pydiv (inject_Z clear_resp) (inject_Z (len ai_messages)).

Definition accuracy_score (ai_messages : list string) : result Q :=
  if py_not ai_messages then ok 0.5
  else
    let score :=
      fold_left (λ score msg,
        if any_in uncertain_phrases (lower msg) then score + 0.5 else score + 1)
      ai_messages 0 in
    pydiv score (inject_Z (len ai_messages)).

Definition empathy_score (ai_messages : list string) : result Q :=
  if py_not ai_messages then ok 0
  else
    let score :=
      fold_left (λ score msg,
        if any_in empathy_phrases (lower msg) then (score + 1)%Z else score)
      ai_messages 0%Z in
    pydiv (inject_Z score) (inject_Z (len ai_messages)).

Definition fallback_count (ai_messages : list string) : Z :=
  fold_left (λ count msg,
    if any_in fallback_phrases (lower msg) then (count + 1)%Z else count)
  ai_messages 0%Z.

Definition detect_resolution (user_messages : list string) : result bool :=
  if py_not user_messages then ok false
  else
    x ← getitem user_messages (-1);
    let last := [x] in
    _ ← (if (len last >? 1)%Z
         then y ← getitem user_messages (-2); ok (last ++ [y])
         else ok last);
    r ← for_return (λ msg,
          if any_in resolution_phrases (lower msg) then
            if negb (any_in negative_phrases (lower msg)) then ok (Some true)
            else ok None
          else ok None)
        user_messages;
    match r with
    | Some b => ok b
    | None => ok false
    end.

(** ** The tests the loop bodies make *)

(** Between 3 and 25 words. *)
Definition clear (msg : string) : bool :=
  (len (split msg) <=? 25)%Z && (len (split msg) >=? 3)%Z.

Definition uncertain (msg : string) : bool := any_in uncertain_phrases (lower msg).

Definition empathetic (msg : string) : bool := any_in empathy_phrases (lower msg).

Definition fallback (msg : string) : bool := any_in fallback_phrases (lower msg).

(** A resolution phrase and, in the same message, no negative phrase. *)
Definition resolved (msg : string) : bool :=
  any_in resolution_phrases (lower msg) && negb (any_in negative_phrases (lower msg)).

(** ** Lemmas *)

Lemma clear_spec (msg : string) :
  clear msg = true ↔ (3 ≤ length (split msg) ≤ 25)%nat.
Proof. unfold clear, len. rewrite andb_true_iff, Z.leb_le, Z.geb_le. lia. Qed.

Lemma resolved_spec (msg : string) :
  resolved msg = true ↔
  (∃ w, w ∈ resolution_phrases ∧ occurs w (lower msg)) ∧
  (∀ n, n ∈ negative_phrases → ¬ occurs n (lower msg)).
Proof.
  unfold resolved.
  by rewrite andb_true_iff, negb_true_iff, any_in_spec, any_in_false.
Qed.

(** The phrases are lower-case already, so that matching them against
    [msg.lower()] ignores the case of the message only. *)
Lemma lexicons_lower :
  Forall (λ w, lower w = w)
    (uncertain_phrases ++ empathy_phrases ++ fallback_phrases ++
     resolution_phrases ++ negative_phrases).
Proof. repeat constructor. Qed.

Lemma clarity_score_eq (ms : list string) :
  ms ≠ [] → clarity_score ms = ok (fraction clear ms).
Proof.
  intros H. unfold clarity_score. rewrite py_not_false by done.
  rewrite (count_loop clear), Z.add_0_l. by apply pydiv_len.
Qed.

Lemma empathy_score_eq (ms : list string) :
  ms ≠ [] → empathy_score ms = ok (fraction empathetic ms).
Proof.
  intros H. unfold empathy_score. rewrite py_not_false by done.
  rewrite (count_loop empathetic), Z.add_0_l. by apply pydiv_len.
Qed.

Lemma fallback_count_eq (ms : list string) : fallback_count ms = count fallback ms.
Proof. unfold fallback_count. by rewrite (count_loop fallback), Z.add_0_l. Qed.

(** The accuracy of a non-empty list: one minus half the share of the
    uncertain messages. *)
Lemma accuracy_score_eq (ms : list string) :
  ms ≠ [] →
  returns (accuracy_score ms) (λ q, q == 1 - fraction uncertain ms / 2).
Proof.
  intros H. unfold accuracy_score. rewrite py_not_false by done. cbv zeta.
  rewrite pydiv_len by done. apply returns_ok.
  change (fold_left _ ms 0)
    with (fold_left (λ s x, if uncertain x then s + 0.5 else s + 1) ms 0).
  rewrite weighted_loop. unfold fraction.
  pose proof (inject_len_pos ms H). field. lra.
Qed.

(** The loop of [detect_resolution] returns [True] at the first resolved
    message. *)
Lemma resolution_loop (ms : list string) :
  for_return (λ msg,
    if any_in resolution_phrases (lower msg) then
      if negb (any_in negative_phrases (lower msg)) then ok (Some true)
      else ok None
    else ok None) ms
  = ok (if existsb resolved ms then Some true else None).
Proof.
  induction ms as [|m ms IH]; [done|]. cbn [for_return existsb].
  unfold resolved at 1.
  destruct (any_in resolution_phrases (lower m)),
    (any_in negative_phrases (lower m)); simpl; done.
Qed.

Lemma detect_resolution_eq (ms : list string) :
  detect_resolution ms = ok (existsb resolved ms).
Proof.
  unfold detect_resolution. destruct (decide (ms = [])) as [->|Hne]; [done|].
  rewrite py_not_false, getitem_last by done.
  destruct (last ms) as [x|] eqn:E; [|by apply last_None in E].
  rewrite bind_ok. cbv zeta. change (len [x] >? 1)%Z with false. cbv iota.
  rewrite bind_ok, resolution_loop, bind_ok. by destruct (existsb resolved ms).
Qed.

Lemma count_pos_iff {A : Type} (p : A → bool) (l : list A) :
  (0 < count p l)%Z ↔ ∃ x, x ∈ l ∧ p x = true.
Proof.
  induction l as [|x l IH].
  - split; [done | by intros (? & ?%elem_of_nil & _)].
  - rewrite count_cons. pose proof (count_bounds p l). split.
    + destruct (p x) eqn:E; [intros _; exists x; split; [left | done]|].
      intros H1. destruct (proj1 IH) as (y & ? & ?); [lia|].
      exists y. split; [by right | done].
    + intros (y & [->|Hy]%elem_of_cons & Hp); [rewrite Hp; lia|].
      assert (0 < count p l)%Z by (apply IH; eauto). destruct (p x); lia.
Qed.

Lemma existsb_elem_of {A : Type} (p : A → bool) (l : list A) :
  existsb p l = true ↔ ∃ x, x ∈ l ∧ p x = true.
Proof. rewrite existsb_exists. by setoid_rewrite list_elem_of_In. Qed.

Lemma clarity_score_closed (ms : list string) :
  clarity_score ms = ok (if py_not ms then 0 else fraction clear ms).
Proof.
  destruct (decide (ms = [])) as [->|H]; [done|].
  by rewrite clarity_score_eq, py_not_false.
Qed.

Lemma empathy_score_closed (ms : list string) :
  empathy_score ms = ok (if py_not ms then 0 else fraction empathetic ms).
Proof.
  destruct (decide (ms = [])) as [->|H]; [done|].
  by rewrite empathy_score_eq, py_not_false.
Qed.

Lemma accuracy_score_returns (ms : list string) :
  returns (accuracy_score ms) (λ q,
    q == (if py_not ms then 1 # 2 else 1 - fraction uncertain ms / 2) ∧
    1 # 2 <= q <= 1).
Proof.
  destruct (decide (ms = [])) as [->|H].
  { change (accuracy_score []) with (ok 0.5). apply returns_ok.
    cbn [py_not]. split; [reflexivity | lra]. }
  rewrite py_not_false by done.
  eapply returns_weaken; [|by apply accuracy_score_eq].
  intros q Hq. split; [done|]. pose proof (fraction_bounds uncertain ms H) as Hf.
  revert Hq Hf. generalize (fraction uncertain ms). intros; lraQ.
Qed.

(** A share, or the default 0 of the empty list, lies between 0 and 1. *)
Lemma fraction_default_bounds {A : Type} (p : A → bool) (l : list A) :
  0 <= (if py_not l then 0 else fraction p l) <= 1.
Proof.
  destruct (decide (l = [])) as [->|H]; [cbn; lra|].
  rewrite py_not_false by done. by apply fraction_bounds.
Qed.

(** ** Main results *)

(** C8: [clarity_score] never raises; it is 0 on no messages and otherwise
    the share of the messages with between 3 and 25 words, so it lies
    between 0 and 1.  It is 1 exactly when there is at least one message
    and every message has between 3 and 25 words; on no messages it is
    0, not 1. *)
Theorem clarity_score_spec (ms : list string) :
  returns (clarity_score ms) (λ q,
    q = (if py_not ms then 0 else fraction clear ms) ∧ 0 <= q <= 1 ∧
    (q == 1 ↔ ms ≠ [] ∧ Forall (λ m, 3 ≤ length (split m) ≤ 25)%nat ms)).
Proof.
  rewrite clarity_score_closed. apply returns_ok.
  split_and!; [done | apply fraction_default_bounds..|].
  destruct (decide (ms = [])) as [->|H]; [split; [done | by intros [? ?]]|].
  rewrite py_not_false, fraction_one_iff by done.
  setoid_rewrite clear_spec. by intuition.
Qed.

(** C12: [accuracy_score] never raises; it is 1/2 on no messages and
    otherwise one minus half the share of the messages with an uncertainty
    phrase, so it lies between 1/2 and 1. *)
Theorem accuracy_score_spec (ms : list string) :
  returns (accuracy_score ms) (λ q,
    q == (if py_not ms then 1 # 2 else 1 - fraction uncertain ms / 2) ∧
    1 # 2 <= q <= 1).
Proof. apply accuracy_score_returns. Qed.

(** C13: [empathy_score] never raises; it is 0 on no messages and otherwise
    the share of the messages that contain an empathy phrase, so it lies
    between 0 and 1. *)
Theorem empathy_score_spec (ms : list string) :
  returns (empathy_score ms) (λ q,
    q = (if py_not ms then 0 else fraction empathetic ms) ∧ 0 <= q <= 1).
Proof.
  rewrite empathy_score_closed. apply returns_ok.
  split; [done | apply fraction_default_bounds].
Qed.

(** C14: [fallback_count] is the number of messages that contain a fallback
    phrase, between 0 and the number of messages; it is positive exactly
    when some message contains a fallback phrase, ignoring case. *)
Theorem fallback_count_spec (ms : list string) :
  fallback_count ms = len (filter (λ m, fallback m = true) ms) ∧
  (0 ≤ fallback_count ms ≤ len ms)%Z ∧
  ((0 < fallback_count ms)%Z ↔
     ∃ m w, m ∈ ms ∧ w ∈ fallback_phrases ∧ occurs w (lower m)).
Proof.
  rewrite fallback_count_eq. split_and!; [done | apply count_bounds..|].
  rewrite count_pos_iff. unfold fallback. setoid_rewrite any_in_spec. split.
  - intros (m & ? & w & ? & ?). by exists m, w.
  - intros (m & w & ? & ? & ?). exists m. eauto.
Qed.

(** C7: [detect_resolution] never raises (the guard on the empty list keeps
    [user_messages[-1]] in range and the branch on [len(last) > 1] is never
    taken); the result is [True] exactly when some user message contains a
    resolution phrase and that same message contains no negative phrase. *)
Theorem detect_resolution_spec (ms : list string) :
  returns (detect_resolution ms) (λ b,
    b = true ↔
    ∃ m, m ∈ ms ∧
      (∃ w, w ∈ resolution_phrases ∧ occurs w (lower m)) ∧
      (∀ n, n ∈ negative_phrases → ¬ occurs n (lower m))).
Proof.
  rewrite detect_resolution_eq. apply returns_ok.
  rewrite existsb_elem_of. by setoid_rewrite resolved_spec.
Qed.

(** A resolved message anywhere decides the result: negative phrases in
    other messages, later ones included, do not change it. *)
Corollary detect_resolution_any_position (l k : list string) (m : string) :
  resolved m = true → detect_resolution (l ++ m :: k) = ok true.
Proof.
  intros H. rewrite detect_resolution_eq, existsb_app. simpl.
  by rewrite H, orb_true_r.
Qed.
