(* ===== verification/Pairs.v ===== *)
(** * Pairs: the scorers that walk adjacent messages

    [completeness_score], [average_response_time] and [relevance_score] of
    [src/conversations/analysis_logic.py] run [for i in
    range(len(messages) - 1)] and read [messages[i]] and [messages[i+1]].
    The definitions keep the index loop, the two reads (the second only
    when the first test holds, as [and] and the nested [if] evaluate) and
    the accumulators.  The lemmas turn each loop into a loop over
    [adjacent messages], from which the closed forms follow. *)

From stdpp Require Import sorting.
From S2P Require Import Prelude PyStr Transcript Capabilities.

Local Open Scope Q_scope.

Definition completeness_score (messages : list Message) : result Q :=
  r ← for_return (λ i,
        mi ← getitem messages i;
        if decide (sender mi = "user") then
          mj ← getitem messages (i + 1);
          if decide (sender mj = "user") then ok (Some 0.5) else ok None
        else ok None)
      (py_range (len messages - 1));
  match r with
  | Some v => ok v
  | None => ok 1
  end.

Definition average_response_time (messages : list Message) : result (option Q) :=
  times ← foldM (λ times i,
        mi ← getitem messages i;
        if decide (sender mi = "user") then
          mj ← getitem messages (i + 1);
          if decide (sender mj = "ai") then
            let t1 := timestamp mi in
            let t2 := timestamp mj in
            let diff := total_seconds (t2 - t1) in
            ok (times ++ [diff])
          else ok times
        else ok times)
      (py_range (len messages - 1)) [];
  if py_not times then ok None
  else q ← pydiv (Qsum times) (inject_Z (len times)); ok (Some q).

Definition relevance_score `{W : WordNet} (messages : list Message) : result Q :=
  '(relevance_sum, pairs) ← foldM (λ '(relevance_sum, pairs) i,
        mi ← getitem messages i;
        if decide (sender mi = "user") then
          mj ← getitem messages (i + 1);
          if decide (sender mj = "ai") then
            let user_words := split (lower (text mi)) in
            let ai_words := split (lower (text mj)) in
            score ← foldM (λ score (i1 : string),
                      foldM (λ score (i2 : string),
                        b ← (if decide (i1 = i2) then ok true
                             else are_semantically_same i1 i2);
                        ok (if b : bool then (score + 1)%Z else score))
                      ai_words score)
                    user_words 0%Z;
            let total_possible := len user_words in
            q ← pydiv (inject_Z score) (inject_Z (total_possible + 1));
            ok (relevance_sum + q, (pairs + 1)%Z)
          else ok (relevance_sum, pairs)
        else ok (relevance_sum, pairs))
      (py_range (len messages - 1)) (0, 0%Z);
  if (pairs =? 0)%Z then ok 1 else pydiv relevance_sum (inject_Z pairs).

(** ** Reference definitions *)

(** A user message directly followed by an assistant message. *)
Definition is_exchange (p : Message * Message) : Prop :=
  sender p.1 = "user" ∧ sender p.2 = "ai".

#[export] Instance is_exchange_dec (p : Message * Message) : Decision (is_exchange p).
Proof. unfold is_exchange. apply _. Defined.

Definition exchanges (messages : list Message) : list (Message * Message) :=
  filter is_exchange (adjacent messages).

(** A user message directly followed by another user message. *)
Definition is_double_user (p : Message * Message) : Prop :=
  sender p.1 = "user" ∧ sender p.2 = "user".

#[export] Instance is_double_user_dec (p : Message * Message) :
  Decision (is_double_user p).
Proof. unfold is_double_user. apply _. Defined.

(** The latency of an exchange, in seconds. *)
Definition latency (p : Message * Message) : Q :=
  total_seconds (timestamp p.2 - timestamp p.1).

(** The words are identical or share a synonym form. *)
Definition word_match `{W : WordNet} (w1 w2 : string) : bool :=
  bool_decide (w1 = w2) || sem_same w1 w2.

(** The number of pairs (user word, assistant word) that match. *)
Definition matches `{W : WordNet} (user_words ai_words : list string) : Z :=
  count (λ p, word_match p.1 p.2) (list_prod user_words ai_words).

(** The computation the loop body runs on an exchange: the two word loops
    and the division. *)
Definition exchange_scoreM `{W : WordNet} (p : Message * Message) : result Q :=
  let user_words := split (lower (text p.1)) in
  let ai_words := split (lower (text p.2)) in
  score ← foldM (λ score (i1 : string),
            foldM (λ score (i2 : string),
              b ← (if decide (i1 = i2) then ok true
                   else are_semantically_same i1 i2);
              ok (if b : bool then (score + 1)%Z else score))
            ai_words score)
          user_words 0%Z;
  let total_possible := len user_words in
  pydiv (inject_Z score) (inject_Z (total_possible + 1)).

(** The score of one exchange. *)
Definition pair_score `{W : WordNet} (p : Message * Message) : Q :=
  let user_words := split (lower (text p.1)) in
  let ai_words := split (lower (text p.2)) in
  inject_Z (matches user_words ai_words) / inject_Z (len user_words + 1).

(** ** Reading [messages[i]] and [messages[i+1]] *)

(** The two guarded reads of a loop body, at an index where both messages
    exist: the body runs [f] on the pair when the senders are ["user"] and
    [s2], and [d] otherwise. *)
Lemma read_pair {T : Type} (ms : list Message) (i : nat) (x y : Message)
    (s2 : string) (f : Message → Message → result T) (d : result T) :
  ms !! i = Some x → ms !! S i = Some y →
  (mi ← getitem ms (Z.of_nat i);
   if decide (sender mi = "user") then
     mj ← getitem ms (Z.of_nat i + 1);
     if decide (sender mj = s2) then f mi mj else d
   else d)
  = if decide (sender x = "user" ∧ sender y = s2) then f x y else d.
Proof.
  intros Hx Hy. rewrite (getitem_ok _ _ _ Hx), bind_ok.
  destruct (decide (sender x = "user")).
  - rewrite (getitem_succ_ok _ _ _ Hy), bind_ok.
    destruct (decide (sender y = s2)).
    + by rewrite decide_True.
    + rewrite decide_False; [done | by intros []].
  - rewrite decide_False; [done | by intros []].
Qed.

(** ** [completeness_score] *)

Lemma head_omap_exists {A B : Type} (P : A → Prop) `{∀ x, Decision (P x)}
    (v : B) (l : list A) :
  head (omap (λ x, if decide (P x) then Some v else None) l)
  = if decide (Exists P l) then Some v else None.
Proof.
  induction l as [|x l IH]; [done|]. cbn [omap list_omap].
  destruct (decide (P x)) as [Hx|Hx]; cbn.
  - rewrite decide_True; [done | by left].
  - rewrite IH. apply decide_ext. rewrite Exists_cons. tauto.
Qed.

Lemma completeness_score_eq (ms : list Message) :
  completeness_score ms
  = ok (if decide (Exists is_double_user (adjacent ms)) then 0.5 else 1).
Proof.
  unfold completeness_score.
  rewrite (for_return_range_adjacent _
    (λ p, ok (if decide (is_double_user p) then Some 0.5 else None))).
  - rewrite for_return_pure, head_omap_exists, bind_ok. by case_decide.
  - intros i x y Hx Hy. rewrite (read_pair ms i x y) by done.
    rewrite (decide_ext _ (is_double_user (x, y))) by done. by case_decide.
Qed.

Lemma Exists_adjacent (P : Message * Message → Prop) (ms : list Message) :
  Exists P (adjacent ms) ↔
  ∃ i m1 m2, ms !! i = Some m1 ∧ ms !! S i = Some m2 ∧ P (m1, m2).
Proof.
  rewrite Exists_exists. split.
  - intros ([m1 m2] & (i & ? & ?)%adjacent_elem_of & ?). by exists i, m1, m2.
  - intros (i & m1 & m2 & ? & ? & ?). exists (m1, m2).
    split; [apply adjacent_elem_of; eauto | done].
Qed.

(** ** [average_response_time] *)

Lemma collect_loop {A B : Type} (P : A → Prop) `{∀ x, Decision (P x)}
    (f : A → B) (l : list A) (acc : list B) :
  foldM (λ acc x, if decide (P x) then ok (acc ++ [f x]) else ok acc) l acc
  = ok (acc ++ (f <$> filter P l)).
Proof.
  revert acc. induction l as [|x l IH]; intros acc; cbn [foldM].
  - by rewrite filter_nil, app_nil_r.
  - rewrite filter_cons. destruct (decide (P x)); rewrite bind_ok, IH; [|done].
    by rewrite fmap_cons, <- (assoc_L (++)).
Qed.

Lemma response_times_eq (ms : list Message) :
  foldM (λ times i,
    mi ← getitem ms i;
    if decide (sender mi = "user") then
      mj ← getitem ms (i + 1);
      if decide (sender mj = "ai") then
        let t1 := timestamp mi in
        let t2 := timestamp mj in
        let diff := total_seconds (t2 - t1) in
        ok (times ++ [diff])
      else ok times
    else ok times) (py_range (len ms - 1)) []
  = ok (latency <$> exchanges ms).
Proof.
  rewrite (foldM_range_adjacent _
    (λ times p, if decide (is_exchange p) then ok (times ++ [latency p]) else ok times)).
  - by rewrite collect_loop.
  - intros times i x y Hx Hy. cbv zeta.
    rewrite (read_pair ms i x y "ai"
      (λ mi mj, ok (times ++ [total_seconds (timestamp mj - timestamp mi)])))
      by done.
    by rewrite (decide_ext _ (is_exchange (x, y))).
Qed.

Lemma average_response_time_eq (ms : list Message) :
  average_response_time ms =
  ok (let times := latency <$> exchanges ms in
      if py_not times then None
      else Some (Qsum times / inject_Z (len times))).
Proof.
  unfold average_response_time. rewrite response_times_eq, bind_ok. cbv zeta.
  destruct (latency <$> exchanges ms) as [|t ts] eqn:E; [done|].
  cbn [py_not]. by rewrite pydiv_len.
Qed.

Lemma filter_nil_not_exists {A : Type} (P : A → Prop) `{∀ x, Decision (P x)}
    (l : list A) :
  filter P l = [] ↔ ¬ Exists P l.
Proof.
  rewrite <- Forall_Exists_neg. induction l as [|x l IH]; [done|].
  rewrite filter_cons, Forall_cons. case_decide.
  - split; [done | by intros []].
  - rewrite IH. tauto.
Qed.

Lemma exchanges_nil_iff (ms : list Message) :
  exchanges ms = [] ↔
  ¬ ∃ i m1 m2, ms !! i = Some m1 ∧ ms !! S i = Some m2 ∧
      sender m1 = "user" ∧ sender m2 = "ai".
Proof.
  unfold exchanges. rewrite filter_nil_not_exists, (Exists_adjacent is_exchange).
  done.
Qed.

(** ** [relevance_score] *)

Section relevance_any.
Context `{W : WordNet}.

(** The loop over messages is a loop over the adjacent pairs that runs
    [exchange_scoreM] on the exchanges, whatever the lexicon does. *)
Lemma relevance_loop_any (ms : list Message) :
  foldM (λ '(relevance_sum, pairs) i,
    mi ← getitem ms i;
    if decide (sender mi = "user") then
      mj ← getitem ms (i + 1);
      if decide (sender mj = "ai") then
        let user_words := split (lower (text mi)) in
        let ai_words := split (lower (text mj)) in
        score ← foldM (λ score (i1 : string),
                  foldM (λ score (i2 : string),
                    b ← (if decide (i1 = i2) then ok true
                         else are_semantically_same i1 i2);
                    ok (if b : bool then (score + 1)%Z else score))
                  ai_words score)
                user_words 0%Z;
        let total_possible := len user_words in
        q ← pydiv (inject_Z score) (inject_Z (total_possible + 1));
        ok (relevance_sum + q, (pairs + 1)%Z)
      else ok (relevance_sum, pairs)
    else ok (relevance_sum, pairs)) (py_range (len ms - 1)) (0, 0%Z)
  = foldM (λ '(relevance_sum, pairs) p,
      if decide (is_exchange p)
      then q ← exchange_scoreM p; ok (relevance_sum + q, (pairs + 1)%Z)
      else ok (relevance_sum, pairs)) (adjacent ms) (0, 0%Z).
Proof.
  apply foldM_range_adjacent. intros [relevance_sum pairs] i x y Hx Hy.
  rewrite (read_pair ms i x y "ai" (λ mi mj, _)) by done.
  rewrite (decide_ext _ (is_exchange (x, y))) by done.
  case_decide; [|done]. unfold exchange_scoreM. cbv zeta.
  by rewrite bind_assoc.
Qed.

(** Without an exchange the loop leaves its accumulators as they are. *)
Lemma relevance_fold_none (l : list (Message * Message)) (s : Q) (n : Z) :
  Forall (λ p, ¬ is_exchange p) l →
  foldM (λ '(relevance_sum, pairs) p,
    if decide (is_exchange p)
    then q ← exchange_scoreM p; ok (relevance_sum + q, (pairs + 1)%Z)
    else ok (relevance_sum, pairs)) l (s, n)
  = ok (s, n).
Proof.
  induction 1 as [|p l Hp _ IH]; [done|]. cbn [foldM].
  by rewrite decide_False, bind_ok.
Qed.

(** A failed lookup on the first pair of different words ends the
    computation of the exchange. *)
Lemma exchange_scoreM_raise (p : Message * Message) (u a : string)
    (us as_ : list string) (e : exn) :
  split (lower (text p.1)) = u :: us →
  split (lower (text p.2)) = a :: as_ →
  u ≠ a → synsets u = raise e → exchange_scoreM p = raise e.
Proof.
  intros Hu Ha Hne E. unfold exchange_scoreM. cbv zeta.
  rewrite Hu, Ha. cbn [foldM].
  rewrite decide_False by done. unfold are_semantically_same.
  by rewrite (get_synonyms_raise u e E).
Qed.

End relevance_any.

Section relevance.
Context `{W : WordNet} {WT : WordNetTotal W}.

(** Identical words match without a lookup; other words match when the two
    lookups return sets that meet. *)
Lemma same_word_ok (i1 i2 : string) :
  (if decide (i1 = i2) then ok true else are_semantically_same i1 i2)
  = ok (word_match i1 i2).
Proof.
  unfold word_match. destruct (decide (i1 = i2)) as [->|Hne].
  - by rewrite bool_decide_eq_true_2.
  - rewrite bool_decide_eq_false_2 by done.
    apply are_semantically_same_ok; apply synsets_total.
Qed.

Lemma ai_words_loop (i1 : string) (ai_words : list string) (score : Z) :
  foldM (λ score (i2 : string),
    b ← (if decide (i1 = i2) then ok true else are_semantically_same i1 i2);
    ok (if b : bool then (score + 1)%Z else score)) ai_words score
  = ok (score + count (word_match i1) ai_words)%Z.
Proof.
  rewrite (foldM_ext_in _
    (λ score i2, ok (if word_match i1 i2 then (score + 1)%Z else score))).
  - by rewrite foldM_pure, count_loop.
  - intros s i2 _. by rewrite same_word_ok.
Qed.

Lemma matches_cons (u : string) (uw aw : list string) :
  matches (u :: uw) aw = (count (word_match u) aw + matches uw aw)%Z.
Proof. unfold matches. cbn [list_prod]. by rewrite count_app, count_fmap. Qed.

Lemma user_words_loop (user_words ai_words : list string) (score : Z) :
  foldM (λ score (i1 : string),
    foldM (λ score (i2 : string),
      b ← (if decide (i1 = i2) then ok true else are_semantically_same i1 i2);
      ok (if b : bool then (score + 1)%Z else score)) ai_words score)
    user_words score
  = ok (score + matches user_words ai_words)%Z.
Proof.
  revert score. induction user_words as [|u uw IH]; intros score; cbn [foldM].
  - unfold matches, count, len. simpl. f_equal. lia.
  - rewrite ai_words_loop, bind_ok, IH, matches_cons. f_equal. lia.
Qed.

Lemma matches_bounds (uw aw : list string) :
  (0 ≤ matches uw aw ≤ len uw * len aw)%Z.
Proof.
  unfold matches. pose proof (count_bounds (λ p, word_match p.1 p.2) (list_prod uw aw)) as H.
  unfold len in *. rewrite length_prod in H. lia.
Qed.

(** With a lexicon that returns, the computation on an exchange returns the
    pair score. *)
Lemma exchange_scoreM_ok (p : Message * Message) :
  exchange_scoreM p = ok (pair_score p).
Proof.
  unfold exchange_scoreM. cbv zeta.
  rewrite user_words_loop, bind_ok, Z.add_0_l, pydiv_Z_ok; [done|].
  pose proof (len_nonneg (split (lower (text p.1)))). lia.
Qed.

Lemma relevance_fold (l : list (Message * Message)) (s : Q) (n : Z) :
  foldM (λ '(relevance_sum, pairs) p,
    if decide (is_exchange p)
    then q ← exchange_scoreM p; ok (relevance_sum + q, (pairs + 1)%Z)
    else ok (relevance_sum, pairs)) l (s, n)
  = ok (fold_left Qplus (pair_score <$> filter is_exchange l) s,
        (n + len (filter is_exchange l))%Z).
Proof.
  revert s n. induction l as [|p l IH]; intros s n; cbn [foldM].
  - unfold len. simpl. do 2 f_equal. lia.
  - rewrite filter_cons. destruct (decide (is_exchange p)).
    + rewrite exchange_scoreM_ok, !bind_ok, IH, len_cons.
      cbn [fmap list_fmap fold_left]. do 2 f_equal. lia.
    + by rewrite bind_ok, IH.
Qed.

Lemma relevance_score_eq (ms : list Message) :
  relevance_score ms =
  ok (if py_not (exchanges ms) then 1
      else Qsum (pair_score <$> exchanges ms) / inject_Z (len (exchanges ms))).
Proof.
  unfold relevance_score. rewrite relevance_loop_any, relevance_fold, bind_ok.
  fold (exchanges ms). fold (Qsum (pair_score <$> exchanges ms)).
  destruct (decide (exchanges ms = [])) as [E|E]; [by rewrite E|].
  rewrite py_not_false by done.
  destruct (Z.eqb_spec (0 + len (exchanges ms)) 0).
  { exfalso. apply E, len_nil_iff. lia. }
  rewrite Z.add_0_l. by apply pydiv_len.
Qed.

Lemma pair_score_nonneg (p : Message * Message) : 0 <= pair_score p.
Proof.
  unfold pair_score. cbv zeta.
  pose proof (matches_bounds (split (lower (text p.1))) (split (lower (text p.2)))) as Hm.
  pose proof (len_nonneg (split (lower (text p.1)))) as Hl.
  apply Qle_shift_div_l.
  - change 0 with (inject_Z 0). rewrite <- Zlt_Qlt. lia.
  - rewrite Qmult_0_l. change 0 with (inject_Z 0). rewrite <- Zle_Qle. lia.
Qed.

Lemma relevance_closed_nonneg (ms : list Message) :
  0 <= (if py_not (exchanges ms) then 1
        else Qsum (pair_score <$> exchanges ms) / inject_Z (len (exchanges ms))).
Proof.
  destruct (decide (exchanges ms = [])) as [E|E]; [by rewrite E|].
  rewrite py_not_false by done.
  apply Qle_shift_div_l; [by apply inject_len_pos|]. rewrite Qmult_0_l.
  apply Qsum_nonneg, Forall_fmap, Forall_forall. intros p _.
  apply pair_score_nonneg.
Qed.

End relevance.

(** In ascending timestamp order no latency is negative, and neither is
    their average. *)
(** In timestamp order no exchange has a negative latency. *)
Lemma latency_nonneg (ms : list Message) :
  StronglySorted ts_le ms → Forall (λ p, 0 <= latency p) (exchanges ms).
Proof.
  intros Hs. apply Forall_forall.
  intros [m1 m2] [_ Hin]%list_elem_of_filter. apply total_seconds_nonneg.
  pose proof (sorted_adjacent ms m1 m2 Hs Hin) as Hle.
  unfold ts_le in Hle. simpl. lia.
Qed.

Lemma average_closed_nonneg (ms : list Message) (q : Q) :
  StronglySorted ts_le ms →
  (let times := latency <$> exchanges ms in
   if py_not times then None else Some (Qsum times / inject_Z (len times)))
  = Some q → 0 <= q.
Proof.
  intros Hs. cbv zeta.
  destruct (decide (exchanges ms = [])) as [E|E]; [by rewrite E|].
  assert (latency <$> exchanges ms ≠ []) as E' by (by destruct (exchanges ms)).
  rewrite py_not_false by done. intros [= <-].
  apply Qle_shift_div_l; [by apply inject_len_pos|]. rewrite Qmult_0_l.
  by apply Qsum_nonneg, Forall_fmap, latency_nonneg.
Qed.

(** Without an assistant message there is no exchange. *)
Lemma exchanges_no_ai (ms : list Message) :
  Forall (λ m, sender m ≠ "ai") ms → exchanges ms = [].
Proof.
  intros H. apply (filter_nil_not_exists is_exchange), Forall_Exists_neg.
  apply Forall_forall. intros [m1 m2] (i & _ & Hi)%adjacent_elem_of [_ Hai].
  rewrite Forall_forall in H. apply (H m2); [|done].
  apply list_elem_of_lookup. eauto.
Qed.

(** ** Main results *)

(** C11: [completeness_score] never raises (both reads stay in range); it is
    0.5 when some user message is directly followed by another user
    message, and 1 otherwise. *)
Theorem completeness_score_spec (ms : list Message) :
  let gap := ∃ i m1 m2, ms !! i = Some m1 ∧ ms !! S i = Some m2 ∧
               sender m1 = "user" ∧ sender m2 = "user" in
  (gap → completeness_score ms = ok 0.5) ∧
  (¬ gap → completeness_score ms = ok 1).
Proof.
  cbv zeta. rewrite completeness_score_eq.
  rewrite <- (Exists_adjacent is_double_user). split; intros H.
  - by rewrite decide_True.
  - by rewrite decide_False.
Qed.

(** C10: [average_response_time] never raises; it is [None] exactly when no
    user message is directly followed by an assistant message, and
    otherwise the sum of the latencies of those exchanges divided by their
    number. *)
Theorem average_response_time_spec (ms : list Message) :
  returns (average_response_time ms) (λ r,
    (r = None ↔
       ¬ ∃ i m1 m2, ms !! i = Some m1 ∧ ms !! S i = Some m2 ∧
           sender m1 = "user" ∧ sender m2 = "ai") ∧
    (∀ q, r = Some q →
       q = Qsum (latency <$> exchanges ms) / inject_Z (len (exchanges ms)))).
Proof.
  rewrite average_response_time_eq. apply returns_ok. cbv zeta.
  rewrite <- exchanges_nil_iff, len_fmap.
  destruct (exchanges ms) as [|p ps]; [done|]. cbn [py_not fmap list_fmap].
  split; [done | by intros q [= <-]].
Qed.

(** The sign of the average follows the order of the timestamps: on
    messages in ascending timestamp order it is not negative; out of
    order, the difference is taken as it is, and an assistant message
    stamped 5 seconds before the user message gives an average of -5. *)
Lemma average_response_time_sign :
  (∀ ms, StronglySorted ts_le ms →
     returns (average_response_time ms) (λ r, ∀ q, r = Some q → 0 <= q)) ∧
  returns
    (average_response_time
       [ {| sender := "user"; text := "hello"; timestamp := 5000000 |};
         {| sender := "ai"; text := "hi"; timestamp := 0 |} ])
    (λ r, ∃ q, r = Some q ∧ q == -5).
Proof.
  split.
  - intros ms Hs. rewrite average_response_time_eq. apply returns_ok.
    intros q. by apply average_closed_nonneg.
  - apply returns_ok. eexists. split; reflexivity.
Qed.

Lemma average_response_time_sign_witness :
  returns
    (average_response_time
       [ {| sender := "user"; text := "my app crashed"; timestamp := 0 |};
         {| sender := "ai"; text := "sorry"; timestamp := 5000000 |} ])
    (λ r, ∀ q, r = Some q → 0 <= q).
Proof.
  apply (proj1 average_response_time_sign).
  repeat constructor; unfold ts_le; simpl; lia.
Defined.

(** C6: With a lexicon whose lookups return, [relevance_score] never raises
    (the divisor [len(user_words) + 1] is positive and [pairs] is tested
    first); it is 1 when there is no exchange, and otherwise the sum of the
    pair scores of the exchanges divided by their number; it is not
    negative. *)
Theorem relevance_score_spec `{W : WordNet} {WT : WordNetTotal W}
    (ms : list Message) :
  returns (relevance_score ms) (λ q,
    q = (if py_not (exchanges ms) then 1
         else Qsum (pair_score <$> exchanges ms) / inject_Z (len (exchanges ms))) ∧
    0 <= q).
Proof.
  rewrite relevance_score_eq. apply returns_ok. split; [done|].
  apply relevance_closed_nonneg.
Qed.

Lemma relevance_score_spec_witness :
  returns
    (relevance_score
       [ {| sender := "user"; text := "my app crashed"; timestamp := 0 |};
         {| sender := "ai"; text := "Sorry it broke"; timestamp := 5000000 |} ])
    (λ q, q = 1 # 4 ∧ 0 <= q).
Proof.
  exact (relevance_score_spec (W := toy_wordnet)
    [ {| sender := "user"; text := "my app crashed"; timestamp := 0 |};
      {| sender := "ai"; text := "Sorry it broke"; timestamp := 5000000 |} ]).
Defined.


(** C37: Lookups are made for the words of exchanges only, and their
    failures are not caught.  Without an exchange the relevance is 1
    whatever the lexicon does, even when every lookup would raise.  When
    the first words of a user message and of the reply differ and the
    lookup of the user's word raises, the relevance of the exchange raises
    the same exception. *)
Theorem relevance_score_lookups `{W : WordNet} :
  (∀ ms, exchanges ms = [] → relevance_score ms = ok 1) ∧
  (∀ (m1 m2 : Message) (u a : string) (us as_ : list string) (e : exn),
     sender m1 = "user" → sender m2 = "ai" →
     split (lower (text m1)) = u :: us →
     split (lower (text m2)) = a :: as_ →
     u ≠ a → synsets u = raise e →
     relevance_score [m1; m2] = raise e).
Proof.
  split.
  - intros ms E. unfold relevance_score.
    rewrite relevance_loop_any, relevance_fold_none; [done|].
    apply Forall_Exists_neg. by apply (filter_nil_not_exists is_exchange).
  - intros m1 m2 u a us as_ e H1 H2 Hu Ha Hne E. unfold relevance_score.
    rewrite relevance_loop_any. cbn [adjacent foldM].
    rewrite decide_True by done.
    by rewrite (exchange_scoreM_raise (m1, m2) u a us as_ e).
Qed.

Lemma relevance_score_lookups_witness :
  relevance_score (W := missing_wordnet)
    [ {| sender := "user"; text := "it's broken"; timestamp := 0 |};
      {| sender := "user"; text := "still not working"; timestamp := 2000000 |} ]
  = ok 1 ∧
  relevance_score (W := missing_wordnet)
    [ {| sender := "user"; text := "my app crashed"; timestamp := 0 |};
      {| sender := "ai"; text := "Sorry it broke"; timestamp := 5000000 |} ]
  = raise LookupError.
Proof.
  split.
  - by apply (proj1 (relevance_score_lookups (W := missing_wordnet))).
  - by apply (proj2 (relevance_score_lookups (W := missing_wordnet)) _ _
      "my" "sorry" ["app"; "crashed"] ["it"; "broke"]).
Defined.
