(* ===== verification/Sentiment.v ===== *)
(** * Sentiment: the polarity bucket of the user messages

    [sentiment_analysis] of [src/conversations/analysis_logic.py]: the
    polarity of each user message (TextBlob, through the [TextBlob]
    class), their average, and the bucket it falls in.  The thresholds 0.2
    and -0.2 are the rationals 1/5 and -1/5. *)

From S2P Require Import Prelude PyStr Capabilities.

Local Open Scope Q_scope.

(** The three strings the function returns. *)
Inductive Sentiment : Set :=
  | positive
  | negative
  | neutral.

#[export] Instance Sentiment_eq_dec : EqDecision Sentiment.
Proof. solve_decision. Defined.

(** The string stored in the report. *)
Definition sentiment_label (s : Sentiment) : string :=
  match s with
  | positive => "positive"
  | negative => "negative"
  | neutral => "neutral"
  end.

Definition sentiment_analysis `{T : TextBlob} (user_messages : list string) :
    result Sentiment :=
  if py_not user_messages then ok neutral
  else
    total ← mapM polarity user_messages;
    avg_polarity ← (if py_not total then ok 0
                    else pydiv (Qsum total) (inject_Z (len user_messages)));
    if Qgtb avg_polarity 0.2 then ok positive
    else if Qltb avg_polarity (-0.2) then ok negative
    else ok neutral.

(** ** Reference definitions *)

(** The bucket of an average polarity. *)
Definition classify (avg : Q) : Sentiment :=
  if Qgtb avg 0.2 then positive
  else if Qltb avg (-0.2) then negative
  else neutral.

(** The polarity of a message when the call returns, 0 otherwise. *)
Definition polarity_of `{T : TextBlob} (msg : string) : Q :=
  match polarity msg with
  | inr p => p
  | inl _ => 0
  end.

(** The average polarity of a non-empty list of messages. *)
Definition average_polarity `{T : TextBlob} (msgs : list string) : Q :=
  Qsum (polarity_of <$> msgs) / inject_Z (len msgs).

(** ** Lemmas *)

#[export] Instance Qgtb_proper : Proper (Qeq ==> Qeq ==> eq) Qgtb.
Proof. unfold Proper, respectful. intros x x' Hx y y' Hy. unfold Qgtb. f_equal. by apply Qleb_comp. Qed.

#[export] Instance Qltb_proper : Proper (Qeq ==> Qeq ==> eq) Qltb.
Proof. unfold Proper, respectful. intros x x' Hx y y' Hy. unfold Qltb. f_equal. by apply Qleb_comp. Qed.

(** The bucket depends on the value of the average only, not on the
    fraction that represents it. *)
#[export] Instance classify_proper : Proper (Qeq ==> eq) classify.
Proof.
  intros x y H. unfold classify.
  by rewrite (Qgtb_proper x y H 0.2 0.2), (Qltb_proper x y H (-0.2) (-0.2)).
Qed.

Lemma classify_positive (avg : Q) : classify avg = positive ↔ 1 # 5 < avg.
Proof.
  unfold classify. destruct (Qgtb avg 0.2) eqn:E1.
  - apply Qgtb_spec in E1. split; [intros _; lra | done].
  - apply not_true_iff_false in E1. rewrite Qgtb_spec in E1.
    destruct (Qltb avg (-0.2)); (split; [done | intros; exfalso; apply E1; lra]).
Qed.

Lemma classify_negative (avg : Q) : classify avg = negative ↔ avg < - (1 # 5).
Proof.
  unfold classify. destruct (Qgtb avg 0.2) eqn:E1.
  - apply Qgtb_spec in E1. split; [done | intros; lra].
  - destruct (Qltb avg (-0.2)) eqn:E2.
    + apply Qltb_spec in E2. split; [intros _; lra | done].
    + apply not_true_iff_false in E2. rewrite Qltb_spec in E2.
      split; [done | intros; exfalso; apply E2; lra].
Qed.

Lemma classify_neutral (avg : Q) :
  classify avg = neutral ↔ - (1 # 5) <= avg <= 1 # 5.
Proof.
  pose proof (classify_positive avg) as Hp.
  pose proof (classify_negative avg) as Hn.
  destruct (classify avg); split; try done; intros H.
  - assert (1 # 5 < avg) by (by apply Hp). lra.
  - assert (avg < - (1 # 5)) by (by apply Hn). lra.
  - split; apply Qnot_lt_le; intros Hlt.
    + by assert (neutral = negative) by (by apply Hn).
    + by assert (neutral = positive) by (by apply Hp).
Qed.

Section textblob.
Context `{T : TextBlob} {TL : TextBlobLawful T}.

Lemma polarity_ok (msg : string) : polarity msg = ok (polarity_of msg).
Proof.
  unfold polarity_of. pose proof (polarity_range msg) as H.
  by destruct (polarity msg).
Qed.

Lemma polarity_of_range (msg : string) : -1 <= polarity_of msg <= 1.
Proof.
  unfold polarity_of. pose proof (polarity_range msg) as H.
  by destruct (polarity msg).
Qed.

Lemma sentiment_analysis_eq (ms : list string) :
  ms ≠ [] → sentiment_analysis ms = ok (classify (average_polarity ms)).
Proof.
  intros H. unfold sentiment_analysis. rewrite py_not_false by done.
  rewrite (mapM_ok polarity polarity_of) by (intros; apply polarity_ok).
  rewrite bind_ok, py_not_false by (by destruct ms).
  rewrite pydiv_len, bind_ok by done.
  unfold classify. fold (average_polarity ms).
  by destruct (Qgtb (average_polarity ms) 0.2), (Qltb (average_polarity ms) (-0.2)).
Qed.

Lemma average_polarity_range (ms : list string) :
  ms ≠ [] → -1 <= average_polarity ms <= 1.
Proof.
  intros H. apply Qdiv_bounds; [by apply inject_len_pos|].
  rewrite <- (len_fmap polarity_of ms). apply Qsum_bounds.
  apply Forall_fmap, Forall_forall. intros msg _. apply polarity_of_range.
Qed.

End textblob.

Lemma sentiment_analysis_raises_at `{T : TextBlob} (x : string)
    (l : list string) (e : exn) :
  polarity x = raise e → sentiment_analysis (x :: l) = raise e.
Proof.
  intros E. unfold sentiment_analysis. cbn [py_not mapM]. by rewrite E.
Qed.

Lemma sentiment_analysis_closed `{T : TextBlob} {TL : TextBlobLawful T}
    (ms : list string) :
  sentiment_analysis ms =
  ok (if py_not ms then neutral else classify (average_polarity ms)).
Proof.
  destruct (decide (ms = [])) as [->|H]; [done|].
  by rewrite sentiment_analysis_eq, py_not_false.
Qed.

(** ** Main results *)

(** C9: With a polarity oracle that returns, [sentiment_analysis] never
    raises.  It is neutral on no messages (the branch [else 0] of the
    average is never taken); otherwise the average polarity lies in
    [-1, 1] and the result is positive above 1/5, negative below -1/5 and
    neutral in between, both ends included. *)
Theorem sentiment_analysis_spec `{T : TextBlob} {TL : TextBlobLawful T}
    (ms : list string) :
  returns (sentiment_analysis ms) (λ s,
    if py_not ms then s = neutral
    else
      let avg := average_polarity ms in
      -1 <= avg <= 1 ∧
      (s = positive ↔ 1 # 5 < avg) ∧
      (s = negative ↔ avg < - (1 # 5)) ∧
      (s = neutral ↔ - (1 # 5) <= avg <= 1 # 5)).
Proof.
  rewrite sentiment_analysis_closed. apply returns_ok.
  destruct (decide (ms = [])) as [->|H]; [done|].
  rewrite py_not_false by done. cbv zeta.
  rewrite <- classify_positive, <- classify_negative, <- classify_neutral.
  split; [by apply average_polarity_range | done].
Qed.

Lemma sentiment_analysis_spec_witness :
  returns (sentiment_analysis ["my app crashed"; "thanks that fixed it"]) (λ s,
    -1 <= average_polarity ["my app crashed"; "thanks that fixed it"] <= 1 ∧
    (s = positive ↔ 1 # 5 < average_polarity ["my app crashed"; "thanks that fixed it"]) ∧
    (s = negative ↔ average_polarity ["my app crashed"; "thanks that fixed it"] < - (1 # 5)) ∧
    (s = neutral ↔
       - (1 # 5) <= average_polarity ["my app crashed"; "thanks that fixed it"] <= 1 # 5)).
Proof.
  exact (sentiment_analysis_spec (T := toy_textblob)
    ["my app crashed"; "thanks that fixed it"]).
Defined.

(** A polarity call that raises is not caught: the first message whose
    polarity raises makes the analysis raise the same exception. *)
Lemma sentiment_analysis_raises `{T : TextBlob} (l1 l2 : list string)
    (x : string) (e : exn) :
  (∀ y, y ∈ l1 → ∃ v, polarity y = ok v) → polarity x = raise e →
  sentiment_analysis (l1 ++ x :: l2) = raise e.
Proof.
  intros H E. unfold sentiment_analysis.
  rewrite py_not_false by (by destruct l1).
  by rewrite (mapM_raise polarity l1 l2 x e H E).
Qed.
