(* ===== verification/Analyzer.v ===== *)
(** * Analyzer: the report of one conversation

    [analyze_conversations] of [src/conversations/analysis_logic.py] orders
    the messages by timestamp, selects the user and assistant texts, calls
    each scorer once and returns the report, whose [overall_score] is the
    mean of five of the scores.  [AnalysisReport] has one field per key of
    the dictionary the function returns (the fields of
    [ConversationAnalysis] in [src/conversations/models.py]). *)

From stdpp Require Import sorting.
From S2P Require Import Prelude PyStr Transcript Capabilities Lexical Pairs Sentiment.

Local Open Scope Q_scope.

Record AnalysisReport : Type := {
  rep_clarity_score : Q;
  rep_relevance_score : Q;
  rep_accuracy_score : Q;
  rep_completeness_score : Q;
  rep_sentiment : Sentiment;
  rep_empathy_score : Q;
  rep_fallback_count : Z;
  rep_escalation_needed : bool;
  rep_average_response_time : option Q;
  rep_resolution : bool;
  rep_overall_score : Q;
}.

Definition analyze_conversations `{W : WordNet} `{T : TextBlob}
    (conversation : list Message) : result AnalysisReport :=
  let messages := order_by_timestamp conversation in
  let user_msgs := user_msgs messages in
  let ai_msgs := ai_msgs messages in
  clarity ← clarity_score ai_msgs;
  relevance ← relevance_score messages;
  accuracy ← accuracy_score ai_msgs;
  completeness ← completeness_score messages;
  sentiment ← sentiment_analysis user_msgs;
  empathy ← empathy_score ai_msgs;
  let fallback_count_val := fallback_count ai_msgs in
  let escalation_needed_val := (fallback_count_val >? 0)%Z in
  avg_response_time ← average_response_time messages;
  resolution ← detect_resolution user_msgs;
  overall ← pydiv (clarity + relevance + accuracy + completeness + empathy) 5;
  ok {| rep_clarity_score := clarity;
        rep_relevance_score := relevance;
        rep_accuracy_score := accuracy;
        rep_completeness_score := completeness;
        rep_sentiment := sentiment;
        rep_empathy_score := empathy;
        rep_fallback_count := fallback_count_val;
        rep_escalation_needed := escalation_needed_val;
        rep_average_response_time := avg_response_time;
        rep_resolution := resolution;
        rep_overall_score := overall |}.

(** ** Reference definitions *)

(** Each field of the report is what its scorer returns on the ordered
    messages. *)
Definition report_of_scorers `{W : WordNet} `{T : TextBlob}
    (conversation : list Message) (r : AnalysisReport) : Prop :=
  let messages := order_by_timestamp conversation in
  clarity_score (ai_msgs messages) = ok (rep_clarity_score r) ∧
  relevance_score messages = ok (rep_relevance_score r) ∧
  accuracy_score (ai_msgs messages) = ok (rep_accuracy_score r) ∧
  completeness_score messages = ok (rep_completeness_score r) ∧
  sentiment_analysis (user_msgs messages) = ok (rep_sentiment r) ∧
  empathy_score (ai_msgs messages) = ok (rep_empathy_score r) ∧
  fallback_count (ai_msgs messages) = rep_fallback_count r ∧
  average_response_time messages = ok (rep_average_response_time r) ∧
  detect_resolution (user_msgs messages) = ok (rep_resolution r).

(** The two scenarios of the specification, with [t0 = 0]. *)
Definition scenario_resolved : list Message :=
  [ {| sender := "user"; text := "my app crashed"; timestamp := 0 |};
    {| sender := "ai"; text := "I'm sorry to hear that, let's see what's wrong";
       timestamp := 5000000 |};
    {| sender := "user"; text := "thanks that fixed it"; timestamp := 40000000 |} ].

Definition scenario_unanswered : list Message :=
  [ {| sender := "user"; text := "it's broken"; timestamp := 0 |};
    {| sender := "user"; text := "still not working"; timestamp := 2000000 |} ].

(** ** Lemmas *)

Lemma order_by_timestamp_unique (c1 c2 : list Message) :
  c1 ≡ₚ c2 → NoDup (timestamp <$> c1) →
  order_by_timestamp c1 = order_by_timestamp c2.
Proof.
  intros Hp Hnd.
  apply (StronglySorted_unique_strong ts_le); try apply order_by_timestamp_sorted.
  - intros x1 x2 H1 H2 Hle1 Hle2. rewrite order_by_timestamp_perm in H1, H2.
    rewrite <- Hp in H2. unfold ts_le in *.
    apply list_elem_of_lookup in H1 as [i Hi], H2 as [j Hj].
    assert (i = j) as ->; [|congruence].
    apply (NoDup_lookup _ i j (timestamp x1) Hnd); rewrite list_lookup_fmap.
    + by rewrite Hi.
    + rewrite Hj. simpl. f_equal. lia.
  - by rewrite !order_by_timestamp_perm.
Qed.

Lemma elem_of_ordered_ai_msgs (c : list Message) (t : string) :
  t ∈ ai_msgs (order_by_timestamp c) ↔ ∃ m, m ∈ c ∧ sender m = "ai" ∧ text m = t.
Proof. rewrite elem_of_ai_msgs. by setoid_rewrite order_by_timestamp_perm. Qed.

Lemma pydiv_5 (x : Q) : pydiv x 5 = ok (x / 5).
Proof. by apply pydiv_ok. Qed.

Section analyzer.
Context `{W : WordNet} `{T : TextBlob} {WT : WordNetTotal W} {TL : TextBlobLawful T}.

(** With lawful capabilities every scorer returns, and so does the
    aggregator: the report holds what the scorers returned. *)
Lemma analyze_conversations_returns (c : list Message) :
  ∃ r, analyze_conversations c = ok r ∧
    report_of_scorers c r ∧
    rep_escalation_needed r = (rep_fallback_count r >? 0)%Z ∧
    rep_overall_score r =
      (rep_clarity_score r + rep_relevance_score r + rep_accuracy_score r +
       rep_completeness_score r + rep_empathy_score r) / 5.
Proof.
  unfold analyze_conversations, report_of_scorers. cbv zeta.
  set (ms := order_by_timestamp c).
  destruct (proj1 (returns_inv _ _) (accuracy_score_returns (ai_msgs ms)))
    as (accuracy & Ha & _).
  rewrite clarity_score_closed, relevance_score_eq, Ha, completeness_score_eq,
    sentiment_analysis_closed, empathy_score_closed, average_response_time_eq,
    detect_resolution_eq, !bind_ok, pydiv_5, bind_ok.
  eexists. split; [reflexivity|]. by split_and!.
Qed.

End analyzer.

(** ** Main results *)

(** C1: With lawful capabilities [analyze_conversations] never raises: every
    field of the report is what its scorer returns on the messages ordered
    by timestamp, [escalation_needed] is [fallback_count > 0], and
    [overall_score] is the sum of clarity, relevance, accuracy,
    completeness and empathy divided by 5. *)
Theorem analyze_conversations_spec `{W : WordNet} `{T : TextBlob}
    {WT : WordNetTotal W} {TL : TextBlobLawful T} (c : list Message) :
  returns (analyze_conversations c) (λ r,
    report_of_scorers c r ∧
    rep_escalation_needed r = (rep_fallback_count r >? 0)%Z ∧
    rep_overall_score r =
      (rep_clarity_score r + rep_relevance_score r + rep_accuracy_score r +
       rep_completeness_score r + rep_empathy_score r) / 5).
Proof.
  destruct (analyze_conversations_returns c) as (r & -> & H). by apply returns_ok.
Qed.

Lemma analyze_conversations_spec_witness :
  returns (analyze_conversations scenario_resolved) (λ r,
    report_of_scorers scenario_resolved r ∧
    rep_escalation_needed r = (rep_fallback_count r >? 0)%Z ∧
    rep_overall_score r =
      (rep_clarity_score r + rep_relevance_score r + rep_accuracy_score r +
       rep_completeness_score r + rep_empathy_score r) / 5).
Proof.
  exact (analyze_conversations_spec (W := toy_wordnet) (T := toy_textblob)
    scenario_resolved).
Defined.

(** C4: The scores of a report are in their ranges: clarity and empathy in
    [0, 1], accuracy in [1/2, 1], completeness 1/2 or 1, relevance not
    negative, the fallback count not negative; hence the overall score is
    at least 1/5.  The average response time, when there is one, is not
    negative: the messages are ordered by timestamp before the latencies
    are taken. *)
Theorem report_bounds `{W : WordNet} `{T : TextBlob}
    {WT : WordNetTotal W} {TL : TextBlobLawful T} (c : list Message) :
  returns (analyze_conversations c) (λ r,
    0 <= rep_clarity_score r <= 1 ∧
    0 <= rep_relevance_score r ∧
    1 # 2 <= rep_accuracy_score r <= 1 ∧
    (rep_completeness_score r = 0.5 ∨ rep_completeness_score r = 1) ∧
    0 <= rep_empathy_score r <= 1 ∧
    (0 ≤ rep_fallback_count r)%Z ∧
    1 # 5 <= rep_overall_score r ∧
    ∀ q, rep_average_response_time r = Some q → 0 <= q).
Proof.
  destruct (analyze_conversations_returns c)
    as (r & -> & (Hc & Hr & Ha & Hco & _ & He & Hf & Hart & _) & _ & Ho).
  apply returns_ok. cbv zeta in *. set (ms := order_by_timestamp c) in *.
  rewrite clarity_score_closed in Hc. injection Hc as Hc.
  rewrite relevance_score_eq in Hr. injection Hr as Hr.
  pose proof (accuracy_score_returns (ai_msgs ms)) as Ha'.
  rewrite Ha in Ha'. apply returns_ok in Ha' as [_ Ha'].
  rewrite completeness_score_eq in Hco. injection Hco as Hco.
  rewrite empathy_score_closed in He. injection He as He.
  assert (0 <= rep_clarity_score r <= 1) as H1
    by (rewrite <- Hc; apply fraction_default_bounds).
  assert (0 <= rep_relevance_score r) as H2
    by (rewrite <- Hr; apply relevance_closed_nonneg).
  assert (0 <= rep_empathy_score r <= 1) as H3
    by (rewrite <- He; apply fraction_default_bounds).
  assert (rep_completeness_score r = 0.5 ∨ rep_completeness_score r = 1) as H4
    by (rewrite <- Hco; case_decide; auto).
  split; [exact H1|]. split; [exact H2|]. split; [exact Ha'|].
  split; [exact H4|]. split; [exact H3|]. split; [|split].
  - rewrite <- Hf, fallback_count_eq. apply count_bounds.
  - rewrite Ho. destruct Ha' as [Ha1 Ha2], H1 as [H1 _], H3 as [H3 _].
    destruct H4 as [-> | ->]; lraQ.
  - rewrite average_response_time_eq in Hart. injection Hart as Hart.
    intros q Hq. rewrite Hq in Hart.
    exact (average_closed_nonneg ms q (order_by_timestamp_sorted c) Hart).
Qed.

Lemma report_bounds_witness :
  returns (analyze_conversations scenario_resolved) (λ r,
    0 <= rep_clarity_score r <= 1 ∧
    0 <= rep_relevance_score r ∧
    1 # 2 <= rep_accuracy_score r <= 1 ∧
    (rep_completeness_score r = 0.5 ∨ rep_completeness_score r = 1) ∧
    0 <= rep_empathy_score r <= 1 ∧
    (0 ≤ rep_fallback_count r)%Z ∧
    1 # 5 <= rep_overall_score r ∧
    ∀ q, rep_average_response_time r = Some q → 0 <= q).
Proof.
  exact (report_bounds (W := toy_wordnet) (T := toy_textblob) scenario_resolved).
Defined.

(** [escalation_needed] holds exactly when some assistant message of the
    conversation contains a fallback phrase, ignoring case. *)
Theorem escalation_needed_iff `{W : WordNet} `{T : TextBlob}
    {WT : WordNetTotal W} {TL : TextBlobLawful T} (c : list Message) :
  returns (analyze_conversations c) (λ r,
    rep_escalation_needed r = true ↔
    ∃ m w, m ∈ c ∧ sender m = "ai" ∧ w ∈ fallback_phrases ∧
      occurs w (lower (text m))).
Proof.
  destruct (analyze_conversations_returns c)
    as (r & -> & (_ & _ & _ & _ & _ & _ & Hf & _) & He & _).
  apply returns_ok. cbv zeta in Hf.
  rewrite He, <- Hf, Z.gtb_lt, fallback_count_eq, count_pos_iff.
  setoid_rewrite elem_of_ordered_ai_msgs. unfold fallback.
  setoid_rewrite any_in_spec. split.
  - intros (t & (m & ? & ? & <-) & w & ? & ?). by exists m, w.
  - intros (m & w & ? & ? & ? & ?). exists (text m). split; eauto.
Qed.

Lemma escalation_needed_iff_witness :
  returns (analyze_conversations scenario_resolved) (λ r,
    rep_escalation_needed r = true ↔
    ∃ m w, m ∈ scenario_resolved ∧ sender m = "ai" ∧ w ∈ fallback_phrases ∧
      occurs w (lower (text m))).
Proof.
  exact (escalation_needed_iff (W := toy_wordnet) (T := toy_textblob)
    scenario_resolved).
Defined.

(** A conversation without assistant messages gets the defaults:
    clarity 0, accuracy 1/2, empathy 0, no fallback and no escalation,
    relevance 1 and no average response time. *)
Lemma no_assistant_defaults `{W : WordNet} `{T : TextBlob}
    {WT : WordNetTotal W} {TL : TextBlobLawful T} (c : list Message) :
  Forall (λ m, sender m ≠ "ai") c →
  returns (analyze_conversations c) (λ r,
    rep_clarity_score r = 0 ∧
    rep_accuracy_score r = 0.5 ∧
    rep_empathy_score r = 0 ∧
    rep_fallback_count r = 0%Z ∧
    rep_escalation_needed r = false ∧
    rep_relevance_score r = 1 ∧
    rep_average_response_time r = None).
Proof.
  intros Hc.
  destruct (analyze_conversations_returns c)
    as (r & -> & (H1 & H2 & H3 & _ & _ & H4 & H5 & H6 & _) & He & _).
  apply returns_ok. cbv zeta in *. rewrite He.
  assert (Forall (λ m, sender m ≠ "ai") (order_by_timestamp c)) as Hs
    by (by rewrite order_by_timestamp_perm).
  rewrite (proj2 (ai_msgs_nil_iff _) Hs) in H1, H3, H4, H5.
  rewrite relevance_score_eq, (exchanges_no_ai _ Hs) in H2.
  rewrite average_response_time_eq, (exchanges_no_ai _ Hs) in H6.
  injection H1 as <-. injection H2 as <-. injection H3 as <-.
  injection H4 as <-. injection H6 as <-. by rewrite <- H5.
Qed.

Lemma no_assistant_defaults_witness :
  returns (analyze_conversations scenario_unanswered) (λ r,
    rep_clarity_score r = 0 ∧
    rep_accuracy_score r = 0.5 ∧
    rep_empathy_score r = 0 ∧
    rep_fallback_count r = 0%Z ∧
    rep_escalation_needed r = false ∧
    rep_relevance_score r = 1 ∧
    rep_average_response_time r = None).
Proof.
  apply (no_assistant_defaults (W := toy_wordnet) (T := toy_textblob)).
  by repeat constructor.
Defined.

(** C40: The report does not depend on the order in which the rows of the
    conversation are stored, as long as no two messages have the same
    timestamp. *)
Theorem analyze_conversations_perm `{W : WordNet} `{T : TextBlob}
    (c1 c2 : list Message) :
  c1 ≡ₚ c2 → NoDup (timestamp <$> c1) →
  analyze_conversations c1 = analyze_conversations c2.
Proof.
  intros Hp Hnd. unfold analyze_conversations.
  by rewrite (order_by_timestamp_unique c1 c2).
Qed.

Lemma analyze_conversations_perm_witness :
  analyze_conversations scenario_resolved =
  analyze_conversations (reverse scenario_resolved).
Proof.
  apply (analyze_conversations_perm (W := toy_wordnet) (T := toy_textblob)).
  - by rewrite reverse_Permutation.
  - by apply (bool_decide_unpack _).
Defined.

(** C38: A polarity call that raises makes the whole analysis raise: with a
    lexicon that returns and at least one user message, when every
    polarity call raises [e] so does [analyze_conversations]. *)
Theorem analyze_conversations_polarity_raises `{W : WordNet} `{T : TextBlob}
    {WT : WordNetTotal W} (c : list Message) (e : exn) :
  Exists (λ m, sender m = "user") c →
  (∀ s, polarity s = raise e) →
  analyze_conversations c = raise e.
Proof.
  intros Hu Hp. unfold analyze_conversations. cbv zeta.
  set (ms := order_by_timestamp c).
  destruct (proj1 (returns_inv _ _) (accuracy_score_returns (ai_msgs ms)))
    as (accuracy & Ha & _).
  rewrite clarity_score_closed, relevance_score_eq, Ha, completeness_score_eq,
    !bind_ok.
  assert (user_msgs ms ≠ []) as Hne.
  { intros E%user_msgs_nil_iff. subst ms. rewrite order_by_timestamp_perm in E.
    by apply Forall_Exists_neg in E. }
  destruct (user_msgs ms) as [|x l] eqn:E; [done|].
  by rewrite (sentiment_analysis_raises_at x l e (Hp x)).
Qed.

Lemma analyze_conversations_polarity_raises_witness :
  analyze_conversations (W := toy_wordnet) (T := missing_textblob)
    scenario_resolved = raise LookupError.
Proof.
  apply (analyze_conversations_polarity_raises (W := toy_wordnet)
    (T := missing_textblob)); [|done].
  by left.
Defined.

(** The two scenarios of the specification.  The first (a crash, an
    apology five seconds later, thanks): clarity, accuracy, completeness
    and empathy are 1, there is no fallback and no escalation, the
    conversation is resolved and the average response time is 5 seconds;
    the reply has 9 words; with the stand-in lexicon and polarity oracle
    the relevance is 0, the sentiment positive and the overall score 4/5.
    The second (two user messages in a row, the second one "still not
    working"): completeness is 1/2, the conversation is not resolved and
    there is no average response time. *)
Theorem scenario_reports :
  returns
    (analyze_conversations (W := toy_wordnet) (T := toy_textblob) scenario_resolved)
    (λ r,
      rep_clarity_score r == 1 ∧
      rep_accuracy_score r == 1 ∧
      rep_completeness_score r == 1 ∧
      rep_empathy_score r == 1 ∧
      rep_fallback_count r = 0%Z ∧
      rep_escalation_needed r = false ∧
      rep_resolution r = true ∧
      (∃ q, rep_average_response_time r = Some q ∧ q == 5) ∧
      rep_relevance_score r == 0 ∧
      rep_sentiment r = positive ∧
      rep_overall_score r == 4 # 5) ∧
  length (split "I'm sorry to hear that, let's see what's wrong") = 9%nat ∧
  returns
    (analyze_conversations (W := toy_wordnet) (T := toy_textblob) scenario_unanswered)
    (λ r,
      rep_completeness_score r == 1 # 2 ∧
      rep_resolution r = false ∧
      rep_average_response_time r = None ∧
      rep_relevance_score r == 1 ∧
      rep_overall_score r == 2 # 5).
Proof.
  vm_compute. split_and!; try reflexivity. eexists. split; reflexivity.
Qed.
