(* ===== verification/Rounding.v ===== *)
(** * Rounding: binary64 as a rounding of rationals

    A Python float is an IEEE 754 binary64 number, and every operation on
    floats returns the exact result rounded to the nearest such number,
    ties to the one with an even significand.  This file defines that
    rounding on rationals, [round64], from the integer logarithm [ilog2]
    and the rounding to an integer [rne], for significands of [prec] = 53
    bits and an exponent without bounds: no overflow to infinity and no
    denormal numbers, which the scores, between 0 and 1 with denominators
    below 2^52, and the latencies, in microseconds, do not reach.

    The scorers are written against the class [Rounding], with the
    instances [binary64] and [exact] (no rounding).  [RoundingLaws] holds
    what the error bounds use, [Exactness] what the closed forms use;
    both instances have both.

    Theorems: [round64] returns a representable number, no representable
    number is nearer, the relative error is at most [u] = 2^-53, ties go
    to the even significand, the rounding is monotone and idempotent. *)

From Stdlib Require Import Qround Qpower Qabs.
From S2P Require Import Prelude.

Local Open Scope Q_scope.

(** ** The rounding function *)

(** The number of bits of a significand. *)
Definition prec : Z := 53.

Definition pow2 (e : Z) : Q := 2 ^ e.

(** The unit roundoff, [2^-53]. *)
Definition u : Q := 1 # 9007199254740992.

(** [floor (log2 x)] of a positive rational. *)
Definition ilog2 (x : Q) : Z :=
  let k := (Z.log2 (Qnum x) - Z.log2 (Zpos (Qden x)))%Z in
  if Qle_bool (pow2 k) x then k else (k - 1)%Z.

(** The integer nearest to [y]; of two that are as near, the even one. *)
Definition rne (y : Q) : Z :=
  let q := Qfloor y in
  match Qcompare (y - inject_Z q) (1 # 2) with
  | Lt => q
  | Gt => (q + 1)%Z
  | Eq => if Z.even q then q else (q + 1)%Z
  end.

(** The exponent of the last bit of the significand of a positive [x]. *)
Definition exponent (x : Q) : Z := (ilog2 x - (prec - 1))%Z.

Definition round_pos (x : Q) : Q :=
  inject_Z (rne (x * pow2 (- exponent x))) * pow2 (exponent x).

Definition round64 (x : Q) : Q :=
  match Qnum x with
  | Z0 => 0
  | Zpos _ => round_pos x
  | Zneg _ => - round_pos (- x)
  end.

(** What the scorers need of the arithmetic: a rounding, applied to the
    exact result of every operation on floats. *)
Class Rounding : Type := { rnd : Q → Q }.

(** Rounding to nearest in binary64, and no rounding at all. *)
Definition binary64 : Rounding := {| rnd := round64 |}.

Definition exact : Rounding := {| rnd := λ x, x |}.

(** A number with a significand of at most 53 bits. *)
Definition representable (f : Q) : Prop :=
  ∃ m e : Z, (Z.abs m < 2 ^ prec)%Z ∧ f == inject_Z m * pow2 e.

(** The laws of a rounding: it respects equality and order, moves a
    number by at most the unit roundoff times its magnitude, and leaves
    a number with a significand of at most 53 bits as it is. *)
Class RoundingLaws (R : Rounding) : Prop := {
  rnd_proper :: Proper (Qeq ==> Qeq) rnd;
  rnd_mono : ∀ x y, x <= y → rnd x <= rnd y;
  rnd_error : ∀ x, Qabs (rnd x - x) <= u * Qabs x;
  rnd_fix : ∀ m e : Z,
    (Z.abs m < 2 ^ prec)%Z → rnd (inject_Z m * pow2 e) == inject_Z m * pow2 e;
  rnd_idem : ∀ x, rnd (rnd x) == rnd x;
}.

(** The largest count whose double is a float next to every smaller one:
    [2^52 - 1]. *)
Definition max_count : Z := 2 ^ (prec - 1) - 1.

(** What the loops of the scorers need before any error is counted:
    halves of integers up to [2 * N] are not changed.  Binary64 has it up
    to [2^52], exact arithmetic for every [N]. *)
Class Exactness (R : Rounding) (N : Z) : Prop := {
  exact_proper :: Proper (Qeq ==> Qeq) rnd;
  exact_halves : ∀ h : Z,
    (Z.abs h ≤ 2 * N)%Z → rnd (inject_Z h / 2) == inject_Z h / 2;
}.

(** ** Powers of two *)

Lemma pow2_pos (e : Z) : 0 < pow2 e.
Proof. by apply Qpower_0_lt. Qed.

Lemma pow2_add (a b : Z) : pow2 (a + b) == pow2 a * pow2 b.
Proof. by apply Qpower_plus. Qed.

Lemma pow2_succ (a : Z) : pow2 (a + 1) == 2 * pow2 a.
Proof. rewrite pow2_add. change (pow2 1) with 2. ring. Qed.

Lemma pow2_cancel (e : Z) : pow2 e * pow2 (- e) == 1.
Proof. rewrite <- pow2_add, Z.add_opp_diag_r. reflexivity. Qed.

Lemma pow2_mono (a b : Z) : (a ≤ b)%Z → pow2 a <= pow2 b.
Proof. intros H. by apply Qpower_le_compat_l. Qed.

Lemma pow2_lt_inv (a b : Z) : pow2 a < pow2 b → (a < b)%Z.
Proof. intros H. by apply (Qpower_lt_compat_l_inv 2). Qed.

Lemma pow2_inject (e : Z) : (0 ≤ e)%Z → pow2 e == inject_Z (2 ^ e).
Proof. intros H. unfold pow2. by rewrite Zpower_Qpower. Qed.

Lemma u_pow2 : u == pow2 (- prec).
Proof. by vm_compute. Qed.

Lemma pow2_log2 (n : Z) :
  (0 < n)%Z → pow2 (Z.log2 n) <= inject_Z n ∧ inject_Z n < pow2 (Z.log2 n + 1).
Proof.
  intros H. destruct (Z.log2_spec n H) as [H1 H2].
  pose proof (Z.log2_nonneg n).
  rewrite !pow2_inject by lia. rewrite <- Zle_Qle, <- Zlt_Qlt.
  replace (Z.log2 n + 1)%Z with (Z.succ (Z.log2 n)) by lia. done.
Qed.

(** ** The integer logarithm *)

Lemma Q_as_quotient (x : Q) : x == inject_Z (Qnum x) / inject_Z (Zpos (Qden x)).
Proof. destruct x as [n d]. cbn [Qnum Qden]. by rewrite Qmake_Qdiv. Qed.

Lemma Qnum_pos (x : Q) : 0 < x → (0 < Qnum x)%Z.
Proof. destruct x as [n d]. unfold Qlt. cbn. lia. Qed.

(** Between two powers: [a / b] for [2^i <= a < 2^(i+1)] and [2^j <= b < 2^(j+1)]. *)
Lemma quotient_between (a b : Q) (i j : Z) :
  pow2 i <= a → a < pow2 (i + 1) → pow2 j <= b → b < pow2 (j + 1) →
  pow2 (i - j - 1) < a / b ∧ a / b < pow2 (i - j + 1).
Proof.
  intros Ha1 Ha2 Hb1 Hb2.
  pose proof (pow2_pos j) as Hj. pose proof (pow2_pos (i - j - 1)) as Hl.
  pose proof (pow2_pos (i - j + 1)) as Hh.
  assert (0 < b) as Hb by lra.
  assert (pow2 (i - j - 1) * pow2 (j + 1) == pow2 i) as E1.
  { rewrite <- pow2_add. by replace (i - j - 1 + (j + 1))%Z with i by lia. }
  assert (pow2 (i - j + 1) * pow2 j == pow2 (i + 1)) as E2.
  { rewrite <- pow2_add. by replace (i - j + 1 + j)%Z with (i + 1)%Z by lia. }
  split.
  - apply Qlt_shift_div_l; [done|]. nra.
  - apply Qlt_shift_div_r; [done|]. nra.
Qed.

Lemma ilog2_spec (x : Q) :
  0 < x → pow2 (ilog2 x) <= x ∧ x < pow2 (ilog2 x + 1).
Proof.
  intros Hx. unfold ilog2. cbv zeta.
  destruct (pow2_log2 (Qnum x) (Qnum_pos x Hx)) as [Ha1 Ha2].
  destruct (pow2_log2 (Zpos (Qden x)) eq_refl) as [Hb1 Hb2].
  destruct (quotient_between _ _ _ _ Ha1 Ha2 Hb1 Hb2) as [Hl Hh].
  rewrite <- Q_as_quotient in Hl, Hh.
  set (k := (Z.log2 (Qnum x) - Z.log2 (Z.pos (Qden x)))%Z) in *.
  destruct (Qle_bool (pow2 k) x) eqn:E.
  - apply Qle_bool_iff in E. done.
  - replace (k - 1 + 1)%Z with k by lia. split; [lra|].
    apply Qnot_le_lt. intros H. apply Qle_bool_iff in H. congruence.
Qed.

Lemma ilog2_unique (x : Q) (l : Z) :
  pow2 l <= x → x < pow2 (l + 1) → ilog2 x = l.
Proof.
  intros H1 H2. pose proof (pow2_pos l).
  destruct (ilog2_spec x ltac:(lra)) as [H3 H4].
  assert (pow2 l < pow2 (ilog2 x + 1)) as Ha by lra.
  assert (pow2 (ilog2 x) < pow2 (l + 1)) as Hb by lra.
  apply pow2_lt_inv in Ha, Hb. lia.
Qed.

Lemma ilog2_mono (x y : Q) : 0 < x → x <= y → (ilog2 x ≤ ilog2 y)%Z.
Proof.
  intros Hx Hxy.
  destruct (ilog2_spec x Hx) as [H1 _]. destruct (ilog2_spec y ltac:(lra)) as [_ H2].
  assert (pow2 (ilog2 x) < pow2 (ilog2 y + 1)) as H by lra.
  apply pow2_lt_inv in H. lia.
Qed.

Lemma ilog2_proper (x y : Q) : 0 < x → x == y → ilog2 x = ilog2 y.
Proof.
  intros Hx E. destruct (ilog2_spec x Hx) as [H1 H2].
  symmetry. apply ilog2_unique; by rewrite <- E.
Qed.

Lemma ilog2_pow2 (m : Q) (e l : Z) :
  pow2 l <= m → m < pow2 (l + 1) → ilog2 (m * pow2 e) = (l + e)%Z.
Proof.
  intros H1 H2. pose proof (pow2_pos e). apply ilog2_unique.
  - rewrite pow2_add. nra.
  - replace (l + e + 1)%Z with (l + 1 + e)%Z by lia. rewrite pow2_add. nra.
Qed.

(** ** Rounding to an integer *)

(** The three cases of [rne], with what the comparison says. *)
Lemma rne_cases (y : Q) :
  let q := Qfloor y in
  (y - inject_Z q < 1 # 2 ∧ rne y = q) ∨
  (1 # 2 < y - inject_Z q ∧ rne y = (q + 1)%Z) ∨
  (y - inject_Z q == 1 # 2 ∧ rne y = if Z.even q then q else (q + 1)%Z).
Proof.
  cbv zeta. unfold rne. cbv zeta.
  destruct (Qcompare (y - inject_Z (Qfloor y)) (1 # 2)) eqn:E.
  - right; right. by apply Qeq_alt in E.
  - left. by apply Qlt_alt in E.
  - right; left. by apply Qgt_alt in E.
Qed.

Lemma Qfloor_bounds (y : Q) : inject_Z (Qfloor y) <= y ∧ y < inject_Z (Qfloor y) + 1.
Proof.
  split; [apply Qfloor_le|]. pose proof (Qlt_floor y) as H.
  by rewrite inject_Z_plus in H.
Qed.

Lemma inject_Z_succ (z : Z) : inject_Z (z + 1) == inject_Z z + 1.
Proof. by rewrite inject_Z_plus. Qed.

Lemma rne_error (y : Q) : Qabs (inject_Z (rne y) - y) <= 1 # 2.
Proof.
  destruct (Qfloor_bounds y) as [H1 H2]. apply Qabs_Qle_condition.
  destruct (rne_cases y) as [[H ->] | [[H ->] | [H ->]]];
    [| | destruct (Z.even (Qfloor y))]; rewrite ?inject_Z_succ; lra.
Qed.

Lemma rne_floor (y : Q) : (Qfloor y ≤ rne y ≤ Qfloor y + 1)%Z.
Proof.
  destruct (rne_cases y) as [[_ ->] | [[_ ->] | [_ ->]]];
    [| | destruct (Z.even (Qfloor y))]; lia.
Qed.

#[export] Instance rne_proper : Proper (Qeq ==> eq) rne.
Proof.
  intros x y E. unfold rne. cbv zeta. rewrite (Qfloor_comp x y E).
  assert (x - inject_Z (Qfloor y) == y - inject_Z (Qfloor y)) as E2 by (by rewrite E).
  by rewrite (Qcompare_comp _ _ E2 _ _ (Qeq_refl (1 # 2))).
Qed.

Lemma rne_int (z : Z) : rne (inject_Z z) = z.
Proof.
  destruct (rne_cases (inject_Z z)) as [[_ ->] | [[H _] | [H _]]];
    rewrite Qfloor_Z in *; [done | lra..].
Qed.

Lemma rne_mono (x y : Q) : x <= y → (rne x ≤ rne y)%Z.
Proof.
  intros Hxy. pose proof (Qfloor_resp_le x y Hxy) as Hq.
  pose proof (rne_floor x). pose proof (rne_floor y).
  destruct (decide (Qfloor x = Qfloor y)) as [E|]; [|lia].
  destruct (rne_cases x) as [[Hx Ex] | [[Hx Ex] | [Hx Ex]]];
    destruct (rne_cases y) as [[Hy Ey] | [[Hy Ey] | [Hy Ey]]];
    rewrite Ex, Ey, <- ?E in *; try lia; try (exfalso; lra);
    destruct (Z.even (Qfloor x)); lia.
Qed.

(** No integer is nearer. *)
Lemma rne_nearest (y : Q) (z : Z) :
  Qabs (inject_Z (rne y) - y) <= Qabs (inject_Z z - y).
Proof.
  pose proof (rne_error y) as He. apply Qabs_Qle_condition in He.
  destruct (Qfloor_bounds y) as [H1 H2].
  assert (inject_Z (rne y) == inject_Z (Qfloor y) ∨
          inject_Z (rne y) == inject_Z (Qfloor y) + 1) as Hc.
  { pose proof (rne_floor y).
    destruct (decide (rne y = Qfloor y)) as [->|]; [by left|right].
    rewrite <- inject_Z_succ. f_equiv. lia. }
  destruct (Z.le_gt_cases z (Qfloor y)) as [Hz|Hz].
  - rewrite Zle_Qle in Hz. rewrite (Qabs_neg (inject_Z z - y)) by lra.
    apply Qabs_Qle_condition. destruct Hc as [E|E]; rewrite E in *; lra.
  - assert (Qfloor y + 1 ≤ z)%Z as Hz' by lia. rewrite Zle_Qle in Hz'.
    rewrite inject_Z_succ in Hz'. rewrite (Qabs_pos (inject_Z z - y)) by lra.
    apply Qabs_Qle_condition. destruct Hc as [E|E]; rewrite E in *; lra.
Qed.

(** ** Rounding a positive rational *)

Lemma Qabs_scale (a b p : Q) : 0 < p → Qabs (a - b) * p == Qabs (a * p - b * p).
Proof.
  intros H. rewrite <- (Qabs_pos p) at 1 by lra. rewrite <- Qabs_Qmult.
  apply Qabs_wd. ring.
Qed.

Lemma exponent_scale (x : Q) :
  x * pow2 (- exponent x) * pow2 (exponent x) == x.
Proof.
  pose proof (pow2_cancel (exponent x)) as H.
  rewrite <- Qmult_assoc, (Qmult_comm (pow2 (- _))), H. ring.
Qed.

Lemma scaled_range (x : Q) :
  0 < x →
  pow2 (prec - 1) <= x * pow2 (- exponent x) ∧ x * pow2 (- exponent x) < pow2 prec.
Proof.
  intros Hx. destruct (ilog2_spec x Hx) as [H1 H2].
  pose proof (pow2_pos (- exponent x)) as Hp.
  assert (pow2 (ilog2 x) * pow2 (- exponent x) == pow2 (prec - 1)) as E1.
  { rewrite <- pow2_add. unfold exponent. by replace (ilog2 x + _)%Z with (prec - 1)%Z by lia. }
  assert (pow2 (ilog2 x + 1) * pow2 (- exponent x) == pow2 prec) as E2.
  { rewrite <- pow2_add. unfold exponent. by replace (ilog2 x + 1 + _)%Z with prec by lia. }
  split; nra.
Qed.

Lemma mantissa_range (x : Q) :
  0 < x → (2 ^ (prec - 1) ≤ rne (x * pow2 (- exponent x)) ≤ 2 ^ prec)%Z.
Proof.
  intros Hx. destruct (scaled_range x Hx) as [H1 H2].
  rewrite (pow2_inject (prec - 1)) in H1 by done. rewrite (pow2_inject prec) in H2 by done.
  apply rne_mono in H1. apply Qlt_le_weak, rne_mono in H2.
  by rewrite rne_int in H1, H2.
Qed.

(** The rounded number is no further than any multiple of the last bit. *)
Lemma round_pos_grid (x : Q) (z : Z) :
  Qabs (round_pos x - x) <= Qabs (inject_Z z * pow2 (exponent x) - x).
Proof.
  pose proof (rne_nearest (x * pow2 (- exponent x)) z) as H.
  pose proof (pow2_pos (exponent x)) as Hp.
  apply (Qmult_le_compat_r _ _ (pow2 (exponent x))) in H; [|lra].
  by rewrite !Qabs_scale, exponent_scale in H.
Qed.

Lemma round_pos_error (x : Q) : 0 < x → Qabs (round_pos x - x) <= u * x.
Proof.
  intros Hx. destruct (ilog2_spec x Hx) as [H1 _].
  pose proof (rne_error (x * pow2 (- exponent x))) as H.
  pose proof (pow2_pos (exponent x)) as Hp.
  apply (Qmult_le_compat_r _ _ (pow2 (exponent x))) in H; [|lra].
  rewrite Qabs_scale, exponent_scale in H by done.
  assert (u * pow2 (ilog2 x) == (1 # 2) * pow2 (exponent x)) as E.
  { rewrite u_pow2, <- pow2_add. unfold exponent.
    replace (- prec + ilog2 x)%Z with (-1 + (ilog2 x - (prec - 1)))%Z by (unfold prec; lia).
    by rewrite pow2_add. }
  unfold round_pos, u in *. lra.
Qed.

Lemma round_pos_between (x : Q) :
  0 < x → pow2 (ilog2 x) <= round_pos x ∧ round_pos x <= pow2 (ilog2 x + 1).
Proof.
  intros Hx. destruct (mantissa_range x Hx) as [H1 H2].
  rewrite Zle_Qle, <- pow2_inject in H1 by done.
  rewrite Zle_Qle, <- pow2_inject in H2 by done.
  pose proof (pow2_pos (exponent x)) as Hp. unfold round_pos.
  assert (pow2 (prec - 1) * pow2 (exponent x) == pow2 (ilog2 x)) as E1.
  { rewrite <- pow2_add. unfold exponent. by replace (prec - 1 + _)%Z with (ilog2 x) by lia. }
  assert (pow2 prec * pow2 (exponent x) == pow2 (ilog2 x + 1)) as E2.
  { rewrite <- pow2_add. unfold exponent. by replace (prec + _)%Z with (ilog2 x + 1)%Z by lia. }
  split; nra.
Qed.

Lemma round_pos_pos (x : Q) : 0 < x → 0 < round_pos x.
Proof.
  intros Hx. destruct (round_pos_between x Hx) as [H _].
  pose proof (pow2_pos (ilog2 x)). lra.
Qed.

Lemma round_pos_mono (x y : Q) : 0 < x → x <= y → round_pos x <= round_pos y.
Proof.
  intros Hx Hxy. assert (0 < y) as Hy by lra.
  pose proof (ilog2_mono x y Hx Hxy) as Hl.
  destruct (decide (ilog2 x = ilog2 y)) as [E|].
  - unfold round_pos, exponent. rewrite E.
    pose proof (pow2_pos (ilog2 y - (prec - 1))) as Hp.
    pose proof (pow2_pos (- (ilog2 y - (prec - 1)))) as Hn.
    apply Qmult_le_compat_r; [|lra]. rewrite <- Zle_Qle. apply rne_mono. nra.
  - destruct (round_pos_between x Hx) as [_ H1].
    destruct (round_pos_between y Hy) as [H2 _].
    pose proof (pow2_mono (ilog2 x + 1) (ilog2 y) ltac:(lia)). lra.
Qed.

Lemma round_pos_proper (x y : Q) : 0 < x → x == y → round_pos x == round_pos y.
Proof.
  intros Hx E. unfold round_pos, exponent. rewrite (ilog2_proper x y Hx E).
  by rewrite E.
Qed.

(** A significand of at most 53 bits with any exponent is not changed. *)
Lemma round_pos_fix (m e : Z) :
  (0 < m < 2 ^ prec)%Z →
  round_pos (inject_Z m * pow2 e) == inject_Z m * pow2 e.
Proof.
  intros [Hm1 Hm2]. destruct (pow2_log2 m Hm1) as [H1 H2].
  assert (Z.log2 m < prec)%Z as Hl by (by apply Z.log2_lt_pow2).
  unfold round_pos, exponent. rewrite (ilog2_pow2 _ e (Z.log2 m)) by done.
  set (k := (prec - 1 - Z.log2 m)%Z).
  assert (inject_Z m * pow2 e * pow2 (- (Z.log2 m + e - (prec - 1)))
          == inject_Z (m * 2 ^ k)) as E.
  { rewrite inject_Z_mult, <- pow2_inject by (unfold k; lia).
    rewrite <- Qmult_assoc, <- pow2_add. f_equiv. f_equiv. unfold k. lia. }
  rewrite E, rne_int, inject_Z_mult, <- pow2_inject by (unfold k; lia).
  rewrite <- Qmult_assoc, <- pow2_add. f_equiv. f_equiv. unfold k. lia.
Qed.

Lemma round_pos_idem (x : Q) : 0 < x → round_pos (round_pos x) == round_pos x.
Proof.
  intros Hx. destruct (mantissa_range x Hx) as [H1 H2].
  unfold round_pos at 2 3. set (m := rne _) in *. set (e := exponent x).
  destruct (decide (m = 2 ^ prec)%Z) as [E|].
  - assert (inject_Z m * pow2 e == inject_Z (2 ^ (prec - 1)) * pow2 (e + 1)) as E'.
    { rewrite E, pow2_succ. change (inject_Z (2 ^ prec)) with (2 * inject_Z (2 ^ (prec - 1))).
      ring. }
    assert (0 < inject_Z m * pow2 e) as Hp.
    { pose proof (pow2_pos e). apply Qmult_lt_0_compat; [|done].
      rewrite <- (Zlt_Qlt 0). unfold prec in *. lia. }
    rewrite (round_pos_proper _ _ Hp E').
    by rewrite round_pos_fix, E'.
  - apply round_pos_fix. unfold prec in *. lia.
Qed.

(** ** Rounding any rational *)

Lemma round64_cases (x : Q) :
  (x == 0 ∧ round64 x = 0) ∨ (0 < x ∧ round64 x = round_pos x) ∨
  (x < 0 ∧ round64 x = - round_pos (- x)).
Proof.
  destruct x as [[|p|p] d]; unfold round64; cbn [Qnum];
    [left | right; left | right; right]; done.
Qed.

Lemma round64_pos (x : Q) : 0 < x → round64 x = round_pos x.
Proof. intros H. destruct (round64_cases x) as [[E _] | [[_ E] | [E _]]]; [lra | done | lra]. Qed.

Lemma round64_neg (x : Q) : x < 0 → round64 x = - round_pos (- x).
Proof. intros H. destruct (round64_cases x) as [[E _] | [[E _] | [_ E]]]; [lra | lra | done]. Qed.

Lemma round64_zero (x : Q) : x == 0 → round64 x = 0.
Proof. intros H. destruct (round64_cases x) as [[_ E] | [[E _] | [E _]]]; [done | lra | lra]. Qed.

#[export] Instance round64_proper : Proper (Qeq ==> Qeq) round64.
Proof.
  intros x y E. destruct (round64_cases x) as [[H ->] | [[H ->] | [H ->]]].
  - by rewrite round64_zero by (by rewrite <- E).
  - rewrite round64_pos by (by rewrite <- E). by apply round_pos_proper.
  - rewrite round64_neg by (by rewrite <- E).
    apply Qopp_comp, round_pos_proper; [lra | by rewrite E].
Qed.

Lemma round64_opp (x : Q) : round64 (- x) == - round64 x.
Proof.
  destruct (round64_cases x) as [[H ->] | [[H ->] | [H ->]]].
  - rewrite round64_zero by lra. reflexivity.
  - rewrite round64_neg by lra. apply Qopp_comp, round_pos_proper; [lra | ring].
  - rewrite round64_pos by lra. ring.
Qed.

Lemma round64_error (x : Q) : Qabs (round64 x - x) <= u * Qabs x.
Proof.
  destruct (round64_cases x) as [[H ->] | [[H ->] | [H ->]]].
  - rewrite H. by vm_compute.
  - rewrite (Qabs_pos x) by lra. by apply round_pos_error.
  - rewrite (Qabs_neg x) by lra. pose proof (round_pos_error (- x) ltac:(lra)) as He.
    assert (- round_pos (- x) - x == - (round_pos (- x) - - x)) as E by ring.
    by rewrite E, Qabs_opp.
Qed.

Lemma round64_mono (x y : Q) : x <= y → round64 x <= round64 y.
Proof.
  intros Hxy.
  destruct (round64_cases x) as [[Hx ->] | [[Hx ->] | [Hx ->]]];
    destruct (round64_cases y) as [[Hy ->] | [[Hy ->] | [Hy ->]]]; try lra.
  - pose proof (round_pos_pos y Hy). lra.
  - by apply round_pos_mono.
  - pose proof (round_pos_pos (- x) ltac:(lra)). lra.
  - pose proof (round_pos_pos (- x) ltac:(lra)). pose proof (round_pos_pos y Hy). lra.
  - pose proof (round_pos_mono (- y) (- x) ltac:(lra) ltac:(lra)). lra.
Qed.

Lemma round64_fix (m e : Z) :
  (Z.abs m < 2 ^ prec)%Z → round64 (inject_Z m * pow2 e) == inject_Z m * pow2 e.
Proof.
  intros Hm. pose proof (pow2_pos e) as Hp.
  destruct (Z.lt_trichotomy m 0) as [H | [-> | H]].
  - assert (inject_Z m < 0) as H' by (unfold Qlt; cbn; lia).
    rewrite round64_neg by nra.
    assert (- (inject_Z m * pow2 e) == inject_Z (- m) * pow2 e) as E
      by (rewrite inject_Z_opp; ring).
    assert (0 < - (inject_Z m * pow2 e)) as Hx by nra.
    rewrite (round_pos_proper _ _ Hx E), round_pos_fix by lia.
    rewrite inject_Z_opp. ring.
  - rewrite round64_zero; [ring_simplify; reflexivity | ring].
  - assert (0 < inject_Z m) as H' by (unfold Qlt; cbn; lia).
    rewrite round64_pos by nra. apply round_pos_fix. lia.
Qed.

Lemma round64_repr (x : Q) : representable (round64 x).
Proof.
  assert (∀ x, 0 < x → ∃ m e : Z, (0 < m < 2 ^ prec)%Z ∧ round_pos x == inject_Z m * pow2 e)
    as Hpos.
  { clear x. intros x Hx. destruct (mantissa_range x Hx) as [H1 H2].
    unfold round_pos. set (m := rne _) in *.
    destruct (decide (m = 2 ^ prec)%Z) as [E|].
    - exists (2 ^ (prec - 1))%Z, (exponent x + 1)%Z. split; [done|].
      rewrite E, pow2_succ. change (inject_Z (2 ^ prec)) with (2 * inject_Z (2 ^ (prec - 1))).
      ring.
    - exists m, (exponent x). split; [unfold prec in *; lia | reflexivity]. }
  destruct (round64_cases x) as [[H ->] | [[H ->] | [H ->]]].
  - exists 0%Z, 0%Z. split; [done | ring].
  - destruct (Hpos x H) as (m & e & Hm & E). exists m, e. split; [lia | done].
  - destruct (Hpos (- x) ltac:(lra)) as (m & e & Hm & E). exists (- m)%Z, e.
    split; [lia|]. rewrite E, inject_Z_opp. ring.
Qed.

Lemma representable_iff (f : Q) : representable f ↔ round64 f == f.
Proof.
  split.
  - intros (m & e & Hm & E). rewrite E. by apply round64_fix.
  - intros E. destruct (round64_repr f) as (m & e & Hm & E').
    exists m, e. split; [done|]. by rewrite <- E.
Qed.

Lemma round64_idem (x : Q) : round64 (round64 x) == round64 x.
Proof. apply representable_iff, round64_repr. Qed.

(** ** The rounded number is a nearest representable one *)

Lemma u_small : 0 < u ∧ u <= 1.
Proof. by vm_compute. Qed.

(** A positive representable number on the grid of its own binade. *)
Lemma on_grid (m e : Z) :
  (0 < m < 2 ^ prec)%Z →
  ilog2 (inject_Z m * pow2 e) = (Z.log2 m + e)%Z ∧
  inject_Z m * pow2 e ==
  inject_Z (m * 2 ^ (prec - 1 - Z.log2 m)) * pow2 (Z.log2 m + e - (prec - 1)).
Proof.
  intros [Hm1 Hm2]. destruct (pow2_log2 m Hm1) as [H1 H2].
  assert (Z.log2 m < prec)%Z as Hl by (by apply Z.log2_lt_pow2).
  split; [by apply ilog2_pow2|].
  rewrite inject_Z_mult, <- pow2_inject by lia.
  rewrite <- Qmult_assoc, <- pow2_add. f_equiv. f_equiv. lia.
Qed.

Lemma representable_opp (f : Q) : representable f → representable (- f).
Proof.
  intros (m & e & Hm & E). exists (- m)%Z, e. split; [lia|].
  rewrite E, inject_Z_opp. ring.
Qed.

Lemma representable_pos (f : Q) :
  representable f → 0 < f → ∃ m e : Z, (0 < m < 2 ^ prec)%Z ∧ f == inject_Z m * pow2 e.
Proof.
  intros (m & e & Hm & E) Hf. exists m, e. split; [|done].
  pose proof (pow2_pos e). rewrite E in Hf.
  destruct (Z.lt_trichotomy m 0) as [H' | [-> | H']]; [| | lia].
  - assert (inject_Z m < 0) by (unfold Qlt; cbn; lia). nra.
  - change (inject_Z 0) with 0 in Hf. lra.
Qed.

Lemma round_pos_nearest (x f : Q) :
  0 < x → representable f → Qabs (round_pos x - x) <= Qabs (f - x).
Proof.
  intros Hx Hf. destruct (ilog2_spec x Hx) as [Hx1 Hx2].
  destruct (Qlt_le_dec 0 f) as [Hp|Hn]; last first.
  { pose proof (round_pos_error x Hx) as He. unfold u in He.
    rewrite (Qabs_neg (f - x)) by lra. lra. }
  destruct (representable_pos f Hf Hp) as (m & e & Hm & E).
  destruct (on_grid m e Hm) as [Hl Hg]. rewrite <- E in Hg.
  rewrite <- (ilog2_proper f _ Hp E) in Hl.
  destruct (ilog2_spec f Hp) as [Hf1 Hf2].
  destruct (Z.lt_trichotomy (ilog2 f) (ilog2 x)) as [H | [H | H]].
  - pose proof (pow2_mono (ilog2 f + 1) (ilog2 x) ltac:(lia)).
    pose proof (round_pos_grid x (2 ^ (prec - 1))) as Hr.
    rewrite <- pow2_inject, <- pow2_add in Hr by done.
    replace (prec - 1 + exponent x)%Z with (ilog2 x) in Hr by (unfold exponent; lia).
    rewrite (Qabs_neg (pow2 _ - x)) in Hr by lra. rewrite (Qabs_neg (f - x)) by lra. lra.
  - pose proof (round_pos_grid x (m * 2 ^ (prec - 1 - Z.log2 m))) as Hr.
    unfold exponent in Hr. rewrite <- H, Hl in Hr. by rewrite <- Hg in Hr.
  - pose proof (pow2_mono (ilog2 x + 1) (ilog2 f) ltac:(lia)).
    pose proof (round_pos_grid x (2 ^ prec)) as Hr.
    rewrite <- pow2_inject, <- pow2_add in Hr by done.
    replace (prec + exponent x)%Z with (ilog2 x + 1)%Z in Hr by (unfold exponent; lia).
    rewrite (Qabs_pos (pow2 _ - x)) in Hr by lra. rewrite (Qabs_pos (f - x)) by lra. lra.
Qed.

Lemma round64_nearest (x f : Q) :
  representable f → Qabs (round64 x - x) <= Qabs (f - x).
Proof.
  intros Hf. destruct (round64_cases x) as [[H ->] | [[H ->] | [H ->]]].
  - rewrite H. apply Qabs_nonneg.
  - by apply round_pos_nearest.
  - pose proof (round_pos_nearest (- x) (- f) ltac:(lra) (representable_opp f Hf)) as Hr.
    assert (- round_pos (- x) - x == - (round_pos (- x) - - x)) as E1 by ring.
    assert (f - x == - (- f - - x)) as E2 by ring.
    by rewrite E1, E2, !Qabs_opp.
Qed.

(** ** The interface

    Binary64 and exact arithmetic are the two instances. *)

#[export] Instance binary64_laws : RoundingLaws binary64.
Proof.
  split; [exact round64_proper | exact round64_mono | exact round64_error
         | exact round64_fix | exact round64_idem].
Qed.

#[export] Instance exact_laws : RoundingLaws exact.
Proof.
  split; cbn; [by intros x y E | done | | done | done].
  intros x. rewrite (Qabs_wd (x - x) 0) by ring. pose proof (Qabs_nonneg x).
  unfold u. change (Qabs 0) with 0. lra.
Qed.

#[export] Instance exact_exactness (N : Z) : Exactness exact N.
Proof. split; cbn; [by intros x y E | done]. Qed.

Lemma exact_ints {R : Rounding} {N : Z} {E : Exactness R N} (n : Z) :
  (Z.abs n ≤ N)%Z → rnd (inject_Z n) == inject_Z n.
Proof.
  intros Hn. assert (Z.abs (2 * n) ≤ 2 * N)%Z as Hh by lia.
  pose proof (exact_halves (2 * n) Hh) as H.
  assert (inject_Z (2 * n) / 2 == inject_Z n) as E' by (rewrite inject_Z_mult; field).
  by rewrite E' in H.
Qed.

Section laws.
Context `{L : RoundingLaws}.

Lemma rnd_zero : rnd 0 == 0.
Proof. pose proof (rnd_fix 0 0 eq_refl) as H. by rewrite Qmult_0_l in H. Qed.

Lemma rnd_nonneg (x : Q) : 0 <= x → 0 <= rnd x.
Proof. intros H. rewrite <- rnd_zero. by apply rnd_mono. Qed.

Lemma rnd_nonpos (x : Q) : x <= 0 → rnd x <= 0.
Proof. intros H. rewrite <- rnd_zero. by apply rnd_mono. Qed.

(** Integers of at most 53 bits, and [2^53] itself, are floats. *)
Lemma rnd_int (n : Z) : (Z.abs n ≤ 2 ^ prec)%Z → rnd (inject_Z n) == inject_Z n.
Proof.
  intros Hn. destruct (decide (Z.abs n = 2 ^ prec)%Z) as [E|].
  - assert (inject_Z n == inject_Z (n / 2) * pow2 1) as E'.
    { change (pow2 1) with (inject_Z 2). rewrite <- inject_Z_mult. f_equiv.
      assert (n = 2 ^ prec ∨ n = - 2 ^ prec)%Z as [-> | ->] by lia; by vm_compute. }
    rewrite E'. apply rnd_fix.
    assert (n = 2 ^ prec ∨ n = - 2 ^ prec)%Z as [-> | ->] by lia; by vm_compute.
  - rewrite <- (Qmult_1_r (inject_Z n)). apply (rnd_fix n 0). lia.
Qed.

Lemma rnd_half : rnd (1 # 2) == 1 # 2.
Proof. exact (rnd_fix 1 (-1) eq_refl). Qed.

(** Rounding stays between two floats. *)
Lemma rnd_between (lo hi x : Q) :
  rnd lo == lo → rnd hi == hi → lo <= x → x <= hi → lo <= rnd x ∧ rnd x <= hi.
Proof. intros E1 E2 H1 H2. rewrite <- E1 at 1. rewrite <- E2. split; by apply rnd_mono. Qed.

(** The standard model of one operation, on what is not negative. *)
Lemma rnd_model (x : Q) : 0 <= x → x * (1 - u) <= rnd x ∧ rnd x <= x * (1 + u).
Proof.
  intros Hx. pose proof (rnd_error x) as H. rewrite (Qabs_pos x) in H by done.
  apply Qabs_Qle_condition in H. split; lra.
Qed.

End laws.

#[export] Instance laws_exactness {R : Rounding} {L : RoundingLaws R} :
  Exactness R max_count.
Proof.
  split; [apply _|]. intros h Hh.
  assert (inject_Z h / 2 == inject_Z h * pow2 (-1)) as E by (by change (pow2 (-1)) with (/ 2)).
  rewrite E. apply rnd_fix. change max_count with 4503599627370495%Z in Hh.
  change (2 ^ prec)%Z with 9007199254740992%Z. lia.
Qed.

(** ** Ties *)

Lemma Qfloor_half (m : Z) : Qfloor (inject_Z m + (1 # 2)) = m.
Proof.
  destruct (Qfloor_bounds (inject_Z m + (1 # 2))) as [H1 H2].
  set (q := Qfloor _) in *.
  assert (inject_Z q < inject_Z (m + 1)) as A by (rewrite inject_Z_succ; lra).
  assert (inject_Z m < inject_Z (q + 1)) as B by (rewrite inject_Z_succ; lra).
  rewrite <- Zlt_Qlt in A, B. lia.
Qed.

(** Of two integers that are as near, the even one. *)
Lemma rne_tie (m : Z) : rne (inject_Z m + (1 # 2)) = if Z.even m then m else (m + 1)%Z.
Proof.
  pose proof (rne_cases (inject_Z m + (1 # 2))) as H. cbv zeta in H.
  rewrite Qfloor_half in H. destruct H as [[H _] | [[H _] | [_ H]]]; [lra | lra | done].
Qed.

(** Halfway between two neighbouring floats. *)
Lemma round64_tie (m e : Z) :
  (2 ^ (prec - 1) ≤ m < 2 ^ prec)%Z →
  round64 ((inject_Z m + (1 # 2)) * pow2 e) ==
  inject_Z (if Z.even m then m else m + 1) * pow2 e.
Proof.
  intros [H1 H2]. pose proof (pow2_pos e) as Hp.
  assert (pow2 (prec - 1) <= inject_Z m + (1 # 2)) as A
    by (rewrite pow2_inject, Zle_Qle in * by done; lra).
  assert (inject_Z m + (1 # 2) < pow2 (prec - 1 + 1)) as B.
  { change (prec - 1 + 1)%Z with prec. rewrite pow2_inject by done.
    assert (m + 1 ≤ 2 ^ prec)%Z as H by lia. rewrite Zle_Qle, inject_Z_succ in H. lra. }
  assert (0 < (inject_Z m + (1 # 2)) * pow2 e) as Hx by (pose proof (pow2_pos (prec - 1)); nra).
  rewrite round64_pos by done. unfold round_pos, exponent.
  rewrite (ilog2_pow2 _ e (prec - 1)) by done.
  replace (prec - 1 + e - (prec - 1))%Z with e by lia.
  assert ((inject_Z m + (1 # 2)) * pow2 e * pow2 (- e) == inject_Z m + (1 # 2)) as ->
    by (rewrite <- Qmult_assoc, pow2_cancel; ring).
  by rewrite rne_tie.
Qed.

(** ** Main results *)

(** [round64] is rounding to nearest with ties to even on significands of
    53 bits: the result is such a number, no such number is nearer, the
    relative error is at most [2^-53], halfway between two neighbours the
    one with the even significand is taken, and the rounding is monotone. *)
Theorem round64_spec :
  (∀ x, representable (round64 x)) ∧
  (∀ x f, representable f → Qabs (round64 x - x) <= Qabs (f - x)) ∧
  (∀ x, Qabs (round64 x - x) <= u * Qabs x) ∧
  (∀ m e : Z, (2 ^ (prec - 1) ≤ m < 2 ^ prec)%Z →
     round64 ((inject_Z m + (1 # 2)) * pow2 e) ==
     inject_Z (if Z.even m then m else m + 1) * pow2 e) ∧
  (∀ x y, x <= y → round64 x <= round64 y).
Proof.
  split_and!; [exact round64_repr | exact round64_nearest | exact round64_error
              | exact round64_tie | exact round64_mono].
Qed.

Lemma round64_spec_witness :
  round64 ((inject_Z 4503599627370497 + (1 # 2)) * pow2 0) ==
  inject_Z 4503599627370498 * pow2 0.
Proof.
  apply (proj1 (proj2 (proj2 (proj2 round64_spec))) 4503599627370497%Z 0%Z).
  by vm_compute.
Defined.
