(* ===== verification/Roundoff.v ===== *)
(** * Roundoff: the error that roundings add up to

    The standard model of floating-point error analysis: after [k]
    roundings a number is off by at most [g k] = (1 + u)^k - 1 times a
    bound of its magnitude.  [err k a x m] says so of [a] against [x];
    the lemmas carry it through sums, quotients and one more rounding, and
    through the loop [sum_rounded] that adds a list from left to right
    with a rounding after each addition. *)

From Stdlib Require Import Qround Qpower Qabs.
From S2P Require Import Prelude Rounding.

Local Open Scope Q_scope.

(** ** Accumulated error

    [up k] is [(1 + u)^k] and [g k] the relative error that [k] roundings
    can add up to.  [err k a x m] says that [a] is [x] up to [k] roundings
    of numbers of magnitude at most [m]. *)
Fixpoint up (k : nat) : Q :=
  match k with
  | O => 1
  | S k => up k * (1 + u)
  end.

Definition g (k : nat) : Q := up k - 1.

Definition err (k : nat) (a x m : Q) : Prop := Qabs (a - x) <= g k * m.

(** [sum] of a list of floats from left to right, as a [for] loop adding
    to 0 does and as the built-in [sum] does up to Python 3.11. *)
Definition sum_rounded `{R : Rounding} (total : list Q) : Q :=
  fold_left (λ s x, rnd (s + x)) total 0.

(** ** The algebra of accumulated errors *)

Lemma up_ge_1 (k : nat) : 1 <= up k.
Proof. induction k as [|k IH]; [by vm_compute|]. cbn [up]. unfold u. nra. Qed.

Lemma g_S (k : nat) : g (S k) == g k + u + u * g k.
Proof. unfold g. cbn [up]. ring. Qed.

Lemma g_nonneg (k : nat) : 0 <= g k.
Proof. unfold g. pose proof (up_ge_1 k). lra. Qed.

Lemma g_mono (j k : nat) : (j ≤ k)%nat → g j <= g k.
Proof.
  induction 1 as [|k _ IH]; [apply Qle_refl|].
  rewrite g_S. pose proof (g_nonneg k). unfold u. nra.
Qed.

(** Up to [2^52] roundings the accumulated error is at most twice their
    number times the unit roundoff. *)
Lemma g_linear (k : nat) :
  (Z.of_nat k ≤ 2 ^ (prec - 1))%Z → g k <= 2 * inject_Z (Z.of_nat k) * u.
Proof.
  induction k as [|k IH]; intros Hk; [by vm_compute|].
  rewrite g_S, Nat2Z.inj_succ. unfold Z.succ. rewrite inject_Z_plus.
  specialize (IH ltac:(lia)).
  assert (inject_Z (Z.of_nat k) <= inject_Z (2 ^ (prec - 1))) as Hq
    by (rewrite <- Zle_Qle; lia).
  change (inject_Z (2 ^ (prec - 1))) with 4503599627370496 in Hq.
  change (inject_Z 1) with 1. unfold u in *. nra.
Qed.

#[export] Instance err_proper : Proper (eq ==> Qeq ==> Qeq ==> Qeq ==> iff) err.
Proof. intros k ? <- a b E x y E' m n E''. unfold err. by rewrite E, E', E''. Qed.

Lemma err_refl (x m : Q) : 0 <= m → err 0 x x m.
Proof.
  intros Hm. unfold err. rewrite (Qabs_wd (x - x) 0) by ring.
  change (Qabs 0) with 0. change (g 0) with (1 - 1). lra.
Qed.

Lemma err_mono (j k : nat) (a x m n : Q) :
  (j ≤ k)%nat → 0 <= m → m <= n → err j a x m → err k a x n.
Proof.
  unfold err. intros H Hm Hn He.
  pose proof (g_mono j k H). pose proof (g_nonneg j). nra.
Qed.

Lemma err_add (k : nat) (a b x y m n : Q) :
  err k a x m → err k b y n → err k (a + b) (x + y) (m + n).
Proof.
  unfold err. intros H1 H2. apply Qabs_Qle_condition in H1, H2.
  apply Qabs_Qle_condition. lra.
Qed.

Lemma err_scale (k : nat) (a x m c : Q) :
  0 <= c → err k a x m → err k (a * c) (x * c) (m * c).
Proof.
  unfold err. intros Hc H. apply Qabs_Qle_condition in H.
  apply Qabs_Qle_condition. nra.
Qed.

Lemma err_div (k : nat) (a x m c : Q) :
  0 < c → err k a x m → err k (a / c) (x / c) (m / c).
Proof.
  intros Hc H. apply err_scale; [|done].
  apply Qlt_le_weak, Qinv_lt_0_compat, Hc.
Qed.

(** The magnitude of what is within an error of [x]. *)
Lemma err_magnitude (k : nat) (a x m : Q) :
  Qabs x <= m → err k a x m → Qabs a <= m + g k * m.
Proof.
  unfold err. intros Hx H. apply Qabs_Qle_condition in Hx, H.
  apply Qabs_Qle_condition. lra.
Qed.

Section accumulate.
Context `{L : RoundingLaws}.

(** One more rounding. *)
Lemma err_rnd (k : nat) (a x m : Q) :
  Qabs x <= m → err k a x m → err (S k) (rnd a) x m.
Proof.
  intros Hx H. pose proof (err_magnitude k a x m Hx H) as Ha.
  pose proof (rnd_error a) as Hr. unfold err in *. rewrite g_S.
  apply Qabs_Qle_condition in H, Hr. apply Qabs_Qle_condition.
  unfold u in *. lra.
Qed.

(** A sum from left to right, one rounding per addition: the error
    grows with the number of terms and with their magnitudes. *)
Lemma err_sum (ts xs ms : list Q) (j k : nat) (s x0 m0 : Q) :
  (j ≤ k)%nat → Qabs x0 <= m0 → err k s x0 m0 →
  Forall3 (λ t x m, Qabs x <= m ∧ err j t x m) ts xs ms →
  err (k + length ts) (fold_left (λ s t, rnd (s + t)) ts s)
    (fold_left Qplus xs x0) (fold_left Qplus ms m0).
Proof.
  intros Hj Hx Hs H. revert k s x0 m0 Hj Hx Hs.
  induction H as [|t x m ts xs ms [Hx0 Ht] _ IH]; intros k s x0 m0 Hj Hx Hs.
  - cbn. by rewrite Nat.add_0_r.
  - cbn [fold_left length]. replace (k + S (length ts))%nat with (S k + length ts)%nat by lia.
    assert (0 <= m) by (pose proof (Qabs_nonneg x); lra).
    assert (Qabs (x0 + x) <= m0 + m) as Hm.
    { apply Qabs_Qle_condition in Hx, Hx0. apply Qabs_Qle_condition. lra. }
    apply IH; [lia | done |]. apply err_rnd; [done|].
    apply err_add; [done|]. apply (err_mono j k _ _ m m); [done.. | apply Qle_refl | done].
Qed.

End accumulate.

Section means.
Context `{L : RoundingLaws}.

Lemma err_zero (k : nat) : err k 0 0 0.
Proof. unfold err. rewrite Qmult_0_r. by vm_compute. Qed.

Lemma sum_rounded_err (ts xs ms : list Q) (j : nat) :
  Forall3 (λ t x m, Qabs x <= m ∧ err j t x m) ts xs ms →
  err (j + length ts) (sum_rounded ts) (fold_left Qplus xs 0) (fold_left Qplus ms 0).
Proof. apply err_sum; [done | by vm_compute | apply err_zero]. Qed.

(** The magnitude of a sum is at most the sum of the magnitudes. *)
Lemma sum_magnitude (ts xs ms : list Q) (P : Q → Q → Q → Prop) (x0 m0 : Q) :
  Forall3 (λ t x m, Qabs x <= m ∧ P t x m) ts xs ms → Qabs x0 <= m0 →
  Qabs (fold_left Qplus xs x0) <= fold_left Qplus ms m0.
Proof.
  intros H. revert x0 m0. induction H as [|t x m ts xs ms [Hx _] _ IH]; intros x0 m0 H0; [done|].
  cbn [fold_left]. apply IH. apply Qabs_Qle_condition in Hx, H0.
  apply Qabs_Qle_condition. lra.
Qed.

(** The mean of a list of numbers, each known up to [j] roundings, summed
    from left to right and divided by their number [n]. *)
Lemma mean_err (ts xs ms : list Q) (j : nat) (n q : Q) :
  Forall3 (λ t x m, Qabs x <= m ∧ err j t x m) ts xs ms → 0 < n →
  q == rnd (sum_rounded ts / n) →
  err (S (j + length ts)) q (fold_left Qplus xs 0 / n) (fold_left Qplus ms 0 / n).
Proof.
  intros H Hn ->. pose proof (sum_magnitude _ _ _ _ 0 0 H ltac:(by vm_compute)) as Hm.
  apply err_rnd; [|by apply err_div, sum_rounded_err].
  unfold Qdiv. rewrite Qabs_Qmult, (Qabs_pos (/ n)) by (by apply Qlt_le_weak, Qinv_lt_0_compat).
  apply Qmult_le_compat_r; [done | by apply Qlt_le_weak, Qinv_lt_0_compat].
Qed.

Lemma sum_from_nonneg (ts : list Q) (s : Q) :
  0 <= s → Forall (λ t, 0 <= t) ts → 0 <= fold_left (λ s t, rnd (s + t)) ts s.
Proof.
  intros Hs H. revert s Hs. induction H as [|t ts Ht _ IH]; intros s Hs; [done|].
  cbn [fold_left]. apply IH, rnd_nonneg. lra.
Qed.

Lemma sum_rounded_nonneg (ts : list Q) : Forall (λ t, 0 <= t) ts → 0 <= sum_rounded ts.
Proof. by apply sum_from_nonneg. Qed.

(** Exact terms that are not negative, each rounded once. *)
Lemma rounded_terms {A : Type} (f : A → Q) (l : list A) :
  Forall (λ a, 0 <= f a) l →
  Forall3 (λ t x m, Qabs x <= m ∧ err 1 t x m)
    ((λ a, rnd (f a)) <$> l) (f <$> l) (f <$> l).
Proof.
  induction 1 as [|a l Ha _ IH]; cbn [fmap list_fmap]; constructor; [|done].
  rewrite Qabs_pos by done. split; [apply Qle_refl|].
  apply err_rnd; [rewrite Qabs_pos by done; apply Qle_refl | by apply err_refl].
Qed.

End means.
