(* ===== verification/Numeric.v ===== *)
(** * Numeric: the scorers on Python numbers

    The scorers of [src/conversations/analysis_logic.py] once more, with
    the arithmetic Python does: a number is an integer or a float
    ([Num]), the sum of two integers is exact, every other sum and every
    quotient is the exact result rounded once ([num_add], [num_truediv]),
    literals are rounded when they are read ([lit]), and the built-in
    [sum] of floats is taken from left to right or, from Python 3.12 on,
    with the compensation of Neumaier ([Summation], [py_sum]).  The
    rounding is a parameter, the class [Rounding] of Rounding.v: with
    [binary64] the definitions are the scorers as they run, with [exact]
    they are the scorers of Lexical.v, Pairs.v, Sentiment.v and
    Analyzer.v.  The loops and the guards are those of the exact
    scorers, definition by definition.

    The reference definitions give each score as a formula, the exact
    score with [rnd] where the code rounds ([clarity_value] and the
    like), and [scored] says that a report holds these formulas.  The
    lemmas show that with lawful capabilities every scorer returns the
    number of its formula, for conversations of at most [N] messages
    where halves of integers up to [2 N] are floats, and that
    [analyze_conversations_fl] returns a report that is [scored].  The
    main result is that the quotient of two integers in binary64 is
    correctly rounded. *)

From Stdlib Require Import Qabs.
From stdpp Require Import sorting.
From S2P Require Import Prelude PyStr Transcript Capabilities Lexical Pairs Sentiment.
From S2P Require Import Analyzer Rounding Roundoff.

Local Open Scope Q_scope.

(** ** Python numbers *)

Inductive Num : Type :=
  | Int (n : Z)
  | Float (x : Q).

(** The number a Python number denotes. *)
Definition value (a : Num) : Q :=
  match a with
  | Int n => inject_Z n
  | Float x => x
  end.

(** The two ways the built-in [sum] adds floats: from left to right (up
    to Python 3.11) and with a running compensation (from 3.12 on). *)
Inductive Summation : Set :=
  | left_to_right
  | compensated.

Section arithmetic.
Context `{R : Rounding}.

(** [float(a)] *)
Definition to_float (a : Num) : Q :=
  match a with
  | Int n => rnd (inject_Z n)
  | Float x => x
  end.

(** A float literal: the float nearest to the decimal number written. *)
Definition lit (q : Q) : Num := Float (rnd q).

(** [a + b]: exact on two integers, rounded once otherwise. *)
Definition num_add (a b : Num) : Num :=
  match a, b with
  | Int m, Int n => Int (m + n)
  | _, _ => Float (rnd (to_float a + to_float b))
  end.

(** [a / b]: the quotient of two integers is rounded once; otherwise the
    operands are converted first. *)
Definition num_truediv (a b : Num) : result Num :=
  match a, b with
  | Int m, Int n =>
      if (n =? 0)%Z then raise ZeroDivisionError
      else ok (Float (rnd (inject_Z m / inject_Z n)))
  | _, _ =>
      if Qeq_bool (to_float b) 0 then raise ZeroDivisionError
      else ok (Float (rnd (to_float a / to_float b)))
  end.

(** [-a] *)
Definition num_neg (a : Num) : Num :=
  match a with
  | Int n => Int (- n)
  | Float x => Float (- x)
  end.

(** [a > b] and [a < b]: numbers are compared by value. *)
Definition num_gt (a b : Num) : bool := Qgtb (value a) (value b).

Definition num_lt (a b : Num) : bool := Qltb (value a) (value b).

(** [sum(total)] of floats up to Python 3.11: from the integer 0, left to
    right. *)
Definition sum_left_to_right (total : list Q) : Num :=
  fold_left (λ s x, num_add s (Float x)) total (Int 0).

(** [sum(total)] of floats from Python 3.12 on: the first item is added to
    the integer 0, the others with the compensation of Neumaier, which is
    added at the end when it is not zero. *)
Definition sum_compensated (total : list Q) : Num :=
  match total with
  | [] => Int 0
  | x :: total' =>
      let '(f_result, c) :=
        fold_left (λ '(f_result, c) x,
          let t := rnd (f_result + x) in
          if Qle_bool (Qabs x) (Qabs f_result)
          then (t, rnd (c + rnd (rnd (f_result - t) + x)))
          else (t, rnd (c + rnd (rnd (x - t) + f_result))))
        total' (to_float (num_add (Int 0) (Float x)), 0) in
      if negb (Qeq_bool c 0) then Float (rnd (f_result + c)) else Float f_result
  end.

(** The built-in [sum] on a list of floats, as the version of Python
    computes it. *)
Definition py_sum (s : Summation) (total : list Q) : Num :=
  match s with
  | left_to_right => sum_left_to_right total
  | compensated => sum_compensated total
  end.

(** [delta.total_seconds()]: the microseconds divided by [10**6]. *)
Definition total_seconds_fl (delta : Z) : result Num :=
  num_truediv (Int delta) (Int (10 ^ 6)).

(** ** The scorers *)

Definition clarity_score_fl (ai_messages : list string) : result Num :=
  if py_not ai_messages then ok (Int 0)
  else
    let clear_resp :=
      fold_left (λ clear_resp msg,
        let words := split msg in
        if (len words <=? 25)%Z && (len words >=? 3)%Z
        then (clear_resp + 1)%Z else clear_resp)
      ai_messages 0%Z in
    num_truediv (Int clear_resp) (Int (len ai_messages)).

Definition accuracy_score_fl (ai_messages : list string) : result Num :=
  if py_not ai_messages then ok (lit 0.5)
  else
    let score :=
      fold_left (λ score msg,
        if any_in uncertain_phrases (lower msg)
        then num_add score (lit 0.5) else num_add score (Int 1))
      ai_messages (Int 0) in
    num_truediv score (Int (len ai_messages)).

Definition empathy_score_fl (ai_messages : list string) : result Num :=
  if py_not ai_messages then ok (Int 0)
  else
    let score :=
      fold_left (λ score msg,
        if any_in empathy_phrases (lower msg) then (score + 1)%Z else score)
      ai_messages 0%Z in
    num_truediv (Int score) (Int (len ai_messages)).

Definition completeness_score_fl (messages : list Message) : result Num :=
  r ← for_return (λ i,
        mi ← getitem messages i;
        if decide (sender mi = "user") then
          mj ← getitem messages (i + 1);
          if decide (sender mj = "user") then ok (Some (lit 0.5)) else ok None
        else ok None)
      (py_range (len messages - 1));
  match r with
  | Some v => ok v
  | None => ok (Int 1)
  end.

Definition average_response_time_fl (s : Summation) (messages : list Message) :
    result (option Num) :=
  times ← foldM (λ times i,
        mi ← getitem messages i;
        if decide (sender mi = "user") then
          mj ← getitem messages (i + 1);
          if decide (sender mj = "ai") then
            let t1 := timestamp mi in
            let t2 := timestamp mj in
            diff ← total_seconds_fl (t2 - t1);
            ok (times ++ [value diff])
          else ok times
        else ok times)
      (py_range (len messages - 1)) [];
  if py_not times then ok None
  else q ← num_truediv (py_sum s times) (Int (len times)); ok (Some q).

Definition relevance_score_fl `{W : WordNet} (messages : list Message) : result Num :=
  '(relevance_sum, pairs) ← foldM (λ '(relevance_sum, pairs) i,
        mi ← getitem messages i;
        if decide (sender mi = "user") then
          mj ← getitem messages (i + 1);
          if decide (sender mj = "ai") then
            let user_words := split (lower (text mi)) in
            let ai_words := split (lower (text mj)) in
            score ← foldM (λ score (i1 : string),
                      foldM (λ score (i2 : string),
                        b ← (if decide (i1 = i2) then ok true
                             else are_semantically_same i1 i2);
                        ok (if b : bool then (score + 1)%Z else score))
                      ai_words score)
                    user_words 0%Z;
            let total_possible := len user_words in
            q ← num_truediv (Int score) (Int (total_possible + 1));
            ok (num_add relevance_sum q, (pairs + 1)%Z)
          else ok (relevance_sum, pairs)
        else ok (relevance_sum, pairs))
      (py_range (len messages - 1)) (Int 0, 0%Z);
  if (pairs =? 0)%Z then ok (Int 1) else num_truediv relevance_sum (Int pairs).

Definition sentiment_analysis_fl `{T : TextBlob} (s : Summation)
    (user_messages : list string) : result Sentiment :=
  if py_not user_messages then ok neutral
  else
    total ← mapM polarity user_messages;
    avg_polarity ← (if py_not total then ok (Int 0)
                    else num_truediv (py_sum s total) (Int (len user_messages)));
    if num_gt avg_polarity (lit 0.2) then ok positive
    else if num_lt avg_polarity (num_neg (lit 0.2)) then ok negative
    else ok neutral.

Definition analyze_conversations_fl `{W : WordNet} `{T : TextBlob}
    (s : Summation) (conversation : list Message) : result AnalysisReport :=
  let messages := order_by_timestamp conversation in
  let user_msgs := user_msgs messages in
  let ai_msgs := ai_msgs messages in
  clarity ← clarity_score_fl ai_msgs;
  relevance ← relevance_score_fl messages;
  accuracy ← accuracy_score_fl ai_msgs;
  completeness ← completeness_score_fl messages;
  sentiment ← sentiment_analysis_fl s user_msgs;
  empathy ← empathy_score_fl ai_msgs;
  let fallback_count_val := fallback_count ai_msgs in
  let escalation_needed_val := (fallback_count_val >? 0)%Z in
  avg_response_time ← average_response_time_fl s messages;
  resolution ← detect_resolution user_msgs;
  overall ← num_truediv
    (num_add (num_add (num_add (num_add clarity relevance) accuracy) completeness) empathy) (Int 5);
  ok {| rep_clarity_score := value clarity;
        rep_relevance_score := value relevance;
        rep_accuracy_score := value accuracy;
        rep_completeness_score := value completeness;
        rep_sentiment := sentiment;
        rep_empathy_score := value empathy;
        rep_fallback_count := fallback_count_val;
        rep_escalation_needed := escalation_needed_val;
        rep_average_response_time := value <$> avg_response_time;
        rep_resolution := resolution;
        rep_overall_score := value overall |}.

End arithmetic.

(** ** Reference definitions *)

(** An integer of magnitude at most [N]. *)
Definition small (N : Z) (a : Num) : Prop :=
  match a with
  | Int n => (Z.abs n ≤ N)%Z
  | Float _ => True
  end.

Definition both_int (a b : Num) : bool :=
  match a, b with
  | Int _, Int _ => true
  | _, _ => false
  end.

(** The bucket of an average polarity, with the thresholds as floats. *)
Definition classify_fl `{R : Rounding} (avg : Q) : Sentiment :=
  if Qgtb avg (rnd 0.2) then positive
  else if Qltb avg (- rnd 0.2) then negative
  else neutral.

(** What each scorer returns, as a formula: the exact score with [rnd]
    where the code rounds. *)
Definition clarity_value `{R : Rounding} (ai_messages : list string) : Q :=
  if py_not ai_messages then 0 else rnd (fraction clear ai_messages).

Definition accuracy_value `{R : Rounding} (ai_messages : list string) : Q :=
  if py_not ai_messages then rnd 0.5 else rnd (1 - fraction uncertain ai_messages / 2).

Definition empathy_value `{R : Rounding} (ai_messages : list string) : Q :=
  if py_not ai_messages then 0 else rnd (fraction empathetic ai_messages).

Definition completeness_value `{R : Rounding} (messages : list Message) : Q :=
  if decide (Exists is_double_user (adjacent messages)) then rnd 0.5 else 1.

Definition relevance_value `{R : Rounding} `{W : WordNet} (messages : list Message) : Q :=
  let terms := (λ p, rnd (pair_score p)) <$> exchanges messages in
  if py_not terms then 1 else rnd (sum_rounded terms / inject_Z (len terms)).

Definition response_time_value `{R : Rounding} (s : Summation) (messages : list Message) :
    option Q :=
  let times := (λ p, rnd (latency p)) <$> exchanges messages in
  if py_not times then None
  else Some (rnd (value (py_sum s times) / inject_Z (len times))).

Definition sentiment_value `{R : Rounding} `{T : TextBlob} (s : Summation)
    (user_messages : list string) : Sentiment :=
  if py_not user_messages then neutral
  else classify_fl (rnd (value (py_sum s (polarity_of <$> user_messages))
                         / inject_Z (len user_messages))).

(** Field by field, the same numbers. *)
Definition report_eq (r1 r2 : AnalysisReport) : Prop :=
  rep_clarity_score r1 == rep_clarity_score r2 ∧
  rep_relevance_score r1 == rep_relevance_score r2 ∧
  rep_accuracy_score r1 == rep_accuracy_score r2 ∧
  rep_completeness_score r1 == rep_completeness_score r2 ∧
  rep_sentiment r1 = rep_sentiment r2 ∧
  rep_empathy_score r1 == rep_empathy_score r2 ∧
  rep_fallback_count r1 = rep_fallback_count r2 ∧
  rep_escalation_needed r1 = rep_escalation_needed r2 ∧
  option_Forall2 Qeq (rep_average_response_time r1) (rep_average_response_time r2) ∧
  rep_resolution r1 = rep_resolution r2 ∧
  rep_overall_score r1 == rep_overall_score r2.

(** The sum of the five scores, as the aggregator adds them. *)
Definition five `{R : Rounding} (clarity relevance accuracy completeness empathy : Num) :
    Num :=
  num_add (num_add (num_add (num_add clarity relevance) accuracy) completeness) empathy.

(** The report of the formulas, with a given overall score. *)
Definition formulas `{R : Rounding} `{W : WordNet} `{T : TextBlob} (s : Summation)
    (c : list Message) (overall : Q) : AnalysisReport :=
  let messages := order_by_timestamp c in
  {| rep_clarity_score := clarity_value (ai_msgs messages);
     rep_relevance_score := relevance_value messages;
     rep_accuracy_score := accuracy_value (ai_msgs messages);
     rep_completeness_score := completeness_value messages;
     rep_sentiment := sentiment_value s (user_msgs messages);
     rep_empathy_score := empathy_value (ai_msgs messages);
     rep_fallback_count := count fallback (ai_msgs messages);
     rep_escalation_needed := (count fallback (ai_msgs messages) >? 0)%Z;
     rep_average_response_time := response_time_value s messages;
     rep_resolution := existsb resolved (user_msgs messages);
     rep_overall_score := overall |}.

(** The report holds the formulas, and its overall score is the rounded
    mean of five numbers with the values of the formulas, the integers
    among them of magnitude at most 1. *)
Definition scored `{R : Rounding} `{W : WordNet} `{T : TextBlob} (s : Summation)
    (c : list Message) (r : AnalysisReport) : Prop :=
  let messages := order_by_timestamp c in
  report_eq r (formulas s c (rep_overall_score r)) ∧
  ∃ clarity relevance accuracy completeness empathy : Num,
    (small 1 clarity ∧ small 1 relevance ∧ small 1 accuracy ∧ small 1 completeness ∧
     small 1 empathy) ∧
    value clarity == clarity_value (ai_msgs messages) ∧
    value relevance == relevance_value messages ∧
    value accuracy == accuracy_value (ai_msgs messages) ∧
    value completeness == completeness_value messages ∧
    value empathy == empathy_value (ai_msgs messages) ∧
    rep_overall_score r ==
      rnd (value (five clarity relevance accuracy completeness empathy) / 5).

(** The bucket depends on the value of the average only. *)
#[export] Instance classify_fl_proper `{R : Rounding} : Proper (Qeq ==> eq) classify_fl.
Proof.
  intros x y H. unfold classify_fl.
  by rewrite (Qgtb_proper x y H _ _ (Qeq_refl _)), (Qltb_proper x y H _ _ (Qeq_refl _)).
Qed.

(** ** The arithmetic of Python numbers *)

Section numbers.
Context {R : Rounding} {N : Z} {E : Exactness R N}.

Lemma to_float_value (a : Num) : small N a → to_float a == value a.
Proof. destruct a as [n|x]; [apply exact_ints | reflexivity]. Qed.

(** A sum is exact on two integers and rounded once otherwise. *)
Lemma add_value (a b : Num) :
  small N a → small N b →
  value (num_add a b) ==
  if both_int a b then value a + value b else rnd (value a + value b).
Proof.
  intros Ha Hb. destruct a as [i|p], b as [j|q]; cbn [num_add value to_float both_int];
    rewrite ?inject_Z_plus, ?exact_ints by done; reflexivity.
Qed.

(** A division returns when the divisor is not zero, and rounds once. *)
Lemma num_truediv_value (a b : Num) :
  small N a → small N b → ¬ value b == 0 →
  ∃ q, num_truediv a b = ok (Float q) ∧ q == rnd (value a / value b).
Proof.
  intros Ha Hb Hz. unfold num_truediv.
  destruct a as [i|p], b as [j|q]; cbn [value to_float] in *.
  - destruct (Z.eqb_spec j 0) as [->|_]; [by destruct Hz|]. by eexists.
  - destruct (Qeq_bool q 0) eqn:E'; [by apply Qeq_bool_eq in E'|].
    eexists. split; [done|]. by rewrite exact_ints.
  - destruct (Qeq_bool (rnd (inject_Z j)) 0) eqn:E'.
    { apply Qeq_bool_eq in E'. by rewrite exact_ints in E'. }
    eexists. split; [done|]. by rewrite exact_ints.
  - destruct (Qeq_bool q 0) eqn:E'; [by apply Qeq_bool_eq in E'|]. by eexists.
Qed.

Lemma num_truediv_by_len {A : Type} (a : Num) (l : list A) :
  small N a → l ≠ [] → (len l ≤ N)%Z →
  ∃ q, num_truediv a (Int (len l)) = ok (Float q) ∧ q == rnd (value a / inject_Z (len l)).
Proof.
  intros Ha Hl Hn. pose proof (inject_len_pos l Hl). pose proof (len_nonneg l).
  apply num_truediv_value; [done | cbn; lia | cbn; lra].
Qed.

(** The sum of floats from left to right, as a fold on their values. *)
Lemma sum_fold_value (ts : list Q) (s : Num) (q : Q) :
  small N s → value s == q →
  value (fold_left (λ s x, num_add s (Float x)) ts s) == fold_left (λ s x, rnd (s + x)) ts q.
Proof.
  revert s q. induction ts as [|t ts IH]; intros s q Hs Hq; [done|].
  cbn [fold_left]. apply IH; [by destruct s|].
  rewrite add_value by done. destruct s; cbn [both_int value]; by rewrite Hq.
Qed.

Lemma sum_left_to_right_value (ts : list Q) :
  (0 ≤ N)%Z → value (sum_left_to_right ts) == sum_rounded ts.
Proof. intros HN. apply sum_fold_value; [cbn; lia | reflexivity]. Qed.

Lemma sum_left_to_right_small (ts : list Q) : (0 ≤ N)%Z → small N (sum_left_to_right ts).
Proof.
  intros HN. unfold sum_left_to_right.
  assert (small N (Int 0)) as Hs by (cbn; lia). revert Hs. generalize (Int 0).
  induction ts as [|t ts IH]; intros s Hs; [done|]. apply IH. by destruct s.
Qed.

(** The loop of [accuracy_score] adds halves, which are not rounded. *)
Lemma small_half (a : Num) (h : Z) :
  (Z.abs h ≤ 2 * N)%Z → value a == inject_Z h / 2 → small N a.
Proof.
  intros Hh Ha. destruct a as [n|x]; [|done]. cbn [small value] in *.
  assert (inject_Z (2 * n) == inject_Z h) as Hn
    by (rewrite inject_Z_mult; change (inject_Z 2) with 2; lraQ).
  rewrite inject_Z_injective in Hn. lia.
Qed.

Lemma accuracy_step (a : Num) (h : Z) :
  (0 ≤ h)%Z → (h + 2 ≤ 2 * N)%Z → value a == inject_Z h / 2 →
  value (num_add a (lit 0.5)) == inject_Z (h + 1) / 2 ∧
  value (num_add a (Int 1)) == inject_Z (h + 2) / 2.
Proof.
  intros H0 Hh Ha. pose proof (small_half a h ltac:(lia) Ha) as Hs.
  assert (rnd 0.5 == inject_Z 1 / 2) as Hhalf.
  { rewrite <- (exact_halves 1) by lia. by apply exact_proper. }
  split.
  - rewrite <- (exact_halves (h + 1)) by lia. unfold lit.
    rewrite add_value by done. replace (both_int a (Float (rnd 0.5))) with false by (by destruct a).
    cbv iota. cbn [value]. rewrite Ha, Hhalf, inject_Z_plus. f_equiv. field.
  - rewrite add_value by (done || cbn; lia). change (value (Int 1)) with (inject_Z 1).
    assert (value a + inject_Z 1 == inject_Z (h + 2) / 2) as E'
      by (rewrite Ha, inject_Z_plus; field).
    destruct (both_int a (Int 1)); rewrite E'; [reflexivity | apply exact_halves; lia].
Qed.

Lemma accuracy_loop_fl (ms : list string) (a : Num) (h : Z) :
  (0 ≤ h)%Z → (h + 2 * len ms ≤ 2 * N)%Z → value a == inject_Z h / 2 →
  value (fold_left (λ score msg,
           if uncertain msg then num_add score (lit 0.5) else num_add score (Int 1)) ms a)
  == inject_Z (h + 2 * len ms - count uncertain ms) / 2.
Proof.
  revert a h. induction ms as [|m ms IH]; intros a h H0 Hh Ha.
  - cbn [fold_left]. rewrite Ha. f_equiv. f_equiv. unfold count, len. cbn. lia.
  - rewrite len_cons in Hh. pose proof (len_nonneg ms).
    destruct (accuracy_step a h H0 ltac:(lia) Ha) as [E1 E2].
    cbn [fold_left]. rewrite count_cons, len_cons.
    destruct (uncertain m); [rewrite (IH _ (h + 1)%Z) | rewrite (IH _ (h + 2)%Z)];
      try done; try lia; f_equiv; f_equiv; lia.
Qed.

Lemma accuracy_score_fl_value (ms : list string) :
  (len ms ≤ N)%Z →
  ∃ q, accuracy_score_fl ms = ok (Float q) ∧ q == accuracy_value ms.
Proof.
  intros Hn. unfold accuracy_value.
  destruct (decide (ms = [])) as [->|H]; [by eexists|].
  unfold accuracy_score_fl. rewrite !py_not_false by done. cbv zeta.
  pose proof (len_nonneg ms). pose proof (count_bounds uncertain ms).
  assert (0 + 2 * len ms ≤ 2 * N)%Z as Hb by lia.
  assert (value (Int 0) == inject_Z 0 / 2) as Hz by done.
  pose proof (accuracy_loop_fl ms (Int 0) 0 (Z.le_refl 0) Hb Hz) as Hv.
  change (fold_left _ ms (Int 0)) with (fold_left (λ score msg,
    if uncertain msg then num_add score (lit 0.5) else num_add score (Int 1)) ms (Int 0)).
  assert (Z.abs (0 + 2 * len ms - count uncertain ms) ≤ 2 * N)%Z as Hc by lia.
  destruct (num_truediv_by_len _ ms (small_half _ _ Hc Hv) H Hn) as (q & -> & Hq).
  exists q. split; [done|]. rewrite Hq, Hv. f_equiv. unfold fraction.
  pose proof (inject_len_pos ms H). unfold Z.sub.
  rewrite Z.add_0_l, inject_Z_plus, inject_Z_opp, inject_Z_mult.
  change (inject_Z 2) with 2. field. lra.
Qed.

End numbers.

(** ** The loops, without the arithmetic *)

Section loops.
Context `{R : Rounding}.

Lemma num_truediv_len {A : Type} (n : Z) (l : list A) :
  l ≠ [] →
  num_truediv (Int n) (Int (len l)) = ok (Float (rnd (inject_Z n / inject_Z (len l)))).
Proof.
  intros H. unfold num_truediv. destruct (Z.eqb_spec (len l) 0) as [E|]; [|done].
  by apply len_nil_iff in E.
Qed.

Lemma clarity_score_fl_eq (ms : list string) :
  clarity_score_fl ms = ok (if py_not ms then Int 0 else Float (rnd (fraction clear ms))).
Proof.
  destruct (decide (ms = [])) as [->|H]; [done|].
  unfold clarity_score_fl. rewrite py_not_false by done. cbv zeta.
  by rewrite (count_loop clear), Z.add_0_l, num_truediv_len.
Qed.

Lemma empathy_score_fl_eq (ms : list string) :
  empathy_score_fl ms =
  ok (if py_not ms then Int 0 else Float (rnd (fraction empathetic ms))).
Proof.
  destruct (decide (ms = [])) as [->|H]; [done|].
  unfold empathy_score_fl. rewrite py_not_false by done. cbv zeta.
  by rewrite (count_loop empathetic), Z.add_0_l, num_truediv_len.
Qed.

Lemma completeness_score_fl_eq (ms : list Message) :
  completeness_score_fl ms
  = ok (if decide (Exists is_double_user (adjacent ms)) then lit 0.5 else Int 1).
Proof.
  unfold completeness_score_fl.
  rewrite (for_return_range_adjacent _
    (λ p, ok (if decide (is_double_user p) then Some (lit 0.5) else None))).
  - rewrite for_return_pure, head_omap_exists, bind_ok. by case_decide.
  - intros i x y Hx Hy. rewrite (read_pair ms i x y) by done.
    rewrite (decide_ext _ (is_double_user (x, y))) by done. by case_decide.
Qed.

(** The response times the loop collects: the rounded latencies of the
    exchanges. *)
Lemma response_times_fl_eq (ms : list Message) :
  foldM (λ times i,
    mi ← getitem ms i;
    if decide (sender mi = "user") then
      mj ← getitem ms (i + 1);
      if decide (sender mj = "ai") then
        let t1 := timestamp mi in
        let t2 := timestamp mj in
        diff ← total_seconds_fl (t2 - t1);
        ok (times ++ [value diff])
      else ok times
    else ok times) (py_range (len ms - 1)) []
  = ok ((λ p, rnd (latency p)) <$> exchanges ms).
Proof.
  rewrite (foldM_range_adjacent _
    (λ times p, if decide (is_exchange p) then ok (times ++ [rnd (latency p)])
                else ok times)).
  - by rewrite collect_loop.
  - intros times i x y Hx Hy. cbv zeta.
    rewrite (read_pair ms i x y "ai"
      (λ mi mj, diff ← total_seconds_fl (timestamp mj - timestamp mi);
                ok (times ++ [value diff])))
      by done.
    by rewrite (decide_ext _ (is_exchange (x, y))).
Qed.

Lemma average_response_time_fl_eq (s : Summation) (ms : list Message) :
  average_response_time_fl s ms =
  let times := (λ p, rnd (latency p)) <$> exchanges ms in
  if py_not times then ok None
  else q ← num_truediv (py_sum s times) (Int (len times)); ok (Some q).
Proof. unfold average_response_time_fl. by rewrite response_times_fl_eq, bind_ok. Qed.

End loops.

Section relevance.
Context `{R : Rounding} `{W : WordNet} {WT : WordNetTotal W}.

(** The division of the loop body on an exchange: the rounded pair score. *)
Lemma truediv_pair_score (x y : Message) :
  num_truediv (Int (matches (split (lower (text x))) (split (lower (text y)))))
    (Int (len (split (lower (text x))) + 1))
  = ok (Float (rnd (pair_score (x, y)))).
Proof.
  unfold num_truediv. pose proof (len_nonneg (split (lower (text x)))).
  destruct (Z.eqb_spec (len (split (lower (text x))) + 1) 0); [lia | done].
Qed.

Lemma relevance_fold_fl (l : list (Message * Message)) (s : Num) (n : Z) :
  foldM (λ '(relevance_sum, pairs) p,
    if decide (is_exchange p)
    then ok (num_add relevance_sum (Float (rnd (pair_score p))), (pairs + 1)%Z)
    else ok (relevance_sum, pairs)) l (s, n)
  = ok (fold_left (λ s x, num_add s (Float x))
          ((λ p, rnd (pair_score p)) <$> filter is_exchange l) s,
        (n + len (filter is_exchange l))%Z).
Proof.
  revert s n. induction l as [|p l IH]; intros s n; cbn [foldM].
  - unfold len. simpl. do 2 f_equal. lia.
  - rewrite filter_cons. destruct (decide (is_exchange p)).
    + rewrite bind_ok, IH, len_cons. cbn [fmap list_fmap fold_left]. do 2 f_equal. lia.
    + by rewrite bind_ok, IH.
Qed.

Lemma relevance_score_fl_eq (ms : list Message) :
  relevance_score_fl ms =
  let terms := (λ p, rnd (pair_score p)) <$> exchanges ms in
  if py_not terms then ok (Int 1)
  else num_truediv (sum_left_to_right terms) (Int (len terms)).
Proof.
  unfold relevance_score_fl.
  rewrite (foldM_range_adjacent _
    (λ '(relevance_sum, pairs) p,
      if decide (is_exchange p)
      then ok (num_add relevance_sum (Float (rnd (pair_score p))), (pairs + 1)%Z)
      else ok (relevance_sum, pairs))).
  - rewrite relevance_fold_fl, bind_ok. fold (exchanges ms). cbv zeta.
    rewrite len_fmap, Z.add_0_l.
    destruct (exchanges ms) as [|p l] eqn:E; [done|].
    cbn [fmap list_fmap py_not]. rewrite len_cons.
    pose proof (len_nonneg l). by destruct (Z.eqb_spec (len l + 1) 0); [lia|].
  - intros [relevance_sum pairs] i x y Hx Hy.
    rewrite (read_pair ms i x y "ai" (λ mi mj, _)) by done.
    rewrite (decide_ext _ (is_exchange (x, y))) by done.
    case_decide; [|done]. cbv zeta.
    by rewrite user_words_loop, bind_ok, Z.add_0_l, truediv_pair_score, bind_ok.
Qed.

End relevance.

Section sentiment.
Context `{R : Rounding} `{T : TextBlob} {TL : TextBlobLawful T}.

Lemma sentiment_analysis_fl_eq (s : Summation) (ms : list string) :
  ms ≠ [] →
  sentiment_analysis_fl s ms =
  (avg_polarity ← num_truediv (py_sum s (polarity_of <$> ms)) (Int (len ms));
   if num_gt avg_polarity (lit 0.2) then ok positive
   else if num_lt avg_polarity (num_neg (lit 0.2)) then ok negative
   else ok neutral).
Proof.
  intros H. unfold sentiment_analysis_fl. rewrite py_not_false by done.
  rewrite (mapM_ok polarity polarity_of) by (intros; apply polarity_ok).
  by rewrite bind_ok, py_not_false by (by destruct ms).
Qed.

End sentiment.

(** ** The values the scorers return *)

Section values.
Context {R : Rounding} {N : Z} {E : Exactness R N}.

Lemma py_sum_small (s : Summation) (ts : list Q) : (0 ≤ N)%Z → small N (py_sum s ts).
Proof.
  intros HN. destruct s; [by apply sum_left_to_right_small|].
  unfold py_sum, sum_compensated. destruct ts as [|t ts]; [cbn; lia|].
  destruct (fold_left _ ts _) as [f c]. by destruct (negb (Qeq_bool c 0)).
Qed.

(** The mean of a non-empty list of floats: the sum, divided and rounded. *)
Lemma mean_value (s : Summation) (ts : list Q) :
  ts ≠ [] → (len ts ≤ N)%Z →
  ∃ q, num_truediv (py_sum s ts) (Int (len ts)) = ok (Float q) ∧
       q == rnd (value (py_sum s ts) / inject_Z (len ts)).
Proof.
  intros H Hn. pose proof (len_nonneg ts).
  by apply num_truediv_by_len; [apply py_sum_small; lia | |].
Qed.

Lemma len_exchanges (ms : list Message) : (len (exchanges ms) ≤ len ms)%Z.
Proof.
  unfold exchanges, len. pose proof (length_filter is_exchange (adjacent ms)).
  pose proof (adjacent_length ms). lia.
Qed.

Lemma average_response_time_fl_value (s : Summation) (ms : list Message) :
  (len ms ≤ N)%Z →
  ∃ r, average_response_time_fl s ms = ok r ∧
    option_Forall2 Qeq (value <$> r) (response_time_value s ms).
Proof.
  intros Hn. unfold response_time_value.
  set (times := (λ p, rnd (latency p)) <$> exchanges ms).
  rewrite average_response_time_fl_eq. cbv zeta. fold times.
  destruct (decide (times = [])) as [->|Ht]; [exists None; split; [done | constructor]|].
  rewrite py_not_false by done. pose proof (len_exchanges ms).
  destruct (mean_value s times Ht) as (q & -> & Hq);
    [unfold times; rewrite len_fmap; lia|].
  exists (Some (Float q)). split; [done|]. by constructor.
Qed.

Section relevance_value.
Context `{W : WordNet} {WT : WordNetTotal W}.

Lemma relevance_score_fl_value (ms : list Message) :
  (1 ≤ N)%Z → (len ms ≤ N)%Z →
  ∃ a, relevance_score_fl ms = ok a ∧ small 1 a ∧ value a == relevance_value ms.
Proof.
  intros H1 Hn. unfold relevance_value.
  set (terms := (λ p, rnd (pair_score p)) <$> exchanges ms).
  assert (0 ≤ N)%Z as HN by lia.
  rewrite relevance_score_fl_eq. cbv zeta. fold terms.
  destruct (decide (terms = [])) as [->|Ht].
  { eexists. split; [done|]. by split. }
  rewrite py_not_false by done. pose proof (len_exchanges ms).
  change (sum_left_to_right terms) with (py_sum left_to_right terms).
  destruct (mean_value left_to_right terms Ht) as (q & -> & Hq);
    [unfold terms; rewrite len_fmap; lia|].
  eexists. split; [done|]. split; [done|]. cbn [value py_sum] in *.
  pose proof (sum_left_to_right_value (E := E) terms HN) as Hs.
  by rewrite Hq, Hs.
Qed.

End relevance_value.

Section sentiment_value.
Context `{T : TextBlob} {TL : TextBlobLawful T}.

Lemma sentiment_analysis_fl_value (s : Summation) (ms : list string) :
  (len ms ≤ N)%Z → sentiment_analysis_fl s ms = ok (sentiment_value s ms).
Proof.
  intros Hn. unfold sentiment_value.
  destruct (decide (ms = [])) as [->|H]; [done|].
  rewrite sentiment_analysis_fl_eq, py_not_false by done.
  destruct (mean_value s (polarity_of <$> ms)) as (q & Hq & Hv);
    [by destruct ms | by rewrite len_fmap |].
  rewrite len_fmap in Hq, Hv. rewrite Hq, bind_ok, <- (classify_fl_proper q _ Hv).
  unfold classify_fl, num_gt, num_lt. cbn [value lit num_neg].
  destruct (Qgtb q (rnd 0.2)); [done|]. by destruct (Qltb q (- rnd 0.2)).
Qed.

End sentiment_value.

End values.

(** ** The report *)

(** Reads the fields of a report that is written out. *)
Ltac report_fields :=
  cbv zeta;
  cbn [formulas rep_clarity_score rep_relevance_score rep_accuracy_score
       rep_completeness_score rep_sentiment rep_empathy_score rep_fallback_count
       rep_escalation_needed rep_average_response_time rep_resolution
       rep_overall_score] in *.

Lemma small_mono (M N : Z) (a : Num) : (M ≤ N)%Z → small M a → small N a.
Proof. destruct a; cbn; [lia | done]. Qed.

Lemma num_add_small `{R : Rounding} (M K : Z) (a b : Num) :
  small M a → small K b → small (M + K) (num_add a b).
Proof. destruct a, b; cbn; [lia | done..]. Qed.

#[export] Instance report_eq_equiv : Equivalence report_eq.
Proof.
  split.
  - intros r. unfold report_eq. by split_and!.
  - intros r1 r2 H. unfold report_eq in *. destruct_and!. by split_and!.
  - intros r1 r2 r3 H1 H2. unfold report_eq in *. destruct_and!.
    split_and!; try congruence; try (etrans; eassumption).
Qed.

Section report.
Context {R : Rounding} {N : Z} {E : Exactness R N}.
Context `{W : WordNet} `{T : TextBlob} {WT : WordNetTotal W} {TL : TextBlobLawful T}.

Lemma five_value (clarity relevance accuracy completeness empathy : Num) :
  (5 ≤ N)%Z →
  small 1 clarity ∧ small 1 relevance ∧ small 1 accuracy ∧ small 1 completeness ∧
  small 1 empathy →
  ∃ q, num_truediv (five clarity relevance accuracy completeness empathy) (Int 5)
       = ok (Float q) ∧
       q == rnd (value (five clarity relevance accuracy completeness empathy) / 5).
Proof.
  intros HN (H1 & H2 & H3 & H4 & H5). unfold five.
  apply num_truediv_value; [|cbn; lia | by vm_compute].
  apply (small_mono (1 + 1 + 1 + 1 + 1)); [lia|]. by repeat apply num_add_small.
Qed.

Lemma lens_of_messages (c : list Message) :
  let ms := order_by_timestamp c in
  (len ms = len c ∧ len (ai_msgs ms) ≤ len c ∧ len (user_msgs ms) ≤ len c)%Z.
Proof.
  cbv zeta. pose proof (msgs_length (order_by_timestamp c)).
  pose proof (Permutation_length (order_by_timestamp_perm c)). unfold len. lia.
Qed.

(** With lawful capabilities the aggregator returns, and the report holds
    the values of the formulas. *)
Lemma analyze_conversations_fl_scored (s : Summation) (c : list Message) :
  (5 ≤ N)%Z → (len c ≤ N)%Z →
  ∃ r, analyze_conversations_fl s c = ok r ∧ scored s c r.
Proof.
  intros HN Hc. unfold analyze_conversations_fl, scored. cbv zeta.
  destruct (lens_of_messages c) as (Hm & Hai & Hu). cbv zeta in Hm, Hai, Hu.
  set (ms := order_by_timestamp c) in *.
  assert (1 ≤ N ∧ len ms ≤ N ∧ len (ai_msgs ms) ≤ N)%Z as (H1 & Hms & Hai') by lia.
  destruct (relevance_score_fl_value ms H1 Hms) as (rel & -> & Hrs & Hrv).
  destruct (accuracy_score_fl_value (ai_msgs ms) Hai') as (acc & -> & Hav).
  destruct (average_response_time_fl_value s ms Hms) as (art & -> & Hart).
  rewrite clarity_score_fl_eq, completeness_score_fl_eq, empathy_score_fl_eq,
    sentiment_analysis_fl_value, detect_resolution_eq, fallback_count_eq, !bind_ok by lia.
  set (cl := if py_not (ai_msgs ms) then Int 0 else Float _).
  set (em := if py_not (ai_msgs ms) then Int 0 else Float _).
  set (co := if decide _ then lit 0.5 else Int 1).
  assert (small 1 cl ∧ small 1 rel ∧ small 1 (Float acc) ∧ small 1 co ∧ small 1 em) as Hs.
  { unfold cl, em, co. split_and!; try done; by repeat case_match. }
  fold (five cl rel (Float acc) co em).
  destruct (five_value cl rel (Float acc) co em HN Hs) as (q & -> & Hq).
  rewrite bind_ok. eexists. split; [done|].
  assert (value cl == clarity_value (ai_msgs ms)) as Hcl
    by (unfold cl, clarity_value; by case_match).
  assert (value co == completeness_value ms) as Hco
    by (unfold co, completeness_value; by case_match).
  assert (value em == empathy_value (ai_msgs ms)) as Hem
    by (unfold em, empathy_value; by case_match).
  split; [unfold report_eq; report_fields; by split_and!|].
  exists cl, rel, (Float acc), co, em. split; [exact Hs|]. by split_and!.
Qed.

End report.

(** ** Main results *)


