(* ===== verification/Accuracy.v ===== *)
(** * Accuracy: what rounding does to the report

    The report computed in floats ([analyze_conversations_fl] of
    Numeric.v) against the report computed in exact arithmetic
    ([analyze_conversations] of Analyzer.v).  [within k a x] says that
    [a] and [x] are not negative and that [a] is [x] up to [k] roundings:
    their distance is at most [((1 + u)^k - 1) x].

    Theorems: with the rounding [exact] the two aggregators return the
    same report; with a lawful rounding, binary64 among them, the flags
    and the counts are the same, clarity, accuracy and empathy are the
    exact scores rounded once, relevance and the overall score are within
    [p + 2] and [p + 7] roundings for [p] exchanges, the scores stay in
    their ranges, and with the sum from left to right the average
    response time is within [p + 2] roundings and the sentiment label is
    the exact one when the average polarity is not next to a threshold.
    Nothing here depends on the summation but the last two. *)

From Stdlib Require Import Qabs.
From stdpp Require Import sorting.
From S2P Require Import Prelude PyStr Transcript Capabilities Lexical Pairs Sentiment.
From S2P Require Import Analyzer Rounding Roundoff Numeric.

Local Open Scope Q_scope.

(** ** Reference definitions *)

(** [a] is [x] up to [k] roundings, and neither is negative. *)
Definition within (k : nat) (a x : Q) : Prop := 0 <= a ∧ 0 <= x ∧ err k a x x.

(** ** One rounding, and sums of numbers *)

#[export] Instance within_proper : Proper (eq ==> Qeq ==> Qeq ==> iff) within.
Proof. intros k ? <- a b E x y E'. unfold within. by rewrite E, E'. Qed.

Section rounded.
Context `{L : RoundingLaws}.

Lemma within_exact (k : nat) (a x : Q) : 0 <= x → a == x → within k a x.
Proof.
  intros Hx Ha. rewrite Ha. split_and!; [done..|].
  apply (err_mono 0 k _ _ x x); [lia | done | apply Qle_refl | by apply err_refl].
Qed.

Lemma within_rnd (k : nat) (a b x : Q) : within k a x → b == rnd a → within (S k) b x.
Proof.
  intros (Ha & Hx & He) Hb. rewrite Hb. split_and!; [by apply rnd_nonneg | done |].
  apply err_rnd; [rewrite Qabs_pos by done; apply Qle_refl | done].
Qed.

Lemma within_mono (j k : nat) (a x : Q) : (j ≤ k)%nat → within j a x → within k a x.
Proof.
  intros H (Ha & Hx & He). split_and!; [done..|].
  by apply (err_mono j k _ _ x x); [| | apply Qle_refl |].
Qed.

(** A sum of two numbers adds at most one rounding. *)
Lemma within_add (k : nat) (a b : Num) (x y : Q) :
  small max_count a → small max_count b →
  within k (value a) x → within k (value b) y →
  within (S k) (value (num_add a b)) (x + y).
Proof.
  intros Ha Hb (Ha0 & Hx & Hax) (Hb0 & Hy & Hby).
  assert (within k (value a + value b) (x + y)) as H
    by (split_and!; [lra.. | by apply err_add]).
  rewrite (add_value (E := laws_exactness)) by done.
  destruct (both_int a b); [by apply (within_mono k); [lia|] | by eapply within_rnd].
Qed.

Lemma within_div (k : nat) (a x c : Q) : 0 < c → within k a x → within k (a / c) (x / c).
Proof.
  intros Hc (Ha & Hx & He). pose proof (Qinv_lt_0_compat c Hc).
  split_and!; [apply Qle_shift_div_l; lra.. | by apply err_div].
Qed.

(** The mean of numbers that are not negative: each rounded, summed from
    left to right with one rounding per term, divided and rounded. *)
Lemma mean_within {A : Type} (f : A → Q) (l : list A) :
  l ≠ [] → Forall (λ a, 0 <= f a) l →
  within (length l + 2)
    (rnd (sum_rounded ((λ a, rnd (f a)) <$> l) / inject_Z (len l)))
    (Qsum (f <$> l) / inject_Z (len l)).
Proof.
  intros Hne Hf. pose proof (inject_len_pos l Hne) as Hn.
  pose proof (mean_err _ _ _ 1 _ _ (rounded_terms f l Hf) Hn (Qeq_refl _)) as He.
  rewrite length_fmap in He. replace (length l + 2)%nat with (S (1 + length l)) by lia.
  split_and!; [apply rnd_nonneg| |done]; (apply Qle_shift_div_l; [done|]); rewrite Qmult_0_l.
  - apply sum_rounded_nonneg, Forall_fmap. eapply Forall_impl; [done|].
    intros a Ha. by apply rnd_nonneg.
  - by apply Qsum_nonneg, Forall_fmap.
Qed.

Lemma option_Forall2_within (k : nat) (o1 o2 o3 : option Q) :
  option_Forall2 Qeq o1 o2 → option_Forall2 (within k) o2 o3 →
  option_Forall2 (within k) o1 o3.
Proof. intros [a b Hab|]; inversion 1; constructor. by rewrite Hab. Qed.

Lemma option_Forall2_within_r (k : nat) (o1 o2 o3 : option Q) :
  option_Forall2 (within k) o1 o2 → option_Forall2 Qeq o3 o2 →
  option_Forall2 (within k) o1 o3.
Proof. intros [a b Hab|]; inversion 1 as [c b' Hcb|]; constructor. by rewrite Hcb. Qed.

Lemma within_error (k : nat) (a x : Q) :
  (Z.of_nat k ≤ 2 ^ (prec - 1))%Z → within k a x →
  Qabs (a - x) <= 2 * inject_Z (Z.of_nat k) * u * x.
Proof.
  intros Hk (_ & Hx & H). unfold err in H. pose proof (g_linear k Hk). nra.
Qed.

End rounded.

(** ** The formulas of the scorers *)

Section scores.
Context `{L : RoundingLaws}.

Lemma rnd_one : rnd 1 == 1.
Proof. exact (rnd_int 1 ltac:(by vm_compute)). Qed.

(** A rounded share is a share. *)
Lemma rnd_range (lo hi q : Q) :
  rnd lo == lo → rnd hi == hi → lo <= q <= hi → lo <= rnd q <= hi.
Proof. intros Hlo Hhi [H1 H2]. by apply rnd_between. Qed.

Lemma clarity_value_rnd (ai : list string) :
  clarity_value ai == rnd (if py_not ai then 0 else fraction clear ai).
Proof. unfold clarity_value. destruct (py_not ai); [by rewrite rnd_zero | done]. Qed.

Lemma empathy_value_rnd (ai : list string) :
  empathy_value ai == rnd (if py_not ai then 0 else fraction empathetic ai).
Proof. unfold empathy_value. destruct (py_not ai); [by rewrite rnd_zero | done]. Qed.

Lemma accuracy_value_rnd (ai : list string) :
  accuracy_value ai == rnd (if py_not ai then 1 # 2 else 1 - fraction uncertain ai / 2).
Proof. unfold accuracy_value. destruct (py_not ai); [by apply rnd_proper | done]. Qed.

Lemma completeness_value_eq (ms : list Message) :
  completeness_value ms == if decide (Exists is_double_user (adjacent ms)) then 0.5 else 1.
Proof.
  unfold completeness_value. case_decide; [|done].
  by rewrite (rnd_proper 0.5 (1 # 2) eq_refl), rnd_half.
Qed.

Section relevance_within.
Context `{W : WordNet} {WT : WordNetTotal W}.

(** The relevance: the mean of the pair scores, each rounded, summed with
    one rounding per exchange and divided with one more. *)
Lemma relevance_within (ms : list Message) :
  within (length (exchanges ms) + 2) (relevance_value ms)
    (if py_not (exchanges ms) then 1
     else Qsum (pair_score <$> exchanges ms) / inject_Z (len (exchanges ms))).
Proof.
  unfold relevance_value. cbv zeta.
  destruct (decide (exchanges ms = [])) as [->|Hne]; [by apply within_exact|].
  rewrite !py_not_false by (by destruct (exchanges ms)). rewrite len_fmap.
  apply mean_within; [done|]. apply Forall_forall. intros p _. apply pair_score_nonneg.
Qed.

End relevance_within.

(** The response time of messages in timestamp order, summed from left
    to right. *)
Lemma response_time_within (ms : list Message) :
  StronglySorted ts_le ms →
  option_Forall2 (within (length (exchanges ms) + 2))
    (response_time_value left_to_right ms)
    (let times := latency <$> exchanges ms in
     if py_not times then None else Some (Qsum times / inject_Z (len times))).
Proof.
  intros Hs. unfold response_time_value. cbv zeta.
  destruct (decide (exchanges ms = [])) as [->|Hne]; [constructor|].
  rewrite !py_not_false by (by destruct (exchanges ms)). rewrite !len_fmap.
  constructor. cbn [py_sum].
  rewrite (sum_left_to_right_value (E := laws_exactness)) by done.
  apply mean_within; [done | by apply latency_nonneg].
Qed.

Section polarity.
Context `{T : TextBlob} {TL : TextBlobLawful T}.

(** The mean polarity in floats is within [g (n + 1)] of the exact one. *)
Lemma mean_polarity_err (ms : list string) :
  ms ≠ [] →
  Qabs (rnd (sum_rounded (polarity_of <$> ms) / inject_Z (len ms)) - average_polarity ms)
  <= g (length ms + 1).
Proof.
  intros Hne. pose proof (inject_len_pos ms Hne) as Hn.
  assert (Forall3 (λ t x m, Qabs x <= m ∧ err 0 t x m)
    (polarity_of <$> ms) (polarity_of <$> ms) ((λ _, 1) <$> ms)) as H3.
  { clear Hne Hn. induction ms as [|m ms IH]; cbn [fmap list_fmap]; constructor; [|done].
    pose proof (polarity_of_range m). split; [apply Qabs_Qle_condition; lra|].
    apply err_refl. lra. }
  pose proof (mean_err _ _ _ 0 _ _ H3 Hn (Qeq_refl _)) as He.
  rewrite length_fmap in He. unfold err in He. fold (Qsum (polarity_of <$> ms)) in He.
  fold (average_polarity ms) in He.
  assert (fold_left Qplus ((λ _, 1) <$> ms) 0 == inject_Z (len ms)) as E1.
  { clear. fold (Qsum ((λ _ : string, 1) <$> ms)).
    induction ms as [|m ms IH]; [done|].
    cbn [fmap list_fmap]. rewrite Qsum_cons, IH, len_cons, inject_Z_plus.
    change (inject_Z 1) with 1. ring. }
  rewrite E1 in He. replace (length ms + 1)%nat with (S (0 + length ms)) by lia.
  assert (inject_Z (len ms) / inject_Z (len ms) == 1) as E2 by (field; lra).
  rewrite E2, Qmult_1_r in He. done.
Qed.

End polarity.

End scores.

(** ** Exact arithmetic *)

Lemma num_add_exact (a b : Num) : value (num_add (R := exact) a b) == value a + value b.
Proof.
  destruct a, b; cbn [num_add value to_float rnd exact];
    [by rewrite inject_Z_plus | reflexivity..].
Qed.

Lemma five_exact (clarity relevance accuracy completeness empathy : Num) :
  value (five (R := exact) clarity relevance accuracy completeness empathy) ==
  value clarity + value relevance + value accuracy + value completeness + value empathy.
Proof. unfold five. by rewrite !num_add_exact. Qed.

(** Without rounding the compensation stays zero. *)
Lemma compensated_loop_exact (ts : list Q) (f c : Q) :
  c == 0 →
  let '(f', c') :=
    fold_left (λ '(f_result, c) x,
      let t := rnd (Rounding := exact) (f_result + x) in
      if Qle_bool (Qabs x) (Qabs f_result)
      then (t, rnd (Rounding := exact) (c + rnd (Rounding := exact)
                 (rnd (Rounding := exact) (f_result - t) + x)))
      else (t, rnd (Rounding := exact) (c + rnd (Rounding := exact)
                 (rnd (Rounding := exact) (x - t) + f_result))))
      ts (f, c) in
  f' == fold_left Qplus ts f ∧ c' == 0.
Proof.
  revert f c. induction ts as [|t ts IH]; intros f c Hc; [done|].
  cbn [fold_left rnd exact]. destruct (Qle_bool (Qabs t) (Qabs f)); apply IH; rewrite Hc; ring.
Qed.

Lemma py_sum_exact (s : Summation) (ts : list Q) :
  value (py_sum (R := exact) s ts) == Qsum ts.
Proof.
  destruct s; [exact (sum_left_to_right_value (E := exact_exactness 0) ts (Z.le_refl 0))|].
  destruct ts as [|t ts]; [done|]. unfold py_sum, sum_compensated.
  pose proof (compensated_loop_exact ts
    (to_float (R := exact) (num_add (R := exact) (Int 0) (Float t))) 0 (Qeq_refl 0)) as H.
  destruct (fold_left _ ts _) as [f c]. destruct H as [Hf Hc].
  assert (Qeq_bool c 0 = true) as -> by (by apply Qeq_bool_iff).
  cbn [negb value]. by rewrite Hf.
Qed.

Section exact_report.
Context `{W : WordNet} `{T : TextBlob} {WT : WordNetTotal W} {TL : TextBlobLawful T}.

Lemma relevance_value_exact (ms : list Message) :
  relevance_value (R := exact) ms ==
  if py_not (exchanges ms) then 1
  else Qsum (pair_score <$> exchanges ms) / inject_Z (len (exchanges ms)).
Proof.
  unfold relevance_value. cbv zeta. cbn [rnd exact].
  change ((λ p, pair_score p) <$> exchanges ms) with (pair_score <$> exchanges ms).
  rewrite len_fmap. by destruct (exchanges ms).
Qed.

Lemma sentiment_value_exact (s : Summation) (ms : list string) :
  sentiment_value (R := exact) s ms =
  if py_not ms then neutral else classify (average_polarity ms).
Proof.
  unfold sentiment_value. destruct (py_not ms); [done|].
  change (classify_fl (R := exact)) with classify. cbn [rnd exact].
  apply classify_proper. unfold average_polarity. by rewrite py_sum_exact.
Qed.

Lemma response_time_value_exact (s : Summation) (ms : list Message) :
  option_Forall2 Qeq (response_time_value (R := exact) s ms)
    (let times := latency <$> exchanges ms in
     if py_not times then None else Some (Qsum times / inject_Z (len times))).
Proof.
  unfold response_time_value. cbv zeta. cbn [rnd exact].
  change ((λ p, latency p) <$> exchanges ms) with (latency <$> exchanges ms).
  destruct (py_not (latency <$> exchanges ms)); constructor. by rewrite py_sum_exact.
Qed.

(** The report of the exact analyzer holds the values of the formulas
    read without rounding. *)
Lemma analyze_conversations_scored (s : Summation) (c : list Message) :
  ∃ r, analyze_conversations c = ok r ∧ scored (R := exact) s c r.
Proof.
  destruct (analyze_conversations_returns c)
    as (r & Hr & (Hc & Hrel & Ha & Hco & Hs & He & Hf & Hart & Hres) & Hesc & Ho).
  exists r. split; [done|]. unfold scored. cbv zeta in *. set (ms := order_by_timestamp c) in *.
  rewrite clarity_score_closed in Hc. rewrite relevance_score_eq in Hrel.
  pose proof (accuracy_score_returns (ai_msgs ms)) as Ha'. rewrite Ha in Ha'.
  apply returns_ok in Ha' as [Ha' _].
  rewrite completeness_score_eq in Hco. rewrite sentiment_analysis_closed in Hs.
  rewrite empathy_score_closed in He. rewrite average_response_time_eq in Hart.
  rewrite detect_resolution_eq in Hres. rewrite fallback_count_eq in Hf.
  injection Hc as Hc. injection Hrel as Hrel. injection Hco as Hco. injection Hs as Hs.
  injection He as He. injection Hart as Hart. injection Hres as Hres.
  assert (rep_clarity_score r == clarity_value (R := exact) (ai_msgs ms)) as Hc'
    by (rewrite <- Hc; reflexivity).
  assert (rep_relevance_score r == relevance_value (R := exact) ms) as Hrel'
    by (rewrite <- Hrel; symmetry; apply relevance_value_exact).
  assert (rep_accuracy_score r == accuracy_value (R := exact) (ai_msgs ms)) as Ha''
    by (rewrite Ha'; unfold accuracy_value; by destruct (py_not (ai_msgs ms))).
  assert (rep_completeness_score r == completeness_value (R := exact) ms) as Hco'
    by (rewrite <- Hco; reflexivity).
  assert (rep_empathy_score r == empathy_value (R := exact) (ai_msgs ms)) as He'
    by (rewrite <- He; reflexivity).
  split.
  - unfold report_eq. cbn. rewrite sentiment_value_exact, <- Hs, Hesc, <- Hf, <- Hres, <- Hart.
    split_and!; try done. symmetry. apply response_time_value_exact.
  - exists (Float (rep_clarity_score r)), (Float (rep_relevance_score r)),
      (Float (rep_accuracy_score r)), (Float (rep_completeness_score r)),
      (Float (rep_empathy_score r)).
    rewrite five_exact. cbn [value rnd exact small]. split_and!; try done. by rewrite Ho.
Qed.

End exact_report.

Section exact_overall.
Context `{W : WordNet} `{T : TextBlob}.

(** Without rounding the overall score is the mean of the five formulas. *)
Lemma scored_exact_overall (s : Summation) (c : list Message) (r : AnalysisReport) :
  scored (R := exact) s c r →
  rep_overall_score r ==
  (rep_clarity_score r + rep_relevance_score r + rep_accuracy_score r +
   rep_completeness_score r + rep_empathy_score r) / 5.
Proof.
  intros [Hr (cl & rel & acc & co & em & _ & Hcl & Hrel & Hacc & Hco & Hem & Ho)].
  destruct Hr as (-> & -> & -> & -> & _ & -> & _). cbn.
  rewrite Ho, five_exact. cbn [rnd exact]. by rewrite Hcl, Hrel, Hacc, Hco, Hem.
Qed.

Lemma scored_exact_unique (s : Summation) (c : list Message) (r1 r2 : AnalysisReport) :
  scored (R := exact) s c r1 → scored (R := exact) s c r2 → report_eq r1 r2.
Proof.
  intros H1 H2. pose proof (scored_exact_overall s c r1 H1) as Ho1.
  pose proof (scored_exact_overall s c r2 H2) as Ho2.
  destruct H1 as [H1 _], H2 as [H2 _]. unfold report_eq in *. cbn in H1, H2.
  destruct H1 as (C1 & R1 & A1 & O1 & S1 & E1 & F1 & X1 & T1 & V1 & _).
  destruct H2 as (C2 & R2 & A2 & O2 & S2 & E2 & F2 & X2 & T2 & V2 & _).
  split_and!; try congruence; try (etrans; [eassumption | by symmetry]).
  by rewrite Ho1, Ho2, C1, C2, R1, R2, A1, A2, O1, O2, E1, E2.
Qed.

End exact_overall.

(** ** Floats against exact arithmetic *)

Section report_accuracy.
Context `{L : RoundingLaws} `{W : WordNet} `{T : TextBlob}.
Context {WT : WordNetTotal W} {TL : TextBlobLawful T}.

Lemma small_count (n : Z) (a : Num) : (n ≤ 5)%Z → small n a → small max_count a.
Proof. intros Hn. apply small_mono. etrans; [done | by vm_compute]. Qed.

(** One more term of the overall sum. *)
Lemma within_next (n : Z) (k : nat) (a b : Num) (x y : Q) :
  (n ≤ 4)%Z → small n a ∧ within k (value a) x → small 1 b → within k (value b) y →
  small (n + 1) (num_add a b) ∧ within (S k) (value (num_add a b)) (x + y).
Proof.
  intros Hn [Sa Ha] Sb Hb. split; [by apply num_add_small|].
  apply within_add; [apply (small_count n); [lia | done] | by apply (small_count 1) | done..].
Qed.

(** The overall score: five numbers added, a rounding at most for each
    sum, one for the division. *)
Lemma five_within (k : nat) (cl rel acc co em : Num) (x1 x2 x3 x4 x5 : Q) :
  small 1 cl ∧ small 1 rel ∧ small 1 acc ∧ small 1 co ∧ small 1 em →
  within k (value cl) x1 → within k (value rel) x2 → within k (value acc) x3 →
  within k (value co) x4 → within k (value em) x5 →
  within (k + 5) (rnd (value (five cl rel acc co em) / 5)) ((x1 + x2 + x3 + x4 + x5) / 5).
Proof.
  intros (S1 & S2 & S3 & S4 & S5) H1 H2 H3 H4 H5. unfold five.
  pose proof (within_next 1 k cl rel x1 x2 ltac:(done) (conj S1 H1) S2 H2) as A.
  apply (within_next 2 (S k) _ acc _ x3 ltac:(done)) in A;
    [|done | by apply (within_mono k); [lia|]].
  apply (within_next 3 (S (S k)) _ co _ x4 ltac:(done)) in A;
    [|done | by apply (within_mono k); [lia|]].
  apply (within_next 4 (S (S (S k))) _ em _ x5 ltac:(done)) in A;
    [|done | by apply (within_mono k); [lia|]].
  replace (k + 5)%nat with (S (S (S (S (S k))))) by lia.
  eapply within_rnd; [|reflexivity]. apply within_div; [done | apply A].
Qed.

(** Each formula in floats against the same formula without rounding. *)
Lemma clarity_value_within (ai : list string) :
  within 1 (clarity_value ai) (clarity_value (R := exact) ai).
Proof.
  eapply within_rnd; [|apply clarity_value_rnd].
  apply within_exact; [apply fraction_default_bounds | reflexivity].
Qed.

Lemma empathy_value_within (ai : list string) :
  within 1 (empathy_value ai) (empathy_value (R := exact) ai).
Proof.
  eapply within_rnd; [|apply empathy_value_rnd].
  apply within_exact; [apply fraction_default_bounds | reflexivity].
Qed.

Lemma accuracy_value_exact (ai : list string) :
  accuracy_value (R := exact) ai ==
  (if py_not ai then 1 # 2 else 1 - fraction uncertain ai / 2) ∧
  1 # 2 <= accuracy_value (R := exact) ai.
Proof.
  pose proof (accuracy_score_returns ai) as H. destruct (accuracy_score ai) as [e|q]; [done|].
  cbn in H. destruct H as [Hq Hb]. rewrite Hq in Hb. unfold accuracy_value. cbn [rnd exact].
  destruct (py_not ai); [split; [reflexivity | lra] | split; [reflexivity | apply Hb]].
Qed.

Lemma accuracy_value_within (ai : list string) :
  within 1 (accuracy_value ai) (accuracy_value (R := exact) ai).
Proof.
  destruct (accuracy_value_exact ai) as [He Hb].
  eapply within_rnd; [|rewrite accuracy_value_rnd, <- He; reflexivity].
  apply within_exact; [lra | reflexivity].
Qed.

Lemma completeness_value_within (ms : list Message) :
  within 0 (completeness_value ms) (completeness_value (R := exact) ms).
Proof.
  apply within_exact; [|by rewrite !completeness_value_eq].
  rewrite (completeness_value_eq (L := exact_laws)). case_decide; lra.
Qed.

Lemma relevance_value_within (ms : list Message) :
  within (length (exchanges ms) + 2) (relevance_value ms) (relevance_value (R := exact) ms).
Proof. rewrite (relevance_value_exact ms). apply relevance_within. Qed.

(** A report in floats against the report without rounding, field by
    field. *)
Lemma scored_within (s : Summation) (c : list Message) (r_fl r : AnalysisReport) :
  scored s c r_fl → scored (R := exact) s c r →
  rep_clarity_score r_fl == rnd (rep_clarity_score r) ∧
  rep_accuracy_score r_fl == rnd (rep_accuracy_score r) ∧
  rep_empathy_score r_fl == rnd (rep_empathy_score r) ∧
  rep_completeness_score r_fl == rep_completeness_score r ∧
  within (length (exchanges (order_by_timestamp c)) + 2)
    (rep_relevance_score r_fl) (rep_relevance_score r) ∧
  within (length (exchanges (order_by_timestamp c)) + 7)
    (rep_overall_score r_fl) (rep_overall_score r) ∧
  rep_fallback_count r_fl = rep_fallback_count r ∧
  rep_escalation_needed r_fl = rep_escalation_needed r ∧
  rep_resolution r_fl = rep_resolution r.
Proof.
  intros [Hf (cl & rel & acc & co & em & Hs & Hcl & Hrel & Hacc & Hco & Hem & Ho)] He.
  pose proof (scored_exact_overall s c r He) as Hoe. destruct He as [He _].
  unfold report_eq in Hf, He. report_fields. set (ms := order_by_timestamp c) in *.
  destruct Hf as (C1 & R1 & A1 & O1 & _ & E1 & F1 & X1 & _ & V1 & _).
  destruct He as (C2 & R2 & A2 & O2 & _ & E2 & F2 & X2 & _ & V2 & _).
  set (p := length (exchanges ms)).
  assert (within (p + 2) (value cl) (rep_clarity_score r)) as W1
    by (rewrite Hcl, C2; apply (within_mono 1); [lia | apply clarity_value_within]).
  assert (within (p + 2) (value rel) (rep_relevance_score r)) as W2
    by (rewrite Hrel, R2; apply relevance_value_within).
  assert (within (p + 2) (value acc) (rep_accuracy_score r)) as W3
    by (rewrite Hacc, A2; apply (within_mono 1); [lia | apply accuracy_value_within]).
  assert (within (p + 2) (value co) (rep_completeness_score r)) as W4
    by (rewrite Hco, O2; apply (within_mono 0); [lia | apply completeness_value_within]).
  assert (within (p + 2) (value em) (rep_empathy_score r)) as W5
    by (rewrite Hem, E2; apply (within_mono 1); [lia | apply empathy_value_within]).
  pose proof (five_within (p + 2) cl rel acc co em _ _ _ _ _ Hs W1 W2 W3 W4 W5) as W0.
  rewrite <- Ho, <- Hoe in W0. replace (p + 2 + 5)%nat with (p + 7)%nat in W0 by lia.
  split_and!; try congruence.
  - rewrite C1, C2. apply clarity_value_rnd.
  - rewrite A1, A2, accuracy_value_rnd. apply rnd_proper. symmetry. apply accuracy_value_exact.
  - rewrite E1, E2. apply empathy_value_rnd.
  - rewrite O1, O2, !completeness_value_eq. reflexivity.
  - rewrite R1, R2. apply relevance_value_within.
Qed.

(** With the sum from left to right, the average response times. *)
Lemma scored_response_time (c : list Message) (r_fl r : AnalysisReport) :
  scored left_to_right c r_fl → scored (R := exact) left_to_right c r →
  option_Forall2 (within (length (exchanges (order_by_timestamp c)) + 2))
    (rep_average_response_time r_fl) (rep_average_response_time r).
Proof.
  intros [Hf _] [He _]. unfold report_eq in Hf, He. report_fields.
  destruct Hf as (_ & _ & _ & _ & _ & _ & _ & _ & T1 & _).
  destruct He as (_ & _ & _ & _ & _ & _ & _ & _ & T2 & _).
  pose proof (response_time_within _ (order_by_timestamp_sorted c)) as Hw.
  pose proof (response_time_value_exact left_to_right (order_by_timestamp c)) as Hx.
  apply (option_Forall2_within _ _ _ _ T1).
  apply (option_Forall2_within_r _ _ _ _ Hw).
  clear -T2 Hx. revert T2 Hx. cbv zeta.
  generalize (response_time_value (R := exact) left_to_right (order_by_timestamp c)).
  intros o [a b Hab|]; inversion 1; constructor. by rewrite Hab.
Qed.

End report_accuracy.

(** ** The sentiment label *)

Section label.
Context `{L : RoundingLaws}.

(** A comparison with a rounded threshold agrees with the exact one when
    the exact value is far enough from the threshold. *)
Lemma Qgtb_stable (a x t d : Q) :
  Qabs (a - x) <= d → d + u * Qabs t < Qabs (x - t) → Qgtb a (rnd t) = Qgtb x t.
Proof.
  intros Ha Hd. pose proof (rnd_error t) as Ht.
  apply Qabs_Qle_condition in Ha, Ht.
  apply eq_true_iff_eq. rewrite !Qgtb_spec.
  destruct (Qlt_le_dec t x) as [H|H].
  - pose proof (Qabs_pos (x - t)). split; intros; lra.
  - pose proof (Qabs_neg (x - t)). split; intros; lra.
Qed.

Lemma classify_fl_stable (a avg d : Q) :
  Qabs (a - avg) <= d →
  d + u / 5 < Qabs (avg - (1 # 5)) → d + u / 5 < Qabs (avg + (1 # 5)) →
  classify_fl a = classify avg.
Proof.
  intros Ha H1 H2. unfold classify_fl, classify.
  assert (u * Qabs 0.2 == u / 5) as Eu by reflexivity.
  assert (Qabs (avg - 0.2) == Qabs (avg - (1 # 5))) as E1 by (apply Qabs_wd; lra).
  assert (Qabs (- avg - 0.2) == Qabs (avg + (1 # 5))) as E2
    by (rewrite <- Qabs_opp; apply Qabs_wd; lra).
  rewrite (Qgtb_stable a avg 0.2 d) by (rewrite ?Eu, ?E1; done).
  destruct (Qgtb avg 0.2); [done|].
  assert (Qltb a (- rnd 0.2) = Qltb avg (-0.2)) as ->; [|done].
  unfold Qltb. change (negb (Qle_bool ?x ?y)) with (Qgtb x y).
  assert (Qgtb (- rnd 0.2) a = Qgtb (- a) (rnd 0.2)) as ->
    by (apply eq_true_iff_eq; rewrite !Qgtb_spec; split; intros; lra).
  assert (Qgtb (-0.2) avg = Qgtb (- avg) 0.2) as ->
    by (apply eq_true_iff_eq; rewrite !Qgtb_spec; split; intros; lra).
  apply (Qgtb_stable _ _ _ d); rewrite ?Eu, ?E2; [|done].
  assert (- a - - avg == - (a - avg)) as -> by ring. by rewrite Qabs_opp.
Qed.

End label.

(** ** The ranges of the scores in floats *)

Section ranges.
Context `{L : RoundingLaws} `{W : WordNet} `{T : TextBlob}.
Context {WT : WordNetTotal W} {TL : TextBlobLawful T}.

(** A sum is at least the sum of two lower bounds that are halves of
    small integers: those are floats, and rounding is monotone. *)
Lemma lower_next (n h : Z) (x y : Q) (a b : Num) :
  (n ≤ 4)%Z → (Z.abs h ≤ 10)%Z → x + y == inject_Z h / 2 →
  small n a ∧ x <= value a → small 1 b → y <= value b →
  small (n + 1) (num_add a b) ∧ x + y <= value (num_add a b).
Proof.
  intros Hn Hh Exy [Sa Ha] Sb Hb. split; [by apply num_add_small|].
  rewrite (add_value (E := laws_exactness))
    by (first [apply (small_count n); [lia | done] | by apply (small_count 1)]).
  destruct (both_int a b); [lra|].
  assert (Z.abs h ≤ 2 * max_count)%Z as Hs
    by (change max_count with 4503599627370495%Z; lia).
  rewrite Exy, <- (exact_halves (R := R) (N := max_count) h Hs), <- Exy.
  apply rnd_mono. lra.
Qed.

Lemma five_lower (cl rel acc co em : Num) :
  small 1 cl ∧ small 1 rel ∧ small 1 acc ∧ small 1 co ∧ small 1 em →
  0 <= value cl → 0 <= value rel → 1 # 2 <= value acc → 1 # 2 <= value co →
  0 <= value em → rnd (1 # 5) <= rnd (value (five cl rel acc co em) / 5).
Proof.
  intros (S1 & S2 & S3 & S4 & S5) H1 H2 H3 H4 H5. unfold five.
  pose proof (lower_next 1 0 0 0 cl rel ltac:(done) ltac:(done) eq_refl
    (conj S1 H1) S2 H2) as A.
  apply (lower_next 2 1 (0 + 0) (1 # 2) _ acc ltac:(done) ltac:(done) eq_refl) in A;
    [|done..].
  apply (lower_next 3 2 (0 + 0 + (1 # 2)) (1 # 2) _ co ltac:(done) ltac:(done) eq_refl)
    in A; [|done..].
  apply (lower_next 4 2 (0 + 0 + (1 # 2) + (1 # 2)) 0 _ em ltac:(done) ltac:(done) eq_refl)
    in A; [|done..].
  destruct A as [_ A]. apply rnd_mono. revert A.
  generalize (value (num_add (num_add (num_add (num_add cl rel) acc) co) em)).
  intros q Hq. lraQ.
Qed.

(** A report that holds the formulas has its scores in their ranges. *)
Lemma scored_bounds (s : Summation) (c : list Message) (r : AnalysisReport) :
  scored s c r →
  0 <= rep_clarity_score r <= 1 ∧
  0 <= rep_relevance_score r ∧
  1 # 2 <= rep_accuracy_score r <= 1 ∧
  (rep_completeness_score r == 1 # 2 ∨ rep_completeness_score r == 1) ∧
  0 <= rep_empathy_score r <= 1 ∧
  rnd (1 # 5) <= rep_overall_score r.
Proof.
  intros [Hf (cl & rel & acc & co & em & Hs & Hcl & Hrel & Hacc & Hco & Hem & Ho)].
  unfold report_eq in Hf. report_fields. set (ms := order_by_timestamp c) in *.
  destruct Hf as (C & Rl & A & O & _ & E & _).
  pose proof (rnd_range 0 1 _ rnd_zero rnd_one (fraction_default_bounds clear (ai_msgs ms))).
  pose proof (rnd_range 0 1 _ rnd_zero rnd_one
    (fraction_default_bounds empathetic (ai_msgs ms))).
  destruct (accuracy_value_exact (ai_msgs ms)) as [Ea Ha].
  pose proof (accuracy_score_returns (ai_msgs ms)) as Hr.
  destruct (accuracy_score (ai_msgs ms)) as [|q]; [done|]. cbn in Hr. destruct Hr as [Eq Hq].
  rewrite Eq in Hq. pose proof (rnd_range (1 # 2) 1 _ rnd_half rnd_one Hq).
  destruct (relevance_value_within ms) as [Hr0 _].
  rewrite <- clarity_value_rnd, <- C in *. rewrite <- empathy_value_rnd, <- E in *.
  rewrite <- accuracy_value_rnd, <- A in *. rewrite <- Rl in Hr0.
  assert (rep_completeness_score r == 1 # 2 ∨ rep_completeness_score r == 1) as Hc
    by (rewrite O, completeness_value_eq; case_decide; [by left | by right]).
  split_and!; try done; try lra. rewrite Ho.
  apply five_lower; [done | rewrite ?Hcl, ?Hrel, ?Hacc, ?Hco, ?Hem, <- ?Rl, <- ?O..];
    [lra | done | lra | destruct Hc as [-> | ->]; lra | lra].
Qed.

End ranges.

(** ** Main results *)

Section main.
Context `{W : WordNet} `{T : TextBlob} {WT : WordNetTotal W} {TL : TextBlobLawful T}.

(** C16: The model of the scorers in exact arithmetic is the model in floats
    with a rounding that changes nothing: with either summation the two
    aggregators return, and their reports hold the same numbers, the same
    label and the same flags. *)
Theorem analyze_conversations_fl_exact (s : Summation) (c : list Message) :
  ∃ r_fl r, analyze_conversations_fl (R := exact) s c = ok r_fl ∧
            analyze_conversations c = ok r ∧ report_eq r_fl r.
Proof.
  assert (5 ≤ Z.max 5 (len c) ∧ len c ≤ Z.max 5 (len c))%Z as [H5 Hc] by lia.
  destruct (analyze_conversations_fl_scored (E := exact_exactness _) s c H5 Hc)
    as (r_fl & Hfl & Hs).
  destruct (analyze_conversations_scored s c) as (r & Hr & He).
  exists r_fl, r. split_and!; [done..|]. by apply (scored_exact_unique s c).
Qed.

Section floats.
Context `{L : RoundingLaws}.

(** C5: In floats, for a conversation of fewer than 2^52 - 6 messages and
    with either summation, the aggregator returns whenever the exact one
    does, with the same fallback count, escalation flag and resolution
    flag and the same completeness; clarity, accuracy and empathy are the
    exact scores rounded once; with [p] exchanges the relevance is within
    [p + 2] roundings of the exact relevance and the overall score within
    [p + 7], so that its relative error is at most [2 (n + 7) u] for [n]
    messages; with the sum from left to right the average response time
    is there when the exact one is, within [p + 2] roundings. *)
Theorem report_fl_accurate (s : Summation) (c : list Message) :
  (len c + 7 ≤ 2 ^ (prec - 1))%Z →
  ∃ r_fl r, analyze_conversations_fl s c = ok r_fl ∧ analyze_conversations c = ok r ∧
    (rep_clarity_score r_fl == rnd (rep_clarity_score r) ∧
     rep_accuracy_score r_fl == rnd (rep_accuracy_score r) ∧
     rep_empathy_score r_fl == rnd (rep_empathy_score r) ∧
     rep_completeness_score r_fl == rep_completeness_score r ∧
     within (length (exchanges (order_by_timestamp c)) + 2)
       (rep_relevance_score r_fl) (rep_relevance_score r) ∧
     within (length (exchanges (order_by_timestamp c)) + 7)
       (rep_overall_score r_fl) (rep_overall_score r) ∧
     rep_fallback_count r_fl = rep_fallback_count r ∧
     rep_escalation_needed r_fl = rep_escalation_needed r ∧
     rep_resolution r_fl = rep_resolution r) ∧
    Qabs (rep_overall_score r_fl - rep_overall_score r)
    <= 2 * inject_Z (len c + 7) * u * rep_overall_score r ∧
    (s = left_to_right →
     option_Forall2 (within (length (exchanges (order_by_timestamp c)) + 2))
       (rep_average_response_time r_fl) (rep_average_response_time r)).
Proof.
  intros Hn. change (2 ^ (prec - 1))%Z with (max_count + 1)%Z in Hn.
  assert (5 ≤ max_count)%Z as H5 by (by vm_compute).
  assert (len c ≤ max_count)%Z as Hc by lia.
  destruct (analyze_conversations_fl_scored (E := laws_exactness) s c H5 Hc)
    as (r_fl & Hfl & Hs).
  destruct (analyze_conversations_scored s c) as (r & Hr & He).
  exists r_fl, r. pose proof (scored_within s c r_fl r Hs He) as H.
  do 2 (split; [done|]). split; [exact H|].
  split; [|intros ->; by apply scored_response_time].
  destruct H as (_ & _ & _ & _ & _ & Ho & _).
  pose proof (len_exchanges (order_by_timestamp c)) as Hp.
  destruct (lens_of_messages c) as [Hm _]. cbv zeta in Hm.
  set (p := length (exchanges (order_by_timestamp c))) in *.
  assert (Z.of_nat (p + 7) ≤ len c + 7)%Z as Hk by (unfold len in *; lia).
  pose proof Ho as (_ & H0 & _).
  apply within_error in Ho; [|change (2 ^ (prec - 1))%Z with (max_count + 1)%Z; lia].
  eapply Qle_trans; [exact Ho|]. rewrite Zle_Qle in Hk. destruct u_small as [Hu _].
  apply Qmult_le_compat_r; [|done]. apply Qmult_le_compat_r; [lra | lra].
Qed.

(** C18: In floats, for a conversation of fewer than 2^52 messages and with
    either summation, the aggregator returns a report whose scores are in
    the ranges of the exact ones: rounding takes no share above 1 or
    below 0, the accuracy stays in [1/2, 1], the completeness is 1/2 or
    1, the relevance is not negative and the overall score is at least
    the float nearest to 1/5. *)
Theorem report_fl_bounds (s : Summation) (c : list Message) :
  (len c ≤ max_count)%Z →
  returns (analyze_conversations_fl s c) (λ r,
    0 <= rep_clarity_score r <= 1 ∧
    0 <= rep_relevance_score r ∧
    1 # 2 <= rep_accuracy_score r <= 1 ∧
    (rep_completeness_score r == 1 # 2 ∨ rep_completeness_score r == 1) ∧
    0 <= rep_empathy_score r <= 1 ∧
    rnd (1 # 5) <= rep_overall_score r).
Proof.
  intros Hc. assert (5 ≤ max_count)%Z as H5 by (by vm_compute).
  destruct (analyze_conversations_fl_scored (E := laws_exactness) s c H5 Hc)
    as (r & -> & Hs).
  apply returns_ok. by apply (scored_bounds s c).
Qed.

(** In floats and with the sum taken from left to right, the average
    response time of messages in timestamp order is there exactly when
    the exact one is, and with [p] exchanges it is within [p + 2]
    roundings of it; neither is negative. *)
Lemma average_response_time_fl_accurate (ms : list Message) :
  StronglySorted ts_le ms → (len ms ≤ max_count)%Z →
  ∃ t_fl t, average_response_time_fl left_to_right ms = ok t_fl ∧
            average_response_time ms = ok t ∧
            option_Forall2 (within (length (exchanges ms) + 2)) (value <$> t_fl) t.
Proof.
  intros Hs Hn.
  destruct (average_response_time_fl_value (E := laws_exactness) left_to_right ms Hn)
    as (t_fl & Hfl & Hv).
  eexists t_fl, _. split_and!; [done | apply average_response_time_eq |].
  exact (option_Forall2_within _ _ _ _ Hv (response_time_within ms Hs)).
Qed.

(** C19: In floats and with the sum taken from left to right, the sentiment
    label of [n] messages is the exact label as soon as the exact average
    polarity is further than [(2 n + 3) u] from both thresholds. *)
Theorem sentiment_analysis_fl_stable (ms : list string) :
  (len ms ≤ max_count)%Z →
  inject_Z (2 * len ms + 3) * u < Qabs (average_polarity ms - (1 # 5)) →
  inject_Z (2 * len ms + 3) * u < Qabs (average_polarity ms + (1 # 5)) →
  sentiment_analysis_fl left_to_right ms = sentiment_analysis ms.
Proof.
  intros Hn H1 H2.
  rewrite (sentiment_analysis_fl_value (E := laws_exactness)), sentiment_analysis_closed
    by done.
  f_equal. unfold sentiment_value. destruct (decide (ms = [])) as [->|Hne]; [done|].
  rewrite py_not_false by done. cbn [py_sum].
  rewrite (classify_fl_proper _ _ (rnd_proper _ _ (Qdiv_comp _ _
    (sum_left_to_right_value (E := laws_exactness) _ ltac:(done)) _ _ (Qeq_refl _)))).
  pose proof (mean_polarity_err ms Hne) as He.
  assert (Z.of_nat (length ms + 1) ≤ 2 ^ (prec - 1))%Z as Hk
    by (change (2 ^ (prec - 1))%Z with (max_count + 1)%Z; unfold len in Hn; lia).
  pose proof (g_linear _ Hk) as Hg. destruct u_small as [Hu _].
  assert (g (length ms + 1) + u / 5 <= inject_Z (2 * len ms + 3) * u) as Hd.
  { unfold len. rewrite Nat2Z.inj_add, inject_Z_plus in Hg.
    rewrite inject_Z_plus, inject_Z_mult. change (inject_Z (Z.of_nat 1)) with 1 in Hg.
    change (inject_Z 2) with 2. change (inject_Z 3) with 3.
    clear -Hg Hu. revert Hg. generalize (g (length ms + 1)).
    generalize (inject_Z (Z.of_nat (length ms))). intros q x Hg.
    assert (u / 5 == u * (1 # 5)) as -> by (field; lra). nra. }
  apply (classify_fl_stable _ _ (g (length ms + 1))); [done | lra..].
Qed.

End floats.

End main.

Lemma analyze_conversations_fl_exact_witness :
  ∃ r_fl r,
    analyze_conversations_fl (R := exact) (W := toy_wordnet) (T := toy_textblob)
      compensated scenario_resolved = ok r_fl ∧
    analyze_conversations (W := toy_wordnet) (T := toy_textblob) scenario_resolved = ok r ∧
    report_eq r_fl r.
Proof.
  exact (analyze_conversations_fl_exact (W := toy_wordnet) (T := toy_textblob)
           compensated scenario_resolved).
Defined.

Lemma report_fl_accurate_witness :
  ∃ r_fl r,
    analyze_conversations_fl (R := binary64) (W := toy_wordnet) (T := toy_textblob)
      left_to_right scenario_resolved = ok r_fl ∧
    analyze_conversations (W := toy_wordnet) (T := toy_textblob) scenario_resolved = ok r ∧
    (rep_clarity_score r_fl == round64 (rep_clarity_score r) ∧
     rep_accuracy_score r_fl == round64 (rep_accuracy_score r) ∧
     rep_empathy_score r_fl == round64 (rep_empathy_score r) ∧
     rep_completeness_score r_fl == rep_completeness_score r ∧
     within (length (exchanges (order_by_timestamp scenario_resolved)) + 2)
       (rep_relevance_score r_fl) (rep_relevance_score r) ∧
     within (length (exchanges (order_by_timestamp scenario_resolved)) + 7)
       (rep_overall_score r_fl) (rep_overall_score r) ∧
     rep_fallback_count r_fl = rep_fallback_count r ∧
     rep_escalation_needed r_fl = rep_escalation_needed r ∧
     rep_resolution r_fl = rep_resolution r) ∧
    Qabs (rep_overall_score r_fl - rep_overall_score r)
    <= 2 * inject_Z (len scenario_resolved + 7) * u * rep_overall_score r ∧
    (left_to_right = left_to_right →
     option_Forall2 (within (length (exchanges (order_by_timestamp scenario_resolved)) + 2))
       (rep_average_response_time r_fl) (rep_average_response_time r)).
Proof.
  apply (report_fl_accurate (L := binary64_laws) (W := toy_wordnet) (T := toy_textblob)).
  by vm_compute.
Defined.

Lemma sentiment_analysis_fl_stable_witness :
  sentiment_analysis_fl (R := binary64) (T := toy_textblob) left_to_right
    ["my app crashed"; "thanks that fixed it"] =
  sentiment_analysis (T := toy_textblob) ["my app crashed"; "thanks that fixed it"].
Proof.
  apply (sentiment_analysis_fl_stable (L := binary64_laws) (T := toy_textblob));
    by vm_compute.
Defined.

Lemma report_fl_bounds_witness :
  returns (analyze_conversations_fl (R := binary64) (W := toy_wordnet) (T := toy_textblob)
             compensated scenario_unanswered) (λ r,
    0 <= rep_clarity_score r <= 1 ∧
    0 <= rep_relevance_score r ∧
    1 # 2 <= rep_accuracy_score r <= 1 ∧
    (rep_completeness_score r == 1 # 2 ∨ rep_completeness_score r == 1) ∧
    0 <= rep_empathy_score r <= 1 ∧
    round64 (1 # 5) <= rep_overall_score r).
Proof.
  apply (report_fl_bounds (L := binary64_laws) (W := toy_wordnet) (T := toy_textblob)).
  by vm_compute.
Defined.
