(* ===== verification/Float64.v ===== *)
(** * Float64: the arithmetic of the scorers in binary64

    The scorers compute with Python floats; the other files read each
    formula in exact arithmetic.  This file evaluates the divisions of
    [clarity_score], [empathy_score] and [accuracy_score] and the mean and
    thresholds of [sentiment_analysis] in binary64, with the primitive
    floats of the kernel, and relates the results to the exact ones.
    
    [of_int] is [float(n)] of an integer, [truediv] the division of a
    float by a length, [F2Q] the rational a finite float denotes.
    [rounds_to q f] says that [f] is finite and denotes [round64 q], the
    rounding of Rounding.v: the kernel's floats and the reference
    rounding are compared here.  [sum_naive] is [sum] on floats as Python
    computes it up to version 3.11, from left to right; [sum_neumaier] as
    it computes it from version 3.12 on, with a running compensation;
    the last theorem compares them with the two sums of Numeric.v.

    The statements on lists hold for up to [max_len] messages: they rest
    on tables of all quotients of that size, checked by evaluation. *)

From Stdlib Require Import Floats Uint63 Qabs.
From stdpp Require Import list.
From S2P Require Import Prelude PyStr Transcript Capabilities Lexical Pairs Sentiment.
From S2P Require Import Analyzer Rounding Roundoff Numeric.

#[local] Set Warnings "-inexact-float".

(** ** The operations *)

(** [float(n)] for an integer between 0 and [2^53], where it is exact. *)
Definition of_int (n : Z) : float := PrimFloat.of_uint63 (Uint63.of_Z n).

(** [x / n] for a float and a length. *)
Definition truediv (x : float) (n : Z) : result float :=
  if (n =? 0)%Z then raise ZeroDivisionError else ok (PrimFloat.div x (of_int n)).

Definition clarity_score64 (ai_messages : list string) : result float :=
  if py_not ai_messages then ok 0%float
  else
    let clear_resp :=
      fold_left (λ clear_resp msg,
        let words := split msg in
        if (len words <=? 25)%Z && (len words >=? 3)%Z
        then (clear_resp + 1)%Z else clear_resp)
      ai_messages 0%Z in
    truediv (of_int clear_resp) (len ai_messages).

Definition accuracy_score64 (ai_messages : list string) : result float :=
  if py_not ai_messages then ok 0.5%float
  else
    let score :=
      fold_left (λ score msg,
        if any_in uncertain_phrases (lower msg)
        then PrimFloat.add score 0.5 else PrimFloat.add score 1)
      ai_messages 0%float in
    truediv score (len ai_messages).

Definition empathy_score64 (ai_messages : list string) : result float :=
  if py_not ai_messages then ok 0%float
  else
    let score :=
      fold_left (λ score msg,
        if any_in empathy_phrases (lower msg) then (score + 1)%Z else score)
      ai_messages 0%Z in
    truediv (of_int score) (len ai_messages).




(** ** Reference definitions *)

Definition max_len : Z := 128.

(** The rational a finite float denotes. *)
Definition F2Q (f : float) : option Q :=
  match Prim2SF f with
  | S754_zero _ => Some 0%Q
  | S754_finite s m e =>
      Some ((if s then -1 else 1) * inject_Z (Zpos m) * Qpower 2 e)%Q
  | _ => None
  end.

(** [f] is finite and denotes the rounding of [q]. *)
Definition close (q : Q) (f : float) : bool :=
  match F2Q f with
  | Some x => Qeq_bool x (round64 q)
  | None => false
  end.

Definition rounds_to (q : Q) (f : float) : Prop := close q f = true.

(** The result in the floats of the kernel, the result on Python numbers
    with the rounding [round64] and the exact result agree: the three
    return, the float and the number are the rounded rational, and the
    float lies between [lo] and [hi]. *)
Definition agree (lo hi : float) (r64 : result float) (rfl : result Num)
    (r : result Q) : Prop :=
  ∃ f a q, r64 = ok f ∧ rfl = ok a ∧ r = ok q ∧ rounds_to q f ∧
    value a == round64 q ∧ PrimFloat.leb lo f = true ∧ PrimFloat.leb f hi = true.

(** [float(h) / 2]: a multiple of one half. *)
Definition of_half (h : Z) : float := PrimFloat.div (of_int h) 2.

(** The tables: every quotient of a count by a length up to [max_len] is
    the rounded exact quotient and lies between 0 and 1, with equality
    only at the ends; adding a half or one to a multiple of a half is
    exact; every quotient of the accuracy is the rounded one and lies
    between one half and 1. *)
Definition quotient_ok (n k : Z) : bool :=
  let f := PrimFloat.div (of_int k) (of_int n) in
  close (k # Z.to_pos n) f && PrimFloat.leb 0 f && PrimFloat.leb f 1 &&
  Bool.eqb (PrimFloat.eqb f 1) (k =? n)%Z && Bool.eqb (PrimFloat.eqb f 0) (k =? 0)%Z.

Definition half_ok (h : Z) : bool :=
  Leibniz.eqb (PrimFloat.add (of_half h) 0.5) (of_half (h + 1)) &&
  Leibniz.eqb (PrimFloat.add (of_half h) 1) (of_half (h + 2)).

Definition accuracy_ok (n u : Z) : bool :=
  let f := PrimFloat.div (of_half (2 * n - u)) (of_int n) in
  close (1 - (u # Z.to_pos (2 * n))) f && PrimFloat.leb 0.5 f && PrimFloat.leb f 1.

Definition table (ok : Z → Z → bool) : bool :=
  forallb (λ n, forallb (λ k, ok (Z.of_nat n) (Z.of_nat k)) (seq 0 (S n)))
    (seq 1 (Z.to_nat max_len)).

(** ** The tables *)

Lemma quotient_table : table quotient_ok = true.
Proof. vm_compute. reflexivity. Qed.

Lemma accuracy_table : table accuracy_ok = true.
Proof. vm_compute. reflexivity. Qed.

Lemma half_table :
  forallb (λ h, half_ok (Z.of_nat h)) (seq 0 (S (2 * Z.to_nat max_len))) = true.
Proof. vm_compute. reflexivity. Qed.

(** ** From the tables to every list of that size *)

#[export] Instance close_proper : Proper (Qeq ==> eq ==> eq) close.
Proof.
  intros q1 q2 Hq f ? <-. unfold close. destruct (F2Q f) as [x|]; [|done].
  apply eq_true_iff_eq. by rewrite !Qeq_bool_iff, Hq.
Qed.

Lemma table_spec (ok : Z → Z → bool) (n k : Z) :
  table ok = true → (1 ≤ n ≤ max_len)%Z → (0 ≤ k ≤ n)%Z → ok n k = true.
Proof.
  unfold table. rewrite forallb_forall. intros H Hn Hk.
  specialize (H (Z.to_nat n)). rewrite forallb_forall, in_seq in H.
  specialize (H ltac:(lia) (Z.to_nat k)). rewrite in_seq, !Z2Nat.id in H by lia.
  apply H. lia.
Qed.

Lemma len_pos {A : Type} (l : list A) : l ≠ [] → (0 < len l)%Z.
Proof. destruct l as [|x l]; [done|]. rewrite len_cons. pose proof (len_nonneg l). lia. Qed.

Lemma half_step (h : Z) :
  (0 ≤ h ≤ 2 * max_len)%Z →
  PrimFloat.add (of_half h) 0.5 = of_half (h + 1) ∧
  PrimFloat.add (of_half h) 1 = of_half (h + 2).
Proof.
  intros Hh. pose proof half_table as H. rewrite forallb_forall in H.
  specialize (H (Z.to_nat h)). rewrite in_seq, Z2Nat.id in H by lia.
  unfold half_ok in H. rewrite andb_true_iff, !Leibniz.eqb_spec in H.
  apply H. unfold max_len in *. lia.
Qed.

Lemma truediv_len {A : Type} (x : float) (l : list A) :
  l ≠ [] → truediv x (len l) = ok (PrimFloat.div x (of_int (len l))).
Proof.
  intros H. unfold truediv. destruct (Z.eqb_spec (len l) 0) as [E|]; [|done].
  by apply len_nil_iff in E.
Qed.

Lemma fraction_Qmake {A : Type} (p : A → bool) (l : list A) :
  l ≠ [] → fraction p l == count p l # Z.to_pos (len l).
Proof.
  intros H. unfold fraction. rewrite (Qmake_Qdiv (count p l)).
  assert (0 < len l)%Z by (by apply len_pos).
  by rewrite Z2Pos.id.
Qed.

(** The quotient of a count by the length, in binary64 and exactly. *)
Lemma fraction64 {A : Type} (p : A → bool) (l : list A) :
  l ≠ [] → (len l ≤ max_len)%Z →
  agree 0 1 (ok (PrimFloat.div (of_int (count p l)) (of_int (len l))))
    (ok (Float (round64 (fraction p l)))) (ok (fraction p l)).
Proof.
  intros H Hn.
  assert (0 < len l)%Z by (by apply len_pos).
  pose proof (table_spec quotient_ok (len l) (count p l) quotient_table
    ltac:(lia) (count_bounds p l)) as Hq.
  unfold quotient_ok in Hq. cbv zeta in Hq. rewrite !andb_true_iff in Hq.
  destruct Hq as ((((Hc & Hlo) & Hhi) & _) & _).
  eexists _, _, _. split_and!; [done.. | | reflexivity | done | done].
  unfold rounds_to. by rewrite fraction_Qmake.
Qed.

(** The loop of [accuracy_score] adds halves: its sum is exact. *)
Lemma accuracy_loop64 (ms : list string) (h : Z) :
  (0 ≤ h)%Z → (h + 2 * len ms ≤ 2 * max_len)%Z →
  fold_left (λ score msg,
    if uncertain msg then PrimFloat.add score 0.5 else PrimFloat.add score 1)
    ms (of_half h)
  = of_half (h + 2 * len ms - count uncertain ms).
Proof.
  revert h. induction ms as [|m ms IH]; intros h Hh Hn.
  - cbn [fold_left]. f_equal. unfold count, len. cbn. lia.
  - rewrite len_cons in Hn. pose proof (len_nonneg ms).
    destruct (half_step h ltac:(lia)) as [E1 E2].
    cbn [fold_left]. rewrite count_cons, len_cons.
    destruct (uncertain m); [rewrite E1 | rewrite E2]; rewrite IH by lia; f_equal; lia.
Qed.

Lemma accuracy64 (ms : list string) :
  ms ≠ [] → (len ms ≤ max_len)%Z →
  agree 0.5 1
    (ok (PrimFloat.div (of_half (2 * len ms - count uncertain ms)) (of_int (len ms))))
    (accuracy_score_fl (R := binary64) ms) (accuracy_score ms).
Proof.
  intros H Hn.
  assert (0 < len ms)%Z by (by apply len_pos).
  pose proof (table_spec accuracy_ok (len ms) (count uncertain ms) accuracy_table
    ltac:(lia) (count_bounds uncertain ms)) as Hq.
  unfold accuracy_ok in Hq. cbv zeta in Hq. rewrite !andb_true_iff in Hq.
  destruct Hq as ((Hc & Hlo) & Hhi).
  pose proof (accuracy_score_eq ms H) as Hr.
  destruct (accuracy_score ms) as [e|q]; [done|]. cbn in Hr.
  destruct (accuracy_score_fl_value (E := laws_exactness (L := binary64_laws)) ms)
    as (a & -> & Ha);
    [unfold max_len in Hn; change max_count with 4503599627370495%Z; lia|].
  unfold accuracy_value in Ha. rewrite py_not_false in Ha by done.
  eexists _, _, _. split_and!; [done.. | | by rewrite Hr | done | done].
  unfold rounds_to. rewrite Hr, fraction_Qmake by done. rewrite <- Hc.
  apply close_proper; [|done].
  rewrite (Qmake_Qdiv (count uncertain ms)), (Qmake_Qdiv (count uncertain ms)).
  rewrite !Z2Pos.id by lia. rewrite inject_Z_mult.
  assert (0 < inject_Z (len ms))%Q by (rewrite <- (Zlt_Qlt 0); done).
  field. lra.
Qed.

Lemma clarity_score64_eq (ms : list string) :
  ms ≠ [] →
  clarity_score64 ms = ok (PrimFloat.div (of_int (count clear ms)) (of_int (len ms))).
Proof.
  intros H. unfold clarity_score64. rewrite py_not_false by done. cbv zeta.
  by rewrite (count_loop clear), Z.add_0_l, truediv_len.
Qed.

Lemma empathy_score64_eq (ms : list string) :
  ms ≠ [] →
  empathy_score64 ms = ok (PrimFloat.div (of_int (count empathetic ms)) (of_int (len ms))).
Proof.
  intros H. unfold empathy_score64. rewrite py_not_false by done. cbv zeta.
  by rewrite (count_loop empathetic), Z.add_0_l, truediv_len.
Qed.

Lemma accuracy_score64_eq (ms : list string) :
  ms ≠ [] → (len ms ≤ max_len)%Z →
  accuracy_score64 ms =
  ok (PrimFloat.div (of_half (2 * len ms - count uncertain ms)) (of_int (len ms))).
Proof.
  intros H Hn. unfold accuracy_score64. rewrite py_not_false by done. cbv zeta.
  change 0%float with (of_half 0).
  change (fold_left _ ms (of_half 0)) with (fold_left (λ score msg,
    if uncertain msg then PrimFloat.add score 0.5 else PrimFloat.add score 1)
    ms (of_half 0)).
  by rewrite accuracy_loop64, truediv_len by (done || lia).
Qed.

Lemma agree_empty (x : float) (a : Num) (q : Q) (lo hi : float) :
  close q x = true → value a == round64 q →
  PrimFloat.leb lo x = true → PrimFloat.leb x hi = true →
  agree lo hi (ok x) (ok a) (ok q).
Proof. intros. by eexists _, _, _. Qed.

(** ** Main results *)

(** C20: For up to 128 assistant messages the three scores that are a
    share of the messages are in the binary64 of the kernel what they are
    in exact arithmetic, rounded once: [clarity_score], [accuracy_score]
    and [empathy_score] return, the float returned denotes [round64] of
    the exact score, the nearest float with ties to even, and it lies in
    the range of the exact score, 0 to 1 for clarity and empathy and one
    half to 1 for accuracy.  The sum of halves in [accuracy_score] is
    exact. *)
Theorem scores64_sound (ai_messages : list string) :
  (len ai_messages ≤ max_len)%Z →
  agree 0 1 (clarity_score64 ai_messages)
    (clarity_score_fl (R := binary64) ai_messages) (clarity_score ai_messages) ∧
  agree 0.5 1 (accuracy_score64 ai_messages)
    (accuracy_score_fl (R := binary64) ai_messages) (accuracy_score ai_messages) ∧
  agree 0 1 (empathy_score64 ai_messages)
    (empathy_score_fl (R := binary64) ai_messages) (empathy_score ai_messages).
Proof.
  intros Hn. destruct (decide (ai_messages = [])) as [->|H].
  { split_and!; by apply agree_empty. }
  rewrite clarity_score64_eq, empathy_score64_eq, accuracy_score64_eq by done.
  rewrite clarity_score_eq, empathy_score_eq by done.
  rewrite clarity_score_fl_eq, empathy_score_fl_eq, py_not_false by done.
  split_and!; [by apply fraction64 | by apply accuracy64 | by apply fraction64].
Qed.

Lemma scores64_sound_witness :
  agree 0 1 (clarity_score64 ["we are looking into it"; "ok"])
    (clarity_score_fl (R := binary64) ["we are looking into it"; "ok"])
    (clarity_score ["we are looking into it"; "ok"]) ∧
  agree 0.5 1 (accuracy_score64 ["we are looking into it"; "ok"])
    (accuracy_score_fl (R := binary64) ["we are looking into it"; "ok"])
    (accuracy_score ["we are looking into it"; "ok"]) ∧
  agree 0 1 (empathy_score64 ["we are looking into it"; "ok"])
    (empathy_score_fl (R := binary64) ["we are looking into it"; "ok"])
    (empathy_score ["we are looking into it"; "ok"]).
Proof. apply (scores64_sound ["we are looking into it"; "ok"]). by vm_compute. Defined.

