(* ===== verification/Store.v ===== *)
(** * Store: the tables of conversations, messages and reports

    The rows of [src/conversations/models.py] ([Conversation], [Message],
    [ConversationAnalysis]) as records in three tables, and the object
    manager the rest of the code writes them with: [objects.create] of
    each model, [Conversation.objects.get], the reverse accessors
    [conversation.messages.all()] and [conversation.analysis].

    A table is the list of its rows in insertion order; the database gives
    a new row the next integer as [id] (no row is ever deleted).  The code
    runs without a transaction, so what has been written stays written
    when a later step raises: a computation on the store is a function
    from the store to a result and a store (the monad [M]).
    [auto_now_add] reads the clock, which is a capability like the
    lexicon: [tick] gives the reading after the current one.

    [store_wf] is the invariant of the store, [hoare] the triple it is
    proved with, and [reports] the abstract view of the store as a finite
    map from the key of a conversation to its report.  The [max_length]
    of the columns, which the database may or may not enforce, is not
    modelled; the [__str__] methods are in [Serializers.v]. *)

From stdpp Require Import gmap sorting.
From S2P Require Import Prelude PyStr Transcript Capabilities Lexical Pairs Sentiment Analyzer.

(** ** Rows and tables *)

Record Conversation : Type := {
  conv_id : Z;
  title : option string;
  created_at : Z;
}.

(** A row of [Message]: the fields the analyzer reads ([Message] of
    [Transcript]) with the key of the row and the foreign key. *)
Record MessageRow : Type := {
  msg_id : Z;
  msg_conversation : Z;
  msg_fields : Message;
}.

Record ConversationAnalysis : Type := {
  an_id : Z;
  an_conversation : Z;
  an_report : AnalysisReport;
  an_created_at : Z;
}.

Record Store : Type := {
  conversations : list Conversation;
  messages : list MessageRow;
  analyses : list ConversationAnalysis;
  now : Z;
}.

Definition empty_store (t0 : Z) : Store :=
  {| conversations := []; messages := []; analyses := []; now := t0 |}.

(** The clock: [tick t] is the reading that follows the reading [t]. *)
Class Clock : Type := {
  tick : Z → Z;
}.

(** Time does not stand still between two reads. *)
Class ClockStrict (C : Clock) : Prop := {
  tick_lt : ∀ t, (t < tick t)%Z;
}.

(** A clock that advances by one microsecond per read, and one that is
    stuck. *)
Definition unit_clock : Clock := {| tick t := (t + 1)%Z |}.

Definition frozen_clock : Clock := {| tick t := t |}.

(** ** Handlers as state transformers that may raise *)

Definition M (A : Type) : Type := Store → result A * Store.

#[export] Instance M_ret : MRet M := λ A x s, (ok x, s).

#[export] Instance M_bind : MBind M := λ A B k m s,
  match m s with
  | (inr x, s') => k x s'
  | (inl e, s') => (inl e, s')
  end.

(** A computation without effect on the store. *)
Definition lift {A : Type} (r : result A) : M A := λ s, (r, s).

Definition get_store : M Store := λ s, (ok s, s).

Definition put_store (s : Store) : M unit := λ _, (ok (), s).

(** ** The object manager *)

Definition auto_now_add `{C : Clock} : M Z :=
  s ← get_store;
  _ ← put_store {| conversations := conversations s; messages := messages s;
                   analyses := analyses s; now := tick (now s) |};
  mret (now s).

Definition Conversation_create `{C : Clock} (title : option string) : M Conversation :=
  t ← auto_now_add;
  s ← get_store;
  let row := {| conv_id := len (conversations s) + 1; title := title;
                created_at := t |} in
  _ ← put_store {| conversations := conversations s ++ [row]; messages := messages s;
                   analyses := analyses s; now := now s |};
  mret row.

(** [sender] and [text] are columns without [null=True]: a [None] is
    refused by the database. *)
Definition Message_create `{C : Clock} (conversation : Conversation)
    (sender text : option string) : M MessageRow :=
  match sender, text with
  | Some sender, Some text =>
      t ← auto_now_add;
      s ← get_store;
      let row := {| msg_id := len (messages s) + 1;
                    msg_conversation := conv_id conversation;
                    msg_fields := {| Transcript.sender := sender;
                                     Transcript.text := text;
                                     timestamp := t |} |} in
      _ ← put_store {| conversations := conversations s;
                       messages := messages s ++ [row];
                       analyses := analyses s; now := now s |};
      mret row
  | _, _ => lift (raise IntegrityError)
  end.

(** [hasattr(conversation, "analysis")]: the reverse side of the one-to-one
    field. *)
Definition has_analysis (conversation : Conversation) (s : Store) : bool :=
  bool_decide (Exists (λ a, an_conversation a = conv_id conversation) (analyses s)).

(** The one-to-one field is a unique column. *)
Definition ConversationAnalysis_create `{C : Clock} (conversation : Conversation)
    (result : AnalysisReport) : M ConversationAnalysis :=
  s ← get_store;
  if has_analysis conversation s then lift (raise IntegrityError)
  else
    t ← auto_now_add;
    s ← get_store;
    let row := {| an_id := len (analyses s) + 1;
                  an_conversation := conv_id conversation;
                  an_report := result; an_created_at := t |} in
    _ ← put_store {| conversations := conversations s; messages := messages s;
                     analyses := analyses s ++ [row]; now := now s |};
    mret row.

(** [Conversation.objects.get(id=conversation_id)]; [None] is
    [Conversation.DoesNotExist]. *)
Definition Conversation_get (conversation_id : Z) (s : Store) : option Conversation :=
  head (filter (λ c, conv_id c = conversation_id) (conversations s)).

(** [conversation.messages.all()]. *)
Definition messages_all (conversation : Conversation) (s : Store) : list Message :=
  msg_fields <$> filter (λ m, msg_conversation m = conv_id conversation) (messages s).

(** ** Reference definitions *)

(** The keys of a table are 1, 2, ... in insertion order. *)
Definition keyed {A : Type} (key : A → Z) (rows : list A) : Prop :=
  ∀ i row, rows !! i = Some row → key row = (Z.of_nat i + 1)%Z.

(** The invariant of the store: keys are consecutive, foreign keys point
    to rows that exist, and a conversation has at most one report. *)
Record store_wf (s : Store) : Prop := {
  wf_conversations : keyed conv_id (conversations s);
  wf_messages : keyed msg_id (messages s);
  wf_analyses : keyed an_id (analyses s);
  wf_message_fk : Forall (λ m, 1 ≤ msg_conversation m ≤ len (conversations s))%Z
                    (messages s);
  wf_analysis_fk : Forall (λ a, 1 ≤ an_conversation a ≤ len (conversations s))%Z
                     (analyses s);
  wf_one_to_one : NoDup (an_conversation <$> analyses s);
}.

(** The abstract view of the store: the report of each conversation that
    has one. *)
Definition reports (s : Store) : gmap Z AnalysisReport :=
  list_to_map ((λ a, (an_conversation a, an_report a)) <$> analyses s).

(** The rows the object manager inserts and the store after each
    insertion. *)
Definition conversation_row (title : option string) (s : Store) : Conversation :=
  {| conv_id := len (conversations s) + 1; title := title; created_at := now s |}.

Definition add_conversation `{C : Clock} (title : option string) (s : Store) : Store :=
  {| conversations := conversations s ++ [conversation_row title s];
     messages := messages s; analyses := analyses s; now := tick (now s) |}.

Definition message_row (cid : Z) (p : string * string) (s : Store) : MessageRow :=
  {| msg_id := len (messages s) + 1; msg_conversation := cid;
     msg_fields := {| sender := p.1; text := p.2; timestamp := now s |} |}.

Definition add_message `{C : Clock} (cid : Z) (s : Store) (p : string * string) : Store :=
  {| conversations := conversations s; messages := messages s ++ [message_row cid p s];
     analyses := analyses s; now := tick (now s) |}.

Definition analysis_row (cid : Z) (r : AnalysisReport) (s : Store) : ConversationAnalysis :=
  {| an_id := len (analyses s) + 1; an_conversation := cid; an_report := r;
     an_created_at := now s |}.

Definition add_analysis `{C : Clock} (cid : Z) (r : AnalysisReport) (s : Store) : Store :=
  {| conversations := conversations s; messages := messages s;
     analyses := analyses s ++ [analysis_row cid r s]; now := tick (now s) |}.

(** A Hoare triple for handlers: from a store that satisfies [P], the
    handler ends in a store that satisfies [Q] of its value when it
    returns and [E] when it raises. *)
Definition hoare {A : Type} (P : Store → Prop) (m : M A)
    (Q : A → Store → Prop) (E : Store → Prop) : Prop :=
  ∀ s, P s →
    match m s with
    | (inr x, s') => Q x s'
    | (inl _, s') => E s'
    end.

(** The invariant, with conversations known to be stored. *)
Definition inv_with (l : list Conversation) (s : Store) : Prop :=
  store_wf s ∧ l ⊆ conversations s.

(** Projections of a pair that is given. *)
Ltac red_pair := cbv beta iota delta [fst snd].

(** ** The clock of the examples *)

#[export] Instance unit_clock_strict : ClockStrict unit_clock.
Proof. split. intros t. cbn. lia. Qed.

(** ** The rules of the triples *)

Section rules.
Context {A B : Type}.
Implicit Types (P : Store → Prop) (E : Store → Prop).

Lemma bindM_run (m : M A) (k : A → M B) (s : Store) :
  (x ← m; k x) s =
  match m s with (inr x, s') => k x s' | (inl e, s') => (inl e, s') end.
Proof. reflexivity. Qed.

Lemma hoare_ret P (Q : A → Store → Prop) E (x : A) :
  (∀ s, P s → Q x s) → hoare P (mret x) Q E.
Proof. intros H s Hs. by apply H. Qed.

Lemma hoare_bind P (m : M A) (k : A → M B) (Q : A → Store → Prop)
    (R : B → Store → Prop) E :
  hoare P m Q E → (∀ x, hoare (Q x) (k x) R E) → hoare P (x ← m; k x) R E.
Proof.
  intros Hm Hk s Hs. rewrite bindM_run. specialize (Hm s Hs).
  destruct (m s) as [[e|x] s']; [done|]. by apply Hk.
Qed.

Lemma hoare_lift P (Q : A → Store → Prop) E (r : result A) :
  (∀ s, P s → match r with inr x => Q x s | inl _ => E s end) →
  hoare P (lift r) Q E.
Proof. intros H s Hs. specialize (H s Hs). unfold lift. by destruct r. Qed.

Lemma hoare_conseq P P' (m : M A) (Q Q' : A → Store → Prop) E E' :
  hoare P' m Q' E' → (∀ s, P s → P' s) → (∀ x s, Q' x s → Q x s) →
  (∀ s, E' s → E s) → hoare P m Q E.
Proof.
  intros Hm HP HQ HE s Hs. specialize (Hm s (HP s Hs)).
  destruct (m s) as [[e|x] s']; [by apply HE | by apply HQ].
Qed.

Lemma mapM_cons_run (f : A → M B) (x : A) (l : list A) (s : Store) :
  mapM f (x :: l) s =
  match f x s with
  | (inr y, s1) =>
      match mapM f l s1 with
      | (inr ys, s2) => (ok (y :: ys), s2)
      | (inl e, s2) => (inl e, s2)
      end
  | (inl e, s1) => (inl e, s1)
  end.
Proof.
  cbn. unfold mbind, M_bind. destruct (f x s) as [[e|y] s1]; [done|].
  by destruct (mapM f l s1) as [[e|ys] s2].
Qed.

(** A loop keeps what each of its turns keeps. *)
Lemma hoare_mapM (J : Store → Prop) (f : A → M B) (l : list A) :
  (∀ x, x ∈ l → hoare J (f x) (λ _, J) J) → hoare J (mapM f l) (λ _, J) J.
Proof.
  induction l as [|x l IH]; intros H s Hs; [done|]. rewrite mapM_cons_run.
  pose proof (H x (list_elem_of_here _ _) s Hs) as Hx.
  destruct (f x s) as [[e|y] s1]; [done|].
  assert (∀ z, z ∈ l → hoare J (f z) (λ _, J) J) as H'
    by (intros z Hz; apply H; by right).
  specialize (IH H' s1 Hx). by destruct (mapM f l s1) as [[e|ys] s2].
Qed.

End rules.

(** Reading the store: what follows runs from the store that was read. *)
Lemma hoare_get {A : Type} (P : Store → Prop) (k : Store → M A)
    (Q : A → Store → Prop) (E : Store → Prop) :
  (∀ s0, P s0 → hoare (λ s, s = s0) (k s0) Q E) →
  hoare P (s ← get_store; k s) Q E.
Proof. intros H s Hs. exact (H s Hs s eq_refl). Qed.

Lemma hoare_pre {A : Type} (P P' : Store → Prop) (m : M A)
    (Q : A → Store → Prop) (E : Store → Prop) :
  (∀ s, P s → P' s) → hoare P' m Q E → hoare P m Q E.
Proof. intros HP Hm s Hs. by apply Hm, HP. Qed.

(** ** What the object manager does to the store *)

Lemma auto_now_add_run `{C : Clock} (s : Store) :
  auto_now_add s =
  (ok (now s), {| conversations := conversations s; messages := messages s;
                  analyses := analyses s; now := tick (now s) |}).
Proof. reflexivity. Qed.

Lemma get_store_run {A : Type} (k : Store → M A) (s : Store) :
  (x ← get_store; k x) s = k s s.
Proof. reflexivity. Qed.

Lemma Conversation_create_run `{C : Clock} (title : option string) (s : Store) :
  Conversation_create title s = (ok (conversation_row title s), add_conversation title s).
Proof. reflexivity. Qed.

Lemma Message_create_run `{C : Clock} (c : Conversation) (sender text : string)
    (s : Store) :
  Message_create c (Some sender) (Some text) s =
  (ok (message_row (conv_id c) (sender, text) s), add_message (conv_id c) s (sender, text)).
Proof. reflexivity. Qed.

Lemma Message_create_null `{C : Clock} (c : Conversation) (sender text : option string)
    (s : Store) :
  sender = None ∨ text = None →
  Message_create c sender text s = (raise IntegrityError, s).
Proof. intros [-> | ->]; [done|]. by destruct sender. Qed.

Lemma ConversationAnalysis_create_run `{C : Clock} (c : Conversation)
    (r : AnalysisReport) (s : Store) :
  has_analysis c s = false →
  ConversationAnalysis_create c r s =
  (ok (analysis_row (conv_id c) r s), add_analysis (conv_id c) r s).
Proof.
  intros H. unfold ConversationAnalysis_create. by rewrite get_store_run, H.
Qed.

Lemma ConversationAnalysis_create_dup `{C : Clock} (c : Conversation)
    (r : AnalysisReport) (s : Store) :
  has_analysis c s = true →
  ConversationAnalysis_create c r s = (raise IntegrityError, s).
Proof.
  intros H. unfold ConversationAnalysis_create. by rewrite get_store_run, H.
Qed.

Lemma has_analysis_true (c : Conversation) (s : Store) :
  has_analysis c s = true ↔ conv_id c ∈ an_conversation <$> analyses s.
Proof.
  unfold has_analysis. rewrite bool_decide_eq_true, Exists_exists, list_elem_of_fmap.
  split; intros (a & ? & ?); by exists a.
Qed.

Lemma has_analysis_false (c : Conversation) (s : Store) :
  has_analysis c s = false ↔ conv_id c ∉ an_conversation <$> analyses s.
Proof. by rewrite <- has_analysis_true, not_true_iff_false. Qed.

(** ** The invariant *)

(** The keys of a table are consecutive exactly when they are the list
    1, ..., n; so the invariant can be decided, and checked on a given
    store by evaluation. *)
Lemma keyed_keys {A : Type} (key : A → Z) (rows : list A) :
  keyed key rows ↔ key <$> rows = Z.of_nat <$> seq 1 (length rows).
Proof.
  split.
  - intros H. apply list_eq. intros i. rewrite !list_lookup_fmap.
    destruct (rows !! i) as [row|] eqn:E; cbn.
    + rewrite lookup_seq_lt by (by eapply lookup_lt_Some). cbn. f_equal.
      rewrite (H i row E). lia.
    + apply lookup_ge_None in E. by rewrite lookup_seq_ge.
  - intros H i row Hi. apply (f_equal (.!! i)) in H.
    rewrite !list_lookup_fmap, Hi, lookup_seq_lt in H by (by eapply lookup_lt_Some).
    cbn in H. injection H as ->. lia.
Qed.

#[export] Instance keyed_dec {A : Type} (key : A → Z) (rows : list A) :
  Decision (keyed key rows).
Proof.
  destruct (decide (key <$> rows = Z.of_nat <$> seq 1 (length rows))) as [H | H];
    [left | right]; by rewrite keyed_keys.
Defined.

#[export] Instance store_wf_dec (s : Store) : Decision (store_wf s).
Proof.
  destruct (decide (
    keyed conv_id (conversations s) ∧ keyed msg_id (messages s) ∧
    keyed an_id (analyses s) ∧
    Forall (λ m, 1 ≤ msg_conversation m ≤ len (conversations s))%Z (messages s) ∧
    Forall (λ a, 1 ≤ an_conversation a ≤ len (conversations s))%Z (analyses s) ∧
    NoDup (an_conversation <$> analyses s))) as [H | H]; [left | right].
  - by destruct H as (? & ? & ? & ? & ? & ?).
  - intros []. by apply H.
Defined.

Lemma keyed_snoc {A : Type} (key : A → Z) (rows : list A) (row : A) :
  keyed key rows → key row = (len rows + 1)%Z → keyed key (rows ++ [row]).
Proof.
  intros H E i x Hi. apply lookup_snoc_Some in Hi as [[_ Hi] | [-> <-]].
  - by apply H.
  - exact E.
Qed.

Lemma keyed_bounds {A : Type} (key : A → Z) (rows : list A) (row : A) :
  keyed key rows → row ∈ rows → (1 ≤ key row ≤ len rows)%Z.
Proof.
  intros H [i Hi]%list_elem_of_lookup. rewrite (H i row Hi).
  apply lookup_lt_Some in Hi. unfold len. lia.
Qed.

Lemma keyed_inj {A : Type} (key : A → Z) (rows : list A) (r1 r2 : A) :
  keyed key rows → r1 ∈ rows → r2 ∈ rows → key r1 = key r2 → r1 = r2.
Proof.
  intros H [i Hi]%list_elem_of_lookup [j Hj]%list_elem_of_lookup E.
  rewrite (H i r1 Hi), (H j r2 Hj) in E. assert (i = j) as -> by lia. congruence.
Qed.

Lemma store_wf_empty (t0 : Z) : store_wf (empty_store t0).
Proof. split; try done; try apply NoDup_nil_2; by intros i x Hi. Qed.

Lemma store_wf_now (s : Store) (t : Z) :
  store_wf s →
  store_wf {| conversations := conversations s; messages := messages s;
              analyses := analyses s; now := t |}.
Proof. by intros []. Qed.

Lemma store_wf_add_conversation (s : Store) (row : Conversation) (t : Z) :
  store_wf s → conv_id row = (len (conversations s) + 1)%Z →
  store_wf {| conversations := conversations s ++ [row]; messages := messages s;
              analyses := analyses s; now := t |}.
Proof.
  intros [] E. split; cbn; try done.
  - by apply keyed_snoc.
  - eapply Forall_impl; [done|]. intros m. rewrite len_app. change (len [row]) with 1%Z. lia.
  - eapply Forall_impl; [done|]. intros m. rewrite len_app. change (len [row]) with 1%Z. lia.
Qed.

Lemma store_wf_add_message (s : Store) (row : MessageRow) (t : Z) :
  store_wf s → msg_id row = (len (messages s) + 1)%Z →
  (1 ≤ msg_conversation row ≤ len (conversations s))%Z →
  store_wf {| conversations := conversations s; messages := messages s ++ [row];
              analyses := analyses s; now := t |}.
Proof.
  intros [] E Hfk. split; cbn; try done.
  - by apply keyed_snoc.
  - apply Forall_app. split; [done|]. by apply Forall_singleton.
Qed.

Lemma store_wf_add_analysis (s : Store) (row : ConversationAnalysis) (t : Z) :
  store_wf s → an_id row = (len (analyses s) + 1)%Z →
  (1 ≤ an_conversation row ≤ len (conversations s))%Z →
  an_conversation row ∉ an_conversation <$> analyses s →
  store_wf {| conversations := conversations s; messages := messages s;
              analyses := analyses s ++ [row]; now := t |}.
Proof.
  intros [] E Hfk Hnew. split; cbn; try done.
  - by apply keyed_snoc.
  - apply Forall_app. split; [done|]. by apply Forall_singleton.
  - rewrite fmap_app. apply NoDup_app. split_and!; [done| |apply NoDup_singleton].
    intros x Hx ->%list_elem_of_singleton. done.
Qed.

Lemma inv_with_wf (l : list Conversation) (s : Store) : inv_with l s → store_wf s.
Proof. by intros [? _]. Qed.

Lemma inv_with_nil (s : Store) : store_wf s → inv_with [] s.
Proof. intros H. split; [done|]. by intros x Hx%elem_of_nil. Qed.

Lemma inv_with_tail (c : Conversation) (l : list Conversation) (s : Store) :
  inv_with (c :: l) s → inv_with l s.
Proof. intros [? H]. split; [done|]. intros x Hx. apply H. by right. Qed.

Lemma Conversation_get_Some (conversation_id : Z) (s : Store) (c : Conversation) :
  Conversation_get conversation_id s = Some c →
  c ∈ conversations s ∧ conv_id c = conversation_id.
Proof.
  unfold Conversation_get. intros H.
  assert (c ∈ filter (λ c, conv_id c = conversation_id) (conversations s)) as Hc.
  { destruct (filter _ _) as [|x l]; [done|]. injection H as ->. by left. }
  by apply list_elem_of_filter in Hc as [? ?].
Qed.

Section primitives.
Context `{C : Clock}.
Implicit Types (l : list Conversation) (c : Conversation).

Lemma lift_inv {A : Type} (J : Store → Prop) (r : result A) :
  hoare J (lift r) (λ _, J) J.
Proof. apply hoare_lift. intros s Hs. by destruct r. Qed.

Lemma Conversation_create_inv l (title : option string) :
  hoare (inv_with l) (Conversation_create title) (λ c, inv_with (c :: l)) (inv_with l).
Proof.
  intros s [Hs Hl]. rewrite Conversation_create_run. cbn. split.
  - by apply store_wf_add_conversation.
  - intros x [->|Hx]%elem_of_cons; apply elem_of_app; [right; by left | left; by apply Hl].
Qed.

Lemma Message_create_inv l c (sender text : option string) :
  c ∈ l → hoare (inv_with l) (Message_create c sender text) (λ _, inv_with l) (inv_with l).
Proof.
  intros Hc s [Hs Hl]. destruct sender as [sd|], text as [tx|];
    try (rewrite Message_create_null by auto; by split).
  rewrite Message_create_run. cbn. split; [|done].
  apply store_wf_add_message; [done..|]. cbn.
  apply (keyed_bounds conv_id); [apply Hs | by apply Hl].
Qed.

Lemma ConversationAnalysis_create_inv l c (r : AnalysisReport) :
  c ∈ l →
  hoare (inv_with l) (ConversationAnalysis_create c r) (λ _, inv_with l) (inv_with l).
Proof.
  intros Hc s [Hs Hl]. destruct (has_analysis c s) eqn:E.
  - rewrite ConversationAnalysis_create_dup by done. by split.
  - rewrite ConversationAnalysis_create_run by done. cbn. split; [|done].
    apply store_wf_add_analysis; [done..| |by apply has_analysis_false].
    cbn. apply (keyed_bounds conv_id); [apply Hs | by apply Hl].
Qed.

(** The invariant read as a triple on [store_wf] alone. *)
Lemma hoare_store_wf {A : Type} (l : list Conversation) (m : M A) :
  hoare (inv_with l) m (λ _, inv_with l) (inv_with l) →
  hoare (inv_with l) m (λ _, store_wf) store_wf.
Proof.
  intros H s Hs. specialize (H s Hs).
  destruct (m s) as [[e|x] s']; by apply (inv_with_wf l).
Qed.

End primitives.

(** ** Analysing *)

Lemma has_analysis_add `{C : Clock} (c : Conversation) (cid : Z) (r : AnalysisReport)
    (s : Store) :
  has_analysis c (add_analysis cid r s) = has_analysis c s || bool_decide (cid = conv_id c).
Proof.
  apply eq_true_iff_eq. rewrite orb_true_iff, !has_analysis_true, bool_decide_eq_true.
  cbn. rewrite fmap_app, elem_of_app. cbn. rewrite list_elem_of_singleton.
  split; intros [?|?]; auto.
Qed.

Lemma has_analysis_prefix (c : Conversation) (s s' : Store) :
  analyses s `prefix_of` analyses s' → has_analysis c s = true → has_analysis c s' = true.
Proof.
  intros [k Hk]. rewrite !has_analysis_true, Hk, fmap_app, elem_of_app. by left.
Qed.

(** ** The abstract view *)

Lemma reports_prefix (s s' : Store) :
  analyses s `prefix_of` analyses s' → reports s ⊆ reports s'.
Proof.
  intros [k Hk]. unfold reports. rewrite Hk, fmap_app, list_to_map_app.
  apply map_union_subseteq_l.
Qed.

Lemma reports_lookup_None (c : Conversation) (s : Store) :
  reports s !! conv_id c = None ↔ has_analysis c s = false.
Proof.
  unfold reports. rewrite has_analysis_false, <- not_elem_of_list_to_map.
  by rewrite <- list_fmap_compose.
Qed.

Lemma reports_add_analysis `{C : Clock} (c : Conversation) (r : AnalysisReport)
    (s : Store) :
  has_analysis c s = false →
  reports (add_analysis (conv_id c) r s) = <[conv_id c := r]> (reports s).
Proof.
  intros H%reports_lookup_None. unfold reports in *. cbn.
  rewrite fmap_app, list_to_map_app. cbn.
  rewrite insert_empty, <- insert_union_singleton_r; done.
Qed.

