(* ===== verification/Handlers.v ===== *)
(** * Handlers: the upload serializer, the views and the daily task

    Every piece of code that changes the store:
    [ConversationUploadSerializer.create] of
    [src/conversations/serializers.py] ([upload_create]), the views
    [UploadConversationView], [AnalyseConversationView] and
    [ConversationAnalysisListView] of [src/conversations/views.py], and
    the task [daily_analyse] of [src/conversations/tasks.py].  [Call]
    lists the routes of [src/conversations/urls.py] and the task; [after]
    is the store a call leaves, whether it returns or raises, and
    [reachable] the stores that calls produce from the empty store.

    A message of the request is a JSON object, a finite map from keys to
    strings, so [msg.get(k)] is a lookup, or a value without [get].  The
    title is validated by [CharField_run_validation] of [Validation.v];
    calls are sequential. *)

From stdpp Require Import gmap sorting.
From S2P Require Import Prelude PyStr Transcript Capabilities Lexical Pairs Sentiment Analyzer.
From S2P Require Import Validation Store.

(** ** Requests and responses *)

Inductive Json : Type :=
  | JObject (fields : gmap string string)
  | JOther.

(** [msg.get(key)]; a value that is not an object has no [get]. *)
Definition json_get (msg : Json) (key : string) : result (option string) :=
  match msg with
  | JObject fields => ok (fields !! key)
  | JOther => raise AttributeError
  end.

(** The body of an upload: [title] is optional ([None] when the key is
    missing), [messages] is required and must be a list ([None] when it
    is missing or is not one). *)
Record UploadData : Type := {
  up_title : option JsonValue;
  up_messages : option (list Json);
}.

Record ValidatedData : Type := {
  v_title : option string;
  v_messages : list Json;
}.

Inductive Body : Type :=
  | Uploaded (message : string) (conversation_id : Z)
  | Errors
  | ErrorMessage (error : string)
  | PlainMessage (message : string)
  | AnalysisData (analysis : ConversationAnalysis)
  | AnalysisList (results : list ConversationAnalysis).

Record Response : Type := {
  data : Body;
  status : Z;
}.

(** ** The upload serializer *)

(** [serializer.is_valid()]: a title that is present must pass
    [CharField], and [messages] is required. *)
Definition is_valid (request_data : UploadData) : option ValidatedData :=
  match up_title request_data with
  | Some data =>
      title ← CharField_run_validation data;
      messages ← up_messages request_data;
      Some {| v_title := Some title; v_messages := messages |}
  | None =>
      messages ← up_messages request_data;
      Some {| v_title := None; v_messages := messages |}
  end.

(** [ConversationUploadSerializer.create]. *)
Definition upload_create `{C : Clock} (validated_data : ValidatedData) : M Conversation :=
  let title := default "Untitled Conversation" (v_title validated_data) in
  let messages_data := v_messages validated_data in
  conversation ← Conversation_create (Some title);
  _ ← mapM (λ msg,
        sender ← lift (json_get msg "sender");
        text ← lift (json_get msg "message");
        Message_create conversation sender text)
      messages_data;
  mret conversation.

(** ** The views *)

Definition UploadConversationView_post `{C : Clock} (request_data : UploadData) :
    M Response :=
  match is_valid request_data with
  | Some validated_data =>
      conversation ← upload_create validated_data;
      mret {| data := Uploaded "Conversation uploaded" (conv_id conversation);
              status := 201 |}
  | None => mret {| data := Errors; status := 400 |}
  end.

Definition AnalyseConversationView_post `{W : WordNet} `{T : TextBlob} `{C : Clock}
    (conversation_id : Z) : M Response :=
  s ← get_store;
  match Conversation_get conversation_id s with
  | None => mret {| data := ErrorMessage "Conversation not found"; status := 404 |}
  | Some conversation =>
      if has_analysis conversation s
      then mret {| data := PlainMessage "Already analysed"; status := 400 |}
      else
        result ← lift (analyze_conversations (messages_all conversation s));
        analysis ← ConversationAnalysis_create conversation result;
        mret {| data := AnalysisData analysis; status := 201 |}
  end.

Definition ConversationAnalysisListView_get : M Response :=
  s ← get_store;
  mret {| data := AnalysisList (analyses s); status := 200 |}.

(** ** The daily task *)

Definition daily_analyse `{W : WordNet} `{T : TextBlob} `{C : Clock} : M string :=
  s ← get_store;
  let conversations := conversations s in
  _ ← mapM (λ convo,
        s ← get_store;
        if negb (has_analysis convo s) then
          result ← lift (analyze_conversations (messages_all convo s));
          _ ← ConversationAnalysis_create convo result;
          mret ()
        else mret ())
      conversations;
  mret "Daily analysis completed".

(** ** The system as a whole *)

(** What can happen to the store: a request to one of the three routes of
    [urls.py] or a run of the task. *)
Inductive Call : Type :=
  | PostConversations (request_data : UploadData)
  | PostAnalyse (conversation_id : Z)
  | GetReports
  | RunDailyAnalyse.

(** The store after a call, whether the call returned or raised. *)
Definition after `{W : WordNet} `{T : TextBlob} `{C : Clock} (c : Call) (s : Store) : Store :=
  match c with
  | PostConversations request_data => (UploadConversationView_post request_data s).2
  | PostAnalyse conversation_id => (AnalyseConversationView_post conversation_id s).2
  | GetReports => (ConversationAnalysisListView_get s).2
  | RunDailyAnalyse => (daily_analyse s).2
  end.

Inductive reachable `{W : WordNet} `{T : TextBlob} `{C : Clock} (t0 : Z) : Store → Prop :=
  | reachable_init : reachable t0 (empty_store t0)
  | reachable_step s c : reachable t0 s → reachable t0 (after c s).

(** ** Reference definitions *)

(** The messages of an upload with the clock readings they receive: the
    first one is stamped [t], the next one [tick t], and so on. *)
Fixpoint stamp `{C : Clock} (ps : list (string * string)) (t : Z) : list Message :=
  match ps with
  | [] => []
  | p :: ps => {| sender := p.1; text := p.2; timestamp := t |} :: stamp ps (tick t)
  end.

(** The title the new conversation gets. *)
Definition upload_title (v : ValidatedData) : option string :=
  Some (default "Untitled Conversation" (v_title v)).

(** An element of [messages] that is an object with both keys. *)
Definition well_formed (msg : Json) (p : string * string) : Prop :=
  json_get msg "sender" = ok (Some p.1) ∧ json_get msg "message" = ok (Some p.2).

(** The body of the loop of [ConversationUploadSerializer.create]. *)
Definition upload_message `{C : Clock} (conversation : Conversation) (msg : Json) :
    M MessageRow :=
  sender ← lift (json_get msg "sender");
  text ← lift (json_get msg "message");
  Message_create conversation sender text.

(** The body of the loop of [daily_analyse]. *)
Definition analyse_if_new `{W : WordNet} `{T : TextBlob} `{C : Clock}
    (convo : Conversation) : M unit :=
  s ← get_store;
  if negb (has_analysis convo s) then
    result ← lift (analyze_conversations (messages_all convo s));
    _ ← ConversationAnalysis_create convo result;
    mret ()
  else mret ().

(** What analysing does to a store: conversations and messages stay, the
    reports that exist stay, and each report added is the report of its
    conversation. *)
Definition grows `{W : WordNet} `{T : TextBlob} (s s' : Store) : Prop :=
  conversations s' = conversations s ∧ messages s' = messages s ∧
  analyses s `prefix_of` analyses s' ∧
  ∀ a, a ∈ analyses s' → a ∈ analyses s ∨
    analyze_conversations
      (msg_fields <$> filter (λ m, msg_conversation m = an_conversation a) (messages s))
    = ok (an_report a).

(** Every report is the report of its conversation: the row belongs to a
    stored conversation whose messages, as they are now, have that
    report. *)
Definition faithful `{W : WordNet} `{T : TextBlob} (s : Store) : Prop :=
  Forall (λ a, ∃ c, Conversation_get (an_conversation a) s = Some c ∧
                analyze_conversations (messages_all c s) = ok (an_report a))
    (analyses s).

(** A store for the examples: the first scenario of the specification
    uploaded into the empty store, and a request whose second message
    has no text. *)
Definition upload_resolved : UploadData :=
  {| up_title := None;
     up_messages := Some
       [ JObject {[ "sender" := "user"; "message" := "my app crashed" ]};
         JObject {[ "sender" := "ai";
                    "message" := "I'm sorry to hear that, let's see what's wrong" ]};
         JObject {[ "sender" := "user"; "message" := "thanks that fixed it" ]} ] |}.

Definition upload_broken : UploadData :=
  {| up_title := Some (JString " broken ");
     up_messages := Some
       [ JObject {[ "sender" := "user"; "message" := "my app crashed" ]};
         JObject {[ "sender" := "ai" ]};
         JObject {[ "sender" := "user"; "message" := "hello?" ]} ] |}.

Definition store_resolved : Store :=
  (UploadConversationView_post (C := unit_clock) upload_resolved (empty_store 0)).2.

(** ** The invariant, handler by handler *)

Section invariant.
Context `{W : WordNet} `{T : TextBlob} `{C : Clock}.

Lemma upload_create_inv (v : ValidatedData) :
  hoare store_wf (upload_create v) (λ _, store_wf) store_wf.
Proof.
  apply (hoare_conseq _ (inv_with []) _ _ (λ _, inv_with []) _ (inv_with []));
    [|apply inv_with_nil | intros _; apply inv_with_wf | apply inv_with_wf].
  unfold upload_create. cbv zeta.
  eapply hoare_bind; [apply Conversation_create_inv|]. intros c.
  apply (hoare_conseq _ (inv_with [c]) _ _ (λ _, inv_with [c]) _ (inv_with [c]));
    try (intros; by eapply inv_with_tail); [|done].
  eapply hoare_bind.
  - apply hoare_mapM. intros msg _.
    eapply hoare_bind; [apply lift_inv|]. intros sender.
    eapply hoare_bind; [apply lift_inv|]. intros text.
    apply Message_create_inv. by left.
  - intros. by apply hoare_ret.
Qed.

Lemma UploadConversationView_post_inv (request_data : UploadData) :
  hoare store_wf (UploadConversationView_post request_data) (λ _, store_wf) store_wf.
Proof.
  unfold UploadConversationView_post. destruct (is_valid request_data) as [v|].
  - eapply hoare_bind; [apply upload_create_inv|]. intros c. by apply hoare_ret.
  - by apply hoare_ret.
Qed.

Lemma AnalyseConversationView_post_inv (conversation_id : Z) :
  hoare store_wf (AnalyseConversationView_post conversation_id) (λ _, store_wf) store_wf.
Proof.
  apply hoare_get. intros s0 Hs0.
  destruct (Conversation_get conversation_id s0) as [c|] eqn:Hc;
    [|apply hoare_ret; by intros s ->].
  apply Conversation_get_Some in Hc as [Hc _].
  destruct (has_analysis c s0); [apply hoare_ret; by intros s ->|].
  apply (hoare_pre _ (inv_with [c])).
  { intros s ->. split; [done|]. by intros x ->%list_elem_of_singleton. }
  apply hoare_store_wf.
  eapply hoare_bind; [apply lift_inv|]. intros r.
  eapply hoare_bind; [apply ConversationAnalysis_create_inv; by left|].
  intros a. by apply hoare_ret.
Qed.

Lemma ConversationAnalysisListView_get_inv :
  hoare store_wf ConversationAnalysisListView_get (λ _, store_wf) store_wf.
Proof. by intros s Hs. Qed.

Lemma daily_analyse_inv :
  hoare store_wf daily_analyse (λ _, store_wf) store_wf.
Proof.
  apply hoare_get. intros s0 Hs0. cbv zeta.
  apply (hoare_pre _ (inv_with (conversations s0))); [by intros s ->|].
  apply hoare_store_wf.
  apply (hoare_bind _ _ _ (λ _, inv_with (conversations s0)));
    [|intros; by apply hoare_ret].
  apply hoare_mapM. intros c Hc.
  apply hoare_get. intros s1 Hs1. apply (hoare_pre _ (inv_with (conversations s0)));
    [by intros s ->|].
  destruct (has_analysis c s1); cbn [negb]; [by apply hoare_ret|].
  eapply hoare_bind; [apply lift_inv|]. intros r.
  eapply hoare_bind; [by apply ConversationAnalysis_create_inv|].
  intros a. by apply hoare_ret.
Qed.

(** Every call keeps the invariant, whether it returns or raises. *)
Lemma after_wf (c : Call) (s : Store) : store_wf s → store_wf (after c s).
Proof.
  intros Hs. destruct c as [request_data|conversation_id| |]; cbn [after].
  - pose proof (UploadConversationView_post_inv request_data s Hs) as H.
    by destruct (UploadConversationView_post request_data s) as [[e|x] s'].
  - pose proof (AnalyseConversationView_post_inv conversation_id s Hs) as H.
    by destruct (AnalyseConversationView_post conversation_id s) as [[e|x] s'].
  - done.
  - pose proof (daily_analyse_inv s Hs) as H.
    by destruct (daily_analyse s) as [[e|x] s'].
Qed.

End invariant.

(** ** Analysing *)

Section analysing.
Context `{W : WordNet} `{T : TextBlob} `{C : Clock}.

#[export] Instance grows_refl : Reflexive grows.
Proof. intros s. split_and!; [done..|]. intros a Ha. by left. Qed.

#[export] Instance grows_trans : Transitive grows.
Proof.
  intros s1 s2 s3 (Hc1 & Hm1 & Hp1 & Hn1) (Hc2 & Hm2 & Hp2 & Hn2).
  split_and!; [congruence.. | by etrans |].
  intros a Ha. destruct (Hn2 a Ha) as [Ha2 | Ha2]; [by apply Hn1|].
  right. by rewrite <- Hm1.
Qed.

Lemma grows_add_analysis (c : Conversation) (r : AnalysisReport) (s : Store) :
  analyze_conversations (messages_all c s) = ok r →
  grows s (add_analysis (conv_id c) r s).
Proof.
  intros H. split_and!; [done..| by apply prefix_app_r |].
  intros a [Ha | ->%list_elem_of_singleton]%elem_of_app; [by left | by right].
Qed.

(** One turn of the loop of the task: nothing to do, a report added, or
    the exception of the analyzer. *)
Lemma analyse_if_new_run (c : Conversation) (s : Store) :
  analyse_if_new c s =
  if has_analysis c s then (ok (), s)
  else match analyze_conversations (messages_all c s) with
       | inr r => (ok (), add_analysis (conv_id c) r s)
       | inl e => (raise e, s)
       end.
Proof.
  unfold analyse_if_new. rewrite get_store_run.
  destruct (has_analysis c s) eqn:E; cbn [negb]; [done|].
  rewrite bindM_run. unfold lift.
  destruct (analyze_conversations (messages_all c s)) as [e|r]; [done|].
  by rewrite bindM_run, ConversationAnalysis_create_run.
Qed.

Lemma analyse_if_new_step (c : Conversation) (s : Store) :
  grows s (analyse_if_new c s).2 ∧
  ((analyse_if_new c s).1 = ok () → has_analysis c (analyse_if_new c s).2 = true).
Proof.
  rewrite analyse_if_new_run. destruct (has_analysis c s) eqn:E; [done|].
  destruct (analyze_conversations (messages_all c s)) as [e|r] eqn:Hr; cbn.
  - split; [reflexivity | done].
  - split; [by apply grows_add_analysis|]. intros _.
    by rewrite has_analysis_add, bool_decide_true, orb_true_r.
Qed.

Lemma daily_loop_grows (l : list Conversation) (s : Store) :
  grows s (mapM analyse_if_new l s).2.
Proof.
  revert s. induction l as [|c l IH]; intros s; [reflexivity|].
  rewrite mapM_cons_run. destruct (analyse_if_new_step c s) as [Hg _].
  destruct (analyse_if_new c s) as [[e|[]] s1]; [done|]. cbn in Hg.
  specialize (IH s1).
  destruct (mapM analyse_if_new l s1) as [[e|ys] s2]; cbn in *; by etrans.
Qed.

Lemma daily_loop_ok (l : list Conversation) (s s' : Store) (u : list ()) :
  mapM analyse_if_new l s = (ok u, s') → ∀ c, c ∈ l → has_analysis c s' = true.
Proof.
  revert s u. induction l as [|x l IH]; intros s u H c Hc; [by apply elem_of_nil in Hc|].
  rewrite mapM_cons_run in H. destruct (analyse_if_new_step x s) as [_ Hok].
  destruct (analyse_if_new x s) as [[e|[]] s1]; [done|].
  pose proof (daily_loop_grows l s1) as (_ & _ & Hp & _).
  destruct (mapM analyse_if_new l s1) as [[e|ys] s2] eqn:E; [done|].
  injection H as <- <-. apply elem_of_cons in Hc as [->|Hc]; [|by eapply IH].
  eapply has_analysis_prefix; [exact Hp | by apply Hok].
Qed.

Lemma daily_loop_noop (l : list Conversation) (s : Store) :
  (∀ c, c ∈ l → has_analysis c s = true) →
  mapM analyse_if_new l s = (ok ((λ _, ()) <$> l), s).
Proof.
  induction l as [|x l IH]; intros H; [done|].
  rewrite mapM_cons_run, analyse_if_new_run, H by left.
  rewrite IH; [done|]. intros c Hc. apply H. by right.
Qed.

Lemma daily_loop_returns {WT : WordNetTotal W} {TL : TextBlobLawful T}
    (l : list Conversation) (s : Store) :
  ∃ u s', mapM analyse_if_new l s = (ok u, s').
Proof.
  revert s. induction l as [|x l IH]; intros s; [by eexists _, _|].
  rewrite mapM_cons_run, analyse_if_new_run. destruct (has_analysis x s).
  - destruct (IH s) as (u & s' & ->). by eexists _, _.
  - destruct (analyze_conversations_returns (messages_all x s)) as (r & -> & _).
    cbv beta iota delta [ok].
    destruct (IH (add_analysis (conv_id x) r s)) as (u & s' & ->). by eexists _, _.
Qed.

Lemma daily_analyse_run (s : Store) :
  daily_analyse s =
  match mapM analyse_if_new (conversations s) s with
  | (inr _, s') => (ok "Daily analysis completed", s')
  | (inl e, s') => (inl e, s')
  end.
Proof. reflexivity. Qed.

Lemma AnalyseConversationView_post_run (conversation_id : Z) (s : Store) :
  AnalyseConversationView_post conversation_id s =
  match Conversation_get conversation_id s with
  | None => (ok {| data := ErrorMessage "Conversation not found"; status := 404 |}, s)
  | Some c =>
      if has_analysis c s
      then (ok {| data := PlainMessage "Already analysed"; status := 400 |}, s)
      else match analyze_conversations (messages_all c s) with
           | inr r => (ok {| data := AnalysisData (analysis_row (conv_id c) r s);
                             status := 201 |}, add_analysis (conv_id c) r s)
           | inl e => (raise e, s)
           end
  end.
Proof.
  unfold AnalyseConversationView_post. rewrite get_store_run.
  destruct (Conversation_get conversation_id s) as [c|]; [|done].
  destruct (has_analysis c s) eqn:E; [done|]. rewrite bindM_run. unfold lift.
  destruct (analyze_conversations (messages_all c s)) as [e|r]; [done|].
  by rewrite bindM_run, ConversationAnalysis_create_run.
Qed.

End analysing.

(** ** Uploading *)

Section uploading.
Context `{C : Clock}.
Implicit Types (c : Conversation) (ps : list (string * string)).

Lemma upload_message_run c (msg : Json) (p : string * string) (s : Store) :
  well_formed msg p →
  upload_message c msg s = (ok (message_row (conv_id c) p s), add_message (conv_id c) s p).
Proof. intros [H1 H2]. unfold upload_message. rewrite H1, H2. by destruct p. Qed.

Lemma upload_message_null c (f : gmap string string) (s : Store) :
  f !! "sender" = None ∨ f !! "message" = None →
  upload_message c (JObject f) s = (raise IntegrityError, s).
Proof.
  intros H. unfold upload_message. cbn [json_get].
  change (Message_create c (f !! "sender") (f !! "message") s = (raise IntegrityError, s)).
  by apply Message_create_null.
Qed.

Lemma upload_message_other c (s : Store) :
  upload_message c JOther s = (raise AttributeError, s).
Proof. reflexivity. Qed.

(** The loop of the upload stores the messages that come before the first
    one it cannot store, and stops there. *)
Lemma upload_loop_ok c (msgs : list Json) ps (s : Store) :
  Forall2 well_formed msgs ps →
  ∃ rows, mapM (upload_message c) msgs s =
          (ok rows, fold_left (add_message (conv_id c)) ps s).
Proof.
  intros H. revert s. induction H as [|msg p msgs ps Hp _ IH]; intros s; [by eexists|].
  rewrite mapM_cons_run, (upload_message_run _ _ p) by done.
  cbv beta iota delta [ok]. destruct (IH (add_message (conv_id c) s p)) as (rows & ->).
  by eexists.
Qed.

Lemma upload_loop_stuck c (good rest : list Json) (bad : Json) ps (e : exn) (s : Store) :
  Forall2 well_formed good ps → (∀ s, upload_message c bad s = (raise e, s)) →
  mapM (upload_message c) (good ++ bad :: rest) s =
  (raise e, fold_left (add_message (conv_id c)) ps s).
Proof.
  intros H Hbad. revert s.
  induction H as [|msg p msgs ps Hp _ IH]; intros s; cbn [app].
  - by rewrite mapM_cons_run, Hbad.
  - rewrite mapM_cons_run, (upload_message_run _ _ p) by done.
    cbv beta iota delta [ok]. by rewrite IH.
Qed.

Lemma UploadConversationView_post_run (request_data : UploadData) (v : ValidatedData)
    (s : Store) :
  is_valid request_data = Some v →
  let c := conversation_row (upload_title v) s in
  UploadConversationView_post request_data s =
  match mapM (upload_message c) (v_messages v) (add_conversation (upload_title v) s) with
  | (inr _, s') => (ok {| data := Uploaded "Conversation uploaded" (conv_id c);
                          status := 201 |}, s')
  | (inl e, s') => (inl e, s')
  end.
Proof.
  intros H. unfold UploadConversationView_post. rewrite H.
  cbv zeta. rewrite bindM_run. unfold upload_create. cbv zeta.
  rewrite bindM_run, Conversation_create_run. cbv beta iota delta [ok].
  rewrite bindM_run. fold (upload_title v). fold (upload_message (conversation_row (upload_title v) s)).
  by destruct (mapM (M := M) _ (v_messages v) _) as [[e|rows] s'].
Qed.

Lemma is_valid_messages (request_data : UploadData) (v : ValidatedData) :
  is_valid request_data = Some v → up_messages request_data = Some (v_messages v).
Proof.
  unfold is_valid. destruct (up_title request_data) as [data|];
    [destruct (CharField_run_validation data)|];
    destruct (up_messages request_data); cbn; by intros [= <-].
Qed.

Lemma UploadConversationView_post_invalid (request_data : UploadData) (s : Store) :
  is_valid request_data = None →
  UploadConversationView_post request_data s = (ok {| data := Errors; status := 400 |}, s).
Proof. intros H. unfold UploadConversationView_post. by rewrite H. Qed.

(** What the stored messages are after the loop. *)
Lemma add_messages_frame (cid : Z) ps (s : Store) :
  conversations (fold_left (add_message cid) ps s) = conversations s ∧
  analyses (fold_left (add_message cid) ps s) = analyses s ∧
  length (messages (fold_left (add_message cid) ps s)) = (length (messages s) + length ps)%nat.
Proof.
  revert s. induction ps as [|p ps IH]; intros s; cbn [fold_left]; [by rewrite Nat.add_0_r|].
  destruct (IH (add_message cid s p)) as (-> & -> & ->). cbn.
  rewrite length_app. cbn. split_and!; [done..|lia].
Qed.

Lemma messages_all_add_messages c (cid : Z) ps (s : Store) :
  messages_all c (fold_left (add_message cid) ps s) =
  messages_all c s ++ (if decide (cid = conv_id c) then stamp ps (now s) else []).
Proof.
  revert s. induction ps as [|p ps IH]; intros s; cbn [fold_left stamp].
  - by case_decide; rewrite app_nil_r.
  - rewrite IH. unfold messages_all at 1. cbn. rewrite filter_app, fmap_app.
    rewrite <- app_assoc. f_equal. rewrite filter_cons, filter_nil. cbn.
    by repeat case_decide.
Qed.

Lemma stamp_sorted {CS : ClockStrict C} ps (t : Z) :
  StronglySorted ts_le (stamp ps t) ∧ Forall (λ m, t ≤ timestamp m)%Z (stamp ps t).
Proof.
  revert t. induction ps as [|p ps IH]; intros t; cbn [stamp]; [by split; constructor|].
  destruct (IH (tick t)) as [Hs Hf]. pose proof (tick_lt t) as Ht.
  assert (Forall (λ m, t ≤ timestamp m)%Z (stamp ps (tick t))) as Hf'
    by (eapply Forall_impl; [exact Hf|]; cbn; intros; lia).
  split; by constructor.
Qed.

End uploading.

(** A conversation that is about to be created has no message yet, and is
    found by its key afterwards. *)
Lemma messages_all_fresh (s : Store) (title : option string) :
  store_wf s → messages_all (conversation_row title s) s = [].
Proof.
  intros Hs. unfold messages_all. rewrite (proj2 (filter_nil_not_exists _ _)); [done|].
  apply Forall_Exists_neg. eapply Forall_impl; [apply (wf_message_fk s Hs)|].
  cbn. lia.
Qed.

Lemma Conversation_get_fresh `{C : Clock} (s s' : Store) (title : option string) :
  store_wf s → conversations s' = conversations (add_conversation title s) →
  Conversation_get (len (conversations s) + 1) s' = Some (conversation_row title s).
Proof.
  intros Hs E. unfold Conversation_get. rewrite E. cbn. rewrite filter_app.
  rewrite (proj2 (filter_nil_not_exists _ _)).
  - by rewrite filter_cons, decide_True.
  - apply Forall_Exists_neg, Forall_forall. intros x Hx.
    pose proof (keyed_bounds conv_id _ x (wf_conversations s Hs) Hx). lia.
Qed.

(** A key in the range of the table is the key of a conversation. *)
Lemma Conversation_get_range (k : Z) (s : Store) :
  store_wf s → (1 ≤ k ≤ len (conversations s))%Z →
  ∃ c, Conversation_get k s = Some c ∧ conv_id c = k.
Proof.
  intros Hs Hk. unfold len in Hk.
  destruct (lookup_lt_is_Some_2 (conversations s) (Z.to_nat (k - 1))) as [c Hc]; [lia|].
  pose proof (wf_conversations s Hs _ _ Hc) as E.
  assert (conv_id c = k) as <- by lia. exists c. split; [|done].
  unfold Conversation_get. apply list_elem_of_lookup_2 in Hc.
  destruct (filter _ (conversations s)) as [|x l] eqn:Ef.
  - assert (c ∈ filter (λ x, conv_id x = conv_id c) (conversations s)) as H
      by by apply list_elem_of_filter.
    rewrite Ef in H. by apply elem_of_nil in H.
  - assert (x ∈ filter (λ x, conv_id x = conv_id c) (conversations s)) as
      [Hx1 Hx2]%list_elem_of_filter by (rewrite Ef; left).
    cbn. f_equal. by eapply keyed_inj; [apply (wf_conversations s Hs)|..].
Qed.

(** Analysing keeps the reports faithful. *)
Lemma grows_faithful `{W : WordNet} `{T : TextBlob} (s s' : Store) :
  store_wf s' → grows s s' → faithful s → faithful s'.
Proof.
  intros Hs' (Hc & Hm & _ & Hnew) Hf. apply Forall_forall. intros a Ha.
  assert (∀ c, messages_all c s' = messages_all c s) as Hall
    by (intros c; unfold messages_all; by rewrite Hm).
  assert (∀ k, Conversation_get k s' = Conversation_get k s) as Hget
    by (intros k; unfold Conversation_get; by rewrite Hc).
  destruct (Hnew a Ha) as [Hold | Hrep].
  - destruct (proj1 (Forall_forall _ _) Hf a Hold) as (c & Hk & Hr).
    exists c. by rewrite Hget, Hall.
  - pose proof (proj1 (Forall_forall _ _) (wf_analysis_fk s' Hs') a Ha) as Hfk.
    destruct (Conversation_get_range _ s' Hs' Hfk) as (c & Hk & E).
    exists c. split; [done|]. rewrite Hall. unfold messages_all. by rewrite E.
Qed.

(** The invariant is decidable: on a given store it is checked by
    evaluation. *)
Example store_resolved_wf : store_wf store_resolved.
Proof. apply (bool_decide_unpack _). by vm_compute. Qed.

(** ** Every call *)

Section calls.
Context `{W : WordNet} `{T : TextBlob} `{C : Clock}.

Lemma upload_message_cases (c : Conversation) (msg : Json) :
  (∃ p, well_formed msg p) ∨ (∃ e, ∀ s, upload_message c msg s = (raise e, s)).
Proof.
  destruct msg as [f|]; [|right; by exists AttributeError].
  destruct (f !! "sender") as [sd|] eqn:E1; [|right; exists IntegrityError; intros s;
    apply upload_message_null; by left].
  destruct (f !! "message") as [tx|] eqn:E2; [|right; exists IntegrityError; intros s;
    apply upload_message_null; by right].
  left. exists (sd, tx). split; cbn; by f_equal.
Qed.

(** Whatever the request holds, the loop of the upload adds messages of
    the new conversation and nothing else. *)
Lemma upload_loop_state (c : Conversation) (msgs : list Json) (s : Store) :
  ∃ ps, (mapM (upload_message c) msgs s).2 = fold_left (add_message (conv_id c)) ps s.
Proof.
  revert s. induction msgs as [|msg msgs IH]; intros s; [by exists []|].
  rewrite mapM_cons_run. destruct (upload_message_cases c msg) as [[p Hp] | [e He]].
  - rewrite (upload_message_run _ _ p) by done. cbv beta iota delta [ok].
    destruct (IH (add_message (conv_id c) s p)) as (ps & Hps). exists (p :: ps).
    by destruct (mapM (M := M) _ msgs _) as [[e|rows] s'].
  - rewrite He. by exists [].
Qed.

(** The store an upload leaves, whatever the request holds and whether
    the view returns or raises. *)
Lemma upload_view_state (request_data : UploadData) (s : Store) :
  (UploadConversationView_post request_data s).2 = s ∨
  ∃ title ps, (UploadConversationView_post request_data s).2 =
    fold_left (add_message (len (conversations s) + 1)) ps (add_conversation title s).
Proof.
  destruct (is_valid request_data) as [v|] eqn:E;
    [|left; by rewrite UploadConversationView_post_invalid].
  right. rewrite (UploadConversationView_post_run _ v) by done. cbv zeta.
  destruct (upload_loop_state (conversation_row (upload_title v) s) (v_messages v)
    (add_conversation (upload_title v) s)) as (ps & Hps).
  exists (upload_title v), ps.
  by destruct (mapM (M := M) _ (v_messages v) _) as [[e|rows] s'].
Qed.

Lemma after_analyses_prefix (call : Call) (s : Store) :
  analyses s `prefix_of` analyses (after call s).
Proof.
  destruct call as [request_data|conversation_id| |]; cbn [after]; [| |done|].
  - destruct (upload_view_state request_data s) as [-> | (title & ps & ->)]; [done|].
    by rewrite (proj1 (proj2 (add_messages_frame _ ps _))).
  - rewrite AnalyseConversationView_post_run.
    destruct (Conversation_get conversation_id s) as [c|]; [|done].
    destruct (has_analysis c s); [done|].
    destruct (analyze_conversations (messages_all c s)); [done|]. by apply prefix_app_r.
  - rewrite daily_analyse_run.
    pose proof (daily_loop_grows (conversations s) s) as (_ & _ & H & _).
    by destruct (mapM (M := M) _ (conversations s) s) as [[e|u] s'].
Qed.

Lemma NoDup_fmap_filter {A : Type} (f : A → Z) (k : Z) (l : list A) :
  NoDup (f <$> l) → (length (filter (λ a, f a = k) l) ≤ 1)%nat.
Proof.
  induction l as [|x l IH]; [intros _; cbn; lia|].
  rewrite fmap_cons, NoDup_cons, filter_cons.
  intros [Hx Hl]. case_decide as E; [|by apply IH]. subst k.
  rewrite (proj2 (filter_nil_not_exists _ _)); [done|].
  intros (y & Hy & E)%Exists_exists. apply Hx, list_elem_of_fmap. by exists y.
Qed.

End calls.

(** ** Main results *)

(** C22: Every store that the calls can produce from the empty store,
    whether they return or raise, is well formed: keys are consecutive,
    every message and every report belongs to a stored conversation, and
    no conversation has two reports. *)
Theorem reachable_store_wf `{W : WordNet} `{T : TextBlob} `{C : Clock} (t0 : Z)
    (s : Store) :
  reachable t0 s →
  store_wf s ∧
  ∀ cid, (length (filter (λ a, an_conversation a = cid) (analyses s)) ≤ 1)%nat.
Proof.
  intros H. assert (store_wf s) as Hs
    by (induction H; [apply store_wf_empty | by apply after_wf]).
  split; [done|]. intros cid. apply NoDup_fmap_filter, (wf_one_to_one s Hs).
Qed.

Lemma reachable_store_wf_witness :
  store_wf
    (after (W := toy_wordnet) (T := toy_textblob) (C := unit_clock) RunDailyAnalyse
       (after (W := toy_wordnet) (T := toy_textblob) (C := unit_clock)
          (PostConversations upload_broken) store_resolved)) ∧
  ∀ cid,
    (length (filter (λ a, an_conversation a = cid)
       (analyses
          (after (W := toy_wordnet) (T := toy_textblob) (C := unit_clock) RunDailyAnalyse
             (after (W := toy_wordnet) (T := toy_textblob) (C := unit_clock)
                (PostConversations upload_broken) store_resolved)))) ≤ 1)%nat.
Proof.
  apply (reachable_store_wf (W := toy_wordnet) (T := toy_textblob) (C := unit_clock) 0).
  do 2 apply reachable_step.
  apply (reachable_step 0 (empty_store 0) (PostConversations upload_resolved)).
  apply reachable_init.
Defined.

(** The analysis view, on every branch, with capabilities that return:
    an unknown key is answered 404 and a conversation that has a report
    400, both without a change of the store; otherwise the answer is 201
    with the new row, whose report is the one [analyze_conversations]
    gives for the messages of the conversation, the row is appended to the
    table, and in the abstract view the report is inserted at the key of
    the conversation. *)
Lemma analyse_view_spec `{W : WordNet} `{T : TextBlob} `{C : Clock}
    {WT : WordNetTotal W} {TL : TextBlobLawful T} (conversation_id : Z) (s : Store) :
  match Conversation_get conversation_id s with
  | None =>
      AnalyseConversationView_post conversation_id s =
      (ok {| data := ErrorMessage "Conversation not found"; status := 404 |}, s)
  | Some c =>
      if has_analysis c s then
        AnalyseConversationView_post conversation_id s =
        (ok {| data := PlainMessage "Already analysed"; status := 400 |}, s)
      else
        ∃ r, analyze_conversations (messages_all c s) = ok r ∧
          AnalyseConversationView_post conversation_id s =
          (ok {| data := AnalysisData (analysis_row (conv_id c) r s); status := 201 |},
           add_analysis (conv_id c) r s) ∧
          reports (add_analysis (conv_id c) r s) = <[conv_id c := r]> (reports s)
  end.
Proof.
  rewrite AnalyseConversationView_post_run.
  destruct (Conversation_get conversation_id s) as [c|]; [|done].
  destruct (has_analysis c s) eqn:E; [done|].
  destruct (analyze_conversations_returns (messages_all c s)) as (r & Hr & _).
  exists r. rewrite Hr. split_and!; [done..|]. by apply reports_add_analysis.
Qed.

Lemma analyse_view_spec_witness :
  match Conversation_get 1 store_resolved with
  | None =>
      AnalyseConversationView_post (W := toy_wordnet) (T := toy_textblob)
        (C := unit_clock) 1 store_resolved =
      (ok {| data := ErrorMessage "Conversation not found"; status := 404 |},
       store_resolved)
  | Some c =>
      if has_analysis c store_resolved then
        AnalyseConversationView_post (W := toy_wordnet) (T := toy_textblob)
          (C := unit_clock) 1 store_resolved =
        (ok {| data := PlainMessage "Already analysed"; status := 400 |}, store_resolved)
      else
        ∃ r, analyze_conversations (W := toy_wordnet) (T := toy_textblob)
               (messages_all c store_resolved) = ok r ∧
          AnalyseConversationView_post (W := toy_wordnet) (T := toy_textblob)
            (C := unit_clock) 1 store_resolved =
          (ok {| data := AnalysisData (analysis_row (conv_id c) r store_resolved);
                 status := 201 |},
           add_analysis (C := unit_clock) (conv_id c) r store_resolved) ∧
          reports (add_analysis (C := unit_clock) (conv_id c) r store_resolved) =
          <[conv_id c := r]> (reports store_resolved)
  end.
Proof.
  exact (analyse_view_spec (W := toy_wordnet) (T := toy_textblob) (C := unit_clock)
    1 store_resolved).
Defined.

(** Analysing twice is analysing once: a second call of the analysis
    view with the same key leaves the store as the first call left it, and
    after an answer 201 the second answer is 400, already analysed. *)
Lemma analyse_view_idempotent `{W : WordNet} `{T : TextBlob} `{C : Clock}
    (conversation_id : Z) (s : Store) :
  let s1 := after (PostAnalyse conversation_id) s in
  after (PostAnalyse conversation_id) s1 = s1 ∧
  (∀ resp, (AnalyseConversationView_post conversation_id s).1 = ok resp →
     status resp = 201%Z →
     AnalyseConversationView_post conversation_id s1 =
     (ok {| data := PlainMessage "Already analysed"; status := 400 |}, s1)).
Proof.
  cbv zeta. cbn [after]. rewrite (AnalyseConversationView_post_run _ s).
  destruct (Conversation_get conversation_id s) as [c|] eqn:Hc; red_pair.
  2:{ rewrite AnalyseConversationView_post_run, Hc. split; [done|]. by intros resp [= <-]. }
  destruct (has_analysis c s) eqn:E; red_pair.
  { rewrite AnalyseConversationView_post_run, Hc, E. split; [done|]. by intros resp [= <-]. }
  destruct (analyze_conversations (messages_all c s)) as [e|r] eqn:Hr; red_pair.
  { rewrite AnalyseConversationView_post_run, Hc, E, Hr. split; [done|]. by intros resp. }
  rewrite AnalyseConversationView_post_run.
  change (Conversation_get conversation_id (add_analysis (conv_id c) r s))
    with (Conversation_get conversation_id s).
  rewrite Hc, has_analysis_add, bool_decide_true, orb_true_r by done.
  by split.
Qed.

(** The task has no handler either: it stops at the first conversation
    without a report whose analysis raises, with that exception, and the
    conversations after it are not analysed. *)
Lemma daily_analyse_aborts `{W : WordNet} `{T : TextBlob} `{C : Clock}
    (s : Store) (l1 l2 : list Conversation) (c : Conversation) (e : exn) :
  conversations s = l1 ++ c :: l2 →
  (∀ x, x ∈ l1 → has_analysis x s = true) → has_analysis c s = false →
  analyze_conversations (messages_all c s) = raise e →
  daily_analyse s = (raise e, s).
Proof.
  intros Hs H1 Hc He. rewrite daily_analyse_run, Hs. clear Hs.
  induction l1 as [|x l1 IH]; cbn [app]; rewrite mapM_cons_run, analyse_if_new_run.
  - by rewrite Hc, He.
  - rewrite H1 by left. cbv beta iota delta [ok].
    assert (∀ y, y ∈ l1 → has_analysis y s = true) as H1'
      by (intros y Hy; apply H1; by right).
    specialize (IH H1'). by destruct (mapM (M := M) _ (l1 ++ c :: l2) s) as [[e'|u] s'];
      simplify_eq.
Qed.

Lemma daily_analyse_aborts_witness :
  daily_analyse (W := toy_wordnet) (T := missing_textblob) (C := unit_clock)
    store_resolved = (raise LookupError, store_resolved).
Proof.
  apply (daily_analyse_aborts (W := toy_wordnet) (T := missing_textblob)
    (C := unit_clock) store_resolved [] []
    {| conv_id := 1; title := Some "Untitled Conversation"; created_at := 0 |}).
  - reflexivity.
  - by intros x Hx%elem_of_nil.
  - reflexivity.
  - by vm_compute.
Defined.

(** C23: The daily task, on both of its ways out.  With capabilities
    that return it returns; it leaves conversations, messages and the
    reports that exist as they are, gives every conversation a report,
    each new one the report of [analyze_conversations] for its
    conversation, and a second run changes nothing.  Without them it has
    no handler: it stops at the first conversation without a report whose
    analysis raises, with that exception, and the conversations after it
    are not analysed. *)
Theorem daily_analyse_spec `{W : WordNet} `{T : TextBlob} `{C : Clock} (s : Store) :
  (WordNetTotal W → TextBlobLawful T →
   ∃ s', daily_analyse s = (ok "Daily analysis completed", s') ∧
     grows s s' ∧
     (∀ c, c ∈ conversations s → has_analysis c s' = true) ∧
     daily_analyse s' = (ok "Daily analysis completed", s')) ∧
  (∀ l1 l2 c e,
     conversations s = l1 ++ c :: l2 →
     (∀ x, x ∈ l1 → has_analysis x s = true) → has_analysis c s = false →
     analyze_conversations (messages_all c s) = raise e →
     daily_analyse s = (raise e, s)).
Proof.
  split; [intros WT TL | intros l1 l2 c e; apply daily_analyse_aborts].
  destruct (daily_loop_returns (conversations s) s) as (u & s' & Hu).
  pose proof (daily_loop_grows (conversations s) s) as Hg. rewrite Hu in Hg.
  change ((ok u, s').2) with s' in Hg.
  pose proof (daily_loop_ok _ _ _ _ Hu) as Hall.
  exists s'. rewrite !daily_analyse_run, Hu. split_and!; [done..|].
  destruct Hg as (Hc & _). rewrite Hc, daily_loop_noop; done.
Qed.

Lemma daily_analyse_spec_witness :
  ∃ s', daily_analyse (W := toy_wordnet) (T := toy_textblob) (C := unit_clock)
          store_resolved = (ok "Daily analysis completed", s') ∧
    grows (W := toy_wordnet) (T := toy_textblob) store_resolved s' ∧
    (∀ c, c ∈ conversations store_resolved → has_analysis c s' = true) ∧
    daily_analyse (W := toy_wordnet) (T := toy_textblob) (C := unit_clock) s' =
    (ok "Daily analysis completed", s').
Proof.
  exact (proj1 (daily_analyse_spec (W := toy_wordnet) (T := toy_textblob)
    (C := unit_clock) store_resolved) _ _).
Defined.

(** C24: An upload whose messages are objects with a sender and a text is
    answered 201 with a new key.  The conversation is found under that
    key; its messages are the uploaded ones in order, each stamped with
    its own reading of the clock, so they are in ascending timestamp order
    and the analyzer sees them in the order of the upload.  The messages
    of the other conversations and the reports stay as they are. *)
Theorem upload_view_spec `{C : Clock} {CS : ClockStrict C} (request_data : UploadData)
    (v : ValidatedData) (ps : list (string * string)) (s : Store) :
  store_wf s → is_valid request_data = Some v → Forall2 well_formed (v_messages v) ps →
  let c := conversation_row (upload_title v) s in
  ∃ s', UploadConversationView_post request_data s =
        (ok {| data := Uploaded "Conversation uploaded" (len (conversations s) + 1);
               status := 201 |}, s') ∧
    Conversation_get (len (conversations s) + 1) s' = Some c ∧
    messages_all c s' = stamp ps (tick (now s)) ∧
    order_by_timestamp (messages_all c s') = messages_all c s' ∧
    (∀ c', c' ∈ conversations s → messages_all c' s' = messages_all c' s) ∧
    analyses s' = analyses s.
Proof.
  intros Hs Hm Hps c. rewrite (UploadConversationView_post_run _ v) by done.
  cbv zeta. fold c. set (title := upload_title v) in *.
  destruct (upload_loop_ok c _ ps (add_conversation title s) Hps) as (rows & ->).
  destruct (add_messages_frame (conv_id c) ps (add_conversation title s))
    as (Hc & Ha & _).
  assert (messages_all c (fold_left (add_message (conv_id c)) ps
            (add_conversation title s)) = stamp ps (tick (now s))) as Hall.
  { rewrite messages_all_add_messages, decide_True by done.
    change (messages_all c (add_conversation title s)) with (messages_all c s).
    unfold c. by rewrite messages_all_fresh. }
  eexists. split; [reflexivity|]. split_and!; [| done | | | done].
  - by apply Conversation_get_fresh.
  - rewrite Hall. apply order_by_timestamp_id, stamp_sorted.
  - intros c' Hc'. rewrite messages_all_add_messages, decide_False, app_nil_r; [done|].
    pose proof (keyed_bounds conv_id _ c' (wf_conversations s Hs) Hc'). cbn. lia.
Qed.

Lemma upload_view_spec_witness :
  ∃ s', UploadConversationView_post (C := unit_clock) upload_resolved (empty_store 0) =
        (ok {| data := Uploaded "Conversation uploaded" (len (@nil Conversation) + 1);
               status := 201 |}, s') ∧
    Conversation_get (len (@nil Conversation) + 1) s' =
      Some (conversation_row (Some "Untitled Conversation") (empty_store 0)) ∧
    messages_all (conversation_row (Some "Untitled Conversation") (empty_store 0)) s' =
      stamp (C := unit_clock)
        [("user", "my app crashed");
         ("ai", "I'm sorry to hear that, let's see what's wrong");
         ("user", "thanks that fixed it")] 1 ∧
    order_by_timestamp
      (messages_all (conversation_row (Some "Untitled Conversation") (empty_store 0)) s') =
      messages_all (conversation_row (Some "Untitled Conversation") (empty_store 0)) s' ∧
    (∀ c', c' ∈ @nil Conversation → messages_all c' s' = messages_all c' (empty_store 0)) ∧
    analyses s' = [].
Proof.
  apply (upload_view_spec (C := unit_clock) (CS := unit_clock_strict) upload_resolved
    {| v_title := None; v_messages := default [] (up_messages upload_resolved) |}
    [("user", "my app crashed");
     ("ai", "I'm sorry to hear that, let's see what's wrong");
     ("user", "thanks that fixed it")] (empty_store 0)).
  - apply store_wf_empty.
  - reflexivity.
  - repeat constructor.
Defined.

(** C25: The title of an upload.  Without [messages] the answer is 400
    and nothing is stored.  With them, a body without title is valid (the
    conversation is then titled ["Untitled Conversation"]); a title that
    is [null], a boolean, a list or an object, or a string that is blank
    once trimmed or holds NUL, is refused with 400 and nothing is stored;
    any other title is valid, and what is stored is the title without the
    white space around it (the decimal text for a number), which is not
    blank. *)
Theorem upload_title_spec `{C : Clock} (request_data : UploadData) (s : Store) :
  match up_title request_data, up_messages request_data with
  | _, None =>
      UploadConversationView_post request_data s =
      (ok {| data := Errors; status := 400 |}, s)
  | None, Some msgs =>
      is_valid request_data = Some {| v_title := None; v_messages := msgs |}
  | Some title, Some msgs =>
      match CharField_run_validation title with
      | None =>
          UploadConversationView_post request_data s =
          (ok {| data := Errors; status := 400 |}, s)
      | Some t =>
          is_valid request_data = Some {| v_title := Some t; v_messages := msgs |} ∧
          t ≠ "" ∧ trimmed t ∧
          ∀ str, title = JString str →
            t = strip str ∧ ∃ a b, blank a ∧ blank b ∧ str = a +:+ t +:+ b
      end
  end.
Proof.
  unfold UploadConversationView_post, is_valid.
  destruct (up_title request_data) as [title|], (up_messages request_data) as [msgs|];
    try done; [|by destruct (CharField_run_validation title)].
  destruct (CharField_run_validation title) as [t|] eqn:E; [|done].
  destruct (CharField_valid _ _ E) as (Hne & Ht & _). split_and!; [done..|].
  intros str ->. apply CharField_string in E as [-> _]. split; [done|].
  by apply (proj1 (strip_spec str (strip str))).
Qed.

(** C39: An upload is not atomic: when a message of the request has no
    sender or no text, the view raises [IntegrityError], and the new
    conversation and the messages that came before stay in the store. *)
Theorem upload_view_partial `{C : Clock} (request_data : UploadData)
    (good rest : list Json) (f : gmap string string) (ps : list (string * string))
    (s : Store) :
  v_messages <$> is_valid request_data = Some (good ++ JObject f :: rest) →
  Forall2 well_formed good ps →
  f !! "sender" = None ∨ f !! "message" = None →
  ∃ s', UploadConversationView_post request_data s = (raise IntegrityError, s') ∧
    length (conversations s') = S (length (conversations s)) ∧
    length (messages s') = (length (messages s) + length ps)%nat.
Proof.
  intros (v & Hv & Hm)%fmap_Some Hps Hf.
  rewrite (UploadConversationView_post_run _ _ _ Hv), <- Hm. cbv zeta.
  rewrite (upload_loop_stuck _ good rest (JObject f) ps IntegrityError) by
    (done || intros; by apply upload_message_null).
  eexists. split; [reflexivity|].
  destruct (add_messages_frame (conv_id (conversation_row (upload_title v) s)) ps
    (add_conversation (upload_title v) s)) as (-> & _ & ->).
  cbn. rewrite length_app. cbn. lia.
Qed.

Lemma upload_view_partial_witness :
  ∃ s', UploadConversationView_post (C := unit_clock) upload_broken store_resolved =
        (raise IntegrityError, s') ∧
    length (conversations s') = S (length (conversations store_resolved)) ∧
    length (messages s') =
      (length (messages store_resolved) + length [("user", "my app crashed")])%nat.
Proof.
  apply (upload_view_partial (C := unit_clock) upload_broken
    [JObject {[ "sender" := "user"; "message" := "my app crashed" ]}]
    [JObject {[ "sender" := "user"; "message" := "hello?" ]}]
    {[ "sender" := "ai" ]} [("user", "my app crashed")] store_resolved).
  - reflexivity.
  - repeat constructor.
  - by right.
Defined.

(** Reports are written once: whatever is called, and whether it
    returns or raises, every conversation that had a report keeps that
    report. *)
Lemma reports_write_once `{W : WordNet} `{T : TextBlob} `{C : Clock} (call : Call)
    (s : Store) :
  reports s ⊆ reports (after call s).
Proof. apply reports_prefix, after_analyses_prefix. Qed.
