(* ===== verification/Abstract.v ===== *)
(** * Abstract: what the service promises, and that the handlers keep it

    The specification of the service over finite maps.  A state of
    [spec] holds the transcript of every conversation and the report of
    every analysed one, each under the key of the conversation, and the
    reading of the clock; [spec.upload], [spec.analyse],
    [spec.list_reports] and [spec.daily] say what each route of
    [src/conversations/urls.py] and the task of
    [src/conversations/tasks.py] answer and how they change that state.

    [absr] reads a store of tables as such a state and [answer] a response
    as what a client observes of it ([handle] is the handler of a call with
    its answer read that way).  [Implements] is the interface between a
    layer and its description: [step_refines] is the commuting square of
    one call, which makes the handlers an instance, and [trace_refines],
    proved of every instance, extends a square to sequences of calls.
    The main results apply it to the handlers of [Handlers.v]: from the
    empty store, every sequence of calls gives the answers and the state
    of the specification, and so every report that is stored is the report
    of the transcript stored under its key. *)

From stdpp Require Import gmap sorting.
From S2P Require Import Prelude PyStr Transcript Capabilities Lexical Pairs Sentiment Analyzer.
From S2P Require Import Validation Store Handlers.

(** ** What a client observes *)

Inductive Answer : Type :=
  | Created (key : Z)
  | Analysed (report : AnalysisReport)
  | Refused (status : Z)
  | Listing (found : gmap Z AnalysisReport)
  | TaskCompleted.

(** The answers and the last state of a sequence of calls. *)
Fixpoint trace {Label Out St : Type} (step : Label → St → Out * St) (calls : list Label)
    (st : St) : list Out * St :=
  match calls with
  | [] => ([], st)
  | call :: calls =>
      let (out, st1) := step call st in
      let (outs, st2) := trace step calls st1 in
      (out :: outs, st2)
  end.

(** What one layer promises the next.  [Invariant step inv]: every
    step keeps [inv].  [Implements cstep astep R inv]: on the states that
    satisfy [inv], a step of the implementation is a step of the
    description, seen through [R], with the same answer. *)
Class Invariant {Label Out St : Type} (step : Label → St → Out * St) (inv : St → Prop) :
    Prop :=
  invariant_step : ∀ call st, inv st → inv (step call st).2.

Class Implements {Label Out Conc Abs : Type} (cstep : Label → Conc → Out * Conc)
    (astep : Label → Abs → Out * Abs) (R : Conc → Abs) (inv : Conc → Prop) : Prop := {
  implements_invariant :: Invariant cstep inv;
  implements_square : ∀ call c,
    inv c → astep call (R c) = ((cstep call c).1, R (cstep call c).2);
}.

(** ** The specification *)

Module spec.

Record State : Type := {
  transcripts : gmap Z (list Message);
  results : gmap Z AnalysisReport;
  clock : Z;
}.

Definition init (t0 : Z) : State :=
  {| transcripts := ∅; results := ∅; clock := t0 |}.

(** The messages of a request that can be stored, which are the ones
    before the first element that is not an object with a sender and a
    text, and the exception that element raises. *)
Fixpoint readable (msgs : list Json) : list (string * string) * option exn :=
  match msgs with
  | [] => ([], None)
  | JOther :: _ => ([], Some AttributeError)
  | JObject f :: rest =>
      match f !! "sender", f !! "message" with
      | Some sender, Some text =>
          let (ps, e) := readable rest in ((sender, text) :: ps, e)
      | _, _ => ([], Some IntegrityError)
      end
  end.

(** A valid upload takes the next key; the transcript under it holds the
    readable messages, each with its own reading of the clock. *)
Definition upload `{C : Clock} (request_data : UploadData) (st : State) :
    result Answer * State :=
  match is_valid request_data with
  | None => (ok (Refused 400), st)
  | Some v =>
      let key := (Z.of_nat (size (transcripts st)) + 1)%Z in
      let (ps, e) := readable (v_messages v) in
      (match e with None => ok (Created key) | Some e => raise e end,
       {| transcripts := <[key := stamp ps (tick (clock st))]> (transcripts st);
          results := results st;
          clock := Nat.iter (S (length ps)) tick (clock st) |})
  end.

(** A conversation is analysed once; its report is the one of its
    transcript. *)
Definition analyse `{W : WordNet} `{T : TextBlob} `{C : Clock} (key : Z) (st : State) :
    result Answer * State :=
  match transcripts st !! key with
  | None => (ok (Refused 404), st)
  | Some transcript =>
      match results st !! key with
      | Some _ => (ok (Refused 400), st)
      | None =>
          match analyze_conversations transcript with
          | inr report =>
              (ok (Analysed report),
               {| transcripts := transcripts st;
                  results := <[key := report]> (results st);
                  clock := tick (clock st) |})
          | inl e => (raise e, st)
          end
      end
  end.

Definition list_reports (st : State) : result Answer * State :=
  (ok (Listing (results st)), st).

(** The task analyses the keys in ascending order and stops at the first
    exception. *)
Fixpoint daily_from `{W : WordNet} `{T : TextBlob} `{C : Clock} (keys : list Z)
    (st : State) : result Answer * State :=
  match keys with
  | [] => (ok TaskCompleted, st)
  | key :: keys =>
      match analyse key st with
      | (inr _, st1) => daily_from keys st1
      | (inl e, st1) => (inl e, st1)
      end
  end.

Definition daily `{W : WordNet} `{T : TextBlob} `{C : Clock} (st : State) :
    result Answer * State :=
  daily_from (Z.of_nat <$> seq 1 (size (transcripts st))) st.

Definition step `{W : WordNet} `{T : TextBlob} `{C : Clock} (call : Call) :
    State → result Answer * State :=
  match call with
  | PostConversations request_data => upload request_data
  | PostAnalyse conversation_id => analyse conversation_id
  | GetReports => list_reports
  | RunDailyAnalyse => daily
  end.

(** The keys are 1, 2, ... and every report is the report of the
    transcript under its key. *)
Record sound `{W : WordNet} `{T : TextBlob} (st : State) : Prop := {
  sound_keys : ∀ key, is_Some (transcripts st !! key) ↔
                 (1 ≤ key ≤ Z.of_nat (size (transcripts st)))%Z;
  sound_results : ∀ key report, results st !! key = Some report →
                    ∃ transcript, transcripts st !! key = Some transcript ∧
                      analyze_conversations transcript = ok report;
}.

End spec.

(** ** From the handlers to the specification *)

(** A response as the client of the specification observes it: a key
    with the status 201, a report with the status 201, the reports with
    the status 200, and a refusal with its status otherwise. *)
Definition answer (r : Response) : Answer :=
  match data r, status r with
  | Uploaded _ key, 201%Z => Created key
  | AnalysisData a, 201%Z => Analysed (an_report a)
  | AnalysisList l, 200%Z =>
      Listing (list_to_map ((λ a, (an_conversation a, an_report a)) <$> l))
  | _, status => Refused status
  end.

(** The handler of a call. *)
Definition handle `{W : WordNet} `{T : TextBlob} `{C : Clock} (call : Call) : M Answer :=
  match call with
  | PostConversations request_data =>
      r ← UploadConversationView_post request_data; mret (answer r)
  | PostAnalyse conversation_id =>
      r ← AnalyseConversationView_post conversation_id; mret (answer r)
  | GetReports => r ← ConversationAnalysisListView_get; mret (answer r)
  | RunDailyAnalyse => _ ← daily_analyse; mret TaskCompleted
  end.

(** The abstraction function. *)
Definition absr (s : Store) : spec.State :=
  {| spec.transcripts :=
       list_to_map ((λ c, (conv_id c, messages_all c s)) <$> conversations s);
     spec.results := reports s;
     spec.clock := now s |}.

(** ** Sequences of calls *)

Lemma trace_inv {Label Out St : Type} (step : Label → St → Out * St) (inv : St → Prop)
    `{!Invariant step inv} (calls : list Label) (st : St) :
  inv st → inv (trace step calls st).2.
Proof.
  revert st. induction calls as [|call calls IH]; intros st Hst; [done|]. cbn [trace].
  pose proof (invariant_step call st Hst) as H1. destruct (step call st) as [out st1].
  specialize (IH st1 H1). by destruct (trace step calls st1).
Qed.

Lemma trace_refines {Label Out Conc Abs : Type} (cstep : Label → Conc → Out * Conc)
    (astep : Label → Abs → Out * Abs) (R : Conc → Abs) (inv : Conc → Prop)
    `{!Implements cstep astep R inv} (calls : list Label) (c : Conc) :
  inv c → trace astep calls (R c) = ((trace cstep calls c).1, R (trace cstep calls c).2).
Proof.
  revert c. induction calls as [|call calls IH]; intros c Hc; [done|]. cbn [trace].
  rewrite implements_square by done. pose proof (invariant_step call c Hc) as H1.
  destruct (cstep call c) as [out c1]. cbn [fst snd] in *.
  rewrite IH by done. by destruct (trace cstep calls c1).
Qed.

(** ** The abstraction of a store *)

Lemma list_to_map_lookup_head {A B : Type} (key : A → Z) (f : A → B) (l : list A) (k : Z) :
  (list_to_map ((λ x, (key x, f x)) <$> l) : gmap Z B) !! k =
  f <$> head (filter (λ x, key x = k) l).
Proof.
  induction l as [|x l IH]; [done|]. rewrite fmap_cons, list_to_map_cons, filter_cons.
  case_decide as E; cbn [fst snd].
  - by rewrite E, lookup_insert_eq.
  - by rewrite lookup_insert_ne.
Qed.

Lemma transcripts_lookup (s : Store) (k : Z) :
  spec.transcripts (absr s) !! k = (λ c, messages_all c s) <$> Conversation_get k s.
Proof. apply list_to_map_lookup_head. Qed.

Lemma size_transcripts (s : Store) :
  store_wf s → Z.of_nat (size (spec.transcripts (absr s))) = len (conversations s).
Proof.
  intros Hs. unfold absr, len. cbn. rewrite map_size_list_to_map, length_fmap; [done|].
  rewrite <- list_fmap_compose.
  change (NoDup (conv_id <$> conversations s)).
  rewrite (proj1 (keyed_keys _ _) (wf_conversations s Hs)).
  apply (NoDup_fmap_2 _), NoDup_seq.
Qed.

Lemma Conversation_get_elem (c : Conversation) (s : Store) :
  store_wf s → c ∈ conversations s → Conversation_get (conv_id c) s = Some c.
Proof.
  intros Hs Hc.
  destruct (Conversation_get_range (conv_id c) s Hs) as (x & Hx & E);
    [by apply (keyed_bounds conv_id _ c (wf_conversations s Hs))|].
  rewrite Hx. f_equal. apply Conversation_get_Some in Hx as [Hx _].
  by eapply keyed_inj; [apply (wf_conversations s Hs)|..].
Qed.

Lemma now_add_messages `{C : Clock} (cid : Z) (ps : list (string * string)) (s : Store) :
  now (fold_left (add_message cid) ps s) = Nat.iter (length ps) tick (now s).
Proof.
  revert s. induction ps as [|p ps IH]; intros s; [done|].
  cbn [fold_left length]. by rewrite IH, Nat.iter_succ_r.
Qed.

(** ** Uploading *)

Section upload.
Context `{C : Clock}.

(** The loop of the upload stores the readable messages and raises what
    the first unreadable one raises. *)
Lemma upload_loop_readable (c : Conversation) (msgs : list Json) (s : Store) :
  match mapM (upload_message c) msgs s with
  | (inr _, s') => (spec.readable msgs).2 = None
  | (inl e, s') => (spec.readable msgs).2 = Some e
  end ∧
  (mapM (upload_message c) msgs s).2 =
    fold_left (add_message (conv_id c)) (spec.readable msgs).1 s.
Proof.
  revert s. induction msgs as [|[f|] msgs IH]; intros s; [done| |done].
  rewrite mapM_cons_run. cbn [spec.readable].
  destruct (f !! "sender") as [sender|] eqn:E1;
    [|by rewrite upload_message_null by by left].
  destruct (f !! "message") as [text|] eqn:E2;
    [|by rewrite upload_message_null by by right].
  rewrite (upload_message_run _ _ (sender, text)) by (split; cbn; by f_equal).
  cbv beta iota delta [ok]. specialize (IH (add_message (conv_id c) s (sender, text))).
  destruct (spec.readable msgs) as [ps e].
  by destruct (mapM (M := M) _ msgs _) as [[e'|rows] s'].
Qed.

(** The state after an upload of the messages [ps]. *)
Lemma transcripts_upload (title : option string) (ps : list (string * string))
    (s : Store) (k : Z) :
  store_wf s →
  spec.transcripts (absr (fold_left (add_message (len (conversations s) + 1)) ps
                            (add_conversation title s))) !! k =
  if decide (k = len (conversations s) + 1)%Z then Some (stamp ps (tick (now s)))
  else spec.transcripts (absr s) !! k.
Proof.
  intros Hs. set (s' := fold_left _ ps _).
  destruct (add_messages_frame (len (conversations s) + 1) ps (add_conversation title s))
    as (Hc & _). fold s' in Hc. rewrite !transcripts_lookup. case_decide as E.
  - subst k. rewrite (Conversation_get_fresh s s' title Hs Hc). cbn. f_equal.
    unfold s'. rewrite messages_all_add_messages, decide_True by done.
    change (messages_all ?c (add_conversation title s)) with (messages_all c s).
    by rewrite messages_all_fresh.
  - assert (Conversation_get k s' = Conversation_get k s) as ->.
    { unfold Conversation_get. rewrite Hc. cbn.
      by rewrite filter_app, filter_cons, decide_False, filter_nil, app_nil_r. }
    destruct (Conversation_get k s) as [c|] eqn:Hk; [|done].
    apply Conversation_get_Some in Hk as [_ <-]. cbn. f_equal. unfold s'.
    by rewrite messages_all_add_messages, decide_False, app_nil_r.
Qed.

Lemma absr_upload (title : option string) (ps : list (string * string)) (s : Store) :
  store_wf s →
  absr (fold_left (add_message (len (conversations s) + 1)) ps (add_conversation title s))
  = {| spec.transcripts :=
         <[(Z.of_nat (size (spec.transcripts (absr s))) + 1)%Z :=
             stamp ps (tick (now s))]> (spec.transcripts (absr s));
       spec.results := reports s;
       spec.clock := Nat.iter (S (length ps)) tick (now s) |}.
Proof.
  intros Hs. rewrite size_transcripts by done. set (s' := fold_left _ ps _).
  assert (spec.transcripts (absr s') =
    <[(len (conversations s) + 1)%Z := stamp ps (tick (now s))]>
      (spec.transcripts (absr s))) as Ht.
  { apply map_eq. intros k. unfold s'. rewrite transcripts_upload by done.
    case_decide as E; [subst k; by rewrite lookup_insert_eq | by rewrite lookup_insert_ne]. }
  rewrite <- Ht. unfold absr at 1. f_equal.
  - unfold reports, s'. by rewrite (proj1 (proj2 (add_messages_frame _ _ _))).
  - unfold s'. by rewrite now_add_messages, Nat.iter_succ_r.
Qed.

(** The upload view implements [spec.upload]. *)
Lemma upload_refines `{W : WordNet} `{T : TextBlob} (request_data : UploadData)
    (s : Store) :
  store_wf s →
  spec.upload request_data (absr s) =
  ((handle (PostConversations request_data) s).1,
   absr (handle (PostConversations request_data) s).2).
Proof.
  intros Hs. unfold spec.upload, handle. rewrite bindM_run.
  destruct (is_valid request_data) as [v|] eqn:E;
    [|by rewrite UploadConversationView_post_invalid].
  rewrite (UploadConversationView_post_run _ v) by done. cbv zeta.
  destruct (upload_loop_readable (conversation_row (upload_title v) s) (v_messages v)
    (add_conversation (upload_title v) s)) as [He Hst].
  destruct (spec.readable (v_messages v)) as [ps e]. cbn [fst snd] in *.
  pose proof (absr_upload (upload_title v) ps s Hs) as Ha.
  rewrite size_transcripts in * by done.
  change (conv_id (conversation_row _ s)) with (len (conversations s) + 1)%Z in *.
  destruct (mapM (M := M) _ (v_messages v) _) as [[e'|rows] s']; cbn [fst snd] in *;
    subst e s'; exact (f_equal (pair _) (eq_sym Ha)).
Qed.

End upload.

(** ** Analysing *)

Section analyse.
Context `{W : WordNet} `{T : TextBlob} `{C : Clock}.

Lemma absr_add_analysis (c : Conversation) (r : AnalysisReport) (s : Store) :
  has_analysis c s = false →
  absr (add_analysis (conv_id c) r s) =
  {| spec.transcripts := spec.transcripts (absr s);
     spec.results := <[conv_id c := r]> (reports s);
     spec.clock := tick (now s) |}.
Proof. intros H. unfold absr at 1. f_equal. by apply reports_add_analysis. Qed.

Lemma store_wf_analysed (c : Conversation) (r : AnalysisReport) (s : Store) :
  store_wf s → c ∈ conversations s → has_analysis c s = false →
  store_wf (add_analysis (conv_id c) r s).
Proof.
  intros Hs Hc E. apply store_wf_add_analysis; [done..| |by apply has_analysis_false].
  apply (keyed_bounds conv_id _ c (wf_conversations s Hs) Hc).
Qed.

(** [spec.analyse] at the key of a stored conversation. *)
Lemma spec_analyse_stored (c : Conversation) (s : Store) :
  store_wf s → c ∈ conversations s →
  spec.analyse (conv_id c) (absr s) =
  if has_analysis c s then (ok (Refused 400), absr s)
  else match analyze_conversations (messages_all c s) with
       | inr r => (ok (Analysed r), absr (add_analysis (conv_id c) r s))
       | inl e => (raise e, absr s)
       end.
Proof.
  intros Hs Hc. unfold spec.analyse.
  rewrite transcripts_lookup, Conversation_get_elem by done. cbn [fmap option_fmap option_map].
  pose proof (reports_lookup_None c s) as Hn. change (spec.results (absr s)) with (reports s).
  destruct (has_analysis c s) eqn:E.
  - destruct (reports s !! conv_id c); [done|]. discriminate (proj1 Hn eq_refl).
  - rewrite (proj2 Hn) by done.
    destruct (analyze_conversations (messages_all c s)) as [e|r]; [done|].
    by rewrite absr_add_analysis.
Qed.

(** The analysis view implements [spec.analyse]. *)
Lemma analyse_refines (conversation_id : Z) (s : Store) :
  store_wf s →
  spec.analyse conversation_id (absr s) =
  ((handle (PostAnalyse conversation_id) s).1,
   absr (handle (PostAnalyse conversation_id) s).2).
Proof.
  intros Hs. unfold handle. rewrite bindM_run, AnalyseConversationView_post_run.
  destruct (Conversation_get conversation_id s) as [c|] eqn:Hc.
  - apply Conversation_get_Some in Hc as [Hc <-].
    rewrite spec_analyse_stored by done. destruct (has_analysis c s); [done|].
    by destruct (analyze_conversations (messages_all c s)).
  - unfold spec.analyse. by rewrite transcripts_lookup, Hc.
Qed.

(** The loop of the task implements [spec.daily_from]. *)
Lemma daily_loop_refines (l : list Conversation) (s : Store) :
  store_wf s → l ⊆ conversations s →
  spec.daily_from (conv_id <$> l) (absr s) =
  match mapM analyse_if_new l s with
  | (inr _, s') => (ok TaskCompleted, absr s')
  | (inl e, s') => (inl e, absr s')
  end.
Proof.
  revert s. induction l as [|c l IH]; intros s Hs Hl; [done|].
  assert (c ∈ conversations s ∧ l ⊆ conversations s) as [Hc Hl'] by set_solver.
  rewrite fmap_cons, mapM_cons_run, analyse_if_new_run. cbn [spec.daily_from].
  rewrite spec_analyse_stored by done. destruct (has_analysis c s) eqn:E.
  - rewrite IH by done. by destruct (mapM (M := M) _ l s) as [[e|u] s'].
  - destruct (analyze_conversations (messages_all c s)) as [e|r]; [done|].
    cbv beta iota delta [ok]. rewrite IH; [|by apply store_wf_analysed|done].
    by destruct (mapM (M := M) _ l _) as [[e|u] s'].
Qed.

End analyse.

(** ** Every call *)

Section calls.
Context `{W : WordNet} `{T : TextBlob} `{C : Clock}.

Lemma daily_refines (s : Store) :
  store_wf s →
  spec.daily (absr s) =
  ((handle RunDailyAnalyse s).1, absr (handle RunDailyAnalyse s).2).
Proof.
  intros Hs. unfold spec.daily, handle. rewrite bindM_run, daily_analyse_run.
  replace (size (spec.transcripts (absr s))) with (length (conversations s))
    by (apply Nat2Z.inj; by rewrite size_transcripts).
  rewrite <- (proj1 (keyed_keys conv_id _)) by apply (wf_conversations s Hs).
  rewrite daily_loop_refines by done.
  by destruct (mapM (M := M) _ (conversations s) s) as [[e|u] s'].
Qed.

(** The commuting square of one call. *)
Lemma step_refines (call : Call) (s : Store) :
  store_wf s → spec.step call (absr s) = ((handle call s).1, absr (handle call s).2).
Proof.
  intros Hs. destruct call as [request_data|conversation_id| |]; cbn [spec.step].
  - by apply upload_refines.
  - by apply analyse_refines.
  - done.
  - by apply daily_refines.
Qed.

Lemma handle_after (call : Call) (s : Store) : (handle call s).2 = after call s.
Proof.
  destruct call as [request_data|conversation_id| |]; cbn [handle after];
    rewrite bindM_run; [| |done|].
  - by destruct (UploadConversationView_post request_data s) as [[e|r] s'].
  - by destruct (AnalyseConversationView_post conversation_id s) as [[e|r] s'].
  - by destruct (daily_analyse s) as [[e|r] s'].
Qed.

#[export] Instance handle_wf : Invariant handle store_wf.
Proof. intros call s. rewrite handle_after. apply after_wf. Qed.

#[export] Instance handle_implements : Implements handle spec.step absr store_wf.
Proof. split; [apply _ | apply step_refines]. Qed.

(** The square of a sequence of calls, from any well-formed store. *)
Lemma trace_handle_refines (calls : list Call) (s : Store) :
  store_wf s →
  trace spec.step calls (absr s) =
  ((trace handle calls s).1, absr (trace handle calls s).2) ∧
  store_wf (trace handle calls s).2.
Proof.
  intros Hs. split.
  - by apply (trace_refines handle spec.step absr store_wf).
  - by apply (trace_inv handle store_wf).
Qed.

(** The abstraction keeps what answers depend on: from two stores that
    read as the same state, every sequence of calls gets the same
    answers. *)
Lemma absr_adequate (calls : list Call) (s s' : Store) :
  store_wf s → store_wf s' → absr s = absr s' →
  (trace handle calls s).1 = (trace handle calls s').1 ∧
  absr (trace handle calls s).2 = absr (trace handle calls s').2.
Proof.
  intros Hs Hs' E. destruct (trace_handle_refines calls s Hs) as [H _].
  destruct (trace_handle_refines calls s' Hs') as [H' _].
  rewrite E, H' in H.
  split; [exact (eq_sym (f_equal fst H)) | exact (eq_sym (f_equal snd H))].
Qed.

(** ** The invariant of the specification *)

Lemma spec_sound_init (t0 : Z) : spec.sound (spec.init t0).
Proof.
  split; cbn.
  - intros key. rewrite lookup_empty, map_size_empty. split; [by intros []|lia].
  - intros key report. by rewrite lookup_empty.
Qed.

Lemma spec_upload_sound (request_data : UploadData) (st : spec.State) :
  spec.sound st → spec.sound (spec.upload request_data st).2.
Proof.
  intros [Hk Hr]. unfold spec.upload. destruct (is_valid request_data) as [v|]; [|done].
  destruct (spec.readable (v_messages v)) as [ps e]. cbn [snd].
  assert (spec.transcripts st !! (Z.of_nat (size (spec.transcripts st)) + 1)%Z = None) as Hn.
  { apply eq_None_not_Some. rewrite Hk. lia. }
  split; cbn.
  - intros key. rewrite map_size_insert_None, lookup_insert_is_Some, Hk by done. lia.
  - intros key report [ms [Hms Ha]]%Hr. exists ms. split; [|done].
    rewrite lookup_insert_ne; [done|]. intros <-. by rewrite Hn in Hms.
Qed.

Lemma spec_analyse_sound (key : Z) (st : spec.State) :
  spec.sound st → spec.sound (spec.analyse key st).2.
Proof.
  intros [Hk Hr]. unfold spec.analyse.
  destruct (spec.transcripts st !! key) as [ms|] eqn:Hms; [|done].
  destruct (spec.results st !! key); [done|].
  destruct (analyze_conversations ms) as [e|r] eqn:Ha; [done|].
  split; cbn; [done|]. intros key' report.
  rewrite lookup_insert_Some. intros [[<- <-] | [_ H]]; [by exists ms | by apply Hr].
Qed.

#[export] Instance spec_step_sound : Invariant spec.step spec.sound.
Proof.
  intros call st. destruct call as [request_data|conversation_id| |]; cbn [spec.step].
  - apply spec_upload_sound.
  - apply spec_analyse_sound.
  - done.
  - unfold spec.daily. generalize (Z.of_nat <$> seq 1 (size (spec.transcripts st))).
    intros keys. revert st. induction keys as [|key keys IH]; intros st Hst; [done|].
    cbn [spec.daily_from]. pose proof (spec_analyse_sound key st Hst) as H.
    destruct (spec.analyse key st) as [[e|a] st1]; [done|]. by apply IH.
Qed.

End calls.

(** ** A session on the specification *)

Lemma readable_well_formed (msgs : list Json) (ps : list (string * string)) :
  Forall2 well_formed msgs ps ↔ spec.readable msgs = (ps, None).
Proof.
  revert ps. induction msgs as [|[f|] msgs IH]; intros ps; cbn [spec.readable].
  - split; [by intros ->%Forall2_nil_inv_l | intros [= <-]; constructor].
  - destruct (f !! "sender") as [sender|] eqn:E1, (f !! "message") as [text|] eqn:E2;
      try (split; [intros ([] & ? & [[= ?] [= ?]] & _)%Forall2_cons_inv_l; congruence|done]).
    specialize (IH (tail ps)). destruct (spec.readable msgs) as [qs e]. split.
    + intros ([a b] & ps' & [[= H1] [= H2]] & Hps & ->)%Forall2_cons_inv_l.
      apply IH in Hps as [= -> ->]. cbn in *. congruence.
    + intros [= <- ->]. constructor; [by split; cbn; f_equal|]. by apply IH.
  - split; [by intros (? & ? & [[=] _] & _)%Forall2_cons_inv_l | done].
Qed.

Section session.
Context `{W : WordNet} `{T : TextBlob} `{C : Clock}.

(** An upload that can be stored, its analysis, the listing, and the
    analysis asked again. *)
Lemma spec_session (request_data : UploadData) (v : ValidatedData)
    (ps : list (string * string)) (r : AnalysisReport) (st : spec.State) :
  let key := (Z.of_nat (size (spec.transcripts st)) + 1)%Z in
  spec.results st !! key = None →
  is_valid request_data = Some v → spec.readable (v_messages v) = (ps, None) →
  analyze_conversations (stamp ps (tick (spec.clock st))) = ok r →
  (trace spec.step
     [PostConversations request_data; PostAnalyse key; GetReports; PostAnalyse key] st).1 =
  [ok (Created key); ok (Analysed r); ok (Listing (<[key := r]> (spec.results st)));
   ok (Refused 400)].
Proof.
  intros key Hres Hv Hps Hr. cbn [trace spec.step]. unfold spec.upload.
  rewrite Hv, Hps. fold key. cbv beta iota zeta. unfold spec.analyse at 1.
  cbn [spec.transcripts spec.results spec.clock].
  rewrite lookup_insert_eq, Hres, Hr. cbv beta iota zeta delta [ok].
  unfold spec.list_reports, spec.analyse. cbn [spec.transcripts spec.results].
  by rewrite !lookup_insert_eq.
Qed.

(** No report is stored under the next key. *)
Lemma reports_fresh (s : Store) :
  store_wf s → reports s !! (len (conversations s) + 1)%Z = None.
Proof.
  intros Hs. apply not_elem_of_list_to_map. rewrite <- list_fmap_compose.
  intros (a & E & Ha)%list_elem_of_fmap.
  pose proof (proj1 (Forall_forall _ _) (wf_analysis_fk s Hs) a Ha). cbn in *. lia.
Qed.

End session.

Lemma reports_lookup_elem (s : Store) (a : ConversationAnalysis) :
  store_wf s → a ∈ analyses s → reports s !! an_conversation a = Some (an_report a).
Proof.
  intros Hs Ha. apply elem_of_list_to_map_1.
  - rewrite <- list_fmap_compose. apply (wf_one_to_one s Hs).
  - apply list_elem_of_fmap. by exists a.
Qed.

(** ** Main results *)

(** C3: Every report that is stored is the report of its conversation:
    after any sequence of calls from the empty store, each row of the
    table of reports belongs to a stored conversation, and
    [analyze_conversations] of the messages that conversation has now
    returns the report of the row. *)
Theorem reports_faithful `{W : WordNet} `{T : TextBlob} `{C : Clock} (t0 : Z)
    (calls : list Call) :
  Forall (λ a, ∃ c,
      Conversation_get (an_conversation a) (trace handle calls (empty_store t0)).2 = Some c ∧
      analyze_conversations (messages_all c (trace handle calls (empty_store t0)).2) =
        ok (an_report a))
    (analyses (trace handle calls (empty_store t0)).2).
Proof.
  destruct (trace_handle_refines calls _ (store_wf_empty t0)) as [Href Hwf].
  pose proof (trace_inv spec.step spec.sound calls _ (spec_sound_init t0)) as [_ Hr].
  change (spec.init t0) with (absr (empty_store t0)) in Hr.
  rewrite Href in Hr. cbn [snd] in Hr. apply Forall_forall. intros a Ha.
  destruct (Hr _ _ (reports_lookup_elem _ a Hwf Ha)) as (ms & Hms & Hrep).
  rewrite transcripts_lookup in Hms.
  destruct (Conversation_get _ _) as [c|]; [|done]. exists c. by simplify_eq/=.
Qed.

(** The specification runs: an upload, its analysis, the same analysis
    again, the analysis of a key that does not exist, and the listing. *)
Example spec_trace_example :
  (trace (spec.step (W := toy_wordnet) (T := toy_textblob) (C := unit_clock))
     [PostConversations upload_resolved; PostAnalyse 1; PostAnalyse 1; PostAnalyse 2;
      GetReports] (spec.init 0)).1 =
  match analyze_conversations (W := toy_wordnet) (T := toy_textblob)
          (stamp (C := unit_clock)
             [("user", "my app crashed");
              ("ai", "I'm sorry to hear that, let's see what's wrong");
              ("user", "thanks that fixed it")] 1) with
  | inr r => [ok (Created 1); ok (Analysed r); ok (Refused 400); ok (Refused 404);
              ok (Listing {[ 1%Z := r ]})]
  | inl e => []
  end.
Proof. by vm_compute. Qed.
