(* ===== verification/Progress.v ===== *)
(** * Progress: what a run of the system achieves

    The handlers of [Handlers.v] are called one after the other by the
    server and by the scheduler of the daily task.  This file looks at
    whole sequences of calls: a schedule is a function from positions to
    calls, [state_at] is the store after the first [n] calls, whether
    they returned or raised.  [pending] lists the conversations without a
    report, the work the analysing calls have left.

    Two results.  Analysing terminates: a call other than an upload that
    changes the store shortens [pending], so only finitely many such
    calls change the store between two uploads, and when nothing is
    pending they change nothing at all.  Analysing is live: on a schedule
    that runs the task again and again, with capabilities that do not
    raise, every conversation that is ever uploaded has its report from
    some position on, and that report never changes. *)

From stdpp Require Import gmap well_founded.
From S2P Require Import Prelude PyStr Transcript Capabilities Lexical Pairs Sentiment Analyzer.
From S2P Require Import Store Handlers.

(** ** Reference definitions *)

(** The conversations without a report. *)
Definition pending (s : Store) : list Conversation :=
  filter (λ c, has_analysis c s = false) (conversations s).

(** The store after the first [n] calls of a schedule. *)
Fixpoint state_at `{W : WordNet} `{T : TextBlob} `{C : Clock}
    (sched : nat → Call) (s0 : Store) (n : nat) : Store :=
  match n with
  | O => s0
  | S n => after (sched n) (state_at sched s0 n)
  end.

(** The scheduler starts the task again and again. *)
Definition fair (sched : nat → Call) : Prop :=
  ∀ n, ∃ m, (n ≤ m)%nat ∧ sched m = RunDailyAnalyse.

(** [works s' s]: a call other than an upload takes [s] to a different
    store [s']. *)
Definition works `{W : WordNet} `{T : TextBlob} `{C : Clock} (s' s : Store) : Prop :=
  ∃ call, (∀ request_data, call ≠ PostConversations request_data) ∧
          s' = after call s ∧ s' ≠ s.

(** ** The work left *)

Section work.
Context `{W : WordNet} `{T : TextBlob} `{C : Clock}.

Lemma pending_add_analysis (c : Conversation) (r : AnalysisReport) (s : Store) :
  c ∈ conversations s → has_analysis c s = false →
  (length (pending (add_analysis (conv_id c) r s)) < length (pending s))%nat.
Proof.
  intros Hc Hn.
  assert (pending (add_analysis (conv_id c) r s)
          = filter (λ x, conv_id c ≠ conv_id x) (pending s)) as ->.
  { unfold pending. rewrite list_filter_filter. apply list_filter_iff. intros x.
    rewrite has_analysis_add, orb_false_iff, bool_decide_eq_false. cbn. tauto. }
  apply (length_filter_lt _ _ c); [|by intros ?].
  by apply list_elem_of_filter.
Qed.

(** One turn of the loop of the task leaves the store as it is or
    shortens the work left. *)
Lemma analyse_if_new_pending (c : Conversation) (s : Store) :
  c ∈ conversations s →
  (analyse_if_new c s).2 = s ∨
  (length (pending (analyse_if_new c s).2) < length (pending s))%nat.
Proof.
  intros Hc. rewrite analyse_if_new_run. destruct (has_analysis c s) eqn:E; [by left|].
  destruct (analyze_conversations (messages_all c s)) as [e|r]; [by left|].
  right. by apply pending_add_analysis.
Qed.

Lemma daily_loop_pending (l : list Conversation) (s : Store) :
  l ⊆ conversations s →
  (mapM analyse_if_new l s).2 = s ∨
  (length (pending (mapM analyse_if_new l s).2) < length (pending s))%nat.
Proof.
  revert s. induction l as [|c l IH]; intros s Hl; [by left|].
  rewrite mapM_cons_run.
  destruct (analyse_if_new_pending c s) as [H1|H1]; [apply Hl; by left|..];
    pose proof (analyse_if_new_step c s) as [(Hc & _) _];
    destruct (analyse_if_new c s) as [[e|[]] s1]; cbn in H1, Hc; [by left|..|by right|];
    (destruct (IH s1) as [H2|H2]; [rewrite Hc; intros x Hx; apply Hl; by right|..]);
    destruct (mapM (M := M) analyse_if_new l s1) as [[e|u] s2]; cbn in H2 |- *;
    subst; first [by left | right; lia].
Qed.

(** A call other than an upload leaves the store as it is or shortens
    the work left. *)
Lemma after_pending (call : Call) (s : Store) :
  (∀ request_data, call ≠ PostConversations request_data) →
  after call s = s ∨ (length (pending (after call s)) < length (pending s))%nat.
Proof.
  intros Hcall.
  destruct call as [request_data|conversation_id| |]; cbn [after];
    [by destruct (Hcall request_data) | | by left |].
  - rewrite AnalyseConversationView_post_run.
    destruct (Conversation_get conversation_id s) as [c|] eqn:Hget; [|by left].
    apply Conversation_get_Some in Hget as [Hc _].
    destruct (has_analysis c s) eqn:E; [by left|].
    destruct (analyze_conversations (messages_all c s)) as [e|r]; [by left|].
    right. by apply pending_add_analysis.
  - rewrite daily_analyse_run.
    destruct (daily_loop_pending (conversations s) s) as [H1|H1]; [done|..];
      destruct (mapM (M := M) analyse_if_new (conversations s) s) as [[e|u] s2];
      cbn in H1 |- *; first [by left | by right].
Qed.

Lemma works_pending (s' s : Store) :
  works s' s → (length (pending s') < length (pending s))%nat.
Proof. intros (call & Hcall & -> & Hne). by destruct (after_pending call s Hcall). Qed.

(** No call removes a conversation. *)
Lemma after_conversations_prefix (call : Call) (s : Store) :
  conversations s `prefix_of` conversations (after call s).
Proof.
  destruct call as [request_data|conversation_id| |]; cbn [after]; [| |done|].
  - destruct (upload_view_state request_data s) as [-> | (title & ps & ->)]; [done|].
    rewrite (proj1 (add_messages_frame _ ps _)). by apply prefix_app_r.
  - rewrite AnalyseConversationView_post_run.
    destruct (Conversation_get conversation_id s) as [c|]; [|done].
    destruct (has_analysis c s); [done|].
    by destruct (analyze_conversations (messages_all c s)).
  - rewrite daily_analyse_run.
    pose proof (daily_loop_grows (conversations s) s) as (H & _).
    destruct (mapM (M := M) _ (conversations s) s) as [[e|u] s']; cbn in H |- *;
      by rewrite H.
Qed.

(** Along a schedule the tables of conversations and of reports only
    grow at their ends. *)
Lemma state_at_mono (sched : nat → Call) (s0 : Store) (n k : nat) :
  (n ≤ k)%nat →
  conversations (state_at sched s0 n) `prefix_of` conversations (state_at sched s0 k) ∧
  analyses (state_at sched s0 n) `prefix_of` analyses (state_at sched s0 k).
Proof.
  induction 1 as [|k _ [IH1 IH2]]; [done|]. cbn [state_at]. split.
  - etrans; [exact IH1 | apply after_conversations_prefix].
  - etrans; [exact IH2 | apply after_analyses_prefix].
Qed.

Lemma prefix_elem_of {A : Type} (l k : list A) (x : A) : l `prefix_of` k → x ∈ l → x ∈ k.
Proof. intros [l' ->] ?. apply elem_of_app. by left. Qed.

(** A run of the task that returns leaves a report for every conversation. *)
Lemma daily_analyse_all {WT : WordNetTotal W} {TL : TextBlobLawful T} (s : Store)
    (c : Conversation) :
  c ∈ conversations s → has_analysis c (after RunDailyAnalyse s) = true.
Proof.
  intros Hc. cbn [after]. rewrite daily_analyse_run.
  destruct (daily_loop_returns (conversations s) s) as (u & s' & Hu). rewrite Hu.
  by eapply daily_loop_ok.
Qed.

(** From some position on, a conversation on a fair schedule has its
    report. *)
Lemma fair_eventually {WT : WordNetTotal W} {TL : TextBlobLawful T}
    (sched : nat → Call) (s0 : Store) (n : nat) (c : Conversation) :
  fair sched → c ∈ conversations (state_at sched s0 n) →
  ∃ m, (n ≤ m)%nat ∧ ∀ k, (m ≤ k)%nat →
    c ∈ conversations (state_at sched s0 k) ∧ has_analysis c (state_at sched s0 k) = true.
Proof.
  intros Hfair Hc. destruct (Hfair n) as (m & Hnm & Hm).
  exists (S m). split; [lia|]. intros k Hk.
  destruct (state_at_mono sched s0 n m Hnm) as [Hc1 _].
  destruct (state_at_mono sched s0 (S m) k Hk) as [Hc2 Ha2].
  assert (has_analysis c (state_at sched s0 (S m)) = true) as Hm'.
  { cbn [state_at]. rewrite Hm. apply daily_analyse_all. by eapply prefix_elem_of. }
  split; [|by eapply has_analysis_prefix].
  eapply prefix_elem_of; [exact Hc2|]. cbn [state_at].
  eapply prefix_elem_of; [apply after_conversations_prefix|]. by eapply prefix_elem_of.
Qed.

End work.

(** ** Main results *)

(** C29: Analysing terminates: the relation between a store
    and the different store a call other than an upload leaves is
    well founded, because every such call shortens the list of
    conversations without a report; so between two uploads only finitely
    many requests and runs of the task change the store, and once no
    conversation is without a report they leave the store as it is. *)
Theorem analysing_terminates `{W : WordNet} `{T : TextBlob} `{C : Clock} :
  well_founded works ∧
  (∀ s' s, works s' s → (length (pending s') < length (pending s))%nat) ∧
  (∀ s call, pending s = [] → (∀ request_data, call ≠ PostConversations request_data) →
     after call s = s).
Proof.
  split_and!.
  - apply (wf_projected lt (λ s, length (pending s))); [apply works_pending | apply lt_wf].
  - apply works_pending.
  - intros s call Hp Hcall. destruct (after_pending call s Hcall) as [|Hlt]; [done|].
    rewrite Hp in Hlt. cbn in Hlt. lia.
Qed.

Lemma analysing_terminates_witness :
  after (W := toy_wordnet) (T := toy_textblob) (C := unit_clock) (PostAnalyse 1)
    (after (W := toy_wordnet) (T := toy_textblob) (C := unit_clock) RunDailyAnalyse
       store_resolved)
  = after (W := toy_wordnet) (T := toy_textblob) (C := unit_clock) RunDailyAnalyse
      store_resolved.
Proof.
  apply (proj2 (proj2 (analysing_terminates (W := toy_wordnet) (T := toy_textblob)
    (C := unit_clock)))); [by vm_compute | done].
Defined.

(** C28: On a schedule that starts the daily task again and
    again, with a synonym lookup and a polarity that do not raise, every
    conversation in the store at some position has a report from some
    later position on, whatever the other calls are, and that report is
    the same at every position after it. *)
Theorem fair_schedule_analyses_all `{W : WordNet} `{T : TextBlob} `{C : Clock}
    {WT : WordNetTotal W} {TL : TextBlobLawful T}
    (sched : nat → Call) (s0 : Store) (n : nat) (c : Conversation) :
  fair sched → c ∈ conversations (state_at sched s0 n) →
  ∃ m r, (n ≤ m)%nat ∧ ∀ k, (m ≤ k)%nat →
    c ∈ conversations (state_at sched s0 k) ∧
    reports (state_at sched s0 k) !! conv_id c = Some r.
Proof.
  intros Hfair Hc. destruct (fair_eventually sched s0 n c Hfair Hc) as (m & Hnm & Hm).
  destruct (reports (state_at sched s0 m) !! conv_id c) as [r|] eqn:Hr.
  - exists m, r. split; [done|]. intros k Hk. split; [by apply Hm|].
    eapply lookup_weaken; [exact Hr|].
    by apply reports_prefix, state_at_mono.
  - apply reports_lookup_None in Hr. destruct (Hm m) as [_ Hm']; [done|]. congruence.
Qed.

Lemma fair_schedule_analyses_all_witness :
  ∃ m r, (1 ≤ m)%nat ∧ ∀ k, (m ≤ k)%nat →
    conversation_row (Some "Untitled Conversation") (empty_store 0) ∈
      conversations (state_at (W := toy_wordnet) (T := toy_textblob) (C := unit_clock)
        (λ n, match n with O => PostConversations upload_resolved | _ => RunDailyAnalyse end)
        (empty_store 0) k) ∧
    reports (state_at (W := toy_wordnet) (T := toy_textblob) (C := unit_clock)
        (λ n, match n with O => PostConversations upload_resolved | _ => RunDailyAnalyse end)
        (empty_store 0) k)
      !! conv_id (conversation_row (Some "Untitled Conversation") (empty_store 0)) = Some r.
Proof.
  apply (fair_schedule_analyses_all (W := toy_wordnet) (T := toy_textblob) (C := unit_clock)).
  - intros n. exists (S n). split; [lia | reflexivity].
  - vm_compute. left.
Defined.
