(* ===== verification/Interleave.v ===== *)
(** * Interleave: requests and the task running at the same time

    The server answers requests in several workers and the task runs in
    another process; the code opens no transaction and takes no lock, so
    the statements of two handlers can alternate.  A [Thread] is a handler
    stopped between two statements that touch the database: each
    constructor names the statement that comes next and carries the local
    variables that are live there.  [analyse_step], [upload_step] and
    [daily_step] execute that one statement on the store; a query, an
    insertion and the check of the unique column at the insertion are
    atomic.  A pool is a list of threads, a schedule the list of the
    positions that move, [run] the pool and the store after a schedule.

    Run without interruption, the steps of a handler are the handler of
    [Handlers.v], and the serial schedule of a pool ([serial]) is the
    sequence of its calls.  Under every schedule the store stays well formed and
    reports are never lost; when no upload is in progress every report
    stored is the report of its conversation.  What interleaving breaks is
    stated as well: two requests for the same conversation can both pass
    the test for an existing report, and the second is then refused by the
    database with [IntegrityError]; and an analysis that runs while a
    conversation is being uploaded stores the report of the part that has
    arrived, for good. *)

From stdpp Require Import gmap.
From S2P Require Import Prelude PyStr Transcript Capabilities Lexical Pairs Sentiment Analyzer.
From S2P Require Import Store Handlers.

(** ** Threads *)

(** How a handler ends. *)
Inductive Outcome : Type :=
  | Returned (response : Response)
  | Completed (message : string)
  | Raised (e : exn).

(** [AnalyseConversationView.post], before the query of the conversation,
    the query of its report, the query of its messages, the insertion. *)
Inductive AnalysePoint : Type :=
  | AGet (conversation_id : Z)
  | ACheck (conversation : Conversation)
  | AAnalyse (conversation : Conversation)
  | ACreate (conversation : Conversation) (result : AnalysisReport).

(** [UploadConversationView.post], before the validation, the insertion
    of the conversation, the insertion of the next message. *)
Inductive UploadPoint : Type :=
  | UValidate (request_data : UploadData)
  | UCreate (validated_data : ValidatedData)
  | UMessages (conversation : Conversation) (messages_data : list Json).

(** [daily_analyse], before the query of the conversations and, for the
    next conversation, the query of its report, the query of its
    messages, the insertion. *)
Inductive DailyPoint : Type :=
  | DQuery
  | DCheck (conversations : list Conversation)
  | DAnalyse (convo : Conversation) (conversations : list Conversation)
  | DCreate (convo : Conversation) (result : AnalysisReport)
      (conversations : list Conversation).

(** [ListReports] is [ConversationAnalysisListView] before its one
    query. *)
Inductive Thread : Type :=
  | Analyse (p : AnalysePoint)
  | Upload (p : UploadPoint)
  | Daily (p : DailyPoint)
  | Finished (o : Outcome)
  | ListReports.

Definition analyse_step `{W : WordNet} `{T : TextBlob} `{C : Clock}
    (p : AnalysePoint) (s : Store) : Thread * Store :=
  match p with
  | AGet conversation_id =>
      match Conversation_get conversation_id s with
      | None =>
          (Finished (Returned {| data := ErrorMessage "Conversation not found";
                                 status := 404 |}), s)
      | Some conversation => (Analyse (ACheck conversation), s)
      end
  | ACheck conversation =>
      if has_analysis conversation s
      then (Finished (Returned {| data := PlainMessage "Already analysed";
                                  status := 400 |}), s)
      else (Analyse (AAnalyse conversation), s)
  | AAnalyse conversation =>
      match analyze_conversations (messages_all conversation s) with
      | inr result => (Analyse (ACreate conversation result), s)
      | inl e => (Finished (Raised e), s)
      end
  | ACreate conversation result =>
      match ConversationAnalysis_create conversation result s with
      | (inr analysis, s') =>
          (Finished (Returned {| data := AnalysisData analysis; status := 201 |}), s')
      | (inl e, s') => (Finished (Raised e), s')
      end
  end.

Definition upload_step `{C : Clock} (p : UploadPoint) (s : Store) : Thread * Store :=
  match p with
  | UValidate request_data =>
      match is_valid request_data with
      | Some validated_data => (Upload (UCreate validated_data), s)
      | None => (Finished (Returned {| data := Errors; status := 400 |}), s)
      end
  | UCreate validated_data =>
      let title := default "Untitled Conversation" (v_title validated_data) in
      match Conversation_create (Some title) s with
      | (inr conversation, s') =>
          (Upload (UMessages conversation (v_messages validated_data)), s')
      | (inl e, s') => (Finished (Raised e), s')
      end
  | UMessages conversation [] =>
      (Finished (Returned {| data := Uploaded "Conversation uploaded" (conv_id conversation);
                             status := 201 |}), s)
  | UMessages conversation (msg :: messages_data) =>
      match upload_message conversation msg s with
      | (inr _, s') => (Upload (UMessages conversation messages_data), s')
      | (inl e, s') => (Finished (Raised e), s')
      end
  end.

Definition daily_step `{W : WordNet} `{T : TextBlob} `{C : Clock}
    (p : DailyPoint) (s : Store) : Thread * Store :=
  match p with
  | DQuery => (Daily (DCheck (conversations s)), s)
  | DCheck [] => (Finished (Completed "Daily analysis completed"), s)
  | DCheck (convo :: conversations) =>
      if negb (has_analysis convo s)
      then (Daily (DAnalyse convo conversations), s)
      else (Daily (DCheck conversations), s)
  | DAnalyse convo conversations =>
      match analyze_conversations (messages_all convo s) with
      | inr result => (Daily (DCreate convo result conversations), s)
      | inl e => (Finished (Raised e), s)
      end
  | DCreate convo result conversations =>
      match ConversationAnalysis_create convo result s with
      | (inr _, s') => (Daily (DCheck conversations), s')
      | (inl e, s') => (Finished (Raised e), s')
      end
  end.

(** One statement of a thread; a handler that has ended stays as it is. *)
Definition step `{W : WordNet} `{T : TextBlob} `{C : Clock} (th : Thread) (s : Store) :
    Thread * Store :=
  match th with
  | Analyse p => analyse_step p s
  | Upload p => upload_step p s
  | Daily p => daily_step p s
  | Finished _ => (th, s)
  | ListReports =>
      (Finished (Returned {| data := AnalysisList (analyses s); status := 200 |}), s)
  end.

(** A thread alone, for [n] statements. *)
Fixpoint run_thread `{W : WordNet} `{T : TextBlob} `{C : Clock}
    (n : nat) (th : Thread) (s : Store) : Thread * Store :=
  match n with
  | O => (th, s)
  | S n => let '(th', s') := step th s in run_thread n th' s'
  end.

(** ** Pools *)

(** The thread at position [i] makes its next statement. *)
Definition pool_step `{W : WordNet} `{T : TextBlob} `{C : Clock}
    (ps : list Thread * Store) (i : nat) : list Thread * Store :=
  match ps.1 !! i with
  | Some th => let '(th', s') := step th ps.2 in (<[i := th']> ps.1, s')
  | None => ps
  end.

Definition run `{W : WordNet} `{T : TextBlob} `{C : Clock}
    (sched : list nat) (ps : list Thread * Store) : list Thread * Store :=
  fold_left pool_step sched ps.

(** ** Reference definitions *)

Definition view_outcome (r : result Response) : Outcome :=
  match r with inr response => Returned response | inl e => Raised e end.

Definition task_outcome (r : result string) : Outcome :=
  match r with inr message => Completed message | inl e => Raised e end.

(** The handler of a call when it starts, the number of statements within
    which it ends, and how it ends when nothing else runs. *)
Definition thread_of (call : Call) : Thread :=
  match call with
  | PostConversations request_data => Upload (UValidate request_data)
  | PostAnalyse conversation_id => Analyse (AGet conversation_id)
  | GetReports => ListReports
  | RunDailyAnalyse => Daily DQuery
  end.

Definition statements (call : Call) (s : Store) : nat :=
  match call with
  | PostConversations request_data => 3 + length (default [] (up_messages request_data))
  | PostAnalyse _ => 4
  | GetReports => 1
  | RunDailyAnalyse => 2 + 3 * length (conversations s)
  end.

Definition outcome_of `{W : WordNet} `{T : TextBlob} `{C : Clock} (call : Call)
    (s : Store) : Outcome :=
  match call with
  | PostConversations request_data =>
      view_outcome (UploadConversationView_post request_data s).1
  | PostAnalyse conversation_id =>
      view_outcome (AnalyseConversationView_post conversation_id s).1
  | GetReports => view_outcome (ConversationAnalysisListView_get s).1
  | RunDailyAnalyse => task_outcome (daily_analyse s).1
  end.

(** The schedule that lets the handlers of a pool run one after the
    other, from position [i] on, and how they end. *)
Fixpoint serial `{W : WordNet} `{T : TextBlob} `{C : Clock} (i : nat) (calls : list Call)
    (s : Store) : list nat :=
  match calls with
  | [] => []
  | call :: calls => replicate (statements call s) i ++ serial (S i) calls (after call s)
  end.

Fixpoint outcomes `{W : WordNet} `{T : TextBlob} `{C : Clock} (calls : list Call)
    (s : Store) : list Outcome :=
  match calls with
  | [] => []
  | call :: calls => outcome_of call s :: outcomes calls (after call s)
  end.

(** The conversations a thread holds in its local variables. *)
Definition held (th : Thread) : list Conversation :=
  match th with
  | Analyse (ACheck c) | Analyse (AAnalyse c) | Analyse (ACreate c _) => [c]
  | Upload (UMessages c _) => [c]
  | Daily (DCheck cs) => cs
  | Daily (DAnalyse c cs) | Daily (DCreate c _ cs) => c :: cs
  | _ => []
  end.

(** No upload in progress. *)
Definition quiet (th : Thread) : Prop :=
  match th with Upload _ => False | _ => True end.

(** A report a thread is about to store is the report of the messages of
    its conversation. *)
Definition coherent `{W : WordNet} `{T : TextBlob} (th : Thread) (s : Store) : Prop :=
  match th with
  | Analyse (ACreate c r) | Daily (DCreate c r _) =>
      analyze_conversations (messages_all c s) = ok r
  | _ => True
  end.

(** The store after a statement of a thread: as before, or with one more
    conversation, one more message of a conversation the thread holds, or
    one more report of a conversation the thread holds and that had
    none. *)
Inductive effect `{W : WordNet} `{T : TextBlob} `{C : Clock} (th : Thread) (s : Store) :
    Store → Prop :=
  | effect_none : effect th s s
  | effect_conversation title : ¬ quiet th → effect th s (add_conversation title s)
  | effect_message c p :
      ¬ quiet th → c ∈ held th → effect th s (add_message (conv_id c) s p)
  | effect_analysis c r :
      c ∈ held th → has_analysis c s = false →
      (coherent th s → analyze_conversations (messages_all c s) = ok r) →
      effect th s (add_analysis (conv_id c) r s).

(** The invariant of a pool: the store is well formed and every
    conversation a thread holds is stored. *)
Definition pool_inv (ps : list Thread * Store) : Prop :=
  store_wf ps.2 ∧ Forall (λ th, held th ⊆ conversations ps.2) ps.1.

(** A pool without an upload in progress whose computed reports are up
    to date. *)
Definition pool_quiet `{W : WordNet} `{T : TextBlob} (ps : list Thread * Store) : Prop :=
  Forall quiet ps.1 ∧ Forall (λ th, coherent th ps.2) ps.1.

(** ** A thread alone *)

Section alone.
Context `{W : WordNet} `{T : TextBlob} `{C : Clock}.

Lemma run_thread_finished (n : nat) (o : Outcome) (s : Store) :
  run_thread n (Finished o) s = (Finished o, s).
Proof. induction n as [|n IH]; [done|]. apply IH. Qed.

Lemma run_thread_S (n : nat) (th : Thread) (s : Store) :
  run_thread (S n) th s = run_thread n (step th s).1 (step th s).2.
Proof. cbn. by destruct (step th s). Qed.

Lemma analyse_alone (n : nat) (conversation_id : Z) (s : Store) :
  run_thread (S (S (S (S n)))) (Analyse (AGet conversation_id)) s =
  (Finished (view_outcome (AnalyseConversationView_post conversation_id s).1),
   (AnalyseConversationView_post conversation_id s).2).
Proof.
  rewrite AnalyseConversationView_post_run. cbn [Nat.add run_thread step analyse_step].
  destruct (Conversation_get conversation_id s) as [c|]; [|apply run_thread_finished].
  cbn [run_thread step analyse_step].
  destruct (has_analysis c s) eqn:E; [apply run_thread_finished|].
  cbn [run_thread step analyse_step].
  destruct (analyze_conversations (messages_all c s)) as [e|r]; [apply run_thread_finished|].
  cbn [run_thread step analyse_step]. rewrite ConversationAnalysis_create_run by done.
  apply run_thread_finished.
Qed.

Lemma upload_loop_alone (n : nat) (c : Conversation) (msgs : list Json) (s : Store) :
  run_thread (S (length msgs + n)) (Upload (UMessages c msgs)) s =
  match mapM (upload_message c) msgs s with
  | (inr _, s') =>
      (Finished (Returned {| data := Uploaded "Conversation uploaded" (conv_id c);
                             status := 201 |}), s')
  | (inl e, s') => (Finished (Raised e), s')
  end.
Proof.
  revert s. induction msgs as [|msg msgs IH]; intros s; [apply run_thread_finished|].
  rewrite mapM_cons_run, run_thread_S. cbn [length Nat.add step upload_step].
  destruct (upload_message c msg s) as [[e|row] s1]; red_pair;
    [apply run_thread_finished|].
  rewrite (IH s1). by destruct (mapM (M := M) _ msgs s1) as [[e|rows] s2].
Qed.

Lemma upload_alone (n : nat) (request_data : UploadData) (s : Store) :
  run_thread (S (S (S (length (default [] (up_messages request_data)) + n))))
    (Upload (UValidate request_data)) s =
  (Finished (view_outcome (UploadConversationView_post request_data s).1),
   (UploadConversationView_post request_data s).2).
Proof.
  destruct (is_valid request_data) as [v|] eqn:E.
  - rewrite (UploadConversationView_post_run _ v), (is_valid_messages _ v) by done.
    cbv zeta. rewrite run_thread_S. cbn [default step upload_step]. rewrite E.
    red_pair. rewrite run_thread_S. cbn [step upload_step].
    rewrite Conversation_create_run. cbv beta iota delta [ok]. red_pair.
    rewrite (upload_loop_alone n).
    by destruct (mapM (M := M) _ (v_messages v) _) as [[e|rows] s'].
  - rewrite UploadConversationView_post_invalid by done.
    rewrite run_thread_S. cbn [default step upload_step]. rewrite E.
    apply run_thread_finished.
Qed.

Lemma daily_loop_alone (n : nat) (l : list Conversation) (s : Store) :
  run_thread (S (3 * length l + n)) (Daily (DCheck l)) s =
  match mapM analyse_if_new l s with
  | (inr _, s') => (Finished (Completed "Daily analysis completed"), s')
  | (inl e, s') => (Finished (Raised e), s')
  end.
Proof.
  revert n s. induction l as [|c l IH]; intros n s; [apply run_thread_finished|].
  rewrite mapM_cons_run, analyse_if_new_run.
  replace (S (3 * length (c :: l) + n)) with (S (S (3 * length l + (2 + n))))
    by (cbn [length]; lia).
  rewrite run_thread_S. cbn [step daily_step].
  destruct (has_analysis c s) eqn:E; cbn [negb]; red_pair.
  - rewrite (IH (2 + n)%nat s). by destruct (mapM (M := M) _ l s) as [[e|u] s'].
  - replace (S (3 * length l + (2 + n))) with (S (S (S (3 * length l + n)))) by lia.
    rewrite run_thread_S. cbn [step daily_step].
    destruct (analyze_conversations (messages_all c s)) as [e|r]; red_pair;
      [apply run_thread_finished|].
    rewrite run_thread_S. cbn [step daily_step].
    rewrite ConversationAnalysis_create_run by done. cbv beta iota delta [ok]. red_pair.
    rewrite (IH n _). by destruct (mapM (M := M) _ l _) as [[e|u] s'].
Qed.

Lemma daily_alone (n : nat) (s : Store) :
  run_thread (S (S (3 * length (conversations s) + n))) (Daily DQuery) s =
  (Finished (task_outcome (daily_analyse s).1), (daily_analyse s).2).
Proof.
  rewrite daily_analyse_run, run_thread_S. cbn [step daily_step]. red_pair.
  rewrite (daily_loop_alone n).
  by destruct (mapM (M := M) _ (conversations s) s) as [[e|u] s'].
Qed.

(** Every handler, run alone for the number of its statements or more. *)
Lemma call_alone (n : nat) (call : Call) (s : Store) :
  run_thread (statements call s + n) (thread_of call) s =
  (Finished (outcome_of call s), after call s).
Proof.
  destruct call as [request_data|conversation_id| |]; cbn [statements thread_of outcome_of after].
  - apply upload_alone.
  - apply analyse_alone.
  - apply run_thread_finished.
  - apply daily_alone.
Qed.

End alone.

(** ** What one statement does to the store *)

(** Closes a goal [held th' ⊆ conversations s] from the hypothesis on the
    thread before its statement. *)
Ltac held_solver :=
  cbn [fst snd held] in *;
  first [ apply list_subseteq_nil | assumption | reflexivity
        | intros ? ?; match goal with H : _ ⊆ _ |- _ => apply H end; by right ].

(** The next position of a schedule, on a pool that is written out. *)
Ltac pool_next :=
  lazymatch goal with
  | |- context [run (?i :: ?l) ?ps] => change (run (i :: l) ps) with (run l (pool_step ps i))
  end;
  unfold pool_step;
  cbn [fst snd lookup list_lookup insert list_insert step analyse_step upload_step
       daily_step].

Section pools.
Context `{W : WordNet} `{T : TextBlob} `{C : Clock}.

Lemma create_effect (th : Thread) (c : Conversation) (r : AnalysisReport) (s : Store) :
  c ∈ held th → (coherent th s → analyze_conversations (messages_all c s) = ok r) →
  effect th s (ConversationAnalysis_create c r s).2.
Proof.
  intros Hc Hr. destruct (has_analysis c s) eqn:E.
  - rewrite ConversationAnalysis_create_dup by done. constructor.
  - rewrite ConversationAnalysis_create_run by done. by constructor.
Qed.

Lemma step_effect (th : Thread) (s : Store) : effect th s (step th s).2.
Proof.
  destruct th as [[cid|c|c|c r]|[d|v|c [|msg msgs]]|[|[|c cs]|c cs|c r cs]|o|];
    cbn [step analyse_step upload_step daily_step]; try by constructor.
  - destruct (Conversation_get cid s); constructor.
  - destruct (has_analysis c s); constructor.
  - destruct (analyze_conversations (messages_all c s)); constructor.
  - pose proof (create_effect (Analyse (ACreate c r)) c r s) as H.
    destruct (ConversationAnalysis_create c r s) as [[e|a] s']; apply H; by try left.
  - destruct (is_valid d); constructor.
  - rewrite Conversation_create_run. cbv beta iota delta [ok]. red_pair.
    apply effect_conversation. by intros [].
  - destruct (upload_message_cases c msg) as [[p Hp] | [e He]].
    + rewrite (upload_message_run _ _ p) by done. cbv beta iota delta [ok]. red_pair.
      apply effect_message; [by intros [] | by left].
    + rewrite He. constructor.
  - destruct (has_analysis c s); constructor.
  - destruct (analyze_conversations (messages_all c s)); constructor.
  - pose proof (create_effect (Daily (DCreate c r cs)) c r s) as H.
    destruct (ConversationAnalysis_create c r s) as [[e|a] s']; apply H; by try left.
Qed.

(** Every effect keeps the invariant and only adds rows at the end of a
    table. *)
Lemma effect_wf (th : Thread) (s s' : Store) :
  store_wf s → held th ⊆ conversations s → effect th s s' →
  store_wf s' ∧ conversations s `prefix_of` conversations s' ∧
  analyses s `prefix_of` analyses s'.
Proof.
  intros Hs Hh [|title _|c p _ Hc|c r Hc Hn _]; cbn.
  - done.
  - split; [by apply store_wf_add_conversation | by split; [apply prefix_app_r|]].
  - split; [|done]. apply store_wf_add_message; [done..|].
    apply (keyed_bounds conv_id); [apply Hs | by apply Hh].
  - split; [|by split; [|apply prefix_app_r]].
    apply store_wf_add_analysis; [done..| |by apply has_analysis_false].
    apply (keyed_bounds conv_id); [apply Hs | by apply Hh].
Qed.

(** Without an upload in progress, an effect is one that analysing
    alone could have had. *)
Lemma effect_grows (th : Thread) (s s' : Store) :
  quiet th → coherent th s → effect th s s' → grows s s'.
Proof.
  intros Hq Hco [|title Hn|c p Hn _|c r _ _ Hr]; [reflexivity | done.. |].
  by apply grows_add_analysis, Hr.
Qed.

(** The conversations a thread holds after its statement are stored. *)
Lemma step_held (th : Thread) (s : Store) :
  held th ⊆ conversations s → held (step th s).1 ⊆ conversations (step th s).2.
Proof.
  intros Hh.
  assert (∀ c r, conversations (ConversationAnalysis_create c r s).2 = conversations s)
    as Hcreate.
  { intros c r. destruct (has_analysis c s) eqn:E;
      [by rewrite ConversationAnalysis_create_dup | by rewrite ConversationAnalysis_create_run]. }
  destruct th as [[cid|c|c|c r]|[d|v|c [|msg msgs]]|[|[|c cs]|c cs|c r cs]|o|];
    cbn [step analyse_step upload_step daily_step].
  - destruct (Conversation_get cid s) as [c|] eqn:Hc; [|held_solver].
    apply Conversation_get_Some in Hc as [Hc _]. by intros x ->%list_elem_of_singleton.
  - destruct (has_analysis c s); held_solver.
  - destruct (analyze_conversations (messages_all c s)); held_solver.
  - specialize (Hcreate c r).
    destruct (ConversationAnalysis_create c r s) as [[e|a] s']; held_solver.
  - destruct (is_valid d); held_solver.
  - rewrite Conversation_create_run. intros x ->%list_elem_of_singleton.
    apply elem_of_app. right. by left.
  - held_solver.
  - destruct (upload_message_cases c msg) as [[p Hp] | [e He]];
      [rewrite (upload_message_run _ _ p) by done | rewrite He]; held_solver.
  - held_solver.
  - held_solver.
  - destruct (has_analysis c s); held_solver.
  - destruct (analyze_conversations (messages_all c s)); held_solver.
  - specialize (Hcreate c r).
    destruct (ConversationAnalysis_create c r s) as [[e|a] s']; cbn in Hcreate;
      [held_solver|]. cbn [fst snd held]. rewrite Hcreate. intros x Hx. apply Hh. by right.
  - held_solver.
  - held_solver.
Qed.

Lemma step_quiet (th : Thread) (s : Store) : quiet th → quiet (step th s).1.
Proof.
  destruct th as [[cid|c|c|c r]| |[|[|c cs]|c cs|c r cs]|o|];
    cbn [step analyse_step daily_step]; try done; intros _.
  - by destruct (Conversation_get cid s).
  - by destruct (has_analysis c s).
  - by destruct (analyze_conversations (messages_all c s)).
  - by destruct (ConversationAnalysis_create c r s) as [[e|a] s'].
  - by destruct (has_analysis c s).
  - by destruct (analyze_conversations (messages_all c s)).
  - by destruct (ConversationAnalysis_create c r s) as [[e|a] s'].
Qed.

(** A report computed is the report of the messages read. *)
Lemma step_coherent (th : Thread) (s : Store) :
  quiet th → coherent (step th s).1 (step th s).2.
Proof.
  destruct th as [[cid|c|c|c r]| |[|[|c cs]|c cs|c r cs]|o|];
    cbn [step analyse_step daily_step]; try done; intros _.
  - by destruct (Conversation_get cid s).
  - by destruct (has_analysis c s).
  - by destruct (analyze_conversations (messages_all c s)) eqn:E.
  - by destruct (ConversationAnalysis_create c r s) as [[e|a] s'].
  - by destruct (has_analysis c s).
  - by destruct (analyze_conversations (messages_all c s)) eqn:E.
  - by destruct (ConversationAnalysis_create c r s) as [[e|a] s'].
Qed.

Lemma coherent_grows (th : Thread) (s s' : Store) :
  grows s s' → coherent th s → coherent th s'.
Proof.
  intros (_ & Hm & _). unfold coherent, messages_all. by rewrite Hm.
Qed.

End pools.

(** ** Every schedule *)

Section schedules.
Context `{W : WordNet} `{T : TextBlob} `{C : Clock}.

Lemma run_cons (i : nat) (sched : list nat) (ps : list Thread * Store) :
  run (i :: sched) ps = run sched (pool_step ps i).
Proof. reflexivity. Qed.

Lemma pool_step_inv (ps : list Thread * Store) (i : nat) :
  pool_inv ps →
  pool_inv (pool_step ps i) ∧ length (pool_step ps i).1 = length ps.1 ∧
  analyses ps.2 `prefix_of` analyses (pool_step ps i).2.
Proof.
  intros [Hs Hh]. unfold pool_step. destruct (ps.1 !! i) as [th|] eqn:Hi; [|done].
  pose proof (Forall_lookup_1 _ _ _ _ Hh Hi) as Hth.
  destruct (effect_wf th _ _ Hs Hth (step_effect th ps.2)) as (Hs' & Hc & Ha).
  pose proof (step_held th ps.2 Hth) as Hth'.
  destruct (step th ps.2) as [th' s']. cbn [fst snd] in *.
  split_and!; [split; [done|] | by rewrite length_insert | done]. cbn [fst snd].
  apply Forall_insert; [|done]. eapply Forall_impl; [exact Hh|].
  intros x Hx c Hc'. eapply elem_of_prefix; [by apply Hx | done].
Qed.

Lemma run_inv (sched : list nat) (ps : list Thread * Store) :
  pool_inv ps →
  pool_inv (run sched ps) ∧ length (run sched ps).1 = length ps.1 ∧
  analyses ps.2 `prefix_of` analyses (run sched ps).2.
Proof.
  revert ps. induction sched as [|i sched IH]; intros ps Hps; [done|].
  rewrite run_cons. destruct (pool_step_inv ps i Hps) as (H1 & Hl & Ha).
  destruct (IH _ H1) as (H2 & Hl' & Ha'). split_and!; [done | congruence | by etrans].
Qed.

Lemma pool_step_grows (ps : list Thread * Store) (i : nat) :
  pool_quiet ps → pool_quiet (pool_step ps i) ∧ grows ps.2 (pool_step ps i).2.
Proof.
  intros [Hq Hco]. unfold pool_step. destruct (ps.1 !! i) as [th|] eqn:Hi;
    [|by split; [|reflexivity]].
  pose proof (Forall_lookup_1 _ _ _ _ Hq Hi) as Hqi.
  pose proof (effect_grows th _ _ Hqi (Forall_lookup_1 _ _ _ _ Hco Hi)
    (step_effect th ps.2)) as Hg.
  pose proof (step_quiet th ps.2 Hqi) as Hq'.
  pose proof (step_coherent th ps.2 Hqi) as Hco'.
  destruct (step th ps.2) as [th' s']. cbn [fst snd] in *.
  split; [split|done]; (apply Forall_insert; [|done]); [done|].
  eapply Forall_impl; [exact Hco|]. intros x. by apply coherent_grows.
Qed.

Lemma run_grows (sched : list nat) (ps : list Thread * Store) :
  pool_quiet ps → grows ps.2 (run sched ps).2.
Proof.
  revert ps. induction sched as [|i sched IH]; intros ps Hps; [reflexivity|].
  rewrite run_cons. destruct (pool_step_grows ps i Hps) as [H1 Hg].
  etrans; [exact Hg | by apply IH].
Qed.

(** A position that moves [n] times in a row. *)
Lemma run_replicate (n i : nat) (pool : list Thread) (th : Thread) (s : Store) :
  pool !! i = Some th →
  run (replicate n i) (pool, s) =
  (<[i := (run_thread n th s).1]> pool, (run_thread n th s).2).
Proof.
  revert pool th s. induction n as [|n IH]; intros pool th s Hi.
  - cbn. by rewrite list_insert_id.
  - cbn [replicate]. rewrite run_cons, run_thread_S. unfold pool_step. cbn [fst snd].
    rewrite Hi. destruct (step th s) as [th' s']. cbn [fst snd].
    rewrite (IH _ th') by (apply list_lookup_insert_eq; by eapply lookup_lt_Some).
    by rewrite list_insert_insert_eq.
Qed.

Lemma run_app (l k : list nat) (ps : list Thread * Store) :
  run (l ++ k) ps = run k (run l ps).
Proof. apply fold_left_app. Qed.

(** The handlers of a pool, one after the other: each ends as its
    handler does on the store the ones before it left. *)
Lemma serial_run (calls : list Call) (ended : list Thread) (s : Store) :
  run (serial (length ended) calls s) (ended ++ (thread_of <$> calls), s) =
  (ended ++ (Finished <$> outcomes calls s), fold_left (λ s call, after call s) calls s).
Proof.
  revert ended s. induction calls as [|call calls IH]; intros ended s.
  { cbn. by rewrite !app_nil_r. }
  cbn [serial outcomes fmap list_fmap fold_left]. rewrite run_app.
  rewrite (run_replicate _ _ _ (thread_of call)) by by apply list_lookup_middle.
  rewrite <- (Nat.add_0_r (statements call s)), call_alone. cbn [fst snd].
  rewrite insert_app_r_alt, Nat.sub_diag by done. cbn [insert list_insert].
  specialize (IH (ended ++ [Finished (outcome_of call s)]) (after call s)).
  rewrite length_app, <- !app_assoc in IH. cbn [length app] in IH.
  by rewrite Nat.add_1_r in IH.
Qed.

(** Two requests for the same conversation, the second testing for a
    report before the first has stored its own. *)
Lemma race_run (s : Store) (conversation_id : Z) (c : Conversation) (r : AnalysisReport) :
  Conversation_get conversation_id s = Some c → has_analysis c s = false →
  analyze_conversations (messages_all c s) = ok r →
  run [0; 0; 1; 1; 0; 0; 1; 1]%nat
    ([Analyse (AGet conversation_id); Analyse (AGet conversation_id)], s) =
  ([Finished (Returned {| data := AnalysisData (analysis_row (conv_id c) r s);
                          status := 201 |});
    Finished (Raised IntegrityError)],
   add_analysis (conv_id c) r s).
Proof.
  intros Hget Hn Hr.
  assert (has_analysis c (add_analysis (conv_id c) r s) = true) as Hn'
    by (by rewrite has_analysis_add, bool_decide_true, orb_true_r).
  do 5 (pool_next; rewrite ?Hget, ?Hn, ?Hr; cbv beta iota delta [ok]).
  pool_next. rewrite ConversationAnalysis_create_run by done. cbv beta iota delta [ok].
  pool_next. change (messages_all c (add_analysis (conv_id c) r s)) with (messages_all c s).
  rewrite Hr. cbv beta iota delta [ok].
  pool_next. by rewrite ConversationAnalysis_create_dup.
Qed.

(** The same between the task and a request: the task has tested, the
    request stores its report, the insertion of the task is refused and
    the task ends there, without a look at the conversations that
    follow. *)
Lemma race_task_view (s : Store) (c : Conversation) (l : list Conversation)
    (r : AnalysisReport) :
  conversations s = c :: l → has_analysis c s = false →
  analyze_conversations (messages_all c s) = ok r →
  run [0; 0; 1; 1; 1; 1; 0; 0]%nat ([Daily DQuery; Analyse (AGet (conv_id c))], s) =
  ([Finished (Raised IntegrityError);
    Finished (Returned {| data := AnalysisData (analysis_row (conv_id c) r s);
                          status := 201 |})],
   add_analysis (conv_id c) r s).
Proof.
  intros Hl Hn Hr.
  assert (Conversation_get (conv_id c) s = Some c) as Hget.
  { unfold Conversation_get. rewrite Hl, filter_cons. by rewrite decide_True. }
  assert (has_analysis c (add_analysis (conv_id c) r s) = true) as Hn'
    by (by rewrite has_analysis_add, bool_decide_true, orb_true_r).
  pool_next. rewrite Hl.
  do 4 (pool_next; rewrite ?Hget, ?Hn, ?Hr; cbv beta iota delta [ok negb]).
  pool_next. rewrite ConversationAnalysis_create_run by done. cbv beta iota delta [ok].
  pool_next. change (messages_all c (add_analysis (conv_id c) r s)) with (messages_all c s).
  rewrite Hr. cbv beta iota delta [ok].
  pool_next. by rewrite ConversationAnalysis_create_dup.
Qed.

End schedules.

(** ** Main results *)

(** C31: Run without interruption, the statements of a handler are the
    handler: the analysis view ends within 4 statements, an upload within
    3 and one per message, the task within 2 and three per conversation,
    the listing in one, each with the answer or the exception and the
    store of the corresponding function of [Handlers], and further steps
    change nothing.  So a schedule that lets the handlers of a pool run
    one after the other leaves the store that the same calls, made in
    sequence, leave. *)
Theorem steps_refine_handlers `{W : WordNet} `{T : TextBlob} `{C : Clock}
    (n : nat) (s : Store) :
  (∀ conversation_id,
     run_thread (4 + n) (Analyse (AGet conversation_id)) s =
     (Finished (view_outcome (AnalyseConversationView_post conversation_id s).1),
      (AnalyseConversationView_post conversation_id s).2)) ∧
  (∀ request_data,
     run_thread (3 + length (default [] (up_messages request_data)) + n)
       (Upload (UValidate request_data)) s =
     (Finished (view_outcome (UploadConversationView_post request_data s).1),
      (UploadConversationView_post request_data s).2)) ∧
  run_thread (2 + 3 * length (conversations s) + n) (Daily DQuery) s =
  (Finished (task_outcome (daily_analyse s).1), (daily_analyse s).2) ∧
  run_thread (1 + n) ListReports s =
  (Finished (view_outcome (ConversationAnalysisListView_get s).1), s) ∧
  (∀ calls,
     run (serial 0 calls s) (thread_of <$> calls, s) =
     (Finished <$> outcomes calls s, fold_left (λ s call, after call s) calls s)).
Proof.
  split_and!; [intros; apply analyse_alone | intros; apply upload_alone | apply daily_alone
              | apply run_thread_finished | intros; apply (serial_run calls [])].
Qed.

(** C30: Whatever the schedule, a pool of handlers keeps the store well
    formed and loses no report, also when handlers raise; the threads
    stay the ones that started.  When no upload is in progress the store
    after the schedule is one that analysing alone could have produced:
    conversations and messages are as before and every report added is
    the report of its conversation, so if every report was the report of
    its conversation before the schedule, every report is afterwards. *)
Theorem interleaving_safe `{W : WordNet} `{T : TextBlob} `{C : Clock}
    (sched : list nat) (pool : list Thread) (s : Store) :
  store_wf s → Forall (λ th, held th ⊆ conversations s) pool →
  store_wf (run sched (pool, s)).2 ∧
  reports s ⊆ reports (run sched (pool, s)).2 ∧
  length (run sched (pool, s)).1 = length pool ∧
  (Forall quiet pool → Forall (λ th, coherent th s) pool →
   grows s (run sched (pool, s)).2 ∧
   (faithful s → faithful (run sched (pool, s)).2)).
Proof.
  intros Hs Hh. destruct (run_inv sched (pool, s)) as ([Hs' _] & Hl & Ha); [done|].
  split_and!; [done | by apply reports_prefix | done |].
  intros Hq Hco. pose proof (run_grows sched (pool, s) (conj Hq Hco)) as Hg.
  split; [done|]. by apply grows_faithful.
Qed.

Lemma interleaving_safe_witness :
  store_wf (run (W := toy_wordnet) (T := toy_textblob) (C := unit_clock)
    [0; 1; 1; 0; 1; 0; 1; 0; 1; 1]%nat
    ([Analyse (AGet 1); Daily DQuery], store_resolved)).2 ∧
  reports store_resolved ⊆
    reports (run (W := toy_wordnet) (T := toy_textblob) (C := unit_clock)
      [0; 1; 1; 0; 1; 0; 1; 0; 1; 1]%nat
      ([Analyse (AGet 1); Daily DQuery], store_resolved)).2 ∧
  length (run (W := toy_wordnet) (T := toy_textblob) (C := unit_clock)
    [0; 1; 1; 0; 1; 0; 1; 0; 1; 1]%nat
    ([Analyse (AGet 1); Daily DQuery], store_resolved)).1 = 2%nat ∧
  (Forall quiet [Analyse (AGet 1); Daily DQuery] →
   Forall (λ th, coherent (W := toy_wordnet) (T := toy_textblob) th store_resolved)
     [Analyse (AGet 1); Daily DQuery] →
   grows (W := toy_wordnet) (T := toy_textblob) store_resolved
     (run (W := toy_wordnet) (T := toy_textblob) (C := unit_clock)
        [0; 1; 1; 0; 1; 0; 1; 0; 1; 1]%nat
        ([Analyse (AGet 1); Daily DQuery], store_resolved)).2 ∧
   (faithful (W := toy_wordnet) (T := toy_textblob) store_resolved →
    faithful (W := toy_wordnet) (T := toy_textblob)
      (run (W := toy_wordnet) (T := toy_textblob) (C := unit_clock)
         [0; 1; 1; 0; 1; 0; 1; 0; 1; 1]%nat
         ([Analyse (AGet 1); Daily DQuery], store_resolved)).2)).
Proof.
  apply (interleaving_safe (W := toy_wordnet) (T := toy_textblob) (C := unit_clock)).
  - exact (after_wf (W := toy_wordnet) (T := toy_textblob) (C := unit_clock)
      (PostConversations upload_resolved) (empty_store 0) (store_wf_empty 0)).
  - repeat (constructor; [apply list_subseteq_nil|]). constructor.
Defined.

(** C34: The test for an existing report and the insertion are not one
    step.  Two requests for a conversation without a report, the second
    testing before the first has inserted: the first is answered 201, the
    second raises [IntegrityError] at the insertion, which the view does
    not handle.  One after the other, the second is answered 400, already
    analysed.  The store is the same in both cases, with the one report. *)
Theorem analyse_race `{W : WordNet} `{T : TextBlob} `{C : Clock}
    (s : Store) (conversation_id : Z) (c : Conversation) (r : AnalysisReport) :
  Conversation_get conversation_id s = Some c → has_analysis c s = false →
  analyze_conversations (messages_all c s) = ok r →
  run [0; 0; 1; 1; 0; 0; 1; 1]%nat
    ([Analyse (AGet conversation_id); Analyse (AGet conversation_id)], s) =
  ([Finished (Returned {| data := AnalysisData (analysis_row (conv_id c) r s);
                          status := 201 |});
    Finished (Raised IntegrityError)],
   add_analysis (conv_id c) r s) ∧
  run [0; 0; 0; 0; 1; 1; 1; 1]%nat
    ([Analyse (AGet conversation_id); Analyse (AGet conversation_id)], s) =
  ([Finished (Returned {| data := AnalysisData (analysis_row (conv_id c) r s);
                          status := 201 |});
    Finished (Returned {| data := PlainMessage "Already analysed"; status := 400 |})],
   add_analysis (conv_id c) r s).
Proof.
  intros Hget Hn Hr. split; [by apply race_run|].
  assert (has_analysis c (add_analysis (conv_id c) r s) = true) as Hn'
    by (by rewrite has_analysis_add, bool_decide_true, orb_true_r).
  do 3 (pool_next; rewrite ?Hget, ?Hn, ?Hr; cbv beta iota delta [ok]).
  pool_next. rewrite ConversationAnalysis_create_run by done. cbv beta iota delta [ok].
  pool_next.
  change (Conversation_get conversation_id (add_analysis (conv_id c) r s))
    with (Conversation_get conversation_id s).
  rewrite Hget. pool_next. by rewrite Hn'.
Qed.

Lemma analyse_race_witness :
  ∃ a s',
    run (W := toy_wordnet) (T := toy_textblob) (C := unit_clock)
      [0; 0; 1; 1; 0; 0; 1; 1]%nat ([Analyse (AGet 1); Analyse (AGet 1)], store_resolved) =
    ([Finished (Returned {| data := AnalysisData a; status := 201 |});
      Finished (Raised IntegrityError)], s') ∧
    run (W := toy_wordnet) (T := toy_textblob) (C := unit_clock)
      [0; 0; 0; 0; 1; 1; 1; 1]%nat ([Analyse (AGet 1); Analyse (AGet 1)], store_resolved) =
    ([Finished (Returned {| data := AnalysisData a; status := 201 |});
      Finished (Returned {| data := PlainMessage "Already analysed"; status := 400 |})], s').
Proof.
  destruct (analyze_conversations_returns (W := toy_wordnet) (T := toy_textblob)
    (messages_all (conversation_row (Some "Untitled Conversation") (empty_store 0))
       store_resolved)) as (r & Hr & _).
  eexists _, _.
  exact (analyse_race (W := toy_wordnet) (T := toy_textblob) (C := unit_clock)
    store_resolved 1 (conversation_row (Some "Untitled Conversation") (empty_store 0)) r
    eq_refl eq_refl Hr).
Defined.

