(* ===== verification/Serializers.v ===== *)
(** * Serializers: what leaves the store, and what enters a report row

    The three [ModelSerializer] classes of
    [src/conversations/serializers.py] as functions from a row to the
    dictionary they produce ([MessageSerializer_data],
    [ConversationSerializer_data], [ConversationAnalysisSerializer_data]):
    one entry per name of [fields], in that order, [__all__] being the
    columns of the model in the order of their declaration.  The
    [__str__] methods of [src/conversations/models.py].  And the step
    between the analyzer and the store that the records of [Analyzer] and
    [Store] leave implicit: [analyze_conversations] returns a dictionary
    with string keys ([report_dict]), and
    [ConversationAnalysis.objects.create], called with the conversation
    and with that dictionary as keyword arguments, accepts it only if
    every key names a column and every column without a default receives
    a value ([check_kwargs]).  [Response_data] is the body of a response
    of [src/conversations/views.py], [report_of_dict] and
    [analysis_of_data] read a dictionary back.

    A value is a tagged union of what the dictionaries hold.  A date is
    kept as its number of microseconds: the text format of dates is not
    modelled. *)

From stdpp Require Import gmap pretty.
From S2P Require Import Prelude PyStr Transcript Capabilities Lexical Pairs Sentiment Analyzer.
From S2P Require Import Store Handlers.

(** ** Values *)

#[local] Set Warnings "-register-all".

Inductive Value : Type :=
  | VNone
  | VBool (b : bool)
  | VInt (n : Z)
  | VFloat (q : Q)
  | VStr (s : string)
  | VDateTime (t : Z)
  | VList (l : list Value)
  | VDict (d : list (string * Value)).

(** [d.get(key)] on a dictionary kept in insertion order. *)
Fixpoint dict_get (key : string) (d : list (string * Value)) : option Value :=
  match d with
  | [] => None
  | (k, v) :: d' => if decide (k = key) then Some v else dict_get key d'
  end.

Definition keys (d : list (string * Value)) : list string := d.*1.

(** ** The output serializers *)



Definition ConversationAnalysisSerializer_data (a : ConversationAnalysis) :
    list (string * Value) :=
  let r := an_report a in
  [ ("id", VInt (an_id a));
    ("conversation", VInt (an_conversation a));
    ("clarity_score", VFloat (rep_clarity_score r));
    ("relevance_score", VFloat (rep_relevance_score r));
    ("accuracy_score", VFloat (rep_accuracy_score r));
    ("completeness_score", VFloat (rep_completeness_score r));
    ("sentiment", VStr (sentiment_label (rep_sentiment r)));
    ("empathy_score", VFloat (rep_empathy_score r));
    ("resolution", VBool (rep_resolution r));
    ("escalation_needed", VBool (rep_escalation_needed r));
    ("fallback_count", VInt (rep_fallback_count r));
    ("average_response_time",
     match rep_average_response_time r with Some q => VFloat q | None => VNone end);
    ("overall_score", VFloat (rep_overall_score r));
    ("created_at", VDateTime (an_created_at a)) ].

(** The body of a response as the views build it: a dictionary written
    out in the view, or the data of the report serializer, for one row or
    for the rows of the table.  The errors of the upload serializer are
    worded by the framework: no value is given for them. *)
Definition Response_data (b : Body) : option Value :=
  match b with
  | Uploaded message conversation_id =>
      Some (VDict [("message", VStr message); ("conversation_id", VInt conversation_id)])
  | Errors => None
  | ErrorMessage error => Some (VDict [("error", VStr error)])
  | PlainMessage message => Some (VDict [("message", VStr message)])
  | AnalysisData analysis => Some (VDict (ConversationAnalysisSerializer_data analysis))
  | AnalysisList results =>
      Some (VList ((λ a, VDict (ConversationAnalysisSerializer_data a)) <$> results))
  end.

(** ** The names of the rows *)

(** [s[:n]] *)
Definition slice_to (n : nat) (s : string) : string := String.substring 0 n s.

(** [self.title or f"conversations {self.id}"]: [None] and the empty
    string are false. *)
Definition Conversation_str (c : Conversation) : string :=
  match title c with
  | Some (String a t) => String a t
  | _ => "conversations " +:+ pretty (conv_id c)
  end.

Definition Message_str (m : MessageRow) : string :=
  sender (msg_fields m) +:+ ": " +:+ slice_to 30 (text (msg_fields m)).

Definition ConversationAnalysis_str (a : ConversationAnalysis) : string :=
  "Analysis for conversation " +:+ pretty (an_conversation a).

(** ** From the dictionary of the analyzer to a row *)

(** The dictionary [analyze_conversations] returns. *)
Definition report_dict (r : AnalysisReport) : list (string * Value) :=
  [ ("clarity_score", VFloat (rep_clarity_score r));
    ("relevance_score", VFloat (rep_relevance_score r));
    ("accuracy_score", VFloat (rep_accuracy_score r));
    ("completeness_score", VFloat (rep_completeness_score r));
    ("sentiment", VStr (sentiment_label (rep_sentiment r)));
    ("empathy_score", VFloat (rep_empathy_score r));
    ("fallback_count", VInt (rep_fallback_count r));
    ("escalation_needed", VBool (rep_escalation_needed r));
    ("average_response_time",
     match rep_average_response_time r with Some q => VFloat q | None => VNone end);
    ("resolution", VBool (rep_resolution r));
    ("overall_score", VFloat (rep_overall_score r)) ].

(** The columns of [ConversationAnalysis]. *)
Inductive Field : Type :=
  | AutoField
  | OneToOneField
  | FloatField (null : bool) (has_default : bool)
  | CharField (max_length : nat)
  | BooleanField (has_default : bool)
  | IntegerField (has_default : bool)
  | DateTimeField (auto_now_add : bool).

Definition ConversationAnalysis_fields : list (string * Field) :=
  [ ("id", AutoField);
    ("conversation", OneToOneField);
    ("clarity_score", FloatField false false);
    ("relevance_score", FloatField false false);
    ("accuracy_score", FloatField false false);
    ("completeness_score", FloatField false false);
    ("sentiment", CharField 20);
    ("empathy_score", FloatField false false);
    ("resolution", BooleanField true);
    ("escalation_needed", BooleanField true);
    ("fallback_count", IntegerField true);
    ("average_response_time", FloatField true true);
    ("overall_score", FloatField false false);
    ("created_at", DateTimeField true) ].

(** A column that [create] fills when no value is given for it: one
    with a default, the key, a date set on insertion, and a text column,
    which stores the empty string. *)
Definition optional (f : Field) : bool :=
  match f with
  | AutoField => true
  | OneToOneField => false
  | FloatField _ has_default => has_default
  | CharField _ => true
  | BooleanField has_default => has_default
  | IntegerField has_default => has_default
  | DateTimeField auto_now_add => auto_now_add
  end.

(** A column that stores [None]. *)
Definition nullable (f : Field) : bool :=
  match f with
  | FloatField null _ => null
  | _ => false
  end.

(** The model called with keyword arguments, then saved: a key that
    names no column is a [TypeError]; a column that is not optional and
    receives nothing, or that is not nullable and receives [None], is
    refused by the database. *)
Definition check_kwargs (fields : list (string * Field)) (kwargs : list (string * Value)) :
    result unit :=
  if negb (forallb (λ k, bool_decide (k ∈ fields.*1)) (keys kwargs))
  then raise TypeError
  else if forallb (λ '(name, f),
            match dict_get name kwargs with
            | Some VNone => nullable f
            | Some _ => true
            | None => optional f
            end) fields
  then ok ()
  else raise IntegrityError.

(** ** Reference definitions *)

(** A value of the kind the column declares: a number for a float column
    ([None] if it is nullable), a text within [max_length], a boolean, an
    integer, a date. *)
Definition accepts (f : Field) (v : Value) : bool :=
  match f, v with
  | AutoField, VInt _ => true
  | OneToOneField, VInt _ => true
  | FloatField _ _, (VFloat _ | VInt _) => true
  | FloatField null _, VNone => null
  | CharField max_length, VStr s => bool_decide (String.length s ≤ max_length)%nat
  | BooleanField _, VBool _ => true
  | IntegerField _, VInt _ => true
  | DateTimeField _, VDateTime _ => true
  | _, _ => false
  end.

Definition sentiment_of_label (s : string) : option Sentiment :=
  if decide (s = "positive") then Some positive
  else if decide (s = "negative") then Some negative
  else if decide (s = "neutral") then Some neutral
  else None.

Definition as_float (v : Value) : option Q :=
  match v with VFloat q => Some q | _ => None end.

Definition as_int (v : Value) : option Z :=
  match v with VInt n => Some n | _ => None end.

Definition as_bool (v : Value) : option bool :=
  match v with VBool b => Some b | _ => None end.

Definition as_datetime (v : Value) : option Z :=
  match v with VDateTime t => Some t | _ => None end.

Definition as_nullable_float (v : Value) : option (option Q) :=
  match v with VFloat q => Some (Some q) | VNone => Some None | _ => None end.

(** The report a dictionary with the keys of the analyzer denotes. *)
Definition report_of_dict (d : list (string * Value)) : option AnalysisReport :=
  clarity ← dict_get "clarity_score" d ≫= as_float;
  relevance ← dict_get "relevance_score" d ≫= as_float;
  accuracy ← dict_get "accuracy_score" d ≫= as_float;
  completeness ← dict_get "completeness_score" d ≫= as_float;
  sentiment ← dict_get "sentiment" d ≫= (λ v, match v with VStr s => sentiment_of_label s | _ => None end);
  empathy ← dict_get "empathy_score" d ≫= as_float;
  fallback ← dict_get "fallback_count" d ≫= as_int;
  escalation ← dict_get "escalation_needed" d ≫= as_bool;
  avg ← dict_get "average_response_time" d ≫= as_nullable_float;
  resolution ← dict_get "resolution" d ≫= as_bool;
  overall ← dict_get "overall_score" d ≫= as_float;
  Some {| rep_clarity_score := clarity; rep_relevance_score := relevance;
          rep_accuracy_score := accuracy; rep_completeness_score := completeness;
          rep_sentiment := sentiment; rep_empathy_score := empathy;
          rep_fallback_count := fallback; rep_escalation_needed := escalation;
          rep_average_response_time := avg; rep_resolution := resolution;
          rep_overall_score := overall |}.

(** The row a serialized report denotes. *)
Definition analysis_of_data (d : list (string * Value)) : option ConversationAnalysis :=
  id ← dict_get "id" d ≫= as_int;
  conversation ← dict_get "conversation" d ≫= as_int;
  report ← report_of_dict d;
  created ← dict_get "created_at" d ≫= as_datetime;
  Some {| an_id := id; an_conversation := conversation; an_report := report;
          an_created_at := created |}.

(** The rows a body of the report routes denotes. *)
Definition analyses_of_body (v : Value) : option (list ConversationAnalysis) :=
  match v with
  | VDict d => a ← analysis_of_data d; Some [a]
  | VList l => mapM (λ v, match v with VDict d => analysis_of_data d | _ => None end) l
  | _ => None
  end.

(** ** The names of the rows *)

Lemma slice_to_length (n : nat) (s : string) : (String.length (slice_to n s) ≤ n)%nat.
Proof.
  unfold slice_to. revert s. induction n as [|n IH]; intros [|c s]; cbn; try lia.
  specialize (IH s). lia.
Qed.

Lemma string_length_app (s t : string) :
  String.length (s +:+ t) = (String.length s + String.length t)%nat.
Proof. induction s as [|c s IH]; [done|]. rewrite sapp_cons. cbn. by rewrite IH. Qed.

(** The name of a message is its sender and at most 30 characters of its
    text; the name of a conversation is never empty; two reports have the
    same name only if they are reports of the same conversation. *)
Lemma row_names (m : MessageRow) (c : Conversation) (a1 a2 : ConversationAnalysis) :
  (String.length (Message_str m) ≤ String.length (sender (msg_fields m)) + 32)%nat ∧
  Conversation_str c ≠ "" ∧
  (ConversationAnalysis_str a1 = ConversationAnalysis_str a2 →
   an_conversation a1 = an_conversation a2).
Proof.
  split_and!.
  - unfold Message_str. rewrite !string_length_app.
    pose proof (slice_to_length 30 (text (msg_fields m))). cbn. lia.
  - unfold Conversation_str. by destruct (title c) as [[|??]|].
  - unfold ConversationAnalysis_str. intros E.
    by apply (inj (String.append _)), (inj pretty) in E.
Qed.

(** ** Reading a serialized report back *)

Lemma analysis_of_data_serializer (a : ConversationAnalysis) :
  analysis_of_data (ConversationAnalysisSerializer_data a) = Some a.
Proof. by destruct a as [? ? [? ? ? ? [] ? ? ? [?|] ? ?] ?]. Qed.

(** What the two report routes answer denotes rows of the table: the
    list route all of them, in order, whatever the store; the analysis
    route, when it answers 201, the row it has just added. *)
Lemma report_bodies `{W : WordNet} `{T : TextBlob} `{C : Clock} (conversation_id : Z)
    (s : Store) :
  (∃ r, ConversationAnalysisListView_get s = (ok r, s) ∧ status r = 200%Z ∧
     Response_data (data r) ≫= analyses_of_body = Some (analyses s)) ∧
  (∀ r s', AnalyseConversationView_post conversation_id s = (ok r, s') →
     status r = 201%Z →
     ∃ a, Response_data (data r) ≫= analyses_of_body = Some [a] ∧
       analyses s' = analyses s ++ [a] ∧ an_conversation a = conversation_id).
Proof.
  split.
  - eexists. split_and!; [done..|].
    cbn [data Response_data analyses_of_body mbind option_bind].
    apply mapM_Some, Forall2_fmap_l, Forall_Forall2_diag, Forall_forall.
    intros a _. apply analysis_of_data_serializer.
  - intros r s'. rewrite AnalyseConversationView_post_run.
    destruct (Conversation_get conversation_id s) as [c|] eqn:Hc; [|by intros [= <- <-]].
    apply Conversation_get_Some in Hc as [_ <-].
    destruct (has_analysis c s); [by intros [= <- <-]|].
    destruct (analyze_conversations (messages_all c s)) as [e|rep]; [done|].
    intros [= <- <-] _. eexists. split; [|done].
    cbn [data Response_data analyses_of_body mbind option_bind].
    by rewrite analysis_of_data_serializer.
Qed.

(** ** Keyword arguments against columns *)

Lemma dict_get_Some (key : string) (d : list (string * Value)) (v : Value) :
  dict_get key d = Some v → (key, v) ∈ d.
Proof.
  induction d as [|[k w] d IH]; [done|]. cbn. case_decide as E.
  - intros [= ->]. subst. left.
  - right. auto.
Qed.

Lemma dict_get_None (key : string) (d : list (string * Value)) :
  dict_get key d = None ↔ key ∉ keys d.
Proof.
  unfold keys. induction d as [|[k w] d IH]; cbn.
  - split; [intros _; apply not_elem_of_nil | done].
  - rewrite not_elem_of_cons, <- IH.
    case_decide; (split; [intros; split|intros []]); congruence.
Qed.

Lemma forallb_Forall {A} (f : A → bool) (l : list A) :
  forallb f l = true ↔ Forall (λ x, f x = true) l.
Proof.
  rewrite <- Is_true_true, forallb_True. apply Forall_proper; [|done].
  intros x. apply Is_true_true.
Qed.

(** [create] accepts the keyword arguments exactly when every key names a
    column and every column receives a value other than [None], or [None]
    and is nullable, or nothing and is optional; an unknown key is reported
    before a missing value. *)
Lemma check_kwargs_cases (fields : list (string * Field)) (kwargs : list (string * Value)) :
  (check_kwargs fields kwargs = ok () ↔
     keys kwargs ⊆ fields.*1 ∧
     Forall (λ nf, match dict_get nf.1 kwargs with
                   | Some VNone => nullable nf.2 = true
                   | Some _ => True
                   | None => optional nf.2 = true
                   end) fields) ∧
  (check_kwargs fields kwargs = raise TypeError ↔ ¬ keys kwargs ⊆ fields.*1).
Proof.
  unfold check_kwargs.
  assert (keys kwargs ⊆ fields.*1 ↔
          forallb (λ k, bool_decide (k ∈ fields.*1)) (keys kwargs) = true) as ->.
  { rewrite forallb_Forall, Forall_forall. by setoid_rewrite bool_decide_eq_true. }
  assert (Forall (λ nf, match dict_get nf.1 kwargs with
                        | Some VNone => nullable nf.2 = true
                        | Some _ => True
                        | None => optional nf.2 = true
                        end) fields ↔
          forallb (λ '(name, f), match dict_get name kwargs with
                                 | Some VNone => nullable f
                                 | Some _ => true
                                 | None => optional f
                                 end) fields = true) as ->.
  { rewrite forallb_Forall. apply Forall_proper; [|done].
    intros [name f]. cbn. by destruct (dict_get name kwargs) as [[]|]. }
  destruct (forallb _ (keys kwargs)), (forallb _ fields); cbn;
    (split; split; [try done; by intros []..]); congruence.
Qed.

Lemma sentiment_label_length (s : Sentiment) : (String.length (sentiment_label s) ≤ 8)%nat.
Proof. destruct s; cbn; lia. Qed.

Lemma sentiment_of_label_label (s : Sentiment) :
  sentiment_of_label (sentiment_label s) = Some s.
Proof. by destruct s. Qed.

Lemma report_of_dict_report_dict (r : AnalysisReport) :
  report_of_dict (report_dict r) = Some r.
Proof. by destruct r as [? ? ? ? [] ? ? ? [?|] ? ?]. Qed.

Lemma check_kwargs_report (cid : Z) (r : AnalysisReport) :
  check_kwargs ConversationAnalysis_fields (("conversation", VInt cid) :: report_dict r)
  = ok ().
Proof. by destruct r as [? ? ? ? [] ? ? ? [?|] ? ?]. Qed.

(** C32: The dictionary the analyzer returns is a well-typed row of
    the report table: its eleven keys are distinct and each names a column,
    each value is one its column stores (a float, a label of at most 20
    characters, a boolean, an integer, or null for the one nullable
    column), so that [create], given the conversation and the dictionary
    as keyword arguments, raises neither [TypeError] nor [IntegrityError];
    the four columns the dictionary leaves out are the key, the
    conversation and the two the database fills, and without the
    conversation the database refuses the row.  The dictionary denotes the
    report it was made from. *)
Theorem create_kwargs_typed (cid : Z) (r : AnalysisReport) :
  check_kwargs ConversationAnalysis_fields (("conversation", VInt cid) :: report_dict r)
  = ok () ∧
  NoDup (keys (report_dict r)) ∧
  (∀ name v, dict_get name (report_dict r) = Some v →
     ∃ f, (name, f) ∈ ConversationAnalysis_fields ∧ accepts f v = true) ∧
  filter (λ nf, nf.1 ∉ keys (report_dict r)) ConversationAnalysis_fields
  = [("id", AutoField); ("conversation", OneToOneField);
     ("created_at", DateTimeField true)] ∧
  check_kwargs ConversationAnalysis_fields (report_dict r) = raise IntegrityError ∧
  report_of_dict (report_dict r) = Some r.
Proof.
  split_and!; [apply check_kwargs_report | | | done | | apply report_of_dict_report_dict].
  - cbn. compute_done.
  - intros name v Hv%dict_get_Some. cbn in Hv.
    pose proof (sentiment_label_length (rep_sentiment r)).
    repeat (apply elem_of_cons in Hv as [[= -> ->] | Hv];
      [eexists; split; [repeat first [by left | right]|]; cbn;
       try done; try (by apply bool_decide_eq_true; lia);
       by destruct (rep_average_response_time r) |]).
    by apply elem_of_nil in Hv.
  - by destruct r as [? ? ? ? [] ? ? ? [?|] ? ?].
Qed.

