(* ===== verification/Routes.v ===== *)
(** * Routes: URL resolution and the dispatch of a request to a view

    The two routing tables, [urlpatterns] of [src/kipps_analysis/urls.py]
    and of [src/conversations/urls.py] ([conversations_urlpatterns]), and
    what Django and the REST framework do with them: a route is matched
    against the path segment by segment ([match_route]), [<int:name>]
    takes a non-empty run of ASCII digits and converts it with [int]
    ([span_digits], [int_of_digits]), the patterns are tried in order and
    an [include] continues with the rest of the path ([resolve]).  A view
    answers the methods it defines a handler for and 405 otherwise
    ([dispatch]); an exception that leaves a view becomes the answer 500,
    with the store as the view left it ([serve]).

    [reverse_analyse] prints the path of the analysis route and [reverse]
    the path of a route that has a name.  HEAD is answered by the handler
    of GET where there is one, and OPTIONS by the description the framework
    gives of a view ([Metadata]).  The admin site and the documentation
    views are library code: the tables send a path to them and
    [schema_view] holds the arguments the documentation is built with,
    what they answer is not modelled ([status_code] gives no status for
    them).  Redirects that add a missing final slash and the parsing of the
    body of a request are not modelled either. *)

From Stdlib Require Import Ascii.
From stdpp Require Import gmap pretty.
From S2P Require Import Prelude PyStr Transcript Capabilities Lexical Pairs Sentiment Analyzer.
From S2P Require Import Store Handlers.

#[local] Set Warnings "-clear-no-such-hyp".

(** ** Matching a route *)

Definition is_digit (c : ascii) : bool :=
  let n := N_of_ascii c in ((48 <=? n) && (n <=? 57))%N.

Definition digit_value (c : ascii) : Z := Z.of_N (N_of_ascii c) - 48.

(** [int(value)] for a run of digits, read from the left with the value
    so far. *)
Fixpoint int_from (acc : Z) (ds : string) : Z :=
  match ds with
  | EmptyString => acc
  | String c ds' => int_from (acc * 10 + digit_value c) ds'
  end.

Definition int_of_digits (ds : string) : Z := int_from 0 ds.

(** The longest run of digits at the head of a string, and the rest. *)
Fixpoint span_digits (s : string) : string * string :=
  match s with
  | EmptyString => (EmptyString, EmptyString)
  | String c s' =>
      if is_digit c then
        let '(ds, rest) := span_digits s' in (String c ds, rest)
      else (EmptyString, s)
  end.

(** The rest of [s] after the prefix [p], if [s] starts with [p]. *)
Fixpoint strip_prefix (p s : string) : option string :=
  match p, s with
  | EmptyString, _ => Some s
  | String a p', String b s' => if Ascii.eqb a b then strip_prefix p' s' else None
  | String _ _, EmptyString => None
  end.

(** A route as [path()] reads it: literal text and parameters with the
    [int] converter. *)
Inductive Segment : Type :=
  | Lit (s : string)
  | IntParam (name : string).

Definition kwargs : Type := list (string * Z).

(** The keyword arguments captured by a route at the head of a path, and
    the rest of the path. *)
Fixpoint match_route (route : list Segment) (path : string) : option (kwargs * string) :=
  match route with
  | [] => Some ([], path)
  | Lit l :: route' =>
      rest ← strip_prefix l path; match_route route' rest
  | IntParam name :: route' =>
      let '(ds, rest) := span_digits path in
      match ds with
      | EmptyString => None
      | _ =>
          '(kw, rest') ← match_route route' rest;
          Some ((name, int_of_digits ds) :: kw, rest')
      end
  end.

(** ** The routing tables *)

Inductive View : Type :=
  | UploadConversationView
  | AnalyseConversationView
  | ConversationAnalysisListView
  | AdminSite
  | SwaggerUI
  | RedocUI.

#[export] Instance View_eq_dec : EqDecision View.
Proof. solve_decision. Defined.

(** What a pattern of the project leads to: a view, the patterns of an
    application, or a site that resolves the rest of the path itself. *)
Inductive Target : Type :=
  | Endpoint (v : View)
  | Include (patterns : list (list Segment * View))
  | Site (v : View).

Definition conversations_urlpatterns : list (list Segment * View) :=
  [ ([Lit "conversations/"], UploadConversationView);
    ([Lit "analyse/"; IntParam "conversation_id"; Lit "/"], AnalyseConversationView);
    ([Lit "reports/"], ConversationAnalysisListView) ].

(** The description of the interface the documentation views show, and
    who may see it. *)
Inductive Permission : Type :=
  | AllowAny.

Record Info : Type := {
  info_title : string;
  default_version : string;
  description : string;
  contact_email : string;
}.

Record SchemaView : Type := {
  info : Info;
  public : bool;
  permission_classes : list Permission;
}.

Definition schema_view : SchemaView :=
  {| info := {| info_title := "Kipps Conversation Analysis API";
                default_version := "v1";
                description := "API documentation for conversation analytics";
                contact_email := "your-email@example.com" |};
     public := true;
     permission_classes := [AllowAny] |}.

(** A pattern of the project: the route, where it leads and the [name]
    it is given, if any. *)
Definition urlpatterns : list (list Segment * Target * option string) :=
  [ ([Lit "admin/"], Site AdminSite, None);
    ([Lit "api/"], Include conversations_urlpatterns, None);
    ([Lit "swagger/"], Endpoint SwaggerUI, Some "swagger-ui");
    ([Lit "redoc/"], Endpoint RedocUI, Some "redoc-ui") ].

(** The first pattern of an application that matches the whole path. *)
Fixpoint resolve_in (patterns : list (list Segment * View)) (path : string) :
    option (View * kwargs) :=
  match patterns with
  | [] => None
  | (route, v) :: patterns' =>
      match match_route route path with
      | Some (kw, EmptyString) => Some (v, kw)
      | _ => resolve_in patterns' path
      end
  end.

(** The patterns of the project, tried in order. *)
Fixpoint resolve_from (patterns : list (list Segment * Target * option string))
    (path : string) : option (View * kwargs) :=
  match patterns with
  | [] => None
  | (route, target, _) :: patterns' =>
      match match_route route path with
      | Some (kw, rest) =>
          match target with
          | Endpoint v =>
              match rest with
              | EmptyString => Some (v, kw)
              | _ => resolve_from patterns' path
              end
          | Include sub =>
              match resolve_in sub rest with
              | Some (v, kw') => Some (v, kw ++ kw')
              | None => resolve_from patterns' path
              end
          | Site v => Some (v, kw)
          end
      | None => resolve_from patterns' path
      end
  end.

(** [resolve(path_info)]: the path of a request starts with a slash. *)
Definition resolve (path_info : string) : option (View * kwargs) :=
  match path_info with
  | String "/" path => resolve_from urlpatterns path
  | _ => None
  end.

(** The path of the analysis of a conversation. *)
Definition reverse_analyse (conversation_id : Z) : string :=
  "/api/analyse/" +:+ pretty conversation_id +:+ "/".

(** The text of a route without parameters. *)
Fixpoint literal (route : list Segment) : option string :=
  match route with
  | [] => Some EmptyString
  | Lit l :: route' => rest ← literal route'; Some (l +:+ rest)
  | IntParam _ :: _ => None
  end.

(** [reverse(viewname)] without arguments: the path of the pattern of the
    project with that name; [None] is [NoReverseMatch]. *)
Definition reverse (viewname : string) : option string :=
  '(route, _, _) ← head (filter (λ p, p.2 = Some viewname) urlpatterns);
  path ← literal route;
  Some ("/" +:+ path).

(** ** Dispatch *)

Inductive Method : Type :=
  | GET
  | POST
  | PUT
  | PATCH
  | DELETE
  | HEAD
  | OPTIONS
  | TRACE.

Record HttpRequest : Type := {
  method : Method;
  path_info : string;
  request_data : UploadData;
}.

(** What a request is answered: the response of a view of the
    application, or an answer that the framework or a library produces. *)
Inductive HttpResponse : Type :=
  | FromView (r : Response)
  | NotFound
  | MethodNotAllowed
  | Metadata (v : View)
  | FromLibrary (v : View)
  | ServerError (e : exn).

(** The status of an answer; what the admin site and the documentation
    views answer is theirs to decide. *)
Definition status_code (r : HttpResponse) : option Z :=
  match r with
  | FromView r => Some (status r)
  | NotFound => Some 404%Z
  | MethodNotAllowed => Some 405%Z
  | Metadata _ => Some 200%Z
  | FromLibrary _ => None
  | ServerError _ => Some 500%Z
  end.

(** [View.dispatch]: the handler named after the method, if the class
    defines one, called with the keyword arguments of the route.  A class
    with a handler for GET answers HEAD with it, and every view of the
    framework has a handler for OPTIONS. *)
Definition dispatch `{W : WordNet} `{T : TextBlob} `{C : Clock}
    (request : HttpRequest) (v : View) (kw : kwargs) : M HttpResponse :=
  match v, method request with
  | UploadConversationView, POST =>
      response ← UploadConversationView_post (request_data request);
      mret (FromView response)
  | AnalyseConversationView, POST =>
      match list_to_map (M := gmap string Z) kw !! "conversation_id" with
      | Some conversation_id =>
          response ← AnalyseConversationView_post conversation_id;
          mret (FromView response)
      | None => lift (raise TypeError)
      end
  | ConversationAnalysisListView, (GET | HEAD) =>
      response ← ConversationAnalysisListView_get;
      mret (FromView response)
  | (UploadConversationView | AnalyseConversationView | ConversationAnalysisListView),
    OPTIONS =>
      mret (Metadata v)
  | (UploadConversationView | AnalyseConversationView | ConversationAnalysisListView), _ =>
      mret MethodNotAllowed
  | (AdminSite | SwaggerUI | RedocUI), _ => mret (FromLibrary v)
  end.

(** A request from its arrival to its answer: no route is 404, an
    exception that leaves the view is 500. *)
Definition serve `{W : WordNet} `{T : TextBlob} `{C : Clock}
    (request : HttpRequest) (s : Store) : HttpResponse * Store :=
  match resolve (path_info request) with
  | None => (NotFound, s)
  | Some (v, kw) =>
      match dispatch request v kw s with
      | (inr response, s') => (response, s')
      | (inl e, s') => (ServerError e, s')
      end
  end.

(** ** Reference definitions *)

(** A run of digits. *)
Definition digits (ds : string) : Prop := str_all is_digit ds = true.

(** A string that does not continue a run of digits. *)
Definition no_digit_ahead (s : string) : Prop :=
  match s with
  | EmptyString => True
  | String c _ => is_digit c = false
  end.

(** ** Decimal numerals *)

Lemma int_from_app (acc : Z) (a b : string) :
  int_from acc (a +:+ b) = int_from (int_from acc a) b.
Proof.
  revert acc. induction a as [|c a IH]; intros acc; [done|].
  rewrite sapp_cons. cbn [int_from]. apply IH.
Qed.

Lemma pretty_N_char_digit (x : N) :
  (x < 10)%N → is_digit (pretty_N_char x) = true ∧ digit_value (pretty_N_char x) = Z.of_N x.
Proof.
  intros H.
  assert (x = 0 ∨ x = 1 ∨ x = 2 ∨ x = 3 ∨ x = 4 ∨ x = 5 ∨ x = 6 ∨ x = 7 ∨ x = 8 ∨ x = 9)%N
    as H' by lia.
  repeat (destruct H' as [->|H']; [by split|]). subst x. by split.
Qed.

(** The digits of a number are printed from its last one. *)
Lemma pretty_N_go_app (m : N) (s : string) :
  pretty_N_go m s = pretty_N_go m "" +:+ s.
Proof.
  revert s. induction (N.lt_wf_0 m) as [m _ IH]; intros s.
  destruct (decide (m = 0)%N) as [->|Hm]; [by rewrite !pretty_N_go_0|].
  assert (m `div` 10 < m)%N as Hlt by (apply N.div_lt; lia).
  rewrite !(pretty_N_go_step m) by lia.
  rewrite (IH _ Hlt (String _ s)), (IH _ Hlt (String _ "")).
  by rewrite sapp_assoc.
Qed.

Lemma pretty_N_go_digits (m : N) :
  digits (pretty_N_go m "") ∧ int_from 0 (pretty_N_go m "") = Z.of_N m.
Proof.
  induction (N.lt_wf_0 m) as [m _ IH].
  destruct (decide (m = 0)%N) as [->|Hm]; [done|].
  rewrite pretty_N_go_step, pretty_N_go_app by lia.
  destruct (IH (m `div` 10)%N) as [Hd Hv]; [apply N.div_lt; lia|].
  destruct (pretty_N_char_digit (m `mod` 10)) as [Hc Hc']; [by apply N.mod_lt|].
  split.
  - unfold digits in *. rewrite str_all_app, Hd. cbn. by rewrite Hc.
  - rewrite int_from_app, Hv. cbn [int_from]. rewrite Hc'.
    rewrite (N.div_mod m 10) at 3 by done. lia.
Qed.

Lemma pretty_N_go_nonempty (m : N) : (0 < m)%N → pretty_N_go m "" ≠ "".
Proof.
  intros H. rewrite pretty_N_go_step, pretty_N_go_app by done.
  intros [_ E]%sapp_eq_nil. done.
Qed.

(** [str(n)] for a natural number [n] is a non-empty run of digits that
    [int] reads back as [n]. *)
Lemma pretty_digits (n : Z) :
  (0 ≤ n)%Z → digits (pretty n) ∧ pretty n ≠ "" ∧ int_of_digits (pretty n) = n.
Proof.
  intros H. destruct n as [|p|p]; [done| |lia].
  change (pretty (Z.pos p)) with (pretty_N_go (N.pos p) "").
  destruct (pretty_N_go_digits (N.pos p)) as [Hd Hv].
  split_and!; [done | by apply pretty_N_go_nonempty | done].
Qed.

(** ** Matching *)

Lemma strip_prefix_Some (p s r : string) : strip_prefix p s = Some r ↔ s = p +:+ r.
Proof.
  revert s. induction p as [|a p IH]; intros s; cbn [strip_prefix].
  - rewrite sapp_nil_l. split; congruence.
  - destruct s as [|b s]; [by rewrite sapp_cons|]. rewrite sapp_cons.
    destruct (Ascii.eqb_spec a b) as [->|Hne].
    + rewrite IH. split; congruence.
    + split; [done | congruence].
Qed.

Lemma strip_prefix_app (p r : string) : strip_prefix p (p +:+ r) = Some r.
Proof. by apply strip_prefix_Some. Qed.

Lemma span_digits_spec (s : string) :
  s = (span_digits s).1 +:+ (span_digits s).2 ∧
  digits (span_digits s).1 ∧ no_digit_ahead (span_digits s).2.
Proof.
  induction s as [|c s (IH1 & IH2 & IH3)]; [done|]. cbn [span_digits].
  destruct (is_digit c) eqn:Hc; [|done].
  destruct (span_digits s) as [ds rest]. cbn in *.
  split_and!; [by rewrite sapp_cons, <- IH1 | | done].
  unfold digits in *. cbn. by rewrite Hc.
Qed.

Lemma span_digits_app (ds rest : string) :
  digits ds → no_digit_ahead rest → span_digits (ds +:+ rest) = (ds, rest).
Proof.
  unfold digits. intros Hd Hr. induction ds as [|c ds IH].
  - rewrite sapp_nil_l. destruct rest as [|c rest]; [done|]. cbn in *. by rewrite Hr.
  - cbn in Hd. apply andb_true_iff in Hd as [Hc Hd].
    rewrite sapp_cons. cbn [span_digits]. by rewrite Hc, IH.
Qed.

Lemma match_route_lit (l : string) (route : list Segment) (rest : string) :
  match_route (Lit l :: route) (l +:+ rest) = match_route route rest.
Proof. cbn [match_route]. by rewrite strip_prefix_app. Qed.

Lemma match_route_int (name ds rest : string) (route : list Segment) :
  digits ds → ds ≠ "" → no_digit_ahead rest →
  match_route (IntParam name :: route) (ds +:+ rest) =
  '(kw, rest') ← match_route route rest; Some ((name, int_of_digits ds) :: kw, rest').
Proof.
  intros Hd Hne Hr. cbn [match_route]. rewrite span_digits_app by done.
  by destruct ds.
Qed.

(** What a route of the tables matches. *)
Lemma match_route_single (l path : string) (kw : kwargs) (rest : string) :
  match_route [Lit l] path = Some (kw, rest) ↔ path = l +:+ rest ∧ kw = [].
Proof.
  cbn [match_route]. destruct (strip_prefix l path) as [r|] eqn:E; cbn.
  - apply strip_prefix_Some in E as ->. split.
    + by intros [= <- <-].
    + intros [E ->]. apply strip_prefix_Some in E.
      rewrite strip_prefix_app in E. by simplify_eq.
  - split; [done|]. intros [-> _]. by rewrite strip_prefix_app in E.
Qed.

Lemma match_route_analyse (path : string) (kw : kwargs) :
  match_route [Lit "analyse/"; IntParam "conversation_id"; Lit "/"] path = Some (kw, "") ↔
  ∃ ds, path = "analyse/" +:+ ds +:+ "/" ∧ ds ≠ "" ∧ digits ds ∧
    kw = [("conversation_id", int_of_digits ds)].
Proof.
  split.
  - cbn [match_route]. destruct (strip_prefix "analyse/" path) as [r|] eqn:E; [|done].
    apply strip_prefix_Some in E as ->. cbn [mbind option_bind].
    destruct (span_digits_spec r) as (Hr & Hd & _).
    destruct (span_digits r) as [ds rest]. cbn in Hr, Hd.
    destruct ds as [|c ds]; [intros; discriminate|].
    destruct (strip_prefix "/" rest) as [r'|] eqn:E'; [|intros; discriminate].
    apply strip_prefix_Some in E' as ->. cbn. intros [= <- ->].
    exists (String c ds). by rewrite Hr.
  - intros (ds & -> & Hne & Hd & ->).
    by rewrite match_route_lit, match_route_int.
Qed.

(** ** Resolution *)

(** Under [api/] the patterns of the application decide. *)
Lemma resolve_api (rest : string) :
  resolve ("/api/" +:+ rest) = resolve_in conversations_urlpatterns rest.
Proof.
  change (resolve ("/api/" +:+ rest)) with (resolve_from urlpatterns ("api/" +:+ rest)).
  unfold urlpatterns. cbn [resolve_from].
  change (match_route [Lit "admin/"] ("api/" +:+ rest)) with (@None (kwargs * string)).
  cbn [resolve_from]. rewrite match_route_lit. cbn [match_route app].
  by destruct (resolve_in conversations_urlpatterns rest) as [[v kw]|].
Qed.

(** A path that resolves to a view of the application is under [api/]. *)
Lemma resolve_application (path_info : string) (v : View) (kw : kwargs) :
  resolve path_info = Some (v, kw) → v ∉ [AdminSite; SwaggerUI; RedocUI] →
  ∃ rest, path_info = "/api/" +:+ rest ∧
    resolve_in conversations_urlpatterns rest = Some (v, kw).
Proof.
  unfold resolve. destruct path_info as [|c path]; [done|].
  destruct (Ascii.eqb_spec c "/") as [->|Hc];
    [|by destruct c as [[] [] [] [] [] [] [] []]].
  unfold urlpatterns. cbn [resolve_from]. intros H Hv.
  destruct (match_route [Lit "admin/"] path) as [[kw1 r1]|];
    [injection H as <- <-; set_solver|].
  destruct (match_route [Lit "api/"] path) as [[kw2 r2]|] eqn:E2.
  - apply match_route_single in E2 as [-> ->].
    destruct (resolve_in conversations_urlpatterns r2) as [[v' kw']|] eqn:E.
    + injection H as <- <-. by exists r2.
    + discriminate H.
  - destruct (match_route [Lit "swagger/"] path) as [[kw3 [|??]]|];
      [injection H as <- <-; set_solver|..];
      (destruct (match_route [Lit "redoc/"] path) as [[kw4 [|??]]|];
        [injection H as <- <-; set_solver|done..]).
Qed.

(** The paths of the application, view by view. *)
Lemma resolve_in_cases (rest : string) (v : View) (kw : kwargs) :
  resolve_in conversations_urlpatterns rest = Some (v, kw) ↔
  (rest = "conversations/" ∧ v = UploadConversationView ∧ kw = []) ∨
  (∃ ds, rest = "analyse/" +:+ ds +:+ "/" ∧ ds ≠ "" ∧ digits ds ∧
     v = AnalyseConversationView ∧ kw = [("conversation_id", int_of_digits ds)]) ∨
  (rest = "reports/" ∧ v = ConversationAnalysisListView ∧ kw = []).
Proof.
  split.
  - unfold conversations_urlpatterns. cbn [resolve_in].
    destruct (match_route [Lit "conversations/"] rest) as [[kw1 [|??]]|] eqn:E1.
    { apply match_route_single in E1 as [-> ->]. intros [= <- <-]. by left. }
    all: destruct (match_route [Lit "analyse/"; _; _] rest) as [[kw2 [|??]]|] eqn:E2;
      try (apply match_route_analyse in E2 as (ds & -> & ? & ? & ->);
           intros [= <- <-]; right; left; by exists ds).
    all: destruct (match_route [Lit "reports/"] rest) as [[kw3 [|??]]|] eqn:E3; try done;
      apply match_route_single in E3 as [-> ->]; intros [= <- <-]; by right; right.
  - intros [(-> & -> & ->) | [(ds & -> & Hne & Hd & -> & ->) | (-> & -> & ->)]];
      [done | | done].
    unfold conversations_urlpatterns. cbn [resolve_in].
    change (match_route [Lit "conversations/"] ("analyse/" +:+ ds +:+ "/"))
      with (@None (kwargs * string)).
    rewrite (proj2 (match_route_analyse _ [("conversation_id", int_of_digits ds)]));
      [done | by exists ds].
Qed.

(** The paths of the project that reach a view of the application. *)
Lemma resolve_cases (path_info : string) (v : View) (kw : kwargs) :
  v ∉ [AdminSite; SwaggerUI; RedocUI] →
  resolve path_info = Some (v, kw) ↔
  (path_info = "/api/conversations/" ∧ v = UploadConversationView ∧ kw = []) ∨
  (∃ ds, path_info = "/api/analyse/" +:+ ds +:+ "/" ∧ ds ≠ "" ∧ digits ds ∧
     v = AnalyseConversationView ∧ kw = [("conversation_id", int_of_digits ds)]) ∨
  (path_info = "/api/reports/" ∧ v = ConversationAnalysisListView ∧ kw = []).
Proof.
  intros Hv. split.
  - intros (rest & -> & H)%resolve_application; [|done].
    apply resolve_in_cases in H
      as [(-> & -> & ->) | [(ds & -> & ? & ? & -> & ->) | (-> & -> & ->)]];
      [by left | right; left; by exists ds | by right; right].
  - intros [(-> & -> & ->) | [(ds & -> & ? & ? & -> & ->) | (-> & -> & ->)]];
      [done | | done].
    change ("/api/analyse/" +:+ ds +:+ "/") with ("/api/" +:+ "analyse/" +:+ ds +:+ "/").
    rewrite resolve_api. apply resolve_in_cases. right; left. by exists ds.
Qed.

Lemma resolve_reverse (n : Z) :
  (0 ≤ n)%Z →
  resolve (reverse_analyse n) = Some (AnalyseConversationView, [("conversation_id", n)]).
Proof.
  intros Hn. destruct (pretty_digits n Hn) as (Hd & Hne & Hv).
  change (reverse_analyse n) with ("/api/" +:+ "analyse/" +:+ pretty n +:+ "/").
  rewrite resolve_api. apply resolve_in_cases. right; left.
  exists (pretty n). by rewrite Hv.
Qed.

(** The names of the project: the two documentation views. *)
Lemma reverse_cases (viewname path : string) :
  reverse viewname = Some path ↔
  (viewname = "swagger-ui" ∧ path = "/swagger/") ∨
  (viewname = "redoc-ui" ∧ path = "/redoc/").
Proof.
  unfold reverse, urlpatterns. rewrite !filter_cons, filter_nil. cbn [snd].
  repeat case_decide; simplify_eq; cbn; split; try done;
    first [intros [= <-]; first [by left | by right] | intros [[] | []]; by simplify_eq].
Qed.

(** The keyword arguments a view is called with. *)
Lemma resolve_kwargs (path_info : string) (v : View) (kw : kwargs) :
  resolve path_info = Some (v, kw) →
  match v with
  | UploadConversationView | ConversationAnalysisListView => kw = []
  | AnalyseConversationView => ∃ n, kw = [("conversation_id", n)]
  | _ => True
  end.
Proof.
  intros H. destruct v; try done;
    (apply resolve_cases in H
       as [(_ & ? & ->) | [(ds & _ & _ & _ & ? & ->) | (_ & ? & ->)]];
     [done || by eexists.. | set_solver]).
Qed.

(** ** Serving a request *)

Section serving.
Context `{W : WordNet} `{T : TextBlob} `{C : Clock}.

(** A request does to the store what one call does. *)
Lemma serve_after (request : HttpRequest) (s : Store) :
  ∃ call, (serve request s).2 = after call s.
Proof.
  unfold serve. destruct (resolve (path_info request)) as [[v kw]|];
    [|by exists GetReports].
  unfold dispatch.
  destruct v, (method request); try (by exists GetReports).
  - exists (PostConversations (request_data request)). cbn [after]. rewrite bindM_run.
    by destruct (UploadConversationView_post (request_data request) s) as [[e|r] s'].
  - destruct (list_to_map kw !! "conversation_id") as [conversation_id|];
      [|by exists GetReports].
    exists (PostAnalyse conversation_id). cbn [after]. rewrite bindM_run.
    by destruct (AnalyseConversationView_post conversation_id s) as [[e|r] s'].
Qed.

Lemma serve_reachable (request : HttpRequest) (t0 : Z) (s : Store) :
  reachable t0 s → reachable t0 (serve request s).2.
Proof.
  intros H. destruct (serve_after request s) as [call ->]. by apply reachable_step.
Qed.

(** The answers of the views. *)
Lemma upload_outcome (data : UploadData) (s : Store) :
  match (UploadConversationView_post data s).1 with
  | inr r => status r ∈ [201; 400]%Z
  | inl e =>
      ∃ v, is_valid data = Some v ∧ ¬ ∃ ps, Forall2 well_formed (v_messages v) ps
  end.
Proof.
  destruct (is_valid data) as [v|] eqn:E.
  - rewrite (UploadConversationView_post_run _ v) by done. cbv zeta.
    destruct (mapM (M := M) _ (v_messages v) _) as [[e|rows] s'] eqn:Hl; [|set_solver].
    exists v. split; [done|]. intros [ps Hps].
    destruct (upload_loop_ok (conversation_row (upload_title v) s) _ ps
      (add_conversation (upload_title v) s) Hps) as [rows Hrows].
    by rewrite Hrows in Hl.
  - rewrite UploadConversationView_post_invalid by done. set_solver.
Qed.

Lemma analyse_outcome {WT : WordNetTotal W} {TL : TextBlobLawful T}
    (conversation_id : Z) (s : Store) :
  ∃ r, (AnalyseConversationView_post conversation_id s).1 = ok r ∧
    status r ∈ [201; 400; 404]%Z.
Proof.
  rewrite AnalyseConversationView_post_run.
  destruct (Conversation_get conversation_id s) as [c|]; [|eexists; split; [done|set_solver]].
  destruct (has_analysis c s); [eexists; split; [done|set_solver]|].
  destruct (analyze_conversations_returns (messages_all c s)) as (r & -> & _).
  eexists. split; [done|set_solver].
Qed.

End serving.

(** ** Main results *)

(** C27: The paths that reach the views of the application are
    [/api/conversations/], [/api/reports/] and [/api/analyse/<digits>/]
    with at least one digit, the key being the number the digits denote.
    Printing the path of the analysis of a conversation and resolving it
    gives the key back; leading zeros are accepted, a sign or a missing
    final slash is not.  The names that [reverse] knows are those of the
    two documentation views, and the path of a name resolves to its
    view; the routes of the application have no name. *)
Theorem resolve_spec :
  (∀ path_info v kw, v ∉ [AdminSite; SwaggerUI; RedocUI] →
     resolve path_info = Some (v, kw) ↔
     (path_info = "/api/conversations/" ∧ v = UploadConversationView ∧ kw = []) ∨
     (∃ ds, path_info = "/api/analyse/" +:+ ds +:+ "/" ∧ ds ≠ "" ∧
        str_all is_digit ds = true ∧
        v = AnalyseConversationView ∧ kw = [("conversation_id", int_of_digits ds)]) ∨
     (path_info = "/api/reports/" ∧ v = ConversationAnalysisListView ∧ kw = [])) ∧
  (∀ n, (0 ≤ n)%Z →
     resolve (reverse_analyse n) = Some (AnalyseConversationView, [("conversation_id", n)])) ∧
  resolve "/api/analyse/007/" = Some (AnalyseConversationView, [("conversation_id", 7%Z)]) ∧
  resolve "/api/analyse/-7/" = None ∧
  resolve "/api/reports" = None ∧
  (∀ viewname path, reverse viewname = Some path ↔
     (viewname = "swagger-ui" ∧ path = "/swagger/" ∧ resolve path = Some (SwaggerUI, [])) ∨
     (viewname = "redoc-ui" ∧ path = "/redoc/" ∧ resolve path = Some (RedocUI, []))).
Proof.
  split_and!; [apply resolve_cases | apply resolve_reverse | done..|].
  intros viewname path. rewrite reverse_cases.
  split; (intros [[-> ->] | [-> ->]] || intros [(-> & -> & _) | (-> & -> & _)]);
    first [by left | by right].
Qed.

Lemma resolve_spec_witness :
  resolve (reverse_analyse 42) = Some (AnalyseConversationView, [("conversation_id", 42%Z)]).
Proof. by apply (proj1 (proj2 resolve_spec)). Defined.

(** C26: Every request is answered and leaves a reachable store (so the
    invariant of the store holds across the HTTP layer).  The answer has
    one of the status codes 200, 201, 400, 404, 405 and 500, unless the
    path belongs to the admin site or to the documentation, which answer
    themselves and leave the store as it is.  With capabilities that
    return, the answer 500 is given only to an upload one of whose
    messages is not an object with a sender and a text. *)
Theorem serve_spec `{W : WordNet} `{T : TextBlob} `{C : Clock}
    {WT : WordNetTotal W} {TL : TextBlobLawful T} (request : HttpRequest) (t0 : Z)
    (s : Store) :
  reachable t0 s →
  reachable t0 (serve request s).2 ∧
  (∀ code, status_code (serve request s).1 = Some code →
     code ∈ [200; 201; 400; 404; 405; 500]%Z) ∧
  (status_code (serve request s).1 = None →
     (serve request s).2 = s ∧
     ∃ v kw, resolve (path_info request) = Some (v, kw) ∧
       v ∈ [AdminSite; SwaggerUI; RedocUI]) ∧
  (status_code (serve request s).1 = Some 500%Z →
     resolve (path_info request) = Some (UploadConversationView, []) ∧
     method request = POST ∧
     ∃ v, is_valid (request_data request) = Some v ∧
       ¬ ∃ ps, Forall2 well_formed (v_messages v) ps).
Proof.
  intros Hs. split; [by apply serve_reachable|]. unfold serve.
  destruct (resolve (path_info request)) as [[v kw]|] eqn:Hr;
    [|split_and!; [intros ? [= <-]; set_solver | done..]].
  pose proof (resolve_kwargs _ _ _ Hr) as Hkw. unfold dispatch.
  destruct v, (method request) eqn:Hm;
    try (split_and!; [intros ? [= <-]; set_solver | done..]);
    try (split_and!; [done | intros _; split; [done|]; eexists _, _; split; [done | set_solver]
                | done]).
  - subst kw. rewrite bindM_run.
    pose proof (upload_outcome (request_data request) s) as Ho.
    destruct (UploadConversationView_post (request_data request) s) as [[e|r] s'];
      cbn in *; [split_and!; [intros ? [= <-]; set_solver | done..]|].
    split_and!; [intros ? [= <-]; set_solver | done |].
    intros [= E]. rewrite E in Ho. set_solver.
  - destruct Hkw as [n ->]. rewrite list_to_map_cons, lookup_insert_eq, bindM_run.
    destruct (analyse_outcome n s) as (r & Hn & Hst).
    destruct (AnalyseConversationView_post n s) as [[e|r'] s']; cbn in *; [done|].
    injection Hn as ->. split_and!; [intros ? [= <-]; set_solver | done |].
    intros [= E]. rewrite E in Hst. set_solver.
Qed.

Lemma serve_spec_witness :
  reachable (W := toy_wordnet) (T := toy_textblob) (C := unit_clock) 0
    (serve (W := toy_wordnet) (T := toy_textblob) (C := unit_clock)
       {| method := POST; path_info := "/api/analyse/1/"; request_data := upload_resolved |}
       store_resolved).2 ∧
  status_code
    (serve (W := toy_wordnet) (T := toy_textblob) (C := unit_clock)
       {| method := POST; path_info := "/api/analyse/1/"; request_data := upload_resolved |}
       store_resolved).1 = Some 201%Z.
Proof.
  split; [|by vm_compute].
  apply (serve_spec (W := toy_wordnet) (T := toy_textblob) (C := unit_clock)
    {| method := POST; path_info := "/api/analyse/1/"; request_data := upload_resolved |}
    0 store_resolved).
  apply (reachable_step 0 (empty_store 0) (PostConversations upload_resolved)).
  apply reachable_init.
Defined.
