(* ===== verification/System.v ===== *)
(** * System: a request from its path to the specification

    The layers together.  [call_of] says which call of [Handlers.v] a
    request is, if it reaches a handler at all, and [observe] what the
    client of the specification sees of an answer.  [serve] of
    [Routes.v] does for a request what [handle] of [Abstract.v] does for
    its call: the service is an instance of the interface [Implements]
    of [Abstract.v], so the events of any sequence are answered as the
    specification answers them and leave a store that reads as its
    state.

    [session] is what a client does with a conversation: upload it, ask
    for its analysis, read the reports, ask for the analysis again.  The
    answers are computed on the specification and carried over to the
    requests: the layers crossed are the routing tables, the dispatch, the
    views with the serializer of the upload, the store and the analyzer.

    The workers of [Interleave.v] implement the specification too when
    their schedule is serial ([serial_refines]); what they do otherwise
    is the subject of that file. *)

From stdpp Require Import gmap sorting pretty.
From S2P Require Import Prelude PyStr Transcript Capabilities Lexical Pairs Sentiment Analyzer.
From S2P Require Import Validation Store Handlers Abstract Interleave Routes.

(** ** Reference definitions *)

(** The call a request amounts to. *)
Definition call_of (request : HttpRequest) : option Call :=
  match resolve (path_info request), method request with
  | Some (UploadConversationView, _), POST =>
      Some (PostConversations (request_data request))
  | Some (AnalyseConversationView, kw), POST =>
      PostAnalyse <$> list_to_map (M := gmap string Z) kw !! "conversation_id"
  | Some (ConversationAnalysisListView, _), (GET | HEAD) => Some GetReports
  | _, _ => None
  end.

(** What the client of the specification sees of the answer to a request:
    nothing when the answer comes from the framework or a library. *)
Definition observe (r : HttpResponse) : option (result Answer) :=
  match r with
  | FromView response => Some (ok (answer response))
  | ServerError e => Some (raise e)
  | NotFound | MethodNotAllowed | Metadata _ | FromLibrary _ => None
  end.

(** What happens to the service: a request arrives, or the scheduler runs
    the daily task. *)
Inductive Event : Type :=
  | Arrives (request : HttpRequest)
  | Scheduled.

Definition call_of_event (ev : Event) : option Call :=
  match ev with
  | Arrives request => call_of request
  | Scheduled => Some RunDailyAnalyse
  end.

(** What the service does on an event, with what can be observed of it. *)
Definition react `{W : WordNet} `{T : TextBlob} `{C : Clock} (ev : Event) (s : Store) :
    option (result Answer) * Store :=
  match ev with
  | Arrives request => let (r, s') := serve request s in (observe r, s')
  | Scheduled => let (r, s') := handle RunDailyAnalyse s in (Some r, s')
  end.

(** The specification on an event: the step of its call, and nothing for
    an event that is no call. *)
Definition spec_react `{W : WordNet} `{T : TextBlob} `{C : Clock} (ev : Event)
    (st : spec.State) : option (result Answer) * spec.State :=
  match call_of_event ev with
  | Some call => let (o, st') := spec.step call st in (Some o, st')
  | None => (None, st)
  end.

(** An empty body. *)
Definition no_data : UploadData := {| up_title := None; up_messages := None |}.

(** The requests of a client that uploads a conversation, has it analysed,
    reads the reports and asks for the analysis once more. *)
Definition session (upload : UploadData) (key : Z) : list HttpRequest :=
  [ {| method := POST; path_info := "/api/conversations/"; request_data := upload |};
    {| method := POST; path_info := reverse_analyse key; request_data := no_data |};
    {| method := GET; path_info := "/api/reports/"; request_data := no_data |};
    {| method := POST; path_info := reverse_analyse key; request_data := no_data |} ].

(** ** A request is a call *)

Section requests.
Context `{W : WordNet} `{T : TextBlob} `{C : Clock}.

Lemma serve_call (request : HttpRequest) (s : Store) :
  match call_of request with
  | Some call =>
      observe (serve request s).1 = Some (handle call s).1 ∧
      (serve request s).2 = (handle call s).2
  | None => observe (serve request s).1 = None ∧ (serve request s).2 = s
  end.
Proof.
  unfold call_of, serve.
  destruct (resolve (path_info request)) as [[v kw]|] eqn:Hr; [|done].
  pose proof (resolve_kwargs _ _ _ Hr) as Hkw. unfold dispatch.
  destruct v, (method request); try done; cbn [handle]; rewrite ?bindM_run.
  - by destruct (UploadConversationView_post _ s) as [[e|r] s'].
  - destruct Hkw as [n ->]. rewrite list_to_map_cons, lookup_insert_eq.
    cbn [fmap option_fmap option_map handle]. rewrite !bindM_run.
    by destruct (AnalyseConversationView_post n s) as [[e|r] s'].
Qed.

Lemma react_call (ev : Event) (s : Store) :
  react ev s =
  match call_of_event ev with
  | Some call => (Some (handle call s).1, (handle call s).2)
  | None => (None, s)
  end.
Proof.
  destruct ev as [request|]; cbn [react call_of_event].
  - pose proof (serve_call request s) as H.
    destruct (serve request s) as [r s'], (call_of request);
      cbn [fst snd] in H; by destruct H as [-> ->].
  - by destruct (handle RunDailyAnalyse s).
Qed.

(** The service is an instance of the interface of [Abstract.v]: on
    every event it does what the specification does. *)
#[export] Instance react_wf : Invariant react store_wf.
Proof.
  intros ev s Hs. rewrite react_call. destruct (call_of_event ev); [|done].
  by apply handle_wf.
Qed.

#[export] Instance react_implements : Implements react spec_react absr store_wf.
Proof.
  split; [apply _|]. intros ev s Hs. rewrite react_call. unfold spec_react.
  destruct (call_of_event ev) as [call|]; [|done]. by rewrite step_refines.
Qed.

(** Events that are all calls. *)
Lemma trace_spec_react (events : list Event) (calls : list Call) (st : spec.State) :
  Forall2 (λ ev call, call_of_event ev = Some call) events calls →
  trace spec_react events st =
  (Some <$> (trace spec.step calls st).1, (trace spec.step calls st).2).
Proof.
  intros H. revert st. induction H as [|ev call events calls E _ IH]; intros st; [done|].
  cbn [trace]. unfold spec_react at 1. rewrite E.
  destruct (spec.step call st) as [o st1]. rewrite IH.
  by destruct (trace spec.step calls st1).
Qed.

End requests.

(** ** Workers, one handler after the other *)

Lemma trace_handle_after `{W : WordNet} `{T : TextBlob} `{C : Clock}
    (calls : list Call) (s : Store) :
  (trace handle calls s).2 = fold_left (λ s call, after call s) calls s.
Proof.
  revert s. induction calls as [|call calls IH]; intros s; [done|].
  cbn [trace fold_left]. rewrite <- handle_after, <- IH.
  destruct (handle call s) as [o s1]. cbn [snd]. by destruct (trace handle calls s1).
Qed.

(** A pool of handlers under the serial schedule leaves a store that
    reads as the state the specification reaches by their calls. *)
Lemma serial_refines `{W : WordNet} `{T : TextBlob} `{C : Clock}
    (calls : list Call) (s : Store) :
  store_wf s →
  absr (run (serial 0 calls s) (thread_of <$> calls, s)).2 =
  (trace spec.step calls (absr s)).2.
Proof.
  intros Hs. rewrite (proj1 (trace_handle_refines calls s Hs)).
  change (thread_of <$> calls) with ([] ++ (thread_of <$> calls)).
  change 0%nat with (length (@nil Thread)).
  by rewrite serial_run, trace_handle_after.
Qed.

(** ** The session *)

Lemma call_of_analyse (key : Z) (data : UploadData) :
  (0 ≤ key)%Z →
  call_of {| method := POST; path_info := reverse_analyse key; request_data := data |} =
  Some (PostAnalyse key).
Proof.
  intros Hk. unfold call_of. cbn [path_info method]. rewrite resolve_reverse by done.
  by rewrite list_to_map_cons, lookup_insert_eq.
Qed.

Lemma call_of_session (upload : UploadData) (key : Z) :
  (0 ≤ key)%Z →
  Forall2 (λ ev call, call_of_event ev = Some call) (Arrives <$> session upload key)
    [PostConversations upload; PostAnalyse key; GetReports; PostAnalyse key].
Proof.
  intros Hk. unfold session. cbn [fmap list_fmap].
  repeat constructor; by apply call_of_analyse.
Qed.

Lemma session_answers `{W : WordNet} `{T : TextBlob} `{C : Clock}
    (upload : UploadData) (v : ValidatedData) (ps : list (string * string))
    (r : AnalysisReport) (s : Store) :
  store_wf s → is_valid upload = Some v → Forall2 well_formed (v_messages v) ps →
  analyze_conversations (stamp ps (tick (now s))) = ok r →
  (trace react (Arrives <$> session upload (len (conversations s) + 1)) s).1 =
  [Some (ok (Created (len (conversations s) + 1))); Some (ok (Analysed r));
   Some (ok (Listing (<[(len (conversations s) + 1)%Z := r]> (reports s))));
   Some (ok (Refused 400))].
Proof.
  intros Hs Hv Hps Hr.
  pose proof (trace_refines react spec_react absr store_wf
    (Arrives <$> session upload (len (conversations s) + 1)) s Hs) as H.
  apply (f_equal fst) in H. cbn [fst] in H. rewrite <- H.
  assert (0 ≤ len (conversations s) + 1)%Z as Hk by (unfold len; lia).
  rewrite (trace_spec_react _ _ _ (call_of_session upload _ Hk)).
  cbn [fst]. rewrite <- (size_transcripts s Hs).
  rewrite (spec_session upload v ps r (absr s)); [done| |done|by apply readable_well_formed|done].
  rewrite size_transcripts by done. by apply reports_fresh.
Qed.

(** ** Main results *)

(** C2: The service implements its specification.  From the empty store,
    whatever requests arrive and whenever the daily task runs, what the
    clients observe of each event is what the specification answers
    ([spec.step] of the call the event amounts to, exceptions included),
    and the store that is left reads as the state of the specification.
    A request that reaches no handler (no route, a method without
    handler, the documentation, OPTIONS) is no call: nothing is observed
    of it and it changes nothing. *)
Theorem system_refines `{W : WordNet} `{T : TextBlob} `{C : Clock} (t0 : Z)
    (events : list Event) :
  trace spec_react events (spec.init t0) =
  ((trace react events (empty_store t0)).1,
   absr (trace react events (empty_store t0)).2).
Proof.
  exact (trace_refines react spec_react absr store_wf events (empty_store t0)
    (store_wf_empty t0)).
Qed.

(** C15: A session, from the path to the report.  On a well-formed store,
    with capabilities that return, a client uploads messages that are
    objects with a sender and a text, asks for the analysis at the path
    of the key it was given, reads the reports and asks for the analysis
    again.  It is answered 201 with the next key, 201 with the report
    [analyze_conversations] gives for the uploaded messages stamped with
    consecutive readings of the clock, 200 with the reports there were
    and the new one under that key, and 400. *)
Theorem session_spec `{W : WordNet} `{T : TextBlob} `{C : Clock}
    {WT : WordNetTotal W} {TL : TextBlobLawful T}
    (upload : UploadData) (v : ValidatedData) (ps : list (string * string)) (s : Store) :
  store_wf s → is_valid upload = Some v → Forall2 well_formed (v_messages v) ps →
  ∃ r, analyze_conversations (stamp ps (tick (now s))) = ok r ∧
    (trace react (Arrives <$> session upload (len (conversations s) + 1)) s).1 =
    [Some (ok (Created (len (conversations s) + 1))); Some (ok (Analysed r));
     Some (ok (Listing (<[(len (conversations s) + 1)%Z := r]> (reports s))));
     Some (ok (Refused 400))].
Proof.
  intros Hs Hv Hps.
  destruct (analyze_conversations_returns (stamp ps (tick (now s)))) as (r & Hr & _).
  exists r. split; [done|]. by eapply session_answers.
Qed.

Lemma session_spec_witness :
  ∃ r, analyze_conversations (W := toy_wordnet) (T := toy_textblob)
         (stamp (C := unit_clock)
            [("user", "my app crashed");
             ("ai", "I'm sorry to hear that, let's see what's wrong");
             ("user", "thanks that fixed it")] 1) = ok r ∧
    (trace (react (W := toy_wordnet) (T := toy_textblob) (C := unit_clock))
      (Arrives <$> session upload_resolved 1) (empty_store 0)).1 =
    [Some (ok (Created 1)); Some (ok (Analysed r)); Some (ok (Listing {[ 1%Z := r ]}));
     Some (ok (Refused 400))].
Proof.
  exact (session_spec (W := toy_wordnet) (T := toy_textblob) (C := unit_clock)
    upload_resolved {| v_title := None; v_messages := default [] (up_messages upload_resolved) |}
    [("user", "my app crashed");
     ("ai", "I'm sorry to hear that, let's see what's wrong");
     ("user", "thanks that fixed it")] (empty_store 0) (store_wf_empty 0) eq_refl
    ltac:(repeat constructor)).
Defined.
